(* ===== verification/_CoqProject ===== *)
-Q . S2P
Prelude.v
CArray.v
Utils.v
SizeClass.v
Random.v
Logging.v
ContainerLL.v
Generator.v
Platform.v
KernelSpec.v
Run.v
Bin.v
Tagging.v
InternalAllocator.v
IntAllocTree.v
IntAllocProps.v
Chunk.v
ChunkTree.v
ChunkAlloc.v
ChunkRun.v
ChunkBuddy.v
ChunkSpec.v
ChunkProps.v
World.v
Arena.v
Sealloc.v
MallocApi.v
ArenaMeta.v
ArenaInv.v
ArenaOps.v
ArenaHuge.v
ArenaFree.v
ArenaBins.v
SeallocInv.v
SeallocLookup.v
SeallocFree.v
SeallocRealloc.v
HeapSpec.v
SeallocHeap.v
TaggedSealloc.v
Statistics.v
SeallocProps.v
OneTime.v
TaggedProps.v
