(* ===== verification/Prelude.v ===== *)
(** * sealloc: a verification of the security allocator

    sealloc (src/src and src/src/sealloc) replaces malloc, free, calloc and realloc of a
    Linux process.  Its protection comes from where regions are placed and from never
    placing two of them at the same address: sizes are rounded to 43 classes, the regions
    of a class are drawn in a pseudo-random order from randomly chosen runs, runs are cut
    out of chunks at random, and all metadata lives in mappings of its own.  The
    development translates this code into functions of [outcome] (below) and proves what
    a client of the allocator can rely on.

    ** How the code is modelled

    A C function is a function from the state it reads to an [outcome] of its result and
    the state it leaves.  [Fail] names the way the program stops: a failed assertion of a
    build with assertions ([c_assert]; the class [Build] is the switch), abort(), exit(1)
    by se_error, undefined behaviour (an access outside an array, a null or dangling
    pointer, a division by zero), with memory tagging a tag fault, or a loop that used up
    its bound.  So a theorem that
    ends in [Ok] includes that none of these happens.  Integers are in Z, with the wrap of
    their C type ([wrap], [u8], [u16], [u32], [u64]) where the code can leave it; a pointer
    is an address in Z, NULL is 0.  The heap structures are kept in one finite map per
    structure type, indexed by address, so that aliasing through the intrusive lists is
    that of the code.

    A loop is [while_loop step k]: at most 2^k steps, unary in k, so it evaluates.  The
    bounds are never a hypothesis: the theorems that say a function returns [Ok] show that
    its loops end inside them.  Lists of mappings, chunks and runs have distinct page or
    granule addresses below 2^47, hence k = 47; a walk through a buddy tree climbs at most
    its depth (4 to 7); platform_map_probe moves a page at a time through 64-bit addresses
    (52); number printers emit at most 20 digits (8); a format is shorter than 2^32
    (32).  The one loop of the code that may not end is the request for memory of
    arena_morecore: [Fail Diverged] after 2^47 requests stands for it, and
    [malloc_spins_without_memory] shows that it is reached.

    ** The parts, from the bottom up

    - Prelude (this file): outcomes, loops, machine integers, lists.  CArray: arrays of
      known length, and arrays of two-bit items packed in bytes.
    - Utils (utils.c, utils.h), SizeClass (size_class.c/h), Random (random.c), Logging
      (logging.c), Generator (generator.h, the tables literally): leaves of the system.
    - ContainerLL (container_ll.c/h): doubly linked lists, [ll_rep] against a list.
    - Platform (platform.c, platform_api.h): system calls over the interface [Kernel];
      KernelSpec: what is assumed of mmap, munmap, sbrk and /dev/urandom ([KernelLaws]), a
      kernel that satisfies it, and one without memory.
    - Run (run.c/h) and Bin (bin.c/h, and the parts of sealloc.c that work on one bin):
      regions of one size, issued once ([run_rep], [bin_rep]).
    - InternalAllocator, IntAllocTree, IntAllocProps (internal_allocator.c/h): the buddy
      allocator of the metadata, its block tree, its theorems.
    - Chunk (chunk.c/h, the code), ChunkTree (the abstract tree of nodes and free lists),
      ChunkAlloc, ChunkRun (allocation), ChunkBuddy (the node of an address), ChunkSpec
      (deallocation), ChunkProps (the theorems).
    - World (the state: kernel, generators, arena, stores of metadata, user memory), Arena
      (arena.c/h), Sealloc (sealloc.c), MallocApi (malloc_api.c): the code of the upper
      half.  ArenaMeta, ArenaInv, ArenaOps, ArenaHuge, ArenaFree, ArenaBins: the invariant
      of the arena, with a ghost state of blocks, chunks, runs and mappings, and that
      every operation keeps it.  SeallocInv, SeallocLookup, SeallocFree, SeallocRealloc: the
      same for the calls.
    - HeapSpec: the abstract specification, a finite map from addresses to lengths, as the
      interface [HeapAllocator] and the clients of it; SeallocHeap: malloc_api.c is an
      instance.  SeallocProps: the theorems about the allocator.  OneTime: the memory handed
      out over a trace of calls, on top of the record of issued regions in the ghost state.
    - Tagging (aarch64.h and the branches of run.c and platform.c for ARM memory tagging),
      TaggedSealloc (those of sealloc.c, and the tags of huge mappings), TaggedProps: the
      build with memory tagging.  The machine instructions are the interface [TagUnit] with
      the laws [TagLaws], the tags of new pages [TagPages] with [TagPagesLaws].
    - Statistics (the branches under STATISTICS of arena.c and malloc_api.c).

    A function keeps its C name; a loop body is [<function>_step]; a piece of a function
    that is reasoned about alone has a name and a comment of its own.

    ** The theorems

    - The whole allocator (SeallocProps): no client that gives back only what it holds,
      with sizes below 2^62 and no empty calloc or realloc ([call_ok]; the other sizes are
      among the last group), makes it fail, and its regions are disjoint (client_safe); malloc, calloc, free and
      realloc refine the operations on the abstract heap (malloc_fresh, calloc_zeroes,
      free_exact, realloc_moves); pointers that start no region are refused
      (invalid_pointer_aborts); along any calls of a client every structure has a
      metadata block of its own, apart from the others and from the regions
      (metadata_isolated); a request gets the bin of its size class (bin_of_request).  No
      byte is handed out a second time while it stays mapped, freed or not
      (OneTime: one_time_allocation).
    - Memory tagging: clients observe what they observe without it, the copies of the
      allocator do not fault, and every region, huge mappings included, has the tag of the
      pointer to it (tagged_client_refines); neighbouring regions in use differ in their
      tags (tagged_regions_isolated).
    - The components against their abstract states: runs, bins, chunks (which runs are
      handed out, returned and found), metadata blocks (the first free block that fits),
      lists, tables of generators, size classes.
    - Where the code does not do what it means to: calloc_overflow, realloc_zero_asserts,
      malloc_size_wraps, malloc_spins_without_memory, internal_alloc_oversized,
      vfse_log_repeats_prefix, run_validate_bitmap_bounds.
    - Statistics: the build logs one line per call and changes nothing else
      (stats_client_run).

    ** Assumed and not modelled

    Assumed are the laws of [KernelLaws] (mmap grants whole pages that were not mapped,
    below 2^47), of [TagLaws] (the manual of the instructions) and of [TagPagesLaws] (pages
    mapped with PROT_MTE start with the tag 0).  With tagging, the memset and memcpys of
    calloc and realloc are checked against the tags; the accesses of the allocator to its
    own metadata, whose pointers and pages have the tag 0, are not, and the tags that the
    pages of a chunk start with are not written down: every region of a run is tagged
    before it is accessed.  A new mapping holds
    zero bytes for the metadata; its contents are not assumed for user memory, since
    calloc clears them.  Threads are not modelled: the code has no locks.  Not modelled: the
    texts that the callers of se_debug and se_error pass (the macros are definitions of
    Logging; in the functions that use se_error the outcome is [ErrorExit], and se_debug has
    no effect on them), the DEBUG build (which only prints), the protection flags of
    mappings, the tests, the scripts (the tables they generate are modelled), and the build
    files. *)
From Stdlib Require Import ZArith Lia.
From stdpp Require Import base option numbers list gmap.

Declare Scope sealloc_scope.
Delimit Scope sealloc_scope with sealloc.

Open Scope Z_scope.

(** ** Outcomes

    Every C function that can fail returns an [outcome].  The error constructors
    are the ways in which the C program stops. *)
Inductive error : Type :=
  | UB             (* read or write outside an object, null dereference, division by zero *)
  | AssertFailed   (* assert(...) of a build with assertions *)
  | ErrorExit      (* se_error: message and exit(1) *)
  | Aborted        (* abort() *)
  | TagFault       (* an access whose pointer and memory have different tags, with memory tagging *)
  | Diverged.      (* the loop bound was used up *)

#[export] Instance error_eq_dec : EqDecision error.
Proof. solve_decision. Defined.

Inductive outcome (A : Type) : Type :=
  | Ok (a : A)
  | Fail (e : error).
Arguments Ok {A} a.
Arguments Fail {A} e.

Lemma Ok_inj {A} (a b : A) : Ok a = Ok b → a = b.
Proof. by intros [=]. Qed.

#[export] Instance outcome_ret : MRet outcome := λ A a, Ok a.
#[export] Instance outcome_bind : MBind outcome := λ A B f m,
  match m with Ok a => f a | Fail e => Fail e end.
#[export] Instance outcome_fmap : FMap outcome := λ A B f m,
  match m with Ok a => Ok (f a) | Fail e => Fail e end.

Lemma outcome_bind_Ok {A B} (m : outcome A) (f : A → outcome B) b :
  m ≫= f = Ok b ↔ ∃ a, m = Ok a ∧ f a = Ok b.
Proof.
  destruct m as [a|e]; simpl; split; [eauto|by intros (? & [= <-] & ?)|done|by intros (? & ? & _)].
Qed.

Lemma outcome_bind_assoc {A B C} (m : outcome A) (f : A → outcome B) (g : B → outcome C) :
  (m ≫= f) ≫= g = m ≫= (λ a, f a ≫= g).
Proof. by destruct m. Qed.

Lemma outcome_bind_ext {A B} (m : outcome A) (f g : A → outcome B) :
  (∀ a, f a = g a) → m ≫= f = m ≫= g.
Proof. intros H. destruct m; simpl; auto. Qed.

Lemma bind_Ok_l {A B} (m : outcome A) a (f : A → outcome B) : m = Ok a → m ≫= f = f a.
Proof. by intros ->. Qed.
Lemma bind_Fail_l {A B} (m : outcome A) e (f : A → outcome B) : m = Fail e → m ≫= f = Fail e.
Proof. by intros ->. Qed.

(** Rewrites the first statement of a sequence with its result, without looking for
    the statement in the rest of the sequence. *)
Ltac ok_rw H := rewrite (bind_Ok_l _ _ _ H); cbv beta match.

(** The build switch of the assert macro: NDEBUG is defined unless the build
    option Assert is on. *)
Class Build := { asserts_on : bool }.

Definition c_assert `{Build} (b : bool) : outcome unit :=
  if asserts_on && negb b then Fail AssertFailed else Ok tt.

Lemma c_assert_true `{Build} (b : bool) : b = true → c_assert b = Ok tt.
Proof. intros ->. unfold c_assert. by rewrite andb_false_r. Qed.

(** The build with assertions, for concrete runs. *)
Definition assert_build : Build := {| asserts_on := true |}.

(** The first statement is an assertion that holds. *)
Tactic Notation "ok_assert" "by" tactic3(tac) :=
  rewrite (bind_Ok_l (c_assert _) tt) by (apply c_assert_true; tac); cbv beta match.

(** Steps through a sequence of outcomes known to succeed. *)
Ltac ok_step :=
  match goal with
  | H : ?m ≫= _ = Ok _ |- _ =>
      let a := fresh "a" in let E := fresh "E" in let K := fresh "K" in
      apply outcome_bind_Ok in H as (a & E & K); simpl in K
  | H : Ok _ = Ok _ |- _ => injection H as H; try subst
  | H : Fail _ = Ok _ |- _ => discriminate H
  end.
Ltac ok_inv := repeat ok_step; simplify_eq/=.

(** ** Machine integers: a value of a w-bit unsigned type is its Z in [0, 2^w). *)
Definition wrap (w z : Z) : Z := z mod 2 ^ w.
Abbreviation u8 := (wrap 8).
Abbreviation u16 := (wrap 16).
Abbreviation u32 := (wrap 32).
Abbreviation u64 := (wrap 64).

Lemma wrap_small w z : 0 ≤ z < 2 ^ w → wrap w z = z.
Proof. apply Z.mod_small. Qed.

Lemma wrap_range w z : 0 ≤ w → 0 ≤ wrap w z < 2 ^ w.
Proof. intros. apply Z.mod_pos_bound. lia. Qed.

Lemma wrap_testbit w z i :
  0 ≤ w → 0 ≤ i → Z.testbit (wrap w z) i = (i <? w) && Z.testbit z i.
Proof.
  intros. unfold wrap. destruct (Z.ltb_spec i w); simpl.
  - by rewrite Z.mod_pow2_bits_low by lia.
  - by rewrite Z.mod_pow2_bits_high by lia.
Qed.

(** [a % b] and [a / b] on unsigned operands: a zero divisor is undefined. *)
Definition umod (a b : Z) : outcome Z := if b =? 0 then Fail UB else Ok (a mod b).
Definition udiv (a b : Z) : outcome Z := if b =? 0 then Fail UB else Ok (a / b).

Lemma umod_ok a b : 0 < b → umod a b = Ok (a mod b).
Proof. intros. unfold umod. by replace (b =? 0) with false by lia. Qed.
Lemma udiv_ok a b : 0 < b → udiv a b = Ok (a / b).
Proof. intros. unfold udiv. by replace (b =? 0) with false by lia. Qed.

(** lia does not see through [wrap] at the concrete widths. *)
Ltac wrap_lia := rewrite ?wrap_small by lia; try lia.

(** ** Lists *)
Lemma filter_all {A} (P : A → Prop) `{∀ x, Decision (P x)} (l : list A) :
  Forall P l → filter P l = l.
Proof. induction 1 as [|x l Hx _ IH]; [done|]. by rewrite filter_cons_True, IH. Qed.

Lemma filter_none {A} (P : A → Prop) `{∀ x, Decision (P x)} (l : list A) :
  (∀ x, x ∈ l → ¬ P x) → filter P l = [].
Proof.
  induction l as [|x l IH]; intros Hn; [done|].
  rewrite filter_cons_False by (apply Hn; left). apply IH. intros y Hy. apply Hn. by right.
Qed.

Lemma filter_ext_elem {A} (P Q : A → Prop) `{∀ x, Decision (P x)} `{∀ x, Decision (Q x)}
    (l : list A) :
  (∀ x, x ∈ l → P x ↔ Q x) → filter P l = filter Q l.
Proof.
  induction l as [|x l IH]; intros Heq; [done|].
  assert (filter P l = filter Q l) as IH' by (apply IH; intros y Hy; apply Heq; by right).
  destruct (decide (P x)) as [HP|HP].
  - rewrite !filter_cons_True by (done || (apply Heq; [left|done])). by rewrite IH'.
  - rewrite !filter_cons_False by (done || (rewrite <- Heq; [done|left])). done.
Qed.

(** Sums of integers. *)
Definition sumZ (l : list Z) : Z := foldr Z.add 0 l.

Lemma sumZ_cons x l : sumZ (x :: l) = x + sumZ l.
Proof. done. Qed.

Lemma sumZ_app l1 l2 : sumZ (l1 ++ l2) = sumZ l1 + sumZ l2.
Proof. induction l1 as [|x l1 IH]; [done|]. cbn [app]. rewrite !sumZ_cons. lia. Qed.

Lemma sumZ_pos l : Forall (λ z, 0 < z) l → Z.of_nat (length l) ≤ sumZ l.
Proof. induction 1 as [|x l Hx _ IH]; [done|]. rewrite sumZ_cons. cbn [length]. lia. Qed.

#[export] Instance sumZ_proper : Proper ((≡ₚ) ==> (=)) sumZ.
Proof. induction 1; rewrite ?sumZ_cons in *; lia. Qed.

(** Splits a bounded integer into its values. *)
Ltac zcases x :=
  match goal with
  | H : ?lo ≤ x ≤ ?hi |- _ =>
      destruct (decide (x = lo)) as [->|?];
      [clear H|first [exfalso; lia|let H' := fresh in
        assert (lo + 1 ≤ x ≤ hi) as H' by lia; clear H; simpl in H'; zcases x]]
  end.

(** Membership in a concrete list, by evaluation. *)
Ltac mem_compute := eapply bool_decide_eq_true_1; reflexivity.

(** ** Loops

    [step s] is one iteration of a loop body: [inl] continues with a new loop
    state, [inr] leaves the loop.  [pow2_loop d] runs at most [2 ^ d] iterations
    and does not build the number [2 ^ d]. *)
Section loops.
Context {St R : Type} (step : St → outcome (St + R)).

Fixpoint iterate (n : nat) (s : St) : outcome (St + R) :=
  match n with
  | O => Ok (inl s)
  | S n => r ← step s; match r with inl s' => iterate n s' | inr x => Ok (inr x) end
  end.

Fixpoint pow2_loop (d : nat) (s : St) : outcome (St + R) :=
  match d with
  | O => step s
  | S d =>
      r ← pow2_loop d s; match r with inl s' => pow2_loop d s' | inr x => Ok (inr x) end
  end.

Definition while_loop (d : nat) (s : St) : outcome R :=
  r ← pow2_loop d s; match r with inl _ => Fail Diverged | inr x => Ok x end.

Lemma iterate_add n m s :
  iterate (n + m) s =
  r ← iterate n s; match r with inl s' => iterate m s' | inr x => Ok (inr x) end.
Proof.
  revert s. induction n as [|n IH]; intros s; [done|]. simpl.
  destruct (step s) as [[s'|x]|e]; simpl; [apply IH|done|done].
Qed.

Lemma iterate_next n s s' : step s = Ok (inl s') → iterate (S n) s = iterate n s'.
Proof. intros H. simpl. by rewrite H. Qed.

Lemma iterate_stop n s x : step s = Ok (inr x) → iterate (S n) s = Ok (inr x).
Proof. intros H. simpl. by rewrite H. Qed.

Lemma iterate_1 s : iterate 1 s = step s.
Proof. simpl. destruct (step s) as [[]|]; done. Qed.

Lemma pow2_loop_iterate d s : pow2_loop d s = iterate (2 ^ d) s.
Proof.
  revert s. induction d as [|d IH]; intros s.
  - change (2 ^ 0)%nat with 1%nat. by rewrite iterate_1.
  - simpl pow2_loop. replace (2 ^ S d)%nat with (2 ^ d + 2 ^ d)%nat by (simpl; lia).
    rewrite iterate_add, IH. apply outcome_bind_ext. intros [s'|x]; auto.
Qed.

Lemma iterate_done n m s x :
  iterate n s = Ok (inr x) → (n ≤ m)%nat → iterate m s = Ok (inr x).
Proof.
  intros H Hle. replace m with (n + (m - n))%nat by lia. by rewrite iterate_add, H.
Qed.

Lemma iterate_fail n m s e :
  iterate n s = Fail e → (n ≤ m)%nat → iterate m s = Fail e.
Proof.
  intros H Hle. replace m with (n + (m - n))%nat by lia. by rewrite iterate_add, H.
Qed.

(** [n] iterations that leave the loop are what the bounded loop computes. *)
Lemma while_loop_done d n s x :
  iterate n s = Ok (inr x) → (n ≤ 2 ^ d)%nat → while_loop d s = Ok x.
Proof.
  intros H Hle. unfold while_loop.
  by rewrite pow2_loop_iterate, (iterate_done n (2 ^ d) s x).
Qed.

Lemma while_loop_fail d n s e :
  iterate n s = Fail e → (n ≤ 2 ^ d)%nat → while_loop d s = Fail e.
Proof.
  intros H Hle. unfold while_loop.
  by rewrite pow2_loop_iterate, (iterate_fail n (2 ^ d) s e).
Qed.

Lemma while_loop_outcome d n s (m : outcome R) :
  iterate n s = (inr <$> m) → (n ≤ 2 ^ d)%nat → while_loop d s = m.
Proof.
  destruct m as [x|e]; intros H Hle; [by eapply while_loop_done|by eapply while_loop_fail].
Qed.

(** A loop whose body keeps [I] and leaves with [Q], when no bound on its iterations
    is known. *)
Lemma while_loop_invariant (I : St → Prop) (Q : R → Prop) d s :
  (∀ s, I s → ∃ r, step s = Ok r ∧ match r with inl s' => I s' | inr x => Q x end) →
  I s → while_loop d s = Fail Diverged ∨ ∃ x, while_loop d s = Ok x ∧ Q x.
Proof.
  intros Hstep HI. unfold while_loop. rewrite pow2_loop_iterate. generalize (2 ^ d)%nat as n.
  intros n. revert s HI. induction n as [|n IH]; intros s HI; [by left|].
  destruct (Hstep s HI) as ([s'|x] & Hs & Hr); cbn [iterate]; rewrite Hs; cbn [mbind outcome_bind].
  - by apply IH.
  - right. by exists x.
Qed.

(** A loop whose body never leaves. *)
Lemma while_loop_never (I : St → Prop) d s :
  (∀ s, I s → ∃ s', step s = Ok (inl s') ∧ I s') → I s → while_loop d s = Fail Diverged.
Proof.
  intros Hstep HI. destruct (while_loop_invariant I (λ _, False) d s) as [|(x & _ & [])]; [|done..].
  intros s1 H1. destruct (Hstep s1 H1) as (s2 & Hs & H2). by exists (inl s2).
Qed.
End loops.

(** ** Ranges of addresses *)
Definition range (p n x : Z) : Prop := p ≤ x < p + n.
Definition apart (x y : Z * Z) : Prop := x.1 + x.2 ≤ y.1 ∨ y.1 + y.2 ≤ x.1.

Lemma apart_sym x y : apart x y → apart y x.
Proof. unfold apart. lia. Qed.

(** At most [N / m] addresses below [N] are at least [m] apart. *)
Lemma spaced_count (l : list Z) (m N : Z) :
  0 < m → 0 ≤ N → (∀ x, x ∈ l → 0 ≤ x ∧ x + m ≤ N) → NoDup l →
  (∀ x y, x ∈ l → y ∈ l → x ≠ y → x + m ≤ y ∨ y + m ≤ x) →
  Z.of_nat (length l) * m ≤ N.
Proof.
  intros Hm HN Hin Hnd Hsp.
  assert (NoDup ((λ x, x / m) <$> l)) as Hnd'.
  { apply NoDup_fmap_2_strong; [|done]. intros x y Hx Hy Heq.
    destruct (decide (x = y)) as [|Hne]; [done|exfalso].
    pose proof (Z.div_mod x m ltac:(lia)). pose proof (Z.mod_pos_bound x m ltac:(lia)).
    pose proof (Z.div_mod y m ltac:(lia)). pose proof (Z.mod_pos_bound y m ltac:(lia)).
    destruct (Hsp x y Hx Hy Hne); nia. }
  assert ((λ x, x / m) <$> l ⊆+ seqZ 0 (N / m)) as Hsub.
  { apply NoDup_submseteq; [done|]. intros q (x & -> & Hx)%list_elem_of_fmap.
    apply elem_of_seqZ. destruct (Hin x Hx). split; [by apply Z.div_pos|].
    apply Z.div_lt_upper_bound; [done|].
    pose proof (Z.div_mod N m ltac:(lia)). pose proof (Z.mod_pos_bound N m ltac:(lia)).
    assert (x / m + 1 ≤ N / m); [|pose proof (Z.div_mod x m ltac:(lia)); pose proof (Z.mod_pos_bound x m ltac:(lia)); nia].
    replace (x / m + 1) with ((x + m) / m) by (by rewrite <- (Z.mul_1_l m) at 1; rewrite Z.div_add by lia).
    apply Z.div_le_mono; lia. }
  apply submseteq_length in Hsub. rewrite length_fmap, length_seqZ in Hsub.
  assert (Z.of_nat (length l) ≤ N / m) by (pose proof (Z.div_pos N m ltac:(lia) ltac:(lia)); lia).
  pose proof (Z.mul_div_le N m ltac:(lia)). nia.
Qed.
