(* ===== verification/CArray.v ===== *)
(** * CArray: C arrays of known length, and arrays of packed two-bit items

    [arr A] is a C array: a length, and cells read and written by index.  A
    read or write outside [0, alen) is [Fail UB].  The representation is sparse
    (a default cell and the cells that differ), so that the large tables of the
    allocator evaluate quickly.  The three copies of the packed two-bit accessors
    of run.c, chunk.c and internal_allocator.c share [packed_get] and
    [packed_set], and the typeclass [PackedEnum] states how an enum is coded in
    the two bits. *)
From Stdlib Require Import ZArith Lia.
From stdpp Require Import base option numbers list gmap.
From S2P Require Import Prelude.

Record arr (A : Type) : Type := Arr { alen : Z; adef : A; amap : gmap Z A }.
Arguments Arr {A} _ _ _.
Arguments alen {A} _.
Arguments adef {A} _.
Arguments amap {A} _.

(** An array of [n] cells that all hold [v] (memset, or a fresh zero mapping). *)
Definition amake {A} (n : Z) (v : A) : arr A := Arr n v ∅.

Definition acell {A} (a : arr A) (i : Z) : A := default (adef a) (amap a !! i).
Definition aupd {A} (a : arr A) (i : Z) (v : A) : arr A :=
  Arr (alen a) (adef a) (<[i := v]> (amap a)).
Definition ainb {A} (a : arr A) (i : Z) : bool := (0 <=? i) && (i <? alen a).

Definition aread {A} (a : arr A) (i : Z) : outcome A :=
  if ainb a i then Ok (acell a i) else Fail UB.
Definition awrite {A} (a : arr A) (i : Z) (v : A) : outcome (arr A) :=
  if ainb a i then Ok (aupd a i v) else Fail UB.

(** memset of [n] cells from index [i]. *)
Fixpoint afill_upd {A} (a : arr A) (i : Z) (n : nat) (v : A) : arr A :=
  match n with
  | O => a
  | S n => afill_upd (aupd a i v) (i + 1) n v
  end.
Definition afill {A} (a : arr A) (i : Z) (n : Z) (v : A) : outcome (arr A) :=
  if (0 <=? i) && (i + n <=? alen a) then Ok (afill_upd a i (Z.to_nat n) v)
  else Fail UB.

(** Two arrays are equivalent when no read tells them apart. *)
#[export] Instance arr_equiv {A} : Equiv (arr A) :=
  λ a b, alen a = alen b ∧ ∀ i, acell a i = acell b i.

#[export] Instance arr_equivalence {A} : Equivalence (≡@{arr A}).
Proof.
  split.
  - done.
  - intros a b [? H]. by split.
  - intros a b c [? H1] [? H2]. split; [congruence|]. intros i. by rewrite H1, H2.
Qed.

#[export] Instance acell_proper {A} : Proper ((≡) ==> (=) ==> (=)) (@acell A).
Proof. intros a b [_ H] i ? <-. apply H. Qed.

Section arrays.
Context {A : Type}.
Implicit Types (a : arr A) (i j : Z) (v : A).

Lemma ainb_true a i : 0 ≤ i < alen a → ainb a i = true.
Proof. unfold ainb. lia. Qed.

Lemma ainb_false a i : ¬ (0 ≤ i < alen a) → ainb a i = false.
Proof. unfold ainb. lia. Qed.

Lemma aread_in a i : 0 ≤ i < alen a → aread a i = Ok (acell a i).
Proof. intros. unfold aread. by rewrite ainb_true. Qed.

Lemma aread_out a i : ¬ (0 ≤ i < alen a) → aread a i = Fail UB.
Proof. intros. unfold aread. by rewrite ainb_false. Qed.

Lemma awrite_in a i v : 0 ≤ i < alen a → awrite a i v = Ok (aupd a i v).
Proof. intros. unfold awrite. by rewrite ainb_true. Qed.

Lemma alen_aupd a i v : alen (aupd a i v) = alen a.
Proof. done. Qed.

Lemma acell_amake n v i : acell (amake n v) i = v.
Proof. unfold acell, amake. simpl. by rewrite lookup_empty. Qed.

Lemma acell_aupd a i j v : acell (aupd a i v) j = if decide (i = j) then v else acell a j.
Proof. unfold acell, aupd. simpl. rewrite lookup_insert. by case_decide. Qed.

Lemma acell_aupd_eq a i v : acell (aupd a i v) i = v.
Proof. rewrite acell_aupd. by case_decide. Qed.

Lemma acell_aupd_ne a i j v : i ≠ j → acell (aupd a i v) j = acell a j.
Proof. intros. rewrite acell_aupd. by case_decide. Qed.

Lemma alen_afill_upd a i n v : alen (afill_upd a i n v) = alen a.
Proof. revert a i. induction n as [|n IH]; intros a i; [done|]. simpl. by rewrite IH. Qed.

Lemma acell_afill_upd a i n v j :
  acell (afill_upd a i n v) j = if decide (i ≤ j < i + Z.of_nat n) then v else acell a j.
Proof.
  revert a i. induction n as [|n IH]; intros a i; cbn [afill_upd].
  - case_decide; [lia|done].
  - rewrite IH, acell_aupd. repeat case_decide; try done; lia.
Qed.

Lemma afill_in a i n v :
  0 ≤ i → i + n ≤ alen a → afill a i n v = Ok (afill_upd a i (Z.to_nat n) v).
Proof. intros. unfold afill. by replace (_ && _) with true by lia. Qed.
End arrays.

Create Rewrite HintDb carray.
#[export] Hint Rewrite @alen_aupd @alen_afill_upd @acell_amake @acell_aupd_eq : carray.
#[export] Hint Rewrite @acell_aupd_ne using lia : carray.
#[export] Hint Rewrite @aread_in using (autorewrite with carray; lia) : carray.

(** ** Packed two-bit items

    [mem[word] >> (2 * off)) & 3] and
    [mem[word] = (mem[word] & ~(3 << (off * 2))) | (state << (off * 2))], with the
    item index [idx] already 0-based. *)
Definition packed_get (mem : arr Z) (idx : Z) : outcome Z :=
  let word := idx / 4 in
  let off := idx mod 4 in
  b ← aread mem word;
  Ok (Z.land (Z.shiftr b (2 * off)) 3).

Definition packed_set (mem : arr Z) (idx : Z) (v : Z) : outcome (arr Z) :=
  let word := idx / 4 in
  let off := idx mod 4 in
  let erase_bits := 3 in
  b ← aread mem word;
  awrite mem word
    (u8 (Z.lor (Z.land b (Z.lnot (Z.shiftl erase_bits (off * 2)))) (Z.shiftl v (off * 2)))).

(** The item a read returns, and the array a write leaves, when in bounds. *)
Definition pitem (mem : arr Z) (idx : Z) : Z :=
  Z.land (Z.shiftr (acell mem (idx / 4)) (2 * (idx mod 4))) 3.
Definition pupd (mem : arr Z) (idx v : Z) : arr Z :=
  aupd mem (idx / 4)
    (u8 (Z.lor (Z.land (acell mem (idx / 4)) (Z.lnot (Z.shiftl 3 (idx mod 4 * 2))))
               (Z.shiftl v (idx mod 4 * 2)))).

Lemma packed_get_in mem idx :
  0 ≤ idx < 4 * alen mem → packed_get mem idx = Ok (pitem mem idx).
Proof.
  intros. unfold packed_get. rewrite aread_in; [done|].
  split; [apply Z.div_pos; lia|apply Z.div_lt_upper_bound; lia].
Qed.

Lemma packed_get_out mem idx : 4 * alen mem ≤ idx → packed_get mem idx = Fail UB.
Proof.
  intros. unfold packed_get. rewrite aread_out; [done|].
  intros [_ Hlt]. assert (alen mem ≤ idx / 4) by (apply Z.div_le_lower_bound; lia). lia.
Qed.

Lemma packed_set_in mem idx v :
  0 ≤ idx < 4 * alen mem → packed_set mem idx v = Ok (pupd mem idx v).
Proof.
  intros. unfold packed_set.
  assert (0 ≤ idx / 4 < alen mem)
    by (split; [apply Z.div_pos; lia|apply Z.div_lt_upper_bound; lia]).
  by rewrite aread_in; [simpl; rewrite awrite_in|].
Qed.

Lemma pitem_testbit mem idx k :
  0 ≤ k → Z.testbit (pitem mem idx) k =
    (k <? 2) && Z.testbit (acell mem (idx / 4)) (k + 2 * (idx mod 4)).
Proof.
  intros. unfold pitem. rewrite Z.land_spec, Z.shiftr_spec by lia.
  change 3 with (Z.ones 2). rewrite andb_comm. f_equal.
  destruct (Z.ltb_spec k 2); [apply Z.ones_spec_low; lia|apply Z.ones_spec_high; lia].
Qed.

Lemma pitem_range mem idx : 0 ≤ pitem mem idx < 4.
Proof.
  unfold pitem. change 3 with (Z.ones 2). rewrite Z.land_ones by lia.
  by apply Z.mod_pos_bound.
Qed.

Lemma alen_pupd mem i v : alen (pupd mem i v) = alen mem.
Proof. done. Qed.

Lemma small_testbit v k : 0 ≤ v < 4 → 2 ≤ k → Z.testbit v k = false.
Proof.
  intros. rewrite <- (Z.mod_small v (2 ^ 2)) by lia. apply Z.mod_pow2_bits_high. lia.
Qed.

(** Writing one item changes that item and no other. *)
Lemma pitem_pupd mem i j v :
  0 ≤ v < 4 → 0 ≤ i → 0 ≤ j →
  pitem (pupd mem i v) j = if decide (i = j) then v else pitem mem j.
Proof.
  intros Hv Hi Hj. apply Z.bits_inj'. intros k Hk.
  pose proof (Z.mod_pos_bound i 4 ltac:(lia)).
  pose proof (Z.mod_pos_bound j 4 ltac:(lia)).
  pose proof (Z.div_mod i 4 ltac:(lia)). pose proof (Z.div_mod j 4 ltac:(lia)).
  rewrite pitem_testbit by lia. unfold pupd at 1. rewrite acell_aupd.
  destruct (decide (i / 4 = j / 4)) as [Heq|Hne].
  2: { rewrite decide_False by (intros ->; lia). by rewrite pitem_testbit by lia. }
  rewrite wrap_testbit, Z.lor_spec, Z.land_spec, Z.lnot_spec by lia.
  destruct (Z.ltb_spec k 2) as [Hk2|Hk2]; simpl.
  2: { case_decide; [by rewrite small_testbit|]. rewrite pitem_testbit by lia.
       by replace (k <? 2) with false by lia. }
  replace (_ <? 8) with true by lia. simpl.
  rewrite !Z.shiftl_spec by lia.
  case_decide as Hij.
  - subst j. replace (k + 2 * (i mod 4) - i mod 4 * 2) with k by lia.
    replace (Z.testbit 3 k) with true
      by (destruct (decide (k = 0)); [subst|replace k with 1 by lia]; done).
    by rewrite andb_false_r.
  - rewrite pitem_testbit, <- Heq by lia. replace (k <? 2) with true by lia. simpl.
    destruct (decide (i mod 4 < j mod 4)).
    + rewrite (small_testbit 3), (small_testbit v) by lia. simpl.
      by rewrite andb_true_r, orb_false_r.
    + rewrite (Z.testbit_neg_r 3), (Z.testbit_neg_r v) by lia. simpl.
      by rewrite andb_true_r, orb_false_r.
Qed.

Lemma pitem_amake_0 n i : pitem (amake n 0) i = 0.
Proof. unfold pitem. by rewrite acell_amake, Z.shiftr_0_l. Qed.

(** ** Enums in two bits *)
Class PackedEnum (E : Type) := {
  enum_code : E → Z;
  enum_of : Z → E;
  enum_code_range e : 0 ≤ enum_code e < 4;
  enum_of_code e : enum_of (enum_code e) = e;
  enum_code_of z : 0 ≤ z < 4 → enum_code (enum_of z) = z
}.

Section packed_enum.
Context `{PackedEnum E}.

Definition eitem (mem : arr Z) (idx : Z) : E := enum_of (pitem mem idx).
Definition eupd (mem : arr Z) (idx : Z) (e : E) : arr Z := pupd mem idx (enum_code e).

Lemma eitem_eupd mem i j e :
  0 ≤ i → 0 ≤ j → eitem (eupd mem i e) j = if decide (i = j) then e else eitem mem j.
Proof.
  intros. unfold eitem, eupd. rewrite pitem_pupd by (done || apply enum_code_range).
  case_decide; [apply enum_of_code|done].
Qed.

Lemma alen_eupd mem i e : alen (eupd mem i e) = alen mem.
Proof. done. Qed.
End packed_enum.

#[export] Hint Rewrite @alen_pupd @alen_eupd : carray.
