(* ===== verification/Utils.v ===== *)
(** * Utils: utils.c and the macros of utils.h

    Strings are lists of character codes that end with the NUL of the C string;
    running past the end of the list is [Fail UB].  [ctz] is the shift loop of the
    source; [ctz_ok] shows that it returns the position of the highest set bit and
    that 32 iterations are always enough. *)
From Stdlib Require Import ZArith Lia.
From stdpp Require Import base option numbers list gmap.
From S2P Require Import Prelude.

Definition MAX_USERSPACE_ADDR64 : Z := 0x7fffffffffff.
Definition MASK_44_BITS : Z := 0x0fffffffffff.
Definition MASK_45_BITS : Z := 0x1fffffffffff.
Definition MASK_46_BITS : Z := 0x2fffffffffff.
Definition PAGE_MASK : Z := 0xfff.
Definition PAGE_SIZE : Z := 4096.

(** [((n) + (k - 1)) & ~(k - 1)] on a [w]-bit unsigned type; the int [~(k - 1)]
    converts to [2 ^ w - k]. *)
Definition alignup (w k n : Z) : Z :=
  Z.land (wrap w (n + (k - 1))) (wrap w (Z.lnot (k - 1))).
Definition ALIGNUP_8 (w n : Z) : Z := alignup w 8 n.
Definition ALIGNUP_PAGE (w n : Z) : Z := alignup w PAGE_SIZE n.
Definition BITS2BYTES_CEIL (w n : Z) : Z := ALIGNUP_8 w n / 8.
Definition IS_ALIGNED (x y : Z) : bool := x mod y =? 0.

(** unsigned msg_len(const char* msg) *)
Fixpoint msg_len_from (cnt : Z) (msg : list Z) : outcome Z :=
  match msg with
  | [] => Fail UB
  | c :: msg => if c =? 0 then Ok cnt else msg_len_from (u32 (cnt + 1)) msg
  end.
Definition msg_len (msg : list Z) : outcome Z := msg_len_from 0 msg.

(** unsigned ctz(unsigned x) *)
Definition ctz_step (st : Z * Z) : outcome ((Z * Z) + Z) :=
  let '(x, cnt) := st in
  if 1 <? x then Ok (inl (Z.shiftr x 1, u32 (cnt + 1))) else Ok (inr cnt).
Definition ctz (x : Z) : outcome Z := while_loop ctz_step 5 (x, 0).

(** uint32_t str2u32(const char* str): from the last digit to the first. *)
Definition char_at (str : list Z) (i : Z) : outcome Z :=
  match str !! Z.to_nat i with Some c => Ok c | None => Fail UB end.
Fixpoint str2u32_loop (idx : nat) (str : list Z) (res base : Z) : outcome Z :=
  match idx with
  | O => Ok res
  | S idx' =>
      c ← char_at str (Z.of_nat idx');
      str2u32_loop idx' str (u32 (res + u32 ((c - 48) * base))) (u32 (base * 10))
  end.
Definition str2u32 (str : list Z) : outcome Z :=
  idx ← msg_len str;
  str2u32_loop (Z.to_nat idx) str 0 1.

(** ** alignup *)
Lemma alignup_mod w k e n :
  0 ≤ e < w → k = 2 ^ e → 0 ≤ n → n + (k - 1) < 2 ^ w →
  alignup w k n = (n + (k - 1)) / k * k.
Proof.
  intros He -> Hn Hlt. unfold alignup. rewrite (wrap_small w (n + _)) by lia.
  pose proof (Z.pow_pos_nonneg 2 e ltac:(lia) ltac:(lia)).
  replace (2 ^ e - 1) with (Z.ones e) in * by (rewrite Z.ones_equiv; lia).
  assert (0 ≤ Z.ones e) by (rewrite Z.ones_equiv; lia).
  rewrite <- Z.shiftr_div_pow2, <- Z.shiftl_mul_pow2 by lia.
  apply Z.bits_inj'. intros i Hi.
  rewrite Z.land_spec, wrap_testbit, Z.lnot_spec by lia.
  destruct (Z.ltb_spec i e).
  - rewrite Z.ones_spec_low, Z.shiftl_spec_low by lia. simpl. by rewrite !andb_false_r.
  - rewrite Z.ones_spec_high, Z.shiftl_spec, Z.shiftr_spec by lia.
    replace (i - e + e) with i by lia. simpl. rewrite andb_true_r.
    destruct (Z.ltb_spec i w); [by rewrite andb_true_r|].
    rewrite andb_false_r. symmetry.
    rewrite <- (Z.mod_small (n + Z.ones e) (2 ^ w)) by lia.
    apply Z.mod_pow2_bits_high. lia.
Qed.

(** Rounding up to a power of two: an aligned value, at least [n], by less than
    one unit. *)
Lemma alignup_bounds w k e n :
  0 ≤ e < w → k = 2 ^ e → 0 ≤ n → n + (k - 1) < 2 ^ w →
  n ≤ alignup w k n < n + k ∧ alignup w k n mod k = 0.
Proof.
  intros He Hk Hn Hlt. rewrite (alignup_mod w k e) by done.
  pose proof (Z.pow_pos_nonneg 2 e ltac:(lia) ltac:(lia)).
  rewrite Z.mod_mul by lia.
  pose proof (Z.div_mod (n + (k - 1)) k ltac:(lia)).
  pose proof (Z.mod_pos_bound (n + (k - 1)) k ltac:(lia)). lia.
Qed.

(** An aligned value is left as it is. *)
Lemma alignup_aligned w k e n :
  0 ≤ e < w → k = 2 ^ e → 0 ≤ n → n + (k - 1) < 2 ^ w → n mod k = 0 →
  alignup w k n = n.
Proof.
  intros He Hk Hn Hlt Hal. rewrite (alignup_mod w k e) by done.
  pose proof (Z.pow_pos_nonneg 2 e ltac:(lia) ltac:(lia)).
  assert (n = n / k * k) as Hq by (pose proof (Z.div_mod n k ltac:(lia)); lia).
  rewrite Hq at 1. rewrite Z.add_comm, Z.div_add, (Z.div_small (k - 1)) by lia. lia.
Qed.

(** ** ctz *)
Lemma ctz_iterate (k : nat) x cnt :
  0 ≤ x → Z.log2 x = Z.of_nat k → 0 ≤ cnt → cnt + Z.of_nat k < 2 ^ 32 →
  iterate ctz_step (S k) (x, cnt) = Ok (inr (cnt + Z.of_nat k)).
Proof.
  revert x cnt. induction k as [|k IH]; intros x cnt Hx Hlog Hc Hlt.
  - assert (x ≤ 1) by (apply Z.log2_null; lia).
    cbn. replace (1 <? x) with false by lia. simpl. do 2 f_equal. lia.
  - assert (1 < x) by (destruct (Z.le_gt_cases x 1) as [H1|H1]; [apply Z.log2_null in H1|]; lia).
    erewrite iterate_next
      by (unfold ctz_step; replace (1 <? x) with true by lia; reflexivity).
    rewrite IH; wrap_lia.
    + do 2 f_equal. lia.
    + apply Z.shiftr_nonneg. lia.
    + rewrite Z.log2_shiftr; lia.
Qed.

Lemma ctz_ok x : 0 ≤ x < 2 ^ 32 → ctz x = Ok (Z.log2 x).
Proof.
  intros Hx. pose proof (Z.log2_nonneg x).
  assert (Z.log2 x < 32).
  { destruct (decide (x = 0)) as [->|]; [done|]. apply Z.log2_lt_pow2; lia. }
  unfold ctz. apply while_loop_done with (n := S (Z.to_nat (Z.log2 x))).
  - rewrite (ctz_iterate (Z.to_nat (Z.log2 x))) by lia. do 2 f_equal. lia.
  - change (2 ^ 5)%nat with 32%nat. lia.
Qed.

(** ** Decimal strings *)
Definition digit_value (ds : list Z) : Z := foldl (λ v d, 10 * v + d) 0 ds.
Definition digits_str (ds : list Z) : list Z := ((λ d, d + 48) <$> ds) ++ [0].

Lemma digit_value_snoc ds d : digit_value (ds ++ [d]) = 10 * digit_value ds + d.
Proof. unfold digit_value. by rewrite foldl_app. Qed.

Lemma msg_len_from_ok cnt ds t :
  Forall (λ c, c ≠ 0) ds → 0 ≤ cnt → cnt + Z.of_nat (length ds) < 2 ^ 32 →
  msg_len_from cnt (ds ++ 0 :: t) = Ok (cnt + Z.of_nat (length ds)).
Proof.
  intros Hds. revert cnt. induction Hds as [|c ds Hc _ IH]; intros cnt H0 Hlt; simpl.
  - f_equal. lia.
  - replace (c =? 0) with false by lia. simpl in Hlt.
    rewrite IH; wrap_lia. f_equal. lia.
Qed.

Lemma digit_codes_nonzero ds :
  Forall (λ d, 0 ≤ d < 10) ds → Forall (λ c, c ≠ 0) ((λ d, d + 48) <$> ds).
Proof. rewrite Forall_fmap. intros H. eapply Forall_impl; [exact H|]. simpl. lia. Qed.

Lemma msg_len_digits ds :
  Forall (λ d, 0 ≤ d < 10) ds → Z.of_nat (length ds) < 2 ^ 32 →
  msg_len (digits_str ds) = Ok (Z.of_nat (length ds)).
Proof.
  intros Hds Hlen. unfold msg_len, digits_str.
  rewrite msg_len_from_ok; rewrite ?length_fmap; auto using digit_codes_nonzero with lia.
Qed.

Lemma char_at_digits ds e d t :
  char_at (digits_str (ds ++ d :: t) ++ e) (Z.of_nat (length ds)) = Ok (d + 48).
Proof.
  unfold char_at, digits_str. rewrite Nat2Z.id, fmap_app, <- !app_assoc, fmap_cons.
  rewrite lookup_app_r by (by rewrite length_fmap).
  by rewrite length_fmap, Nat.sub_diag.
Qed.

(** Modular arithmetic at width 32, for the accumulators of the loop. *)
Lemma wrap_eqm w a b : 0 ≤ w → wrap w a = wrap w b ↔ ∃ k, a = b + k * 2 ^ w.
Proof.
  intros. assert (0 < 2 ^ w) by (apply Z.pow_pos_nonneg; lia). unfold wrap. split.
  - intros Heq. exists (a / 2 ^ w - b / 2 ^ w).
    pose proof (Z.div_mod a (2 ^ w) ltac:(lia)). pose proof (Z.div_mod b (2 ^ w) ltac:(lia)).
    nia.
  - intros [k ->]. apply Z.mod_add. lia.
Qed.

Lemma wrap_decomp w a : 0 ≤ w → ∃ k, wrap w a = a + k * 2 ^ w.
Proof.
  intros. exists (- (a / 2 ^ w)). unfold wrap.
  assert (0 < 2 ^ w) by (apply Z.pow_pos_nonneg; lia).
  pose proof (Z.div_mod a (2 ^ w) ltac:(lia)). nia.
Qed.

Lemma str2u32_loop_ok ds t e v B :
  str2u32_loop (length ds) (digits_str (ds ++ t) ++ e) (u32 v) (u32 B) =
  Ok (u32 (v + B * digit_value ds)).
Proof.
  revert t v B. induction ds as [|d ds IH] using rev_ind; intros t v B.
  - unfold digit_value. simpl. do 2 f_equal. lia.
  - replace ((ds ++ [d]) ++ t) with (ds ++ d :: t) by (by rewrite <- app_assoc).
    rewrite length_app, Nat.add_1_r. cbn [str2u32_loop].
    rewrite (char_at_digits ds e d). cbn [mbind outcome_bind].
    replace (d + 48 - 48) with d by lia.
    replace (u32 (u32 v + u32 (d * u32 B))) with (u32 (v + d * B)).
    2: { apply wrap_eqm; [lia|]. destruct (wrap_decomp 32 v) as [k1 ->]; [lia|].
         destruct (wrap_decomp 32 (d * u32 B)) as [k2 ->]; [lia|].
         destruct (wrap_decomp 32 B) as [k3 ->]; [lia|].
         exists (- k1 - k2 - d * k3). ring. }
    replace (u32 (u32 B * 10)) with (u32 (B * 10)).
    2: { apply wrap_eqm; [lia|]. destruct (wrap_decomp 32 B) as [k3 ->]; [lia|].
         exists (- k3 * 10). ring. }
    rewrite (IH (d :: t)), digit_value_snoc. do 2 f_equal. lia.
Qed.

(** C40. str2u32 of a string of decimal digits is the number the digits denote, modulo
    2^32: it terminates, reads no character outside the string, and a seed too
    large for uint32_t wraps around. *)
Theorem str2u32_value ds :
  Forall (λ d, 0 ≤ d < 10) ds → Z.of_nat (length ds) < 2 ^ 32 →
  str2u32 (digits_str ds) = Ok (u32 (digit_value ds)).
Proof.
  intros Hds Hlen. unfold str2u32. rewrite msg_len_digits by done.
  cbn [mbind outcome_bind]. rewrite Nat2Z.id.
  pose proof (str2u32_loop_ok ds [] [] 0 1) as H.
  rewrite !app_nil_r in H. change (u32 0) with 0 in H. change (u32 1) with 1 in H.
  rewrite H. do 2 f_equal. lia.
Qed.

Lemma str2u32_value_witness : str2u32 (digits_str [4; 2; 9; 4; 9; 6; 7; 2; 9; 8]) = Ok 2.
Proof.
  rewrite (str2u32_value [4; 2; 9; 4; 9; 6; 7; 2; 9; 8]);
    [reflexivity|repeat constructor; lia|simpl; lia].
Defined.
