(* ===== verification/SizeClass.v ===== *)
(** * SizeClass: size_class.c and size_class.h

    The 43 size classes: 32 small ones (multiples of 16 up to 512), 4 medium and
    7 large ones (powers of two).  [npow2_spec] is the bit-twiddling routine
    against its arithmetic meaning, [alignup_class_least] says that rounding a
    request up selects the least size class that can hold it. *)
From Stdlib Require Import ZArith Lia.
From stdpp Require Import base option numbers list gmap.
From S2P Require Import Prelude.
From S2P Require Import Utils.

Definition NO_SMALL_SIZE_CLASSES : Z := 32.
Definition NO_MEDIUM_SIZE_CLASSES : Z := 4.
Definition NO_LARGE_SIZE_CLASSES : Z := 7.
Definition SMALL_SIZE_CLASS_ALIGNMENT : Z := 16.
Definition SMALL_SIZE_MIN_REGION : Z := 16.
Definition SMALL_SIZE_MAX_REGION : Z := 512.
Definition MEDIUM_SIZE_MIN_REGION : Z := 1024.
Definition MEDIUM_SIZE_MAX_REGION : Z := 2 * PAGE_SIZE.
Definition LARGE_SIZE_MIN_REGION : Z := 4 * PAGE_SIZE.
Definition LARGE_SIZE_MAX_REGION : Z := 1048576.

Definition IS_SIZE_SMALL (size : Z) : bool := (1 <=? size) && (size <=? SMALL_SIZE_MAX_REGION).
Definition IS_SIZE_MEDIUM (size : Z) : bool :=
  (SMALL_SIZE_MAX_REGION <? size) && (size <=? MEDIUM_SIZE_MAX_REGION).
Definition IS_SIZE_LARGE (size : Z) : bool :=
  (MEDIUM_SIZE_MAX_REGION <? size) && (size <=? LARGE_SIZE_MAX_REGION).
Definition IS_SIZE_HUGE (size : Z) : bool := size >? LARGE_SIZE_MAX_REGION.

(** [w] is the width of the unsigned type the macro is used at. *)
Definition ALIGNUP_SMALL_SIZE (w n : Z) : Z := alignup w SMALL_SIZE_CLASS_ALIGNMENT n.
Definition SIZE_TO_IDX_SMALL (n : Z) : Z := n / SMALL_SIZE_CLASS_ALIGNMENT - 1.

Definition ceil_div (a b : Z) : Z := u32 (a / b + (if a mod b =? 0 then 0 else 1)).

Definition npow2 (n : Z) : Z :=
  let n := u32 (n - 1) in
  let n := Z.lor n (Z.shiftr n 1) in
  let n := Z.lor n (Z.shiftr n 2) in
  let n := Z.lor n (Z.shiftr n 4) in
  let n := Z.lor n (Z.shiftr n 8) in
  let n := Z.lor n (Z.shiftr n 16) in
  u32 (n + 1).

Definition alignup_large_size (n : Z) : Z :=
  let d := ceil_div n LARGE_SIZE_MIN_REGION in
  u32 (npow2 d * LARGE_SIZE_MIN_REGION).
Definition size_to_idx_large (n : Z) : outcome Z := ctz (n / LARGE_SIZE_MIN_REGION).

Definition alignup_medium_size (n : Z) : Z :=
  let d := ceil_div n MEDIUM_SIZE_MIN_REGION in
  u32 (npow2 d * MEDIUM_SIZE_MIN_REGION).
Definition size_to_idx_medium (n : Z) : outcome Z := ctz (n / MEDIUM_SIZE_MIN_REGION).

Definition is_size_aligned (size : Z) : bool :=
  if IS_SIZE_SMALL size then ALIGNUP_SMALL_SIZE 32 size =? size
  else if IS_SIZE_MEDIUM size then alignup_medium_size size =? size
  else alignup_large_size size =? size.

(** ** npow2 *)

(** [smeared m s x]: bit [i] of [x] is set when one of the [s] bits of [m] from
    [i] upwards is. *)
Definition smeared (m s x : Z) : Prop :=
  0 ≤ x ∧ ∀ i, 0 ≤ i → Z.testbit x i = true ↔ ∃ j, i ≤ j < i + s ∧ Z.testbit m j = true.

Lemma smeared_self m : 0 ≤ m → smeared m 1 m.
Proof.
  intros. split; [done|]. intros i Hi. split.
  - intros. exists i. auto with lia.
  - intros (j & ? & ?). by replace i with j by lia.
Qed.

Lemma smeared_double m s x :
  0 < s → smeared m s x → smeared m (2 * s) (Z.lor x (Z.shiftr x s)).
Proof.
  intros Hs [Hx H]. split; [apply Z.lor_nonneg; split; [done|by apply Z.shiftr_nonneg]|].
  intros i Hi. rewrite Z.lor_spec, Z.shiftr_spec, orb_true_iff, !H by lia. split.
  - intros [(j & ? & ?)|(j & ? & ?)]; exists j; auto with lia.
  - intros (j & ? & ?). destruct (decide (j < i + s)); [left|right]; exists j; auto with lia.
Qed.

Lemma smeared_ones m s x :
  0 < m → Z.log2 m < s → smeared m s x → x = Z.ones (Z.log2 m + 1).
Proof.
  intros Hm Hs [Hx H]. pose proof (Z.log2_nonneg m).
  apply Z.bits_inj'. intros i Hi. apply eq_true_iff_eq. rewrite H by done.
  rewrite Z.testbit_ones_nonneg, Z.ltb_lt by lia. split.
  - intros (j & ? & Hj). destruct (decide (j ≤ Z.log2 m)); [lia|].
    rewrite Z.bits_above_log2 in Hj by lia. done.
  - intros. exists (Z.log2 m). split; [lia|]. by apply Z.bit_log2.
Qed.

(** npow2 is the least power of two that is at least its argument, for the
    arguments whose result fits in 32 bits. *)
Lemma npow2_spec n : 1 ≤ n ≤ 2 ^ 31 → npow2 n = 2 ^ Z.log2_up n.
Proof.
  intros Hn. unfold npow2. rewrite (wrap_small 32 (n - 1)) by lia.
  destruct (decide (n = 1)) as [->|Hn1]; [reflexivity|].
  assert (smeared (n - 1) 32
    (let n := n - 1 in
     let n := Z.lor n (Z.shiftr n 1) in
     let n := Z.lor n (Z.shiftr n 2) in
     let n := Z.lor n (Z.shiftr n 4) in
     let n := Z.lor n (Z.shiftr n 8) in Z.lor n (Z.shiftr n 16))) as Hsm.
  { cbv zeta. apply (smeared_double _ 16), (smeared_double _ 8), (smeared_double _ 4),
      (smeared_double _ 2), (smeared_double _ 1); try lia.
    apply smeared_self. lia. }
  assert (Z.log2 (n - 1) < 31) by (apply Z.log2_lt_pow2; lia).
  apply smeared_ones in Hsm; [|lia|lia]. cbv zeta in Hsm |- *. rewrite Hsm.
  rewrite Z.ones_equiv, Z.log2_up_eqn, <- (Z.sub_1_r n) by lia.
  rewrite <- Z.add_1_r. pose proof (Z.log2_nonneg (n - 1)).
  assert (0 < 2 ^ (Z.log2 (n - 1) + 1) < 2 ^ 32).
  { split; [apply Z.pow_pos_nonneg; lia|apply Z.pow_lt_mono_r; lia]. }
  rewrite wrap_small by lia. lia.
Qed.

(** ** Rounding a request up to its size class *)

(** The three-way rounding of sealloc_malloc and sealloc_realloc, on a size_t. *)
Definition alignup_class (size : Z) : Z :=
  if IS_SIZE_SMALL size then ALIGNUP_SMALL_SIZE 64 size
  else if IS_SIZE_MEDIUM size then alignup_medium_size (u32 size)
  else alignup_large_size (u32 size).

(** The size classes in increasing order, as the comment of size_class.h lists them. *)
Definition size_classes : list Z :=
  ((λ i, 16 * i) <$> seqZ 1 32) ++
  ((λ i, 1024 * 2 ^ i) <$> seqZ 0 4) ++ ((λ i, 16384 * 2 ^ i) <$> seqZ 0 7).

Lemma ceil_div_bounds n u :
  0 < u → 1 ≤ n < 2 ^ 32 - u → 1 ≤ ceil_div n u ∧ n ≤ ceil_div n u * u < n + u.
Proof.
  intros Hu Hn. unfold ceil_div.
  pose proof (Z.div_mod n u ltac:(lia)). pose proof (Z.mod_pos_bound n u ltac:(lia)).
  assert (0 ≤ n / u ≤ n) by (split; [apply Z.div_pos; lia|apply Z.div_le_upper_bound; nia]).
  destruct (Z.eqb_spec (n mod u) 0); rewrite wrap_small by lia; nia.
Qed.

(** Rounding the number of [u]-byte units to a power of two: the least [2 ^ e * u]
    that is at least [n]. *)
Lemma pow2_units n u k :
  0 < u → 0 ≤ k ≤ 31 → 1 ≤ n ≤ 2 ^ k * u → 2 ^ k * u < 2 ^ 32 - u →
  ∃ e, 0 ≤ e ≤ k ∧ npow2 (ceil_div n u) = 2 ^ e ∧ n ≤ 2 ^ e * u ∧
       (0 < e → 2 ^ (e - 1) * u < n).
Proof.
  intros Hu Hk Hn Hlt. destruct (ceil_div_bounds n u) as [Hd1 Hd]; [lia|lia|].
  set (d := ceil_div n u) in *. clearbody d.
  assert (d < 2 ^ k + 1) by (apply (Z.mul_lt_mono_pos_r u); lia).
  assert (2 ^ k ≤ 2 ^ 31) by (apply Z.pow_le_mono_r; lia).
  exists (Z.log2_up d). pose proof (Z.log2_up_nonneg d).
  assert (Z.log2_up d ≤ k) by (rewrite <- (Z.log2_up_pow2 k) by lia; apply Z.log2_up_le_mono; lia).
  rewrite npow2_spec by lia. repeat split; try lia.
  - destruct (decide (d = 1)) as [Hd1'|]; [subst d; change (2 ^ Z.log2_up 1) with 1; lia|].
    pose proof (Z.log2_up_spec d ltac:(lia)). nia.
  - intros He. destruct (decide (d = 1)) as [Hd1'|]; [by subst d|].
    pose proof (Z.log2_up_spec d ltac:(lia)). rewrite Z.sub_1_r. nia.
Qed.

Lemma size_classes_eq :
  size_classes =
  [16; 32; 48; 64; 80; 96; 112; 128; 144; 160; 176; 192; 208; 224; 240; 256;
   272; 288; 304; 320; 336; 352; 368; 384; 400; 416; 432; 448; 464; 480; 496; 512;
   1024; 2048; 4096; 8192; 16384; 32768; 65536; 131072; 262144; 524288; 1048576].
Proof. reflexivity. Qed.

Lemma alignup_class_small size :
  1 ≤ size ≤ 512 → ∃ q, alignup_class size = 16 * q ∧ 1 ≤ q ≤ 32 ∧ size ≤ 16 * q < size + 16.
Proof.
  intros Hs. unfold alignup_class, IS_SIZE_SMALL, SMALL_SIZE_MAX_REGION.
  replace (_ && _) with true by lia. unfold ALIGNUP_SMALL_SIZE, SMALL_SIZE_CLASS_ALIGNMENT.
  destruct (alignup_bounds 64 16 4 size) as [Hb Hm]; [lia|done|lia|lia|].
  apply Z.mod_divide in Hm as [q Hq]; [|done]. exists q. lia.
Qed.

Lemma alignup_class_medium size :
  512 < size ≤ 8192 →
  ∃ e, alignup_class size = 2 ^ e * 1024 ∧ 0 ≤ e ≤ 3 ∧ size ≤ 2 ^ e * 1024 ∧
       (0 < e → 2 ^ (e - 1) * 1024 < size).
Proof.
  intros Hs. unfold alignup_class, IS_SIZE_SMALL, IS_SIZE_MEDIUM, SMALL_SIZE_MAX_REGION,
    MEDIUM_SIZE_MAX_REGION, PAGE_SIZE.
  replace (_ && (size <=? 512)) with false by lia.
  replace (_ && _) with true by lia. unfold alignup_medium_size, MEDIUM_SIZE_MIN_REGION.
  rewrite (wrap_small 32 size) by lia.
  destruct (pow2_units size 1024 3) as (e & He & Hnp & Hle & Hlow); [lia..|].
  exists e. rewrite Hnp. assert (2 ^ e ≤ 2 ^ 3) by (apply Z.pow_le_mono_r; lia).
  pose proof (Z.pow_pos_nonneg 2 e ltac:(lia) ltac:(lia)).
  rewrite wrap_small by lia. done.
Qed.

Lemma alignup_class_large size :
  8192 < size ≤ 1048576 →
  ∃ e, alignup_class size = 2 ^ e * 16384 ∧ 0 ≤ e ≤ 6 ∧ size ≤ 2 ^ e * 16384 ∧
       (0 < e → 2 ^ (e - 1) * 16384 < size).
Proof.
  intros Hs. unfold alignup_class, IS_SIZE_SMALL, IS_SIZE_MEDIUM, SMALL_SIZE_MAX_REGION,
    MEDIUM_SIZE_MAX_REGION, PAGE_SIZE.
  replace (_ && (size <=? 512)) with false by lia.
  replace (_ && (size <=? 2 * 4096)) with false by lia.
  unfold alignup_large_size, LARGE_SIZE_MIN_REGION, PAGE_SIZE.
  change (4 * 4096) with 16384.
  rewrite (wrap_small 32 size) by lia.
  destruct (pow2_units size 16384 6) as (e & He & Hnp & Hle & Hlow); [lia..|].
  exists e. rewrite Hnp. assert (2 ^ e ≤ 2 ^ 6) by (apply Z.pow_le_mono_r; lia).
  pose proof (Z.pow_pos_nonneg 2 e ltac:(lia) ltac:(lia)).
  rewrite wrap_small by lia. done.
Qed.

(** Rounding up gives a class, and the least one that is large enough. *)
Lemma alignup_class_ok size :
  1 ≤ size ≤ LARGE_SIZE_MAX_REGION →
  alignup_class size ∈ size_classes ∧ size ≤ alignup_class size ∧
  Forall (λ c, size ≤ c → alignup_class size ≤ c) size_classes.
Proof.
  unfold LARGE_SIZE_MAX_REGION. intros Hs. rewrite size_classes_eq.
  destruct (decide (size ≤ 512)); [|destruct (decide (size ≤ 8192))].
  - destruct (alignup_class_small size) as (q & -> & Hq & Hb); [lia|]. split; [|split; [lia|]].
    + clear Hb. zcases q; mem_compute.
    + repeat constructor; lia.
  - destruct (alignup_class_medium size) as (e & -> & He & Hle & Hlow); [lia|].
    zcases e; simpl in *; (split; [mem_compute|split; [lia|]]); repeat constructor; lia.
  - destruct (alignup_class_large size) as (e & -> & He & Hle & Hlow); [lia|].
    zcases e; simpl in *; (split; [mem_compute|split; [lia|]]); repeat constructor; lia.
Qed.

(** C32. Rounding a request of at most 1MB up selects the least of the 43 size classes
    that can hold it. *)
Theorem alignup_class_least size :
  1 ≤ size ≤ LARGE_SIZE_MAX_REGION →
  alignup_class size ∈ size_classes ∧ size ≤ alignup_class size ∧
  Forall (λ c, size ≤ c → alignup_class size ≤ c) size_classes.
Proof. apply alignup_class_ok. Qed.

Lemma alignup_class_least_witness :
  alignup_class 8193 ∈ size_classes ∧ 8193 ≤ alignup_class 8193 ∧
  Forall (λ c, 8193 ≤ c → alignup_class 8193 ≤ c) size_classes.
Proof. apply (alignup_class_least 8193). unfold LARGE_SIZE_MAX_REGION. lia. Defined.

Lemma size_classes_aligned : Forall (λ c, is_size_aligned c = true) size_classes.
Proof. rewrite size_classes_eq. repeat constructor. Qed.

Lemma size_classes_range : Forall (λ c, 1 ≤ c ≤ LARGE_SIZE_MAX_REGION) size_classes.
Proof. rewrite size_classes_eq. unfold LARGE_SIZE_MAX_REGION. repeat constructor; lia. Qed.

Lemma is_size_aligned_class size :
  1 ≤ size ≤ LARGE_SIZE_MAX_REGION →
  is_size_aligned size = true → alignup_class size = size.
Proof.
  unfold LARGE_SIZE_MAX_REGION, is_size_aligned, alignup_class. intros Hs.
  rewrite (wrap_small 32 size) by lia.
  destruct (IS_SIZE_SMALL size) eqn:Hsm; [|destruct (IS_SIZE_MEDIUM size); lia].
  unfold IS_SIZE_SMALL, SMALL_SIZE_MAX_REGION in Hsm.
  unfold ALIGNUP_SMALL_SIZE, SMALL_SIZE_CLASS_ALIGNMENT.
  rewrite !(alignup_mod _ 16 4) by (try done; lia). lia.
Qed.

(** C34. is_size_aligned accepts, among the sizes up to 1MB, exactly the 43 size
    classes; the assertions of bin_init and chunk_allocate_run rely on it. *)
Theorem is_size_aligned_iff size :
  1 ≤ size ≤ LARGE_SIZE_MAX_REGION →
  is_size_aligned size = true ↔ size ∈ size_classes.
Proof.
  intros Hs. split.
  - intros Hal. rewrite <- (is_size_aligned_class size Hs Hal).
    apply (alignup_class_ok size Hs).
  - intros Hin. pose proof size_classes_aligned as H.
    rewrite Forall_forall in H. auto.
Qed.

Lemma is_size_aligned_iff_witness : is_size_aligned 4096 = true ↔ 4096 ∈ size_classes.
Proof. apply (is_size_aligned_iff 4096). unfold LARGE_SIZE_MAX_REGION. lia. Defined.
