(* ===== verification/Random.v ===== *)
(** * Random: random.c

    The two static generator states are the record [rng], threaded through every
    function that draws a number.  [splitmix32_period] shows that the 32-bit
    generator, which chooses nodes, runs and regions, repeats no output within
    2^32 calls: its state walks the whole ring and its output mix is injective. *)
From Stdlib Require Import ZArith Lia Znumtheory.
From stdpp Require Import base option numbers list gmap.
From S2P Require Import Prelude.
From S2P Require Import Utils.

Record rng : Type := Rng { state32 : Z; state64 : Z }.

Definition init_splitmix32 (seed : Z) (r : rng) : rng := Rng (u32 seed) (state64 r).
Definition init_splitmix64 (seed : Z) (r : rng) : rng := Rng (state32 r) (u64 seed).

(** uint32_t splitmix32(void): the number drawn, and the new state. *)
Definition splitmix32 (r : rng) : Z * rng :=
  let s := u32 (state32 r + 0x9e3779b9) in
  let z := u32 (Z.lxor s (Z.shiftr s 16) * 0x21f0aaad) in
  let z := u32 (Z.lxor z (Z.shiftr z 15) * 0x735a2d97) in
  (Z.lxor z (Z.shiftr z 15), Rng s (state64 r)).

(** uint64_t splitmix64(void) *)
Definition splitmix64 (r : rng) : Z * rng :=
  let s := u64 (state64 r + 0x9e3779b97f4a7c15) in
  let z := s in
  let z := u64 (Z.lxor z (Z.shiftr z 30) * 0xbf58476d1ce4e5b9) in
  let z := u64 (Z.lxor z (Z.shiftr z 27) * 0x94d049bb133111eb) in
  (Z.lxor z (Z.shiftr z 31), Rng (state32 r) s).

(** ** Ranges *)
Lemma xorshift_range w z k : 0 ≤ w → 0 ≤ k → 0 ≤ z < 2 ^ w → 0 ≤ Z.lxor z (Z.shiftr z k) < 2 ^ w.
Proof.
  intros Hw Hk Hz.
  assert (0 ≤ Z.lxor z (Z.shiftr z k)) as Hnn.
  { apply Z.lxor_nonneg. rewrite Z.shiftr_nonneg. lia. }
  assert (∀ j, w ≤ j → Z.testbit z j = false) as Hhigh.
  { intros j Hj. rewrite <- (Z.mod_small z (2 ^ w)) by done. apply Z.mod_pow2_bits_high. lia. }
  assert (Z.lxor z (Z.shiftr z k) = wrap w (Z.lxor z (Z.shiftr z k))) as ->.
  2: { by apply wrap_range. }
  apply Z.bits_inj'. intros i Hi. rewrite wrap_testbit by lia.
  destruct (Z.ltb_spec i w); [done|].
  by rewrite Z.lxor_spec, Z.shiftr_spec, !Hhigh by lia.
Qed.

Lemma splitmix32_range r : 0 ≤ (splitmix32 r).1 < 2 ^ 32.
Proof. simpl. apply xorshift_range; [lia..|]. by apply wrap_range. Qed.

Lemma splitmix64_range r : 0 ≤ (splitmix64 r).1 < 2 ^ 64.
Proof. simpl. apply xorshift_range; [lia..|]. by apply wrap_range. Qed.

(** ** The output mix is injective *)
Lemma xorshift_inj w k x y :
  0 ≤ w → 0 < k → 0 ≤ x < 2 ^ w → 0 ≤ y < 2 ^ w →
  Z.lxor x (Z.shiftr x k) = Z.lxor y (Z.shiftr y k) → x = y.
Proof.
  intros Hw Hk Hx Hy Heq.
  assert (∀ z i, 0 ≤ z < 2 ^ w → w ≤ i → Z.testbit z i = false) as Hhigh.
  { intros z i Hz Hi. rewrite <- (Z.mod_small z (2 ^ w)) by done.
    apply Z.mod_pow2_bits_high. lia. }
  assert (∀ n : nat, ∀ i, 0 ≤ i → w - Z.of_nat n ≤ i → Z.testbit x i = Z.testbit y i) as Hbits.
  { induction n as [|n IH]; intros i Hi Hn; [rewrite !Hhigh by (done || lia); done|].
    assert (Z.testbit (Z.lxor x (Z.shiftr x k)) i = Z.testbit (Z.lxor y (Z.shiftr y k)) i)
      as Hb by by rewrite Heq.
    rewrite !Z.lxor_spec, !Z.shiftr_spec, (IH (i + k)) in Hb by lia.
    by destruct (Z.testbit x i), (Z.testbit y i), (Z.testbit y (i + k)). }
  apply Z.bits_inj'. intros i Hi. apply (Hbits (Z.to_nat w)); lia.
Qed.

Lemma mul_wrap_inj w c x y :
  0 ≤ w → Z.gcd c (2 ^ w) = 1 → 0 ≤ x < 2 ^ w → 0 ≤ y < 2 ^ w →
  wrap w (x * c) = wrap w (y * c) → x = y.
Proof.
  intros Hw Hgcd Hx Hy Heq. apply wrap_eqm in Heq as [k Hk]; [|done].
  assert ((2 ^ w | x - y)) as [q Hq].
  { apply (Z.gauss _ c); [|by rewrite Z.gcd_comm]. exists k. lia. }
  assert (0 < 2 ^ w) by lia. assert (q = 0) by nia. lia.
Qed.

(** Two states of the 32-bit generator that draw the same number are equal. *)
Lemma splitmix32_state_inj r1 r2 :
  (splitmix32 r1).1 = (splitmix32 r2).1 →
  u32 (state32 r1 + 0x9e3779b9) = u32 (state32 r2 + 0x9e3779b9).
Proof.
  simpl. intros H.
  apply (xorshift_inj 32) in H; [|lia|lia|apply wrap_range; lia..].
  apply (mul_wrap_inj 32) in H; [|lia|reflexivity|apply xorshift_range; [lia..|by apply wrap_range]..].
  apply (xorshift_inj 32) in H; [|lia|lia|apply wrap_range; lia..].
  apply (mul_wrap_inj 32) in H; [|lia|reflexivity|apply xorshift_range; [lia..|by apply wrap_range]..].
  apply (xorshift_inj 32) in H; [done|lia|lia|apply wrap_range; lia..].
Qed.

(** ** The period *)

(** The generator after [n] calls of splitmix32. *)
Fixpoint splitmix32_after (n : nat) (r : rng) : rng :=
  match n with O => r | S n => splitmix32_after n (splitmix32 r).2 end.

Lemma splitmix32_after_state n r :
  ∃ k, state32 (splitmix32_after n r) = state32 r + Z.of_nat n * 0x9e3779b9 + k * 2 ^ 32.
Proof.
  revert r. induction n as [|n IH]; intros r; [exists 0; simpl; lia|].
  cbn [splitmix32_after]. destruct (IH (splitmix32 r).2) as [k ->]. simpl state32.
  destruct (wrap_decomp 32 (state32 r + 2654435769)) as [k' ->]; [lia|].
  exists (k + k'). lia.
Qed.

(** C39. Any 2^32 successive numbers drawn from splitmix32 are pairwise different. *)
Theorem splitmix32_period r n m :
  Z.of_nat n < Z.of_nat m < Z.of_nat n + 2 ^ 32 →
  (splitmix32 (splitmix32_after n r)).1 ≠ (splitmix32 (splitmix32_after m r)).1.
Proof.
  intros Hnm Heq. apply splitmix32_state_inj in Heq.
  destruct (splitmix32_after_state n r) as [k1 H1], (splitmix32_after_state m r) as [k2 H2].
  rewrite H1, H2 in Heq. apply wrap_eqm in Heq as [k3 Heq]; [|lia].
  assert ((2 ^ 32 | Z.of_nat m - Z.of_nat n)) as [q Hq].
  { apply (Z.gauss _ 0x9e3779b9); [|reflexivity]. exists (k1 - k2 - k3). lia. }
  lia.
Qed.

Lemma splitmix32_period_witness :
  (splitmix32 (splitmix32_after 0 (Rng 1 1))).1 ≠ (splitmix32 (splitmix32_after 7 (Rng 1 1))).1.
Proof. apply (splitmix32_period (Rng 1 1) 0 7). simpl. lia. Defined.
