(* ===== verification/Logging.v ===== *)
(** * Logging: logging.c and the macros of logging.h

    The number printers fill a fixed buffer from its end, and vfse_log interprets a
    format string.  What a call writes to the descriptor is the list of its bytes.
    [vfse_log_prints] says that every format built from the supported conversions
    comes out as its text; [vfse_log_repeats_prefix] is what happens for another
    conversion.  se_error and se_debug are sequences of three calls of se_log. *)
From Stdlib Require Import ZArith Lia.
From stdpp Require Import base option numbers list gmap.
From S2P Require Import Prelude.
From S2P Require Import CArray.
From S2P Require Import Utils.

Definition BUFSIZE : Z := 201.
Definition NIL_STR : list Z := [40; 110; 105; 108; 41].
Definition hex (d : Z) : Z := if d <? 10 then 48 + d else 97 + (d - 10).

(** The length written, the buffer, and the index of the first character. *)
Definition zu2str_step (st : Z * Z * arr Z) : outcome ((Z * Z * arr Z) + (Z * arr Z)) :=
  let '(n, idx, buf) := st in
  if (0 <? idx) && (0 <? n) then
    buf ← awrite buf idx (n mod 10 + 48);
    Ok (inl (n / 10, idx - 1, buf))
  else Ok (inr (idx, buf)).
Definition zu2str (n : Z) (buf : arr Z) : outcome (Z * arr Z * Z) :=
  let idx := BUFSIZE - 1 in
  if n =? 0 then
    buf ← awrite buf idx 48;
    Ok (BUFSIZE - idx, buf, idx)
  else
    '(idx, buf) ← while_loop zu2str_step 8 (n, idx, buf);
    Ok (BUFSIZE - (idx + 1), buf, idx + 1).
Definition u2str (n : Z) (buf : arr Z) : outcome (Z * arr Z * Z) := zu2str n buf.

(** memcpy of a short string to the start of the buffer. *)
Fixpoint put_string (buf : arr Z) (i : Z) (s : list Z) : outcome (arr Z) :=
  match s with
  | [] => Ok buf
  | c :: s => buf ← awrite buf i c; put_string buf (i + 1) s
  end.
Definition p2str_step (st : Z * Z * arr Z) : outcome ((Z * Z * arr Z) + (Z * arr Z)) :=
  let '(n, idx, buf) := st in
  if (1 <? idx) && (0 <? n) then
    buf ← awrite buf idx (hex (n mod 16));
    Ok (inl (n / 16, idx - 1, buf))
  else Ok (inr (idx, buf)).
Definition p2str (ptr : Z) (buf : arr Z) : outcome (Z * arr Z * Z) :=
  if ptr =? 0 then
    buf ← put_string buf 0 NIL_STR;
    Ok (Z.of_nat (length NIL_STR), buf, 0)
  else if ptr =? 0 then   (* if (n == 0), not reachable *)
    buf ← put_string buf 0 [48; 120; 48];
    Ok (3, buf, 0)
  else
    '(idx, buf) ← while_loop p2str_step 8 (ptr, BUFSIZE - 1, buf);
    let idx := idx - 1 in
    buf ← awrite buf idx 48;
    buf ← awrite buf (idx + 1) 120;
    Ok (BUFSIZE - idx, buf, idx).

(** The variable arguments: an unsigned, a size_t, or a pointer with the string it
    points to, if any. *)
Inductive va_arg : Type :=
  | VaU (n : Z)
  | VaZ (n : Z)
  | VaPtr (p : Z) (str : option (list Z)).

(** [len] bytes of the buffer from [begin], as write sends them. *)
Definition buf_slice (buf : arr Z) (begin len : Z) : list Z :=
  (λ i, acell buf i) <$> seqZ begin len.
(** The characters of [msg] from [i] up to [j]. *)
Definition msg_slice (msg : list Z) (i j : Z) : list Z :=
  take (Z.to_nat (j - i)) (drop (Z.to_nat i) msg).

(** void vfse_log(int fd, const char *msg, va_list args): [None] is NULL, the loop state is the
    position in [msg], [begin], the buffer, the arguments left and the bytes written. *)
Definition vfse_log_step (msg : list Z) (st : Z * Z * arr Z * list va_arg * list Z)
    : outcome ((Z * Z * arr Z * list va_arg * list Z) + list Z) :=
  let '(i, begin, buf, args, out) := st in
  c ← char_at msg i;
  if c =? 0 then
    Ok (inr (if begin <? i then out ++ msg_slice msg begin i else out))
  else if c =? 37 (* % *) then
    let out := out ++ msg_slice msg begin i in
    next ← char_at msg (i + 1);
    if next =? 37 then Ok (inl (i + 2, i + 2, buf, args, out ++ [37]))
    else if next =? 117 (* u *) then
      match args with
      | VaU n :: args =>
          '(len, buf, b) ← u2str n buf;
          Ok (inl (i + 2, i + 2, buf, args, out ++ buf_slice buf b len))
      | _ => Fail UB
      end
    else if next =? 112 (* p *) then
      match args with
      | VaPtr p _ :: args =>
          '(len, buf, b) ← p2str p buf;
          Ok (inl (i + 2, i + 2, buf, args, out ++ buf_slice buf b len))
      | _ => Fail UB
      end
    else if next =? 122 (* z *) then
      next2 ← char_at msg (i + 2);
      if next2 =? 117 then
        match args with
        | VaZ n :: args =>
            '(len, buf, b) ← zu2str n buf;
            Ok (inl (i + 3, i + 3, buf, args, out ++ buf_slice buf b len))
        | _ => Fail UB
        end
      else Ok (inl (i + 2, i + 2, buf, args, out))
    else if next =? 115 (* s *) then
      match args with
      | VaPtr _ (Some s) :: args =>
          len ← msg_len s;
          Ok (inl (i + 2, i + 2, buf, args, out ++ msg_slice s 0 len))
      | _ => Fail UB
      end
    else
      match args with
      | VaPtr _ _ :: args => Ok (inl (i + 1, begin, buf, args, out))
      | _ => Fail UB
      end
  else Ok (inl (i + 1, begin, buf, args, out)).
Definition vfse_log (buf : arr Z) (msg : option (list Z)) (args : list va_arg) : outcome (list Z) :=
  match msg with
  | None => Ok []   (* msg == NULL *)
  | Some msg => while_loop (vfse_log_step msg) 32 (0, 0, buf, args, [])
  end.

(** void se_log(const char *msg, ...) and void fse_log(int fd, const char *msg, ...): the
    descriptor and the bytes that the calls of write send to it, in order. *)
Definition STDERR_FILENO : Z := 2.
Definition se_log (buf : arr Z) (msg : option (list Z)) (args : list va_arg) : outcome (Z * list Z) :=
  out ← vfse_log buf msg args; Ok (STDERR_FILENO, out).
Definition fse_log (buf : arr Z) (fd : Z) (msg : option (list Z)) (args : list va_arg) : outcome (Z * list Z) :=
  out ← vfse_log buf msg args; Ok (fd, out).

(** ** The number printers *)

(** The digits of [n] in base [b], the most significant first. *)
Fixpoint digits (fuel : nat) (b n : Z) : list Z :=
  match fuel with
  | O => []
  | S fuel => if n =? 0 then [] else digits fuel b (n / b) ++ [n mod b]
  end.

Lemma digits_value fuel b n :
  1 < b → 0 ≤ n < b ^ Z.of_nat fuel → foldl (λ v d, b * v + d) 0 (digits fuel b n) = n.
Proof.
  intros Hb. revert n. induction fuel as [|fuel IH]; intros n Hn.
  - change (Z.of_nat 0) with 0 in Hn. rewrite Z.pow_0_r in Hn. simpl. lia.
  - simpl. destruct (Z.eqb_spec n 0) as [->|Hn0]; [done|].
    rewrite foldl_app, IH. { simpl. pose proof (Z.div_mod n b). lia. }
    rewrite Nat2Z.inj_succ, Z.pow_succ_r in Hn by lia.
    split; [apply Z.div_pos; lia|apply Z.div_lt_upper_bound; lia].
Qed.

Lemma digits_range fuel b n : 0 < b → Forall (λ d, 0 ≤ d < b) (digits fuel b n).
Proof.
  intros Hb. revert n. induction fuel as [|fuel IH]; intros n; simpl; [constructor|].
  destruct (n =? 0); [constructor|]. apply Forall_app. split; [apply IH|].
  repeat constructor; apply Z.mod_pos_bound; lia.
Qed.

Lemma digits_length fuel b n : (length (digits fuel b n) ≤ fuel)%nat.
Proof.
  revert n. induction fuel as [|fuel IH]; intros n; simpl; [lia|].
  destruct (n =? 0); simpl; [lia|]. rewrite length_app. simpl. specialize (IH (n / b)). lia.
Qed.

Section emit.
Context (b lo : Z) (chr : Z → Z).

(** The loop both printers run. *)
Definition emit_step (st : Z * Z * arr Z) : outcome ((Z * Z * arr Z) + (Z * arr Z)) :=
  let '(n, idx, buf) := st in
  if (lo <? idx) && (0 <? n) then
    buf ← awrite buf idx (chr (n mod b));
    Ok (inl (n / b, idx - 1, buf))
  else Ok (inr (idx, buf)).

Lemma emit_loop (Hb : 1 < b) (Hlo : 0 ≤ lo) (fuel : nat) : ∀ n idx buf,
  0 ≤ n < b ^ Z.of_nat fuel → lo + Z.of_nat fuel ≤ idx → idx < alen buf →
  let ds := digits fuel b n in
  let idx' := idx - Z.of_nat (length ds) in
  ∃ buf', iterate emit_step (S fuel) (n, idx, buf) = Ok (inr (idx', buf')) ∧
    alen buf' = alen buf ∧ buf_slice buf' (idx' + 1) (idx - idx') = chr <$> ds ∧
    (∀ i, idx < i → acell buf' i = acell buf i).
Proof.
  induction fuel as [|fuel IH]; intros n idx buf Hn Hidx Hlen; cbv zeta.
  - change (Z.of_nat 0) with 0 in Hn. rewrite Z.pow_0_r in Hn. assert (n = 0) as -> by lia.
    exists buf. simpl length. change (Z.of_nat 0) with 0. rewrite Z.sub_0_r, Z.sub_diag, iterate_1.
    unfold emit_step. by rewrite andb_false_r.
  - simpl digits. destruct (Z.eqb_spec n 0) as [->|Hn0].
    { exists buf. simpl length. change (Z.of_nat 0) with 0. rewrite Z.sub_0_r, Z.sub_diag.
      rewrite (iterate_stop _ _ _ (idx, buf)); [done|]. unfold emit_step. by rewrite andb_false_r. }
    assert (0 ≤ n / b < b ^ Z.of_nat fuel) as Hdiv.
    { rewrite Nat2Z.inj_succ, Z.pow_succ_r in Hn by lia.
      split; [apply Z.div_pos; lia|apply Z.div_lt_upper_bound; lia]. }
    destruct (IH (n / b) (idx - 1) (aupd buf idx (chr (n mod b)))) as (buf' & Hit & Hl & Hs & Hf);
      [done|lia|simpl; lia|].
    exists buf'. rewrite length_app. simpl length.
    replace (idx - 1 - Z.of_nat (length (digits fuel b (n / b))))
      with (idx - Z.of_nat (length (digits fuel b (n / b)) + 1)) in * by lia.
    set (idx' := idx - Z.of_nat (length (digits fuel b (n / b)) + 1)) in *.
    split; [|split; [done|split]].
    + rewrite <- Hit. apply iterate_next. unfold emit_step.
      replace ((lo <? idx) && (0 <? n)) with true by lia. by rewrite awrite_in by lia.
    + unfold buf_slice in *. replace (idx - idx') with ((idx - 1 - idx') + 1) by lia.
      rewrite seqZ_app, fmap_app, Hs, fmap_app by lia. f_equal.
      replace (idx' + 1 + (idx - 1 - idx')) with idx by lia. simpl.
      by rewrite Hf, acell_aupd_eq by lia.
    + intros i Hi. rewrite Hf by lia. by rewrite acell_aupd_ne by lia.
Qed.
End emit.

(** What the conversions print. *)
Definition dec_text (n : Z) : list Z := if n =? 0 then [48] else (λ d, d + 48) <$> digits 20 10 n.
Definition ptr_text (p : Z) : list Z := if p =? 0 then NIL_STR else 48 :: 120 :: (hex <$> digits 16 16 p).

Lemma zu2str_ok n buf :
  alen buf = BUFSIZE → 0 ≤ n < 2 ^ 64 →
  ∃ len buf' begin, zu2str n buf = Ok (len, buf', begin) ∧ alen buf' = BUFSIZE ∧
    buf_slice buf' begin len = dec_text n.
Proof.
  intros Hlen Hn. unfold zu2str, dec_text. change (BUFSIZE - 1) with 200. change BUFSIZE with 201 in *.
  destruct (Z.eqb_spec n 0) as [->|Hn0].
  - rewrite awrite_in by lia. cbn [mbind outcome_bind]. eexists _, _, _. split; [done|].
    split; [done|]. unfold buf_slice. simpl. by rewrite acell_aupd_eq.
  - change zu2str_step with (emit_step 10 0 (λ d, d + 48)).
    destruct (emit_loop 10 0 (λ d, d + 48) ltac:(lia) ltac:(lia) 20 n 200 buf)
      as (buf' & Hit & Hl & Hs & _); [lia|lia|lia|].
    rewrite (while_loop_done _ 8 _ _ _ Hit) by (simpl; lia). cbn [mbind outcome_bind].
    eexists _, _, _. split; [reflexivity|]. split; [lia|]. rewrite <- Hs. f_equal. lia.
Qed.

Lemma buf_slice_ext buf buf' i n :
  (∀ j, i ≤ j < i + n → acell buf' j = acell buf j) → buf_slice buf' i n = buf_slice buf i n.
Proof. intros H. apply list_fmap_ext. intros j x Hx%lookup_seqZ. apply H. lia. Qed.

Lemma p2str_ok p buf :
  alen buf = BUFSIZE → 0 ≤ p < 2 ^ 64 →
  ∃ len buf' begin, p2str p buf = Ok (len, buf', begin) ∧ alen buf' = BUFSIZE ∧
    buf_slice buf' begin len = ptr_text p.
Proof.
  intros Hlen Hp. unfold p2str, ptr_text. change (BUFSIZE - 1) with 200. change BUFSIZE with 201 in *.
  destruct (Z.eqb_spec p 0) as [->|Hp0].
  - cbn [put_string NIL_STR].
    do 5 (rewrite awrite_in by (autorewrite with carray; lia); cbn [mbind outcome_bind]).
    eexists _, _, _. split; [done|]. split; [done|]. unfold buf_slice.
    change (seqZ 0 (Z.of_nat (length NIL_STR))) with [0; 1; 2; 3; 4].
    rewrite !fmap_cons, fmap_nil, !acell_aupd. done.
  - change p2str_step with (emit_step 16 1 hex).
    destruct (emit_loop 16 1 hex ltac:(lia) ltac:(lia) 16 p 200 buf) as (buf' & Hit & Hl & Hs & _);
      [lia|lia|lia|].
    rewrite (while_loop_done _ 8 _ _ _ Hit) by (simpl; lia). cbn [mbind outcome_bind].
    pose proof (digits_length 16 16 p) as Hdl.
    set (idx := 200 - Z.of_nat (length (digits 16 16 p))) in *.
    rewrite awrite_in by lia. cbn [mbind outcome_bind].
    rewrite awrite_in by (simpl; lia). cbn [mbind outcome_bind].
    eexists _, _, _. split; [reflexivity|]. split; [simpl; lia|].
    unfold buf_slice. rewrite seqZ_cons, fmap_cons by lia. rewrite seqZ_cons, fmap_cons by lia.
    replace (idx - 1 + 1) with idx by lia. replace (Z.succ (idx - 1)) with idx by lia. f_equal.
    { by rewrite acell_aupd_ne, acell_aupd_eq by lia. }
    f_equal; [by rewrite acell_aupd_eq|]. rewrite <- Hs. unfold buf_slice.
    replace (Z.pred (Z.pred (201 - (idx - 1)))) with (200 - idx) by lia. change (Z.succ idx) with (idx + 1).
    apply list_fmap_ext. intros j x Hx%lookup_seqZ. by rewrite !acell_aupd_ne by lia.
Qed.

(** ** Formats *)
Inductive piece : Type :=
  | Lit (c : Z)
  | Percent
  | ConvU (n : Z)
  | ConvZ (n : Z)
  | ConvP (p : Z) (str : option (list Z))
  | ConvS (p : Z) (s : list Z).

Definition piece_ok (x : piece) : Prop :=
  match x with
  | Lit c => c ≠ 0 ∧ c ≠ 37
  | Percent => True
  | ConvU n => 0 ≤ n < 2 ^ 32
  | ConvZ n | ConvP n _ => 0 ≤ n < 2 ^ 64
  | ConvS _ s => Forall (λ c, c ≠ 0) s ∧ Z.of_nat (length s) < 2 ^ 32
  end.

(** The characters of the format, the argument it takes, and the text it stands for. *)
Definition piece_fmt (x : piece) : list Z :=
  match x with
  | Lit c => [c]
  | Percent => [37; 37]
  | ConvU _ => [37; 117]
  | ConvZ _ => [37; 122; 117]
  | ConvP _ _ => [37; 112]
  | ConvS _ _ => [37; 115]
  end.
Definition piece_args (x : piece) : list va_arg :=
  match x with
  | Lit _ | Percent => []
  | ConvU n => [VaU n]
  | ConvZ n => [VaZ n]
  | ConvP p str => [VaPtr p str]
  | ConvS p s => [VaPtr p (Some (s ++ [0]))]
  end.
Definition piece_text (x : piece) : list Z :=
  match x with
  | Lit c => [c]
  | Percent => [37]
  | ConvU n | ConvZ n => dec_text n
  | ConvP p _ => ptr_text p
  | ConvS _ s => s
  end.

(** The format, the arguments and the text of a list of pieces. *)
Definition fmt (ps : list piece) : list Z := ps ≫= piece_fmt.
Definition fmt_args (ps : list piece) : list va_arg := ps ≫= piece_args.
Definition text (ps : list piece) : list Z := ps ≫= piece_text.

Lemma char_at_app pre c t :
  char_at (pre ++ c :: t) (Z.of_nat (length pre)) = Ok c.
Proof. unfold char_at. rewrite Nat2Z.id, lookup_app_r, Nat.sub_diag by lia. done. Qed.

Lemma char_at_next pre c d t i :
  i = Z.of_nat (length pre) + 1 → char_at (pre ++ c :: d :: t) i = Ok d.
Proof.
  intros ->. replace (pre ++ c :: d :: t) with ((pre ++ [c]) ++ d :: t) by by rewrite <- app_assoc.
  replace (Z.of_nat (length pre) + 1) with (Z.of_nat (length (pre ++ [c])))
    by (rewrite length_app; simpl; lia).
  apply char_at_app.
Qed.

Lemma msg_slice_app pre lits t i j :
  i = Z.of_nat (length pre) → j = Z.of_nat (length (pre ++ lits)) →
  msg_slice (pre ++ lits ++ t) i j = lits.
Proof.
  intros -> ->. unfold msg_slice. rewrite Nat2Z.id, drop_app_length.
  rewrite length_app. replace (Z.to_nat _) with (length lits) by lia. by rewrite take_app_length.
Qed.

(** One conversion at position [length pl]; [lits] is not written yet. *)
Lemma vfse_log_piece x pl b lits rest buf args out :
  piece_ok x → (∀ c, x ≠ Lit c) → alen buf = BUFSIZE →
  let msg := pl ++ piece_fmt x ++ rest in
  msg_slice msg b (Z.of_nat (length pl)) = lits →
  ∃ buf', alen buf' = BUFSIZE ∧
    vfse_log_step msg (Z.of_nat (length pl), b, buf, piece_args x ++ args, out) =
    let i := Z.of_nat (length (pl ++ piece_fmt x)) in
    Ok (inl (i, i, buf', args, (out ++ lits) ++ piece_text x)).
Proof.
  intros Hok Hlit Hbuf msg Hlits. unfold vfse_log_step. rewrite Hlits. unfold msg.
  rewrite (length_app _ (piece_fmt x)), Nat2Z.inj_add.
  destruct x as [c| |n|n|p str|p s]; cbn [piece_fmt piece_args piece_text piece_ok app] in *;
    [by destruct (Hlit c)|..];
    rewrite char_at_app; cbn [mbind outcome_bind];
    rewrite (char_at_next pl 37 _ _ (Z.of_nat (length pl) + 1)) by done;
    cbn [mbind outcome_bind].
  - exists buf. done.
  - destruct (zu2str_ok n buf Hbuf ltac:(lia)) as (len & buf' & b' & Hz & Hl & Hs).
    unfold u2str. rewrite Hz. cbn [mbind outcome_bind]. exists buf'. by rewrite Hs.
  - destruct (zu2str_ok n buf Hbuf ltac:(lia)) as (len & buf' & b' & Hz & Hl & Hs).
    assert (char_at (pl ++ 37 :: 122 :: 117 :: rest) (Z.of_nat (length pl) + 2) = Ok 117) as Hu.
    { replace (pl ++ 37 :: 122 :: 117 :: rest) with ((pl ++ [37]) ++ 122 :: 117 :: rest)
        by by rewrite <- app_assoc.
      apply char_at_next. rewrite length_app. simpl. lia. }
    simpl (_ =? _). cbv iota. rewrite Hu. cbn [mbind outcome_bind]. rewrite Hz. cbn [mbind outcome_bind].
    exists buf'. by rewrite Hs.
  - destruct (p2str_ok p buf Hbuf Hok) as (len & buf' & b' & Hz & Hl & Hs).
    rewrite Hz. cbn [mbind outcome_bind]. exists buf'. by rewrite Hs.
  - destruct Hok as [Hs Hlen]. unfold msg_len. rewrite msg_len_from_ok by (done || lia).
    cbn [mbind outcome_bind]. exists buf.
    rewrite (msg_slice_app [] s [0]) by (simpl; done || lia). done.
Qed.

Lemma vfse_log_iterate ps : Forall piece_ok ps → ∀ pre lits buf out rest args,
  alen buf = BUFSIZE →
  ∃ k, (k ≤ S (length (fmt ps)))%nat ∧
    iterate (vfse_log_step (pre ++ lits ++ fmt ps ++ 0 :: rest)) k
      (Z.of_nat (length (pre ++ lits)), Z.of_nat (length pre), buf, fmt_args ps ++ args, out) =
    Ok (inr (out ++ lits ++ text ps)).
Proof.
  induction 1 as [|x ps Hx _ IH]; intros pre lits buf out rest args Hbuf.
  - exists 1%nat. split; [simpl; lia|]. rewrite iterate_1. unfold vfse_log_step.
    change (fmt [] ++ 0 :: rest) with (0 :: rest). change (text []) with (@nil Z).
    rewrite (app_assoc pre), char_at_app. cbn [mbind outcome_bind]. simpl (0 =? 0). cbv iota.
    rewrite <- (app_assoc pre), msg_slice_app, app_nil_r by done.
    destruct (Z.ltb_spec (Z.of_nat (length pre)) (Z.of_nat (length (pre ++ lits)))) as [|Hle]; [done|].
    rewrite length_app in Hle. destruct lits; [by rewrite app_nil_r|]. simpl in Hle. lia.
  - assert ((∃ c, x = Lit c) ∨ (∀ c, x ≠ Lit c)) as [[c ->]|Hnl] by (destruct x; naive_solver).
    + destruct (IH pre (lits ++ [c]) buf out rest args Hbuf) as (k & Hk & Hit).
      exists (S k). split; [simpl; lia|]. rewrite <- !app_assoc in Hit.
      change (text (Lit c :: ps)) with (c :: text ps). change (fmt (Lit c :: ps)) with (c :: fmt ps).
      change (fmt_args (Lit c :: ps)) with (fmt_args ps). simpl app in *. rewrite <- Hit.
      apply iterate_next. unfold vfse_log_step. rewrite (app_assoc pre lits), char_at_app.
      cbn [mbind outcome_bind]. destruct Hx as [H0 H37].
      rewrite (proj2 (Z.eqb_neq c 0)), (proj2 (Z.eqb_neq c 37)) by done.
      rewrite (app_assoc pre lits [c]), (length_app _ [c]), Nat2Z.inj_add. done.
    + destruct (vfse_log_piece x (pre ++ lits) (Z.of_nat (length pre)) lits (fmt ps ++ 0 :: rest)
        buf (fmt_args ps ++ args) out) as (buf' & Hbuf' & Hstep); [done|naive_solver|done| |].
      { rewrite <- app_assoc. by rewrite msg_slice_app. }
      destruct (IH (pre ++ lits ++ piece_fmt x) [] buf' ((out ++ lits) ++ piece_text x) rest args Hbuf')
        as (k & Hk & Hit).
      exists (S k). split.
      { change (fmt (x :: ps)) with (piece_fmt x ++ fmt ps). rewrite length_app.
        destruct x; simpl; lia || naive_solver. }
      change (text (x :: ps)) with (piece_text x ++ text ps).
      change (fmt (x :: ps)) with (piece_fmt x ++ fmt ps).
      change (fmt_args (x :: ps)) with (piece_args x ++ fmt_args ps).
      rewrite app_nil_r in Hit. rewrite <- !app_assoc in *. simpl app in *. rewrite <- Hit.
      by apply iterate_next.
Qed.

Lemma vfse_log_format ps args buf :
  Forall piece_ok ps → Z.of_nat (length (fmt ps)) < 2 ^ 31 → alen buf = BUFSIZE →
  vfse_log buf (Some (fmt ps ++ [0])) (fmt_args ps ++ args) = Ok (text ps).
Proof.
  intros Hps Hlen Hbuf.
  destruct (vfse_log_iterate ps Hps [] [] buf [] [] args Hbuf) as (k & Hk & Hit).
  unfold vfse_log. eapply while_loop_done; [exact Hit|].
  apply Nat2Z.inj_le. rewrite Nat2Z.inj_pow. change (Z.of_nat 2 ^ Z.of_nat 32) with (2 ^ 32). lia.
Qed.

(** The value a text of base-[b] digits denotes. *)
Definition base_value (b : Z) (ds : list Z) : Z := foldl (λ v d, b * v + d) 0 ds.

(** C35. Every format made of literal characters, %%, %u, %zu, %p and %s with arguments
    of the right types is printed as its text: the loop ends, stays inside the format
    and the 201-byte buffer, and the numbers come out as digits that denote them. *)
Theorem vfse_log_prints ps buf :
  Forall piece_ok ps → Z.of_nat (length (fmt ps)) < 2 ^ 31 → alen buf = BUFSIZE →
  vfse_log buf (Some (fmt ps ++ [0])) (fmt_args ps) = Ok (text ps) ∧
  (∀ n, 0 < n < 2 ^ 64 →
     base_value 10 (digits 20 10 n) = n ∧ Forall (λ d, 0 ≤ d < 10) (digits 20 10 n) ∧
     base_value 16 (digits 16 16 n) = n ∧ Forall (λ d, 0 ≤ d < 16) (digits 16 16 n)).
Proof.
  intros Hps Hlen Hbuf. split.
  - pose proof (vfse_log_format ps [] buf Hps Hlen Hbuf) as H. by rewrite app_nil_r in H.
  - intros n Hn. split_and!.
    + apply digits_value; lia.
    + apply digits_range. lia.
    + apply digits_value; lia.
    + apply digits_range. lia.
Qed.

Lemma vfse_log_prints_witness :
  let ps := [Lit 115; Lit 61; ConvU 70; Percent; ConvP 255 None; ConvS 1 [72; 105]] in
  vfse_log (amake 201 0) (Some (fmt ps ++ [0])) (fmt_args ps) =
    Ok [115; 61; 55; 48; 37; 48; 120; 102; 102; 72; 105] ∧
  (∀ n, 0 < n < 2 ^ 64 →
     base_value 10 (digits 20 10 n) = n ∧ Forall (λ d, 0 ≤ d < 10) (digits 20 10 n) ∧
     base_value 16 (digits 16 16 n) = n ∧ Forall (λ d, 0 ≤ d < 16) (digits 16 16 n)).
Proof.
  apply (vfse_log_prints [Lit 115; Lit 61; ConvU 70; Percent; ConvP 255 None; ConvS 1 [72; 105]]).
  - repeat (apply Forall_cons; split); simpl; repeat split; try done; try lia;
      repeat constructor; lia.
  - simpl. lia.
  - done.
Defined.

(** C36. A conversion the printer does not know repeats the text before it: the default
    branch consumes an argument but leaves [begin] where it was, so the prefix, already
    written, is written a second time together with the raw conversion. *)
Theorem vfse_log_repeats_prefix prefix d p str buf :
  Forall (λ c, c ≠ 0 ∧ c ≠ 37) prefix → Z.of_nat (length prefix) < 2 ^ 31 →
  d ∉ [0; 37; 117; 112; 122; 115] →
  vfse_log buf (Some (prefix ++ [37; d; 0])) [VaPtr p str] = Ok (prefix ++ prefix ++ [37; d]).
Proof.
  intros Hpre Hlen Hd. rewrite !not_elem_of_cons, <- !Z.eqb_neq in Hd.
  destruct Hd as (Hd1 & Hd2 & Hd3 & Hd4 & Hd5 & Hd6 & _).
  set (msg := prefix ++ [37; d; 0]).
  assert (∀ l1 l2 args out, prefix = l1 ++ l2 →
    iterate (vfse_log_step msg) (length l2) (Z.of_nat (length l1), 0, buf, args, out) =
    Ok (inl (Z.of_nat (length prefix), 0, buf, args, out))) as Hlit.
  { intros l1 l2. revert l1. induction l2 as [|c l2 IH]; intros l1 args out Heq.
    - rewrite app_nil_r in Heq. by subst.
    - assert (c ≠ 0 ∧ c ≠ 37) as [Hc1 Hc2].
      { rewrite Forall_forall in Hpre. apply Hpre. rewrite Heq. set_solver. }
      cbn [length]. rewrite (iterate_next _ _ _ (Z.of_nat (length (l1 ++ [c])), 0, buf, args, out)).
      + apply IH. by rewrite <- app_assoc.
      + unfold vfse_log_step, msg. rewrite Heq, <- app_assoc. simpl app. rewrite char_at_app.
        cbn [mbind outcome_bind]. rewrite (proj2 (Z.eqb_neq c 0)), (proj2 (Z.eqb_neq c 37)) by done.
        rewrite length_app, Nat2Z.inj_add. done. }
  unfold vfse_log. apply (while_loop_done _ 32 (length prefix + 3)).
  2: { apply Nat2Z.inj_le. rewrite Nat2Z.inj_pow. change (Z.of_nat 2 ^ Z.of_nat 32) with (2 ^ 32). lia. }
  rewrite iterate_add. pose proof (Hlit [] prefix [VaPtr p str] [] eq_refl) as H0.
  simpl length in H0. change (Z.of_nat 0) with 0 in H0. rewrite H0. cbn [mbind outcome_bind].
  set (n := Z.of_nat (length prefix)).
  assert (msg_slice msg 0 n = prefix) as Hs1 by (apply (msg_slice_app [] prefix); done).
  rewrite (iterate_next _ _ _ (n + 1, 0, buf, [], prefix)).
  2: { unfold vfse_log_step. rewrite Hs1. unfold msg, n. rewrite char_at_app. cbn [mbind outcome_bind].
       rewrite (char_at_next prefix 37 d [0] (Z.of_nat (length prefix) + 1)) by done. cbn [mbind outcome_bind].
       by rewrite Hd2, Hd3, Hd4, Hd5, Hd6. }
  assert (char_at msg (n + 1) = Ok d ∧ char_at msg (n + 2) = Ok 0) as [Hc1 Hc2].
  { split; [by apply char_at_next|]. unfold msg, n.
    replace (prefix ++ [37; d; 0]) with ((prefix ++ [37]) ++ [d; 0]) by by rewrite <- app_assoc.
    apply char_at_next. rewrite length_app. simpl. lia. }
  rewrite (iterate_next _ _ _ (n + 2, 0, buf, [], prefix)).
  2: { unfold vfse_log_step. rewrite Hc1. cbn [mbind outcome_bind].
       rewrite Hd1, Hd2. do 2 f_equal. by replace (n + 1 + 1) with (n + 2) by lia. }
  rewrite iterate_1. unfold vfse_log_step. rewrite Hc2. cbn [mbind outcome_bind].
  simpl (0 =? 0). cbv iota. replace (0 <? n + 2) with true by lia.
  do 3 f_equal. unfold msg. 
  replace (prefix ++ [37; d; 0]) with ((prefix ++ [37; d]) ++ [0]) by by rewrite <- app_assoc.
  apply (msg_slice_app [] (prefix ++ [37; d])); [done|]. simpl. rewrite length_app. simpl. lia.
Qed.

Lemma vfse_log_repeats_prefix_witness :
  vfse_log (amake 201 0) (Some ([110; 61] ++ [37; 120; 0])) [VaPtr 7 None] =
  Ok ([110; 61] ++ [110; 61] ++ [37; 120]).
Proof.
  apply (vfse_log_repeats_prefix [110; 61] 120 7 None).
  - repeat constructor; lia.
  - simpl. lia.
  - mem_compute || (rewrite !not_elem_of_cons; repeat split; try lia; apply not_elem_of_nil).
Defined.

(** ** The macros se_error and se_debug

    A build with LOGGING prints the messages of se_debug; any build prints those of se_error
    before it exits.  The place of the call is the file, the line and the function that the
    compiler fills in; addresses of string literals are not used. *)
Definition MSG_ERROR : list Z := [91; 69; 82; 82; 79; 82; 93; 32].    (* "[ERROR] " *)
Definition MSG_DEBUG : list Z := [91; 68; 69; 66; 85; 71; 93; 32].    (* "[DEBUG] " *)
Definition pr_fmt : list Z := [37; 115; 58; 37; 117; 32; 40; 37; 115; 41; 32].   (* "%s:%u (%s) " *)
Record place : Type := Place { pl_file : list Z; pl_line : Z; pl_func : list Z }.
Definition place_args (pl : place) : list va_arg :=
  [VaPtr 1 (Some (pl_file pl ++ [0])); VaU (pl_line pl); VaPtr 1 (Some (pl_func pl ++ [0]))].

(** se_log(tag pr_fmt); se_log(msg, args); se_log("\n"); *)
Definition se_message (buf : arr Z) (tag : list Z) (pl : place) (msg : option (list Z)) (args : list va_arg)
    : outcome (list (Z * list Z)) :=
  o1 ← se_log buf (Some (tag ++ pr_fmt ++ [0])) (place_args pl);
  o2 ← se_log buf msg args;
  o3 ← se_log buf (Some [10; 0]) [];
  Ok [o1; o2; o3].
(** The bytes written, and the status of exit. *)
Definition se_error (buf : arr Z) (pl : place) (msg : option (list Z)) (args : list va_arg)
    : outcome (list (Z * list Z) * Z) :=
  out ← se_message buf MSG_ERROR pl msg args; Ok (out, 1).
Definition se_error_with_errno (errno : Z) (buf : arr Z) (pl : place) (msg : option (list Z)) (args : list va_arg)
    : outcome (list (Z * list Z) * Z) :=
  out ← se_message buf MSG_ERROR pl msg args; Ok (out, errno).
Definition se_debug (logging : bool) (buf : arr Z) (pl : place) (msg : option (list Z)) (args : list va_arg)
    : outcome (list (Z * list Z)) :=
  if logging then se_message buf MSG_DEBUG pl msg args else Ok [].

Lemma se_log_format buf ps :
  Forall piece_ok ps → Z.of_nat (length (fmt ps)) < 2 ^ 31 → alen buf = BUFSIZE →
  se_log buf (Some (fmt ps ++ [0])) (fmt_args ps) = Ok (STDERR_FILENO, text ps).
Proof.
  intros Hps Hl Hb. pose proof (vfse_log_format ps [] buf Hps Hl Hb) as Hf.
  rewrite app_nil_r in Hf. unfold se_log. by rewrite Hf.
Qed.

Definition place_ok (pl : place) : Prop :=
  Forall piece_ok [ConvS 1 (pl_file pl); ConvU (pl_line pl); ConvS 1 (pl_func pl)].

(** A message of supported conversions: the tag, file:line (function), the text, a newline. *)
Lemma se_error_prints buf pl ps :
  place_ok pl → Forall piece_ok ps → Z.of_nat (length (fmt ps)) < 2 ^ 31 → alen buf = BUFSIZE →
  se_error buf pl (Some (fmt ps ++ [0])) (fmt_args ps) =
  Ok ([(STDERR_FILENO, MSG_ERROR ++ pl_file pl ++ [58] ++ dec_text (pl_line pl) ++ [32; 40] ++ pl_func pl ++ [41; 32]);
       (STDERR_FILENO, text ps); (STDERR_FILENO, [10])], 1).
Proof.
  intros Hpl Hps Hl Hb. unfold se_error, se_message.
  apply Forall_cons in Hpl as [Hf [Hn [Hfn _]%Forall_cons]%Forall_cons].
  set (qs := (Lit <$> MSG_ERROR) ++
    [ConvS 1 (pl_file pl); Lit 58; ConvU (pl_line pl); Lit 32; Lit 40; ConvS 1 (pl_func pl); Lit 41; Lit 32]).
  assert (Forall piece_ok qs) as Hqs by (repeat (apply Forall_cons; split); done || (constructor; lia) || constructor).
  pose proof (se_log_format buf qs Hqs ltac:(simpl; lia) Hb) as Htag.
  change (fmt qs ++ [0]) with (MSG_ERROR ++ pr_fmt ++ [0]) in Htag. change (fmt_args qs) with (place_args pl) in Htag.
  rewrite Htag, (se_log_format buf ps Hps Hl Hb). cbn [mbind outcome_bind].
  pose proof (se_log_format buf [Lit 10] ltac:(by repeat constructor) ltac:(simpl; lia) Hb) as H3.
  change (fmt [Lit 10] ++ [0]) with [10; 0] in H3. change (fmt_args [Lit 10]) with (@nil va_arg) in H3.
  rewrite H3. reflexivity.
Qed.
