(* ===== verification/ContainerLL.v ===== *)
(** * ContainerLL: container_ll.c

    The intrusive doubly-linked lists that hold the metadata of an arena.  Entries
    live in a store and are linked by address; NULL is address 0.  [EntryStore] is
    the interface between the lists and the components whose structures embed an
    [ll_entry] as their first field (so CONTAINER_OF is the identity on addresses):
    the list operations and their theorems are stated against the interface, and
    every [gmap Z T] with [HasEntry T] implements it.

    [dll s head l] says that the list at [head] consists of the entries [l]
    (address and key) in this order; [ll_find_spec], [ll_add_spec] and
    [ll_del_spec] refine the operations to lookup, cons and removal. *)
From Stdlib Require Import ZArith Lia.
From stdpp Require Import base option numbers list gmap.
From S2P Require Import Prelude.

Record ll_entry : Type := LLEntry { fd : Z; bk : Z; key : Z }.

Definition set_fd (e : ll_entry) (v : Z) : ll_entry := LLEntry v (bk e) (key e).
Definition set_bk (e : ll_entry) (v : Z) : ll_entry := LLEntry (fd e) v (key e).

Class EntryStore (St : Type) := {
  es_lookup : St → Z → option ll_entry;
  es_update : St → Z → ll_entry → St;
  (* [es_frame s s']: the stores differ at most in the entries *)
  es_frame : St → St → Prop;
  es_lookup_update s a e b :
    is_Some (es_lookup s a) →
    es_lookup (es_update s a e) b = if decide (a = b) then Some e else es_lookup s b;
  es_frame_preorder :: PreOrder es_frame;
  es_frame_update s a e : es_frame s (es_update s a e)
}.

(** A structure with an embedded list entry. *)
Class HasEntry (T : Type) := {
  get_entry : T → ll_entry;
  put_entry : ll_entry → T → T;
  get_put_entry e t : get_entry (put_entry e t) = e;
  put_put_entry e e' t : put_entry e (put_entry e' t) = put_entry e t
}.

Definition no_entry : ll_entry := LLEntry 0 0 0.

#[export] Program Instance gmap_entry_store `{HasEntry T} : EntryStore (gmap Z T) := {
  es_lookup s a := get_entry <$> s !! a;
  es_update s a e := alter (put_entry e) a s;
  es_frame s s' := ∀ a, put_entry no_entry <$> s !! a = put_entry no_entry <$> s' !! a
}.
Next Obligation.
  intros T ? s a e b [x Hx]. simpl. rewrite lookup_alter.
  apply fmap_Some in Hx as (t & Ht & ->). case_decide as Hab; [subst b|done].
  rewrite Ht. simpl. by rewrite get_put_entry.
Qed.
Next Obligation. intros T ?. split; [done|]. intros s1 s2 s3 H1 H2 a. by rewrite H1. Qed.
Next Obligation.
  intros T ? s a e b. rewrite lookup_alter. case_decide as Hab; [subst b|done].
  destruct (s !! a) as [t|]; [simpl; by rewrite put_put_entry|done].
Qed.

Section container_ll.
Context `{Build} `{EntryStore St}.
Implicit Types (s : St) (a k head item : Z) (l : list (Z * Z)).

Definition rd_entry s a : outcome ll_entry :=
  match es_lookup s a with Some e => Ok e | None => Fail UB end.
Definition wr_fd s a (v : Z) : outcome St :=
  e ← rd_entry s a; Ok (es_update s a (set_fd e v)).
Definition wr_bk s a (v : Z) : outcome St :=
  e ← rd_entry s a; Ok (es_update s a (set_bk e v)).

(** void ll_init(ll_head_t *head): the new value of head->ll. *)
Definition ll_init : Z := 0.

(** ll_entry_t *ll_find(const ll_head_t *head, const void *key) *)
Definition ll_find_step s k (res : Z) : outcome (Z + Z) :=
  if res =? 0 then Ok (inr 0)
  else
    e ← rd_entry s res;
    if key e =? k then Ok (inr res) else Ok (inl (fd e)).
Definition ll_find s head k : outcome Z := while_loop (ll_find_step s k) 47 head.

(** void ll_add(ll_head_t *head, ll_entry_t *item) *)
Definition ll_add s head item : outcome (Z * St) :=
  e ← rd_entry s item;
  _ ← c_assert (fd e =? 0);
  _ ← c_assert (bk e =? 0);
  _ ← c_assert (negb (key e =? 0));
  _ ← (if asserts_on
       then found ← ll_find s head (key e); c_assert (found =? 0)
       else Ok tt);
  if head =? 0 then
    s ← wr_fd s item 0;
    s ← wr_bk s item 0;
    Ok (item, s)
  else
    let fst := head in
    s ← wr_bk s item 0;
    s ← wr_fd s item fst;
    s ← wr_bk s fst item;
    Ok (item, s).

(** The branch of ll_del that moves the head. *)
Definition ll_del_head s head item : outcome (Z * St) :=
  if head =? item then
    h ← rd_entry s head;
    if fd h =? 0 then Ok (0, s) else s ← wr_bk s (fd h) 0; Ok (fd h, s)
  else Ok (head, s).

(** The second half of ll_del: the neighbours of [item] skip it, and its own
    links are cleared. *)
Definition ll_unlink s item : outcome St :=
  e ← rd_entry s item;
  s ← (if negb (fd e =? 0) then wr_bk s (fd e) (bk e) else Ok s);
  e ← rd_entry s item;
  s ← (if negb (bk e =? 0) then wr_fd s (bk e) (fd e) else Ok s);
  s ← wr_fd s item 0;
  wr_bk s item 0.

(** void ll_del(ll_head_t *head, ll_entry_t *item) *)
Definition ll_del s head item : outcome (Z * St) :=
  e ← rd_entry s item;
  _ ← (if asserts_on
       then found ← ll_find s head (key e); c_assert (found =? item)
       else Ok tt);
  '(head, s) ← ll_del_head s head item;
  s ← ll_unlink s item;
  Ok (head, s).

(** ** The list at an address

    [dseg s prev l nxt]: the entries [l] are linked in this order, the first one
    back to [prev] and the last one on to [nxt]. *)
Definition first_of l (nxt : Z) : Z := match l with [] => nxt | (a, _) :: _ => a end.
Fixpoint last_of (prev : Z) l : Z := match l with [] => prev | (a, _) :: l => last_of a l end.
Fixpoint dseg s (prev : Z) l (nxt : Z) : Prop :=
  match l with
  | [] => True
  | (a, k) :: l =>
      a ≠ 0 ∧ es_lookup s a = Some (LLEntry (first_of l nxt) prev k) ∧ dseg s a l nxt
  end.
Definition dll s head l : Prop :=
  head = first_of l 0 ∧ dseg s 0 l 0 ∧ NoDup l.*1 ∧ Z.of_nat (length l) < 2 ^ 47.

Lemma rd_entry_ok s a e : es_lookup s a = Some e → rd_entry s a = Ok e.
Proof. unfold rd_entry. by intros ->. Qed.

Lemma wr_fd_ok s a e v :
  es_lookup s a = Some e → wr_fd s a v = Ok (es_update s a (set_fd e v)).
Proof. intros Ha. unfold wr_fd. by rewrite (rd_entry_ok _ _ _ Ha). Qed.

Lemma wr_bk_ok s a e v :
  es_lookup s a = Some e → wr_bk s a v = Ok (es_update s a (set_bk e v)).
Proof. intros Ha. unfold wr_bk. by rewrite (rd_entry_ok _ _ _ Ha). Qed.

Lemma es_lookup_update_eq s a e e' :
  es_lookup s a = Some e → es_lookup (es_update s a e') a = Some e'.
Proof. intros Ha. rewrite es_lookup_update by (by rewrite Ha). by case_decide. Qed.

Lemma es_lookup_update_ne s a e e' b :
  es_lookup s a = Some e → a ≠ b → es_lookup (es_update s a e') b = es_lookup s b.
Proof. intros Ha Hab. rewrite es_lookup_update by (by rewrite Ha). by case_decide. Qed.

(** A segment depends only on the entries it consists of. *)
Lemma dseg_ext s s' prev l nxt :
  (∀ a, a ∈ l.*1 → es_lookup s' a = es_lookup s a) → dseg s prev l nxt → dseg s' prev l nxt.
Proof.
  revert prev. induction l as [|[a k] l IH]; intros prev Hext; simpl; [done|].
  intros (Ha & Hl & Hseg). split_and!; [done| |].
  - rewrite Hext; [done|]. simpl. set_solver.
  - apply IH; [|done]. intros b Hb. apply Hext. simpl. set_solver.
Qed.

Lemma dseg_app s prev l1 l2 nxt :
  dseg s prev (l1 ++ l2) nxt ↔
  dseg s prev l1 (first_of l2 nxt) ∧ dseg s (last_of prev l1) l2 nxt.
Proof.
  revert prev. induction l1 as [|[a k] l1 IH]; intros prev; simpl; [naive_solver|].
  rewrite IH. replace (first_of (l1 ++ l2) nxt) with (first_of l1 (first_of l2 nxt))
    by (by destruct l1 as [|[] ?]). naive_solver.
Qed.

Lemma last_of_elem prev l : l ≠ [] → last_of prev l ∈ l.*1.
Proof.
  revert prev. induction l as [|[a k] l IH]; intros prev Hl; [done|]. simpl.
  destruct l as [|b l]; [set_solver|]. right. by apply IH.
Qed.

Lemma first_of_elem l nxt : l ≠ [] → first_of l nxt ∈ l.*1.
Proof. destruct l as [|[a k] l]; [done|]. set_solver. Qed.

Lemma dseg_elem s prev l nxt a :
  dseg s prev l nxt → a ∈ l.*1 → a ≠ 0 ∧ is_Some (es_lookup s a).
Proof.
  revert prev. induction l as [|[b k] l IH]; intros prev; simpl; [set_solver|].
  intros (Hb & Hl & Hseg) [->|Ha]%elem_of_cons; [split; [done|by eexists]|by eapply IH].
Qed.

(** Redirecting the two ends of a segment. *)
Lemma dseg_set_nxt s s' prev l nxt nxt' :
  dseg s prev l nxt → NoDup l.*1 → l ≠ [] →
  (∀ b, b ∈ l.*1 → es_lookup s' b =
     if decide (b = last_of prev l) then (λ e, set_fd e nxt') <$> es_lookup s b
     else es_lookup s b) →
  dseg s' prev l nxt'.
Proof.
  revert prev. induction l as [|[a k] l IH]; intros prev; simpl; [done|].
  intros (Ha & Hl & Hseg) [Hnot Hnd]%NoDup_cons _ Hext.
  destruct l as [|[a2 k2] l].
  - split_and!; [done| |done]. rewrite Hext, Hl by set_solver. by case_decide.
  - set (l' := (a2, k2) :: l) in *. split_and!; [done| |].
    + rewrite Hext, Hl by set_solver. rewrite decide_False; [done|].
      intros Heq. apply Hnot. rewrite Heq. by apply last_of_elem.
    + apply IH; [done..|]. intros b Hb. apply Hext. set_solver.
Qed.

Lemma dseg_set_prev s s' prev prev' l nxt :
  dseg s prev l nxt → NoDup l.*1 →
  (∀ b, b ∈ l.*1 → es_lookup s' b =
     if decide (b = first_of l 0) then (λ e, set_bk e prev') <$> es_lookup s b
     else es_lookup s b) →
  dseg s' prev' l nxt.
Proof.
  destruct l as [|[a k] l]; simpl; [done|].
  intros (Ha & Hl & Hseg) [Hnot Hnd]%NoDup_cons Hext. split_and!; [done| |].
  - rewrite Hext, Hl by set_solver. by case_decide.
  - eapply dseg_ext; [|done]. intros b Hb. rewrite Hext by set_solver.
    rewrite decide_False; [done|]. by intros ->.
Qed.

(** ** Functional correctness *)

(** The address of the first entry with the key, NULL when there is none. *)
Definition find_key k l : Z :=
  match list_find (λ x, x.2 = k) l with Some (_, (a, _)) => a | None => 0 end.

Lemma ll_find_iterate s prev l k :
  dseg s prev l 0 → iterate (ll_find_step s k) (S (length l)) (first_of l 0) =
                    Ok (inr (find_key k l)).
Proof.
  revert prev. induction l as [|[a k'] l IH]; intros prev; [done|].
  cbn [dseg first_of]. intros (Ha & Hl & Hseg).
  assert (ll_find_step s k a =
          if k' =? k then Ok (inr a) else Ok (inl (first_of l 0))) as Hstep.
  { unfold ll_find_step. replace (a =? 0) with false by lia.
    by rewrite (rd_entry_ok _ _ _ Hl). }
  destruct (Z.eqb_spec k' k) as [->|Hne].
  - rewrite (iterate_stop _ _ _ _ Hstep). unfold find_key. simpl. by case_decide.
  - simpl length. rewrite (iterate_next _ _ _ _ Hstep), (IH a) by done.
    unfold find_key. simpl. case_decide; [done|].
    by destruct (list_find _ l) as [[? []]|].
Qed.

(** ll_find terminates on every list, reads only its entries, and returns the
    first entry with the key, or NULL when no entry has it. *)
Lemma ll_find_ok s head l k : dll s head l → ll_find s head k = Ok (find_key k l).
Proof.
  intros (-> & Hseg & _ & Hlen). eapply while_loop_done.
  - by eapply ll_find_iterate.
  - apply Nat2Z.inj_le. rewrite Nat2Z.inj_pow. lia.
Qed.

Lemma find_key_None k l : k ∉ l.*2 → find_key k l = 0.
Proof.
  intros Hk. unfold find_key.
  destruct (list_find _ l) as [[i [a k']]|] eqn:Hf; [|done].
  apply list_find_Some in Hf as (Hi & Hk' & _). simpl in Hk'. subst k'.
  destruct Hk. apply list_elem_of_fmap. exists (a, k). split; [done|].
  by eapply list_elem_of_lookup_2.
Qed.

Lemma find_key_mid k a l1 l2 : k ∉ l1.*2 → find_key k (l1 ++ (a, k) :: l2) = a.
Proof.
  intros Hk. unfold find_key. induction l1 as [|[b k'] l1 IH]; simpl.
  - by case_decide.
  - case_decide as Hk'; [simpl in Hk'; subst k'; set_solver|].
    specialize (IH ltac:(set_solver)).
    by destruct (list_find _ (l1 ++ _)) as [[? []]|].
Qed.

Lemma find_key_elem k l : k ∈ l.*2 → (find_key k l, k) ∈ l.
Proof.
  intros (n & Hn)%list_elem_of_lookup.
  rewrite list_lookup_fmap in Hn. apply fmap_Some in Hn as ([a k'] & Hn & ->).
  unfold find_key. destruct (list_find _ l) as [[i [b k2]]|] eqn:Hf.
  - apply list_find_Some in Hf as (Hi & Hk2 & _). simpl in *. subst k2.
    by eapply list_elem_of_lookup_2.
  - apply list_find_None in Hf. rewrite Forall_lookup in Hf. by apply Hf in Hn.
Qed.

Lemma ll_add_ok s head l item k :
  dll s head l → es_lookup s item = Some (LLEntry 0 0 k) →
  item ≠ 0 → item ∉ l.*1 → Z.of_nat (S (length l)) < 2 ^ 47 →
  (asserts_on = true → k ≠ 0 ∧ k ∉ l.*2) →
  ∃ s', ll_add s head item = Ok (item, s') ∧ dll s' item ((item, k) :: l) ∧
        es_frame s s' ∧ (∀ b, b ≠ item → b ∉ l.*1 → es_lookup s' b = es_lookup s b).
Proof.
  intros Hdll Hi Hi0 Hil Hlen Hassert. unfold ll_add.
  rewrite (rd_entry_ok _ _ _ Hi). cbn [mbind outcome_bind fd bk key].
  rewrite (c_assert_true (0 =? 0)) by done. cbn [mbind outcome_bind].
  assert (c_assert (negb (k =? 0)) = Ok tt) as ->.
  { unfold c_assert. destruct asserts_on; [|done]. destruct Hassert as [? _]; [done|].
    by replace (k =? 0) with false by lia. }
  assert ((if asserts_on then found ← ll_find s head k; c_assert (found =? 0) else Ok tt)
          = Ok tt) as ->.
  { destruct asserts_on eqn:Hon; [|done]. rewrite (ll_find_ok _ _ _ _ Hdll).
    rewrite find_key_None by (by apply Hassert). cbn [mbind outcome_bind].
    by apply c_assert_true. }
  cbn [mbind outcome_bind]. destruct Hdll as (-> & Hseg & Hnd & _).
  destruct l as [|[f kf] l].
  - simpl first_of. simpl (0 =? 0). rewrite (wr_fd_ok _ _ _ _ Hi).
    cbn [mbind outcome_bind set_fd fd bk key].
    pose proof (es_lookup_update_eq s item _ (LLEntry 0 0 k) Hi) as Hi1.
    rewrite (wr_bk_ok _ _ _ _ Hi1). cbn [mbind outcome_bind set_bk fd bk key].
    eexists. split; [done|]. split; [|split].
    + split_and!; [done| |apply NoDup_singleton|done]. cbn [dseg first_of].
      split_and!; [done|by rewrite (es_lookup_update_eq _ _ _ _ Hi1)|done].
    + etrans; [|apply es_frame_update]. apply es_frame_update.
    + intros b Hb _. erewrite !es_lookup_update_ne by eauto. done.
  - cbn [dseg first_of] in *. destruct Hseg as (Hf0 & Hf & Hseg).
    replace (f =? 0) with false by lia.
    assert (item ≠ f) as Hif by set_solver.
    rewrite (wr_bk_ok _ _ _ _ Hi). cbn [mbind outcome_bind set_bk fd bk key].
    pose proof (es_lookup_update_eq s item _ (LLEntry 0 0 k) Hi) as Hi1.
    rewrite (wr_fd_ok _ _ _ _ Hi1). cbn [mbind outcome_bind set_fd fd bk key].
    pose proof (es_lookup_update_eq _ item _ (LLEntry f 0 k) Hi1) as Hi2.
    assert (es_lookup (es_update (es_update s item (LLEntry 0 0 k)) item (LLEntry f 0 k)) f
            = Some (LLEntry (first_of l 0) 0 kf)) as Hf2.
    { by erewrite !es_lookup_update_ne by eauto. }
    rewrite (wr_bk_ok _ _ _ _ Hf2). cbn [mbind outcome_bind set_bk fd bk key].
    eexists. split; [done|]. split; [|split].
    + split_and!; [done| |by apply NoDup_cons|done]. cbn [dseg first_of].
      split_and!; [done| |done| |].
      * by erewrite es_lookup_update_ne by eauto.
      * by erewrite es_lookup_update_eq by eauto.
      * apply (dseg_ext s); [|done]. intros b Hb. apply NoDup_cons in Hnd as [Hfl _].
        assert (b ≠ f) by (by intros ->). assert (b ≠ item) by set_solver.
        by erewrite !es_lookup_update_ne by eauto.
    + do 2 (etrans; [|apply es_frame_update]). apply es_frame_update.
    + intros b Hb Hbl. assert (f ≠ b) by set_solver.
      by erewrite !es_lookup_update_ne by eauto.
Qed.

(** The effect of [ll_unlink] on every entry of the store. *)
Definition unlinked (e : ll_entry) (a b : Z) (o : option ll_entry) : option ll_entry :=
  if decide (b = a) then Some (LLEntry 0 0 (key e))
  else if decide (b = fd e ∧ b ≠ 0) then (λ x, set_bk x (bk e)) <$> o
  else if decide (b = bk e ∧ b ≠ 0) then (λ x, set_fd x (fd e)) <$> o
  else o.

Lemma ll_unlink_ok s a e :
  es_lookup s a = Some e → a ≠ fd e → a ≠ bk e → (fd e ≠ 0 → fd e ≠ bk e) →
  (fd e ≠ 0 → is_Some (es_lookup s (fd e))) → (bk e ≠ 0 → is_Some (es_lookup s (bk e))) →
  ∃ s', ll_unlink s a = Ok s' ∧ es_frame s s' ∧
        ∀ b, es_lookup s' b = unlinked e a b (es_lookup s b).
Proof.
  intros Ha Hn Hp Hnp Hsn Hsp. unfold ll_unlink. rewrite (rd_entry_ok _ _ _ Ha).
  cbn [mbind outcome_bind].
  assert (∃ s1, (if negb (fd e =? 0) then wr_bk s (fd e) (bk e) else Ok s) = Ok s1 ∧
            es_frame s s1 ∧ ∀ b, es_lookup s1 b =
              if decide (b = fd e ∧ b ≠ 0) then (λ x, set_bk x (bk e)) <$> es_lookup s b
              else es_lookup s b) as (s1 & -> & Hfr1 & Hs1).
  { destruct (Z.eqb_spec (fd e) 0) as [E0|E0]; simpl.
    - exists s. split_and!; [done..|]. intros b. case_decide; [lia|done].
    - destruct (Hsn E0) as [en Hen]. rewrite (wr_bk_ok _ _ _ _ Hen).
      eexists. split_and!; [done|apply es_frame_update|]. intros b. case_decide as Hb.
      + destruct Hb as [-> _]. by rewrite (es_lookup_update_eq _ _ _ _ Hen), Hen.
      + eapply es_lookup_update_ne; [done|]. intros <-. tauto. }
  cbn [mbind outcome_bind].
  assert (es_lookup s1 a = Some e) as Ha1 by (rewrite Hs1, decide_False by tauto; done).
  rewrite (rd_entry_ok _ _ _ Ha1). cbn [mbind outcome_bind].
  assert (∃ s2, (if negb (bk e =? 0) then wr_fd s1 (bk e) (fd e) else Ok s1) = Ok s2 ∧
            es_frame s1 s2 ∧ ∀ b, es_lookup s2 b =
              if decide (b = bk e ∧ b ≠ 0) then (λ x, set_fd x (fd e)) <$> es_lookup s1 b
              else es_lookup s1 b) as (s2 & -> & Hfr2 & Hs2).
  { destruct (Z.eqb_spec (bk e) 0) as [E0|E0]; simpl.
    - exists s1. split_and!; [done..|]. intros b. case_decide; [lia|done].
    - destruct (Hsp E0) as [ep Hep].
      assert (es_lookup s1 (bk e) = Some ep) as Hep1.
      { rewrite Hs1. rewrite decide_False; [done|]. intros [? ?]. apply Hnp; congruence. }
      rewrite (wr_fd_ok _ _ _ _ Hep1).
      eexists. split_and!; [done|apply es_frame_update|]. intros b. case_decide as Hb.
      + destruct Hb as [-> _]. by rewrite (es_lookup_update_eq _ _ _ _ Hep1), Hep1.
      + eapply es_lookup_update_ne; [done|]. intros <-. tauto. }
  cbn [mbind outcome_bind].
  assert (es_lookup s2 a = Some e) as Ha2 by (rewrite Hs2, decide_False by tauto; done).
  rewrite (wr_fd_ok _ _ _ _ Ha2). cbn [mbind outcome_bind].
  pose proof (es_lookup_update_eq _ _ _ (set_fd e 0) Ha2) as Ha3.
  rewrite (wr_bk_ok _ _ _ _ Ha3). eexists. split; [done|]. split.
  - etrans; [|apply es_frame_update]. etrans; [|apply es_frame_update]. by etrans.
  - intros b. unfold unlinked. case_decide as Hba; [subst b|].
    + by rewrite (es_lookup_update_eq _ _ _ _ Ha3).
    + erewrite !es_lookup_update_ne by eauto. rewrite Hs2, Hs1.
      repeat case_decide; try done. exfalso. destruct_and!. apply Hnp; congruence.
Qed.

(** What a list looks like around one of its entries. *)
Lemma dll_mid s head l1 a k l2 :
  dll s head (l1 ++ (a, k) :: l2) →
  let e := LLEntry (first_of l2 0) (last_of 0 l1) k in
  es_lookup s a = Some e ∧ a ≠ 0 ∧ a ≠ fd e ∧ a ≠ bk e ∧ (fd e ≠ 0 → fd e ≠ bk e) ∧
  (fd e ≠ 0 → is_Some (es_lookup s (fd e))) ∧ (bk e ≠ 0 → is_Some (es_lookup s (bk e))).
Proof.
  intros (-> & Hseg & Hnd & _). cbv zeta. cbn [fd bk].
  apply dseg_app in Hseg as [Hseg1 Hseg2]. cbn [dseg] in Hseg2.
  destruct Hseg2 as (Ha & Hl & Hseg2).
  rewrite fmap_app, fmap_cons in Hnd. apply NoDup_app in Hnd as (Hnd1 & Hdis & Hnd2).
  apply NoDup_cons in Hnd2 as [Hal2 Hnd2]. simpl in *.
  assert (a ∉ l1.*1) as Hal1 by (intros Hin; apply (Hdis a Hin); set_solver).
  assert (first_of l2 0 ≠ 0 → first_of l2 0 ∈ l2.*1) as Hn.
  { intros Hne. destruct l2; [done|by apply first_of_elem]. }
  assert (last_of 0 l1 ≠ 0 → last_of 0 l1 ∈ l1.*1) as Hp.
  { intros Hne. destruct l1; [done|by apply last_of_elem]. }
  split_and!; [done|done| | | | |].
  - intros Heq. apply Hal2. rewrite Heq. apply Hn. congruence.
  - intros Heq. apply Hal1. rewrite Heq. apply Hp. congruence.
  - intros Hne Heq. apply (Hdis (first_of l2 0)); [|right; auto].
    rewrite Heq. apply Hp. congruence.
  - intros Hne. eapply dseg_elem; [exact Hseg2|auto].
  - intros Hne. eapply dseg_elem; [exact Hseg1|auto].
Qed.

(** Unlinking the middle entry leaves the list without it. *)
Lemma unlinked_dll s s' head l1 a k l2 :
  dll s head (l1 ++ (a, k) :: l2) →
  (∀ b, es_lookup s' b =
        unlinked (LLEntry (first_of l2 0) (last_of 0 l1) k) a b (es_lookup s b)) →
  dll s' (first_of (l1 ++ l2) 0) (l1 ++ l2).
Proof.
  intros Hdll Hs'. pose proof (dll_mid _ _ _ _ _ _ Hdll) as Hmid. cbv zeta in Hmid.
  cbn [fd bk] in Hmid. destruct Hmid as (Hla & Ha & Han & Hap & Hnp & _).
  destruct Hdll as (-> & Hseg & Hnd & Hlen).
  apply dseg_app in Hseg as [Hseg1 Hseg2]. cbn [dseg first_of] in Hseg1, Hseg2.
  destruct Hseg2 as (_ & _ & Hseg2).
  rewrite fmap_app, fmap_cons in Hnd. apply NoDup_app in Hnd as (Hnd1 & Hdis & Hnd2).
  apply NoDup_cons in Hnd2 as [Hal2 Hnd2]. simpl in *.
  assert (∀ b, b ∈ l1.*1 → b ≠ a ∧ b ∉ l2.*1) as Hd1.
  { intros b Hb. specialize (Hdis b Hb). set_solver. }
  split_and!; [done| | |].
  - apply dseg_app. split.
    + destruct (decide (l1 = [])) as [->|Hl1]; [done|].
      eapply dseg_set_nxt; [done..|]. intros b Hb. destruct (Hd1 b Hb) as [Hba Hbl2].
      rewrite Hs'. unfold unlinked. cbn [fd bk].
      rewrite decide_False by done. rewrite decide_False.
      2: { intros [-> Hne]. apply Hbl2. apply first_of_elem. by intros ->. }
      destruct (decide (b = last_of 0 l1)) as [Heq|Hne].
      * rewrite decide_True; [done|]. split; [done|].
        by eapply dseg_elem in Hb as [? _].
      * rewrite decide_False; [done|]. by intros [? _].
    + eapply dseg_set_prev; [done..|]. intros b Hb.
      rewrite Hs'. unfold unlinked. cbn [fd bk].
      rewrite decide_False by (by intros ->).
      destruct (decide (b = first_of l2 0)) as [Heq|Hne].
      * rewrite decide_True; [done|]. split; [done|].
        by eapply dseg_elem in Hb as [? _].
      * rewrite (decide_False (P := b = first_of l2 0 ∧ _)) by tauto.
        rewrite decide_False; [done|].
        intros [-> Hne0]. apply (Hd1 (last_of 0 l1)); [|done].
        apply last_of_elem. by intros ->.
  - rewrite fmap_app. apply NoDup_app. split_and!; [done| |done].
    intros b Hb. by apply Hd1.
  - rewrite length_app in *. simpl in Hlen. lia.
Qed.

Lemma ll_del_head_ok s head l1 a k l2 :
  dll s head (l1 ++ (a, k) :: l2) →
  let e := LLEntry (first_of l2 0) (last_of 0 l1) k in
  ∃ s1, ll_del_head s head a = Ok (first_of (l1 ++ l2) 0, s1) ∧ es_frame s s1 ∧
        (∀ b, unlinked e a b (es_lookup s1 b) = unlinked e a b (es_lookup s b)) ∧
        (∀ b, is_Some (es_lookup s b) → is_Some (es_lookup s1 b)) ∧
        es_lookup s1 a = Some e.
Proof.
  intros Hdll e. pose proof (dll_mid _ _ _ _ _ _ Hdll) as Hmid. cbv zeta in Hmid.
  fold e in Hmid. destruct Hmid as (Hla & Ha & Han & Hap & Hnp & Hsn & Hsp).
  destruct Hdll as (-> & Hseg & Hnd & _). unfold ll_del_head.
  destruct l1 as [|[f kf] l1].
  - cbn [app first_of]. rewrite Z.eqb_refl, (rd_entry_ok _ _ _ Hla).
    cbn [mbind outcome_bind]. destruct (Z.eqb_spec (fd e) 0) as [E0|E0].
    + exists s. simpl in E0 |- *. rewrite E0. split_and!; done.
    + destruct (Hsn E0) as [en Hen]. rewrite (wr_bk_ok _ _ _ _ Hen).
      cbn [mbind outcome_bind]. eexists. split; [done|]. split; [apply es_frame_update|].
      split; [|split].
      * intros b. rewrite es_lookup_update by (by rewrite Hen).
        unfold unlinked. cbn [fd bk] in *. repeat case_decide; subst; try done.
        { by rewrite Hen. } { tauto. } { tauto. }
      * intros b Hb. rewrite es_lookup_update by (by rewrite Hen). by case_decide.
      * by erewrite es_lookup_update_ne by eauto.
  - assert (f ≠ a) as Hfa.
    { simpl in Hnd. apply NoDup_cons in Hnd as [Hnot _]. intros ->. apply Hnot.
      rewrite fmap_app. set_solver. }
    cbn [app first_of]. replace (f =? a) with false by lia.
    exists s. split_and!; done.
Qed.

Lemma ll_del_ok s head l1 a k l2 :
  dll s head (l1 ++ (a, k) :: l2) → (asserts_on = true → k ∉ l1.*2) →
  ∃ s', ll_del s head a = Ok (first_of (l1 ++ l2) 0, s') ∧
        dll s' (first_of (l1 ++ l2) 0) (l1 ++ l2) ∧
        es_lookup s' a = Some (LLEntry 0 0 k) ∧ es_frame s s' ∧
        (∀ b, b ∉ (l1 ++ (a, k) :: l2).*1 → es_lookup s' b = es_lookup s b).
Proof.
  intros Hdll Hassert. pose proof (dll_mid _ _ _ _ _ _ Hdll) as Hmid. cbv zeta in Hmid.
  destruct (ll_del_head_ok _ _ _ _ _ _ Hdll) as (s1 & Hdel & Hfr1 & Hun1 & Hsome1 & Hla1).
  set (e := LLEntry (first_of l2 0) (last_of 0 l1) k) in *.
  destruct Hmid as (Hla & Ha & Han & Hap & Hnp & Hsn & Hsp).
  destruct (ll_unlink_ok s1 a e) as (s' & Hunl & Hfr2 & Hs'); [done..|auto|auto|].
  assert (∀ b, es_lookup s' b = unlinked e a b (es_lookup s b)) as Hall.
  { intros b. by rewrite Hs', Hun1. }
  exists s'. split_and!.
  - unfold ll_del. rewrite (rd_entry_ok _ _ _ Hla). cbn [mbind outcome_bind].
    assert ((if asserts_on then found ← ll_find s head (key e); c_assert (found =? a)
             else Ok tt) = Ok tt) as ->.
    { destruct asserts_on eqn:Hon; [|done]. rewrite (ll_find_ok _ _ _ _ Hdll).
      cbn [key e]. rewrite find_key_mid by auto. cbn [mbind outcome_bind].
      apply c_assert_true. lia. }
    cbn [mbind outcome_bind]. by rewrite Hdel; cbn [mbind outcome_bind]; rewrite Hunl.
  - by eapply unlinked_dll.
  - rewrite Hall. unfold unlinked. by rewrite decide_True.
  - by etrans.
  - intros b Hb. rewrite Hall. unfold unlinked. cbn [fd bk e].
    rewrite fmap_app, fmap_cons in Hb.
    rewrite decide_False by set_solver. rewrite !decide_False; [done| |].
    + intros [-> Hne]. destruct l1; [done|].
      apply Hb. apply elem_of_app. left. by apply last_of_elem.
    + intros [-> Hne]. destruct l2; [done|].
      apply Hb. apply elem_of_app. right. right. by apply first_of_elem.
Qed.

(** ** Refinement to an abstract list

    Any sequence of insertions and removals of a set of nodes [K] (address to
    key), against the list of (address, key) pairs it stands for. *)
Inductive ll_op : Type := OpAdd (item : Z) | OpDel (item : Z).

Definition abs_step (K : gmap Z Z) (l : list (Z * Z)) (op : ll_op) : option (list (Z * Z)) :=
  match op with
  | OpAdd a =>
      k ← K !! a;
      if decide (a ∈ l.*1 ∨ k ∈ l.*2) then None else Some ((a, k) :: l)
  | OpDel a =>
      if decide (a ∈ l.*1) then Some (filter (λ x, x.1 ≠ a) l) else None
  end.

Definition ll_exec s head (op : ll_op) : outcome (Z * St) :=
  match op with OpAdd a => ll_add s head a | OpDel a => ll_del s head a end.
Fixpoint ll_exec_all s head (ops : list ll_op) : outcome (Z * St) :=
  match ops with
  | [] => Ok (head, s)
  | op :: ops => '(head, s) ← ll_exec s head op; ll_exec_all s head ops
  end.

Record ll_refines s head l (K : gmap Z Z) : Prop := {
  llr_dll : dll s head l;
  llr_keys : NoDup l.*2;
  llr_in : ∀ a k, (a, k) ∈ l → K !! a = Some k;
  llr_out : ∀ a k, K !! a = Some k → a ∉ l.*1 → es_lookup s a = Some (LLEntry 0 0 k);
  llr_valid : ∀ a k, K !! a = Some k → a ≠ 0 ∧ k ≠ 0;
  llr_size : Z.of_nat (size K) < 2 ^ 47
}.

Lemma NoDup_length_dom l (K : gmap Z Z) :
  NoDup l.*1 → (∀ a k, (a, k) ∈ l → K !! a = Some k) → (length l ≤ size K)%nat.
Proof.
  intros Hnd Hin. rewrite <- (length_fmap fst l), <- (size_list_to_set (C := gset Z)) by done.
  rewrite <- size_dom. apply subseteq_size. intros a Ha.
  apply elem_of_list_to_set, list_elem_of_fmap in Ha as ([b k] & -> & Hb).
  apply elem_of_dom. exists k. by apply Hin.
Qed.

Lemma NoDup_fmap_snd_inj l a k k' : NoDup l.*1 → (a, k) ∈ l → (a, k') ∈ l → k = k'.
Proof.
  induction l as [|[b kb] l IH]; simpl; [set_solver|].
  intros [Hb Hnd]%NoDup_cons H1 H2. assert (∀ x, (b, x) ∉ l) as Hbl.
  { intros x Hx. apply Hb. apply list_elem_of_fmap. by exists (b, x). }
  apply elem_of_cons in H1 as [H1|H1], H2 as [H2|H2]; simplify_eq; try done;
    [by apply Hbl in H2|by apply Hbl in H1|by apply IH].
Qed.

Lemma filter_ne_mid a k l1 l2 :
  NoDup (l1 ++ (a, k) :: l2).*1 → filter (λ x, x.1 ≠ a) (l1 ++ (a, k) :: l2) = l1 ++ l2.
Proof.
  intros Hnd. rewrite fmap_app, fmap_cons in Hnd.
  apply NoDup_app in Hnd as (_ & Hdis & [Ha _]%NoDup_cons). simpl in *.
  rewrite filter_app, filter_cons_False by (simpl; tauto).
  rewrite !filter_all; [done| |]; apply Forall_forall; intros [b kb] Hb; simpl; intros ->.
  - apply Ha. apply list_elem_of_fmap. by exists (a, kb).
  - apply (Hdis a); [apply list_elem_of_fmap; by exists (a, kb)|set_solver].
Qed.

Lemma ll_exec_refines s head l K op l' :
  ll_refines s head l K → abs_step K l op = Some l' →
  ∃ head' s', ll_exec s head op = Ok (head', s') ∧ ll_refines s' head' l' K ∧ es_frame s s'.
Proof.
  intros [Hdll Hkeys Hin Hout Hvalid Hsize] Habs. destruct op as [a|a]; simpl in *.
  - destruct (K !! a) as [k|] eqn:HKa; simpl in Habs; [|done].
    case_decide as Hnin; simplify_eq. destruct (Hvalid _ _ HKa) as [Ha0 Hk0].
    assert (NoDup ((a, k) :: l).*1) as Hnd.
    { apply NoDup_cons. split; [tauto|]. by destruct Hdll as (_ & _ & ? & _). }
    assert (∀ b kb, (b, kb) ∈ (a, k) :: l → K !! b = Some kb) as Hin'.
    { intros b kb [Heq|Hb]%elem_of_cons; [by simplify_eq|auto]. }
    pose proof (NoDup_length_dom _ K Hnd Hin') as Hlen. simpl in Hlen.
    destruct (ll_add_ok s head l a k) as (s' & Hadd & Hdll' & Hfr & Hoth);
      [done|by apply Hout; tauto|done|tauto|lia|tauto|].
    exists a, s'. split_and!; [done| |done]. split; try done.
    + simpl. apply NoDup_cons. split; [tauto|done].
    + intros b kb Hb Hbl. simpl in Hbl. rewrite Hoth by set_solver. apply Hout; set_solver.
  - case_decide as Hal; simplify_eq.
    apply list_elem_of_fmap in Hal as ([a' k] & -> & Hal). simpl.
    apply list_elem_of_split in Hal as (l1 & l2 & ->).
    assert (NoDup (l1 ++ (a', k) :: l2).*1) as Hnd by (by destruct Hdll as (_ & _ & ? & _)).
    rewrite filter_ne_mid by done.
    assert (k ∉ l1.*2) as Hk.
    { rewrite fmap_app, fmap_cons in Hkeys. apply NoDup_app in Hkeys as (_ & Hdis & _).
      intros Hk. apply (Hdis _ Hk). set_solver. }
    destruct (ll_del_ok s head l1 a' k l2) as (s' & Hdel & Hdll' & Ha & Hfr & Hoth); [done..|].
    exists (first_of (l1 ++ l2) 0), s'. split_and!; [done| |done]. split; try done.
    + rewrite fmap_app, fmap_cons in Hkeys. rewrite fmap_app.
      eapply sublist_NoDup; [exact Hkeys|]. apply sublist_app; [done|by apply sublist_cons].
    + intros b kb Hb. apply Hin. set_solver.
    + intros b kb Hb Hbl. destruct (decide (b = a')) as [->|Hne].
      * assert (K !! a' = Some k) by (apply Hin; set_solver). congruence.
      * rewrite fmap_app in Hbl.
        rewrite Hoth; [apply Hout; [done|]|]; rewrite fmap_app, fmap_cons; set_solver.
Qed.

Fixpoint abs_run (K : gmap Z Z) (l : list (Z * Z)) (ops : list ll_op) : option (list (Z * Z)) :=
  match ops with
  | [] => Some l
  | op :: ops => l ← abs_step K l op; abs_run K l ops
  end.

Lemma ll_exec_all_refines s head l K ops l' :
  ll_refines s head l K → abs_run K l ops = Some l' →
  ∃ head' s', ll_exec_all s head ops = Ok (head', s') ∧ ll_refines s' head' l' K ∧ es_frame s s'.
Proof.
  revert s head l. induction ops as [|op ops IH]; intros s head l Href Habs; simpl in *.
  - simplify_eq. by exists head, s.
  - destruct (abs_step K l op) as [l1|] eqn:Hstep; simpl in Habs; [|done].
    destruct (ll_exec_refines _ _ _ _ _ _ Href Hstep) as (h1 & s1 & -> & Href1 & Hfr1).
    destruct (IH _ _ _ Href1 Habs) as (h2 & s2 & Hex & Href2 & Hfr2).
    exists h2, s2. split_and!; [done..|by etrans].
Qed.
End container_ll.

(** ** Theorems and witnesses on a concrete store of bare entries *)
#[export] Program Instance bare_entry : HasEntry ll_entry := {
  get_entry e := e;
  put_entry e _ := e
}.
Solve Obligations with done.

(** ll_find terminates on every well-formed list and returns the address of an
    entry with the key, or NULL exactly when no entry of the list has it. *)
Theorem ll_find_lookup `{Build} `{EntryStore St} (s : St) head l k :
  dll s head l →
  ∃ a, ll_find s head k = Ok a ∧
       (((a, k) ∈ l ∧ a ≠ 0) ∨ ((k ∉ l.*2) ∧ a = 0)).
Proof.
  intros Hdll. exists (find_key k l). split; [by apply ll_find_ok|].
  destruct (decide (k ∈ l.*2)) as [Hk|Hk]; [left|right; split; [done|by apply find_key_None]].
  pose proof (find_key_elem k l Hk) as Hin. split; [done|].
  destruct Hdll as (_ & Hseg & _). eapply dseg_elem; [done|].
  apply list_elem_of_fmap. by eexists (_, _).
Qed.

(** C31. Every sequence of insertions and deletions that is legal for the abstract list
    runs without an error, an assertion failure or a dangling access, leaves a list
    that refines the abstract result, and changes nothing but the list entries. *)
Theorem ll_refines_list `{Build} `{EntryStore St} (s : St) head l K ops l' :
  ll_refines s head l K → abs_run K l ops = Some l' →
  ∃ head' s', ll_exec_all s head ops = Ok (head', s') ∧
              ll_refines s' head' l' K ∧ es_frame s s'.
Proof. apply ll_exec_all_refines. Qed.

#[local] Existing Instance assert_build.
Definition witness_keys : gmap Z Z := {[ 8 := 100; 16 := 200; 24 := 300 ]}.
Definition witness_store : gmap Z ll_entry := (λ k, LLEntry 0 0 k) <$> witness_keys.

Lemma witness_refines : ll_refines witness_store 0 [] witness_keys.
Proof.
  split; [split_and!; try done; constructor|constructor|set_solver| | |done].
  - intros a k Ha _. simpl. unfold witness_store. by rewrite lookup_fmap, Ha.
  - intros a k Ha. unfold witness_keys in Ha.
    repeat (apply lookup_insert_Some in Ha as [[<- <-]|[_ Ha]]; [lia|]).
    apply lookup_singleton_Some in Ha as [<- <-]. lia.
Qed.

Definition witness_list : list (Z * Z) := [(8, 100); (16, 200)].
Definition witness_linked : gmap Z ll_entry :=
  {[ 8 := LLEntry 16 0 100; 16 := LLEntry 0 8 200 ]}.

Lemma ll_find_lookup_witness :
  ∃ a, ll_find witness_linked 8 200 = Ok a ∧
       (((a, 200) ∈ witness_list ∧ a ≠ 0) ∨ ((200 ∉ witness_list.*2) ∧ a = 0)).
Proof.
  apply (ll_find_lookup witness_linked 8 witness_list 200).
  split_and!; [done|done| |done]. repeat constructor; set_solver.
Defined.

Lemma ll_refines_list_witness :
  ∃ head' s',
    ll_exec_all witness_store 0 [OpAdd 8; OpAdd 16; OpAdd 24; OpDel 16; OpAdd 16] = Ok (head', s') ∧
    ll_refines s' head' [(16, 200); (24, 300); (8, 100)] witness_keys ∧
    es_frame witness_store s'.
Proof.
  apply (ll_refines_list witness_store 0 [] witness_keys); [apply witness_refines|].
  vm_compute. reflexivity.
Defined.
