(* ===== verification/Generator.v ===== *)
(** * Generator: generator.h and the group it relies on

    The tables of generators that runs step through their regions with, translated
    literally (missing initialisers of a C array are zero), and the fact that makes
    them work: a generator coprime to the number of regions visits every region
    once before it comes back to the first one ([generates]).  Every entry that a run of a
    small or a medium class can draw is one ([small_draw], [medium_draw]). *)
From Stdlib Require Import ZArith Lia Znumtheory.
From stdpp Require Import base option numbers list gmap.
From S2P Require Import Prelude.

Definition GENERATORS_SMALL_LENGTHS : list Z :=
  [512; 256; 300; 128; 64; 64; 72; 64; 112; 32; 60; 64; 24; 72; 32; 32; 16; 24; 52; 32; 16;
    22; 20; 12; 16; 24; 36; 12; 24; 16; 20; 16].

Definition GENERATORS_SMALL : list (list Z) := [
  [1; 3; 5; 7; 9; 11; 13; 15; 17; 19; 21; 23; 25; 27; 29; 31; 33; 35; 37; 39; 41; 43; 45;
    47; 49; 51; 53; 55; 57; 59; 61; 63; 65; 67; 69; 71; 73; 75; 77; 79; 81; 83; 85; 87; 89;
    91; 93; 95; 97; 99; 101; 103; 105; 107; 109; 111; 113; 115; 117; 119; 121; 123; 125;
    127; 129; 131; 133; 135; 137; 139; 141; 143; 145; 147; 149; 151; 153; 155; 157; 159;
    161; 163; 165; 167; 169; 171; 173; 175; 177; 179; 181; 183; 185; 187; 189; 191; 193;
    195; 197; 199; 201; 203; 205; 207; 209; 211; 213; 215; 217; 219; 221; 223; 225; 227;
    229; 231; 233; 235; 237; 239; 241; 243; 245; 247; 249; 251; 253; 255; 257; 259; 261;
    263; 265; 267; 269; 271; 273; 275; 277; 279; 281; 283; 285; 287; 289; 291; 293; 295;
    297; 299; 301; 303; 305; 307; 309; 311; 313; 315; 317; 319; 321; 323; 325; 327; 329;
    331; 333; 335; 337; 339; 341; 343; 345; 347; 349; 351; 353; 355; 357; 359; 361; 363;
    365; 367; 369; 371; 373; 375; 377; 379; 381; 383; 385; 387; 389; 391; 393; 395; 397;
    399; 401; 403; 405; 407; 409; 411; 413; 415; 417; 419; 421; 423; 425; 427; 429; 431;
    433; 435; 437; 439; 441; 443; 445; 447; 449; 451; 453; 455; 457; 459; 461; 463; 465;
    467; 469; 471; 473; 475; 477; 479; 481; 483; 485; 487; 489; 491; 493; 495; 497; 499;
    501; 503; 505; 507; 509; 511; 513; 515; 517; 519; 521; 523; 525; 527; 529; 531; 533;
    535; 537; 539; 541; 543; 545; 547; 549; 551; 553; 555; 557; 559; 561; 563; 565; 567;
    569; 571; 573; 575; 577; 579; 581; 583; 585; 587; 589; 591; 593; 595; 597; 599; 601;
    603; 605; 607; 609; 611; 613; 615; 617; 619; 621; 623; 625; 627; 629; 631; 633; 635;
    637; 639; 641; 643; 645; 647; 649; 651; 653; 655; 657; 659; 661; 663; 665; 667; 669;
    671; 673; 675; 677; 679; 681; 683; 685; 687; 689; 691; 693; 695; 697; 699; 701; 703;
    705; 707; 709; 711; 713; 715; 717; 719; 721; 723; 725; 727; 729; 731; 733; 735; 737;
    739; 741; 743; 745; 747; 749; 751; 753; 755; 757; 759; 761; 763; 765; 767; 769; 771;
    773; 775; 777; 779; 781; 783; 785; 787; 789; 791; 793; 795; 797; 799; 801; 803; 805;
    807; 809; 811; 813; 815; 817; 819; 821; 823; 825; 827; 829; 831; 833; 835; 837; 839;
    841; 843; 845; 847; 849; 851; 853; 855; 857; 859; 861; 863; 865; 867; 869; 871; 873;
    875; 877; 879; 881; 883; 885; 887; 889; 891; 893; 895; 897; 899; 901; 903; 905; 907;
    909; 911; 913; 915; 917; 919; 921; 923; 925; 927; 929; 931; 933; 935; 937; 939; 941;
    943; 945; 947; 949; 951; 953; 955; 957; 959; 961; 963; 965; 967; 969; 971; 973; 975;
    977; 979; 981; 983; 985; 987; 989; 991; 993; 995; 997; 999; 1001; 1003; 1005; 1007;
    1009; 1011; 1013; 1015; 1017; 1019; 1021; 1023];
  [1; 3; 5; 7; 9; 11; 13; 15; 17; 19; 21; 23; 25; 27; 29; 31; 33; 35; 37; 39; 41; 43; 45;
    47; 49; 51; 53; 55; 57; 59; 61; 63; 65; 67; 69; 71; 73; 75; 77; 79; 81; 83; 85; 87; 89;
    91; 93; 95; 97; 99; 101; 103; 105; 107; 109; 111; 113; 115; 117; 119; 121; 123; 125;
    127; 129; 131; 133; 135; 137; 139; 141; 143; 145; 147; 149; 151; 153; 155; 157; 159;
    161; 163; 165; 167; 169; 171; 173; 175; 177; 179; 181; 183; 185; 187; 189; 191; 193;
    195; 197; 199; 201; 203; 205; 207; 209; 211; 213; 215; 217; 219; 221; 223; 225; 227;
    229; 231; 233; 235; 237; 239; 241; 243; 245; 247; 249; 251; 253; 255; 257; 259; 261;
    263; 265; 267; 269; 271; 273; 275; 277; 279; 281; 283; 285; 287; 289; 291; 293; 295;
    297; 299; 301; 303; 305; 307; 309; 311; 313; 315; 317; 319; 321; 323; 325; 327; 329;
    331; 333; 335; 337; 339; 341; 343; 345; 347; 349; 351; 353; 355; 357; 359; 361; 363;
    365; 367; 369; 371; 373; 375; 377; 379; 381; 383; 385; 387; 389; 391; 393; 395; 397;
    399; 401; 403; 405; 407; 409; 411; 413; 415; 417; 419; 421; 423; 425; 427; 429; 431;
    433; 435; 437; 439; 441; 443; 445; 447; 449; 451; 453; 455; 457; 459; 461; 463; 465;
    467; 469; 471; 473; 475; 477; 479; 481; 483; 485; 487; 489; 491; 493; 495; 497; 499;
    501; 503; 505; 507; 509; 511];
  [1; 2; 3; 4; 5; 6; 7; 8; 9; 10; 12; 13; 14; 15; 16; 17; 18; 19; 20; 21; 23; 24; 25; 26;
    27; 28; 29; 30; 32; 34; 35; 36; 37; 38; 39; 40; 41; 42; 43; 45; 46; 47; 48; 49; 50; 51;
    52; 53; 54; 56; 57; 58; 59; 60; 61; 63; 64; 65; 67; 68; 69; 70; 71; 72; 73; 74; 75; 76;
    78; 79; 80; 81; 82; 83; 84; 85; 86; 87; 89; 90; 91; 92; 94; 95; 96; 97; 98; 100; 101;
    102; 103; 104; 105; 106; 107; 108; 109; 111; 112; 113; 114; 115; 116; 117; 118; 119;
    120; 122; 123; 125; 126; 127; 128; 129; 130; 131; 133; 134; 135; 136; 137; 138; 139;
    140; 141; 142; 144; 145; 146; 147; 148; 149; 150; 151; 152; 153; 156; 157; 158; 159;
    160; 161; 162; 163; 164; 166; 167; 168; 169; 170; 171; 172; 173; 174; 175; 177; 178;
    179; 180; 181; 182; 183; 184; 185; 188; 189; 190; 191; 192; 193; 194; 195; 196; 197;
    199; 200; 201; 202; 203; 204; 205; 206; 207; 208; 210; 211; 212; 213; 214; 215; 216;
    218; 219; 221; 222; 223; 224; 225; 226; 227; 228; 229; 230; 232; 233; 234; 235; 236;
    237; 238; 239; 240; 241; 243; 244; 245; 246; 247; 249; 250; 251; 252; 254; 255; 256;
    257; 258; 259; 260; 261; 262; 263; 265; 266; 267; 268; 269; 270; 271; 272; 273; 274;
    276; 277; 278; 280; 281; 282; 283; 284; 285; 287; 288; 289; 290; 291; 292; 293; 294;
    295; 296; 298; 299; 300; 301; 302; 303; 304; 305; 306; 307; 309; 311; 312; 313; 314;
    315; 316; 317; 318; 320; 321; 322; 323; 324; 325; 326; 327; 328; 329; 331; 332; 333;
    334; 335; 336; 337; 338; 339; 340];
  [1; 3; 5; 7; 9; 11; 13; 15; 17; 19; 21; 23; 25; 27; 29; 31; 33; 35; 37; 39; 41; 43; 45;
    47; 49; 51; 53; 55; 57; 59; 61; 63; 65; 67; 69; 71; 73; 75; 77; 79; 81; 83; 85; 87; 89;
    91; 93; 95; 97; 99; 101; 103; 105; 107; 109; 111; 113; 115; 117; 119; 121; 123; 125;
    127; 129; 131; 133; 135; 137; 139; 141; 143; 145; 147; 149; 151; 153; 155; 157; 159;
    161; 163; 165; 167; 169; 171; 173; 175; 177; 179; 181; 183; 185; 187; 189; 191; 193;
    195; 197; 199; 201; 203; 205; 207; 209; 211; 213; 215; 217; 219; 221; 223; 225; 227;
    229; 231; 233; 235; 237; 239; 241; 243; 245; 247; 249; 251; 253; 255];
  [1; 5; 7; 11; 13; 19; 23; 25; 29; 31; 35; 37; 41; 43; 47; 49; 53; 55; 59; 61; 65; 67; 71;
    73; 77; 79; 83; 89; 91; 95; 97; 101; 103; 107; 109; 113; 115; 121; 125; 127; 131; 133;
    137; 139; 143; 145; 149; 151; 155; 157; 161; 163; 167; 169; 173; 175; 179; 181; 185;
    191; 193; 197; 199; 203];
  [1; 3; 7; 9; 11; 13; 19; 21; 23; 27; 29; 31; 33; 37; 39; 41; 43; 47; 49; 53; 57; 59; 61;
    63; 67; 69; 71; 73; 77; 79; 81; 83; 87; 89; 91; 93; 97; 99; 101; 103; 107; 109; 111;
    113; 117; 121; 123; 127; 129; 131; 133; 137; 139; 141; 143; 147; 149; 151; 157; 159;
    161; 163; 167; 169];
  [1; 3; 5; 7; 9; 11; 13; 15; 17; 19; 21; 23; 25; 27; 29; 31; 33; 35; 37; 39; 41; 43; 45;
    47; 49; 51; 53; 55; 57; 59; 61; 63; 65; 67; 69; 71; 75; 77; 79; 81; 83; 85; 87; 89; 91;
    93; 95; 97; 99; 101; 103; 105; 107; 109; 111; 113; 115; 117; 119; 121; 123; 125; 127;
    129; 131; 133; 135; 137; 139; 141; 143; 145];
  [1; 3; 5; 7; 9; 11; 13; 15; 17; 19; 21; 23; 25; 27; 29; 31; 33; 35; 37; 39; 41; 43; 45;
    47; 49; 51; 53; 55; 57; 59; 61; 63; 65; 67; 69; 71; 73; 75; 77; 79; 81; 83; 85; 87; 89;
    91; 93; 95; 97; 99; 101; 103; 105; 107; 109; 111; 113; 115; 117; 119; 121; 123; 125; 127];
  [1; 2; 3; 4; 5; 6; 7; 8; 9; 10; 11; 12; 13; 14; 15; 16; 17; 18; 19; 20; 21; 22; 23; 24;
    25; 26; 27; 28; 29; 30; 31; 32; 33; 34; 35; 36; 37; 38; 39; 40; 41; 42; 43; 44; 45; 46;
    47; 48; 49; 50; 51; 52; 53; 54; 55; 56; 57; 58; 59; 60; 61; 62; 63; 64; 65; 66; 67; 68;
    69; 70; 71; 72; 73; 74; 75; 76; 77; 78; 79; 80; 81; 82; 83; 84; 85; 86; 87; 88; 89; 90;
    91; 92; 93; 94; 95; 96; 97; 98; 99; 100; 101; 102; 103; 104; 105; 106; 107; 108; 109;
    110; 111; 112];
  [1; 5; 7; 11; 13; 19; 23; 25; 29; 31; 35; 37; 41; 43; 47; 49; 53; 55; 59; 61; 65; 67; 71;
    73; 77; 79; 83; 89; 91; 95; 97; 101];
  [1; 2; 4; 5; 7; 8; 10; 11; 13; 14; 16; 17; 19; 20; 22; 23; 25; 26; 28; 29; 32; 34; 35;
    37; 38; 40; 41; 43; 44; 46; 47; 49; 50; 52; 53; 55; 56; 58; 59; 61; 64; 65; 67; 68; 70;
    71; 73; 74; 76; 77; 79; 80; 82; 83; 85; 86; 88; 89; 91; 92];
  [1; 2; 3; 4; 6; 7; 8; 9; 11; 12; 13; 14; 16; 18; 19; 21; 22; 23; 24; 26; 27; 28; 29; 31;
    32; 33; 36; 37; 38; 39; 41; 42; 43; 44; 46; 47; 48; 49; 52; 53; 54; 56; 57; 58; 59; 61;
    62; 63; 64; 66; 67; 69; 71; 72; 73; 74; 76; 77; 78; 79; 81; 82; 83; 84];
  [1; 5; 7; 11; 17; 19; 23; 25; 29; 31; 35; 37; 41; 43; 47; 49; 53; 55; 59; 61; 67; 71; 73;
    77];
  [1; 2; 3; 4; 5; 6; 7; 8; 9; 10; 11; 12; 13; 14; 15; 16; 17; 18; 19; 20; 21; 22; 23; 24;
    25; 26; 27; 28; 29; 30; 31; 32; 33; 34; 35; 36; 37; 38; 39; 40; 41; 42; 43; 44; 45; 46;
    47; 48; 49; 50; 51; 52; 53; 54; 55; 56; 57; 58; 59; 60; 61; 62; 63; 64; 65; 66; 67; 68;
    69; 70; 71; 72];
  [1; 3; 5; 7; 9; 11; 13; 15; 19; 21; 23; 25; 27; 29; 31; 33; 35; 37; 39; 41; 43; 45; 47;
    49; 53; 55; 57; 59; 61; 63; 65; 67];
  [1; 3; 5; 7; 9; 11; 13; 15; 17; 19; 21; 23; 25; 27; 29; 31; 33; 35; 37; 39; 41; 43; 45;
    47; 49; 51; 53; 55; 57; 59; 61; 63];
  [1; 7; 11; 13; 17; 19; 23; 29; 31; 37; 41; 43; 47; 49; 53; 59];
  [1; 3; 5; 9; 11; 13; 15; 17; 19; 23; 25; 27; 29; 31; 33; 37; 39; 41; 43; 45; 47; 51; 53;
    55];
  [1; 2; 3; 4; 5; 6; 7; 8; 9; 10; 11; 12; 13; 14; 15; 16; 17; 18; 19; 20; 21; 22; 23; 24;
    25; 26; 27; 28; 29; 30; 31; 32; 33; 34; 35; 36; 37; 38; 39; 40; 41; 42; 43; 44; 45; 46;
    47; 48; 49; 50; 51; 52];
  [1; 2; 4; 5; 7; 8; 10; 11; 13; 14; 16; 19; 20; 22; 23; 25; 26; 28; 29; 31; 32; 35; 37;
    38; 40; 41; 43; 44; 46; 47; 49; 50];
  [1; 5; 7; 11; 13; 17; 19; 23; 25; 29; 31; 35; 37; 41; 43; 47];
  [1; 3; 5; 7; 9; 11; 13; 15; 17; 19; 21; 25; 27; 29; 31; 33; 35; 37; 39; 41; 43; 45];
  [1; 3; 5; 7; 9; 13; 15; 17; 19; 21; 23; 25; 27; 29; 31; 35; 37; 39; 41; 43];
  [1; 5; 11; 13; 17; 19; 23; 25; 29; 31; 37; 41];
  [1; 3; 7; 9; 11; 13; 17; 19; 21; 23; 27; 29; 31; 33; 37; 39];
  [1; 2; 4; 5; 7; 8; 10; 11; 14; 16; 17; 19; 20; 22; 23; 25; 28; 29; 31; 32; 34; 35; 37; 38];
  [1; 2; 3; 4; 5; 6; 7; 8; 9; 10; 11; 12; 13; 14; 15; 16; 17; 18; 19; 20; 21; 22; 23; 24;
    25; 26; 27; 28; 29; 30; 31; 32; 33; 34; 35; 36];
  [1; 5; 7; 11; 13; 17; 19; 23; 25; 29; 31; 35];
  [1; 2; 3; 4; 6; 8; 9; 11; 12; 13; 16; 17; 18; 19; 22; 23; 24; 26; 27; 29; 31; 32; 33; 34];
  [1; 3; 5; 7; 9; 11; 13; 15; 19; 21; 23; 25; 27; 29; 31; 33];
  [1; 2; 4; 5; 7; 8; 10; 13; 14; 16; 17; 19; 20; 23; 25; 26; 28; 29; 31; 32];
  [1; 3; 5; 7; 9; 11; 13; 15; 17; 19; 21; 23; 25; 27; 29; 31]
].

Definition GENERATORS_MEDIUM_LENGTHS : list Z := [8; 4; 2; 1].

Definition GENERATORS_MEDIUM : list (list Z) := [
  [1; 3; 5; 7; 9; 11; 13; 15];
  [1; 3; 5; 7];
  [1; 3];
  [1]
].

(** table[i]: a read of a one-dimensional table. *)
Definition table_at (t : list Z) (i : Z) : outcome Z :=
  if 0 <=? i then match t !! Z.to_nat i with Some v => Ok v | None => Fail UB end
  else Fail UB.
(** table[i][j] of a table with rows of [w] cells. *)
Definition table2_at (w : Z) (t : list (list Z)) (i j : Z) : outcome Z :=
  if (0 <=? i) && (0 <=? j) && (j <? w) then
    match t !! Z.to_nat i with
    | Some row => Ok (default 0 (row !! Z.to_nat j))
    | None => Fail UB
    end
  else Fail UB.

Definition gen_small (i j : Z) : outcome Z := table2_at 512 GENERATORS_SMALL i j.
Definition gen_medium (i j : Z) : outcome Z := table2_at 8 GENERATORS_MEDIUM i j.

(** ** The tables hold generators *)

(** [g] generates the additive group of the integers modulo [n]. *)
Definition generates (g n : Z) : Prop := 1 ≤ g ≤ n ∧ Z.gcd g n = 1.

(** Row [i] of a table is right for [n] regions: the length table gives its
    length, it is not empty, and it holds the residues coprime to [n]. *)
Definition row_ok (n len : Z) (row : list Z) : bool :=
  (Z.of_nat (length row) =? len) && (1 <=? len) &&
  bool_decide (row = filter (λ g, Z.gcd g n = 1) (seqZ 1 n)).

Lemma row_ok_spec n len row :
  row_ok n len row = true →
  Z.of_nat (length row) = len ∧ 1 ≤ len ∧ Forall (λ g, generates g n) row.
Proof.
  unfold row_ok. rewrite !andb_true_iff, bool_decide_eq_true.
  intros [[Hlen H1] Hrow]. split_and!; [lia|lia|]. rewrite Hrow.
  apply Forall_forall. intros g [Hg Hin]%list_elem_of_filter.
  apply elem_of_seqZ in Hin. unfold generates. lia.
Qed.

(** The number of regions of a small (medium) run of the class with index [i]. *)
Definition elems_small (i : Z) : Z := 16384 / (16 * (i + 1)).
Definition elems_medium (i : Z) : Z := 16384 / (1024 * 2 ^ i).

Definition rows_ok (lens : list Z) (rows : list (list Z)) (elems : Z → Z) (m : nat) : bool :=
  forallb (λ i, match lens !! i, rows !! i with
                | Some len, Some row => row_ok (elems (Z.of_nat i)) len row
                | _, _ => false end) (seq 0 m).

Lemma small_rows_ok : rows_ok GENERATORS_SMALL_LENGTHS GENERATORS_SMALL elems_small 32 = true.
Proof. vm_compute. reflexivity. Qed.
Lemma medium_rows_ok : rows_ok GENERATORS_MEDIUM_LENGTHS GENERATORS_MEDIUM elems_medium 4 = true.
Proof. vm_compute. reflexivity. Qed.

(** Drawing a table entry: [LENGTHS[i]] is positive, and every index below it reads
    a generator. *)
Lemma table_draw w (lens : list Z) (rows : list (list Z)) (m : nat) (elems : Z → Z) i :
  (∀ k len row, (k < m)%nat → lens !! k = Some len → rows !! k = Some row → len ≤ w) →
  rows_ok lens rows elems m = true →
  0 ≤ i < Z.of_nat m →
  ∃ len, table_at lens i = Ok len ∧ 1 ≤ len ∧
         ∀ j, 0 ≤ j < len → ∃ g, table2_at w rows i j = Ok g ∧ generates g (elems i).
Proof.
  intros Hw Hall Hi. unfold rows_ok in Hall. rewrite forallb_forall in Hall.
  specialize (Hall (Z.to_nat i)). rewrite <- list_elem_of_In, elem_of_seq in Hall.
  specialize (Hall ltac:(lia)).
  destruct (lens !! Z.to_nat i) as [len|] eqn:Hlen; [|done].
  destruct (rows !! Z.to_nat i) as [row|] eqn:Hrow; [|done].
  rewrite Z2Nat.id in Hall by lia. apply row_ok_spec in Hall as (Hl & H1 & Hg).
  exists len. unfold table_at, table2_at. replace (0 <=? i) with true by lia.
  rewrite Hlen. split_and!; [done|done|]. intros j Hj.
  pose proof (Hw (Z.to_nat i) len row ltac:(lia) Hlen Hrow).
  replace (_ && _) with true by lia. rewrite Hrow.
  destruct (lookup_lt_is_Some_2 row (Z.to_nat j)) as [g Hgj]; [lia|].
  exists g. rewrite Hgj. split; [done|]. rewrite Forall_lookup in Hg. eauto.
Qed.

Lemma small_lengths k len :
  GENERATORS_SMALL_LENGTHS !! k = Some len → len ≤ 512.
Proof.
  intros H. assert (Forall (λ l, l ≤ 512) GENERATORS_SMALL_LENGTHS) as Hall
    by (repeat constructor; lia).
  rewrite Forall_lookup in Hall. eauto.
Qed.
Lemma medium_lengths k len :
  GENERATORS_MEDIUM_LENGTHS !! k = Some len → len ≤ 8.
Proof.
  intros H. assert (Forall (λ l, l ≤ 8) GENERATORS_MEDIUM_LENGTHS) as Hall
    by (repeat constructor; lia).
  rewrite Forall_lookup in Hall. eauto.
Qed.

Lemma small_draw i :
  0 ≤ i < 32 → ∃ len, table_at GENERATORS_SMALL_LENGTHS i = Ok len ∧ 1 ≤ len ∧
    ∀ j, 0 ≤ j < len → ∃ g, gen_small i j = Ok g ∧ generates g (elems_small i).
Proof.
  apply (table_draw 512 GENERATORS_SMALL_LENGTHS GENERATORS_SMALL 32 elems_small); [|exact small_rows_ok].
  exact (λ k len row _ Hlen _, small_lengths k len Hlen).
Qed.

Lemma medium_draw i :
  0 ≤ i < 4 → ∃ len, table_at GENERATORS_MEDIUM_LENGTHS i = Ok len ∧ 1 ≤ len ∧
    ∀ j, 0 ≤ j < len → ∃ g, gen_medium i j = Ok g ∧ generates g (elems_medium i).
Proof.
  intros Hi. apply (table_draw 8 GENERATORS_MEDIUM_LENGTHS GENERATORS_MEDIUM 4 elems_medium);
    [|exact medium_rows_ok|done].
  intros k len row _ Hlen _. by eapply medium_lengths.
Qed.

(** ** Stepping with a generator *)

(** The [j]-th index of a walk from [c] with generator [g] over [n] indices. *)
Definition walk (g n c j : Z) : Z := (c + j * g) mod n.

Lemma walk_range g n c j : 0 < n → 0 ≤ walk g n c j < n.
Proof. intros. by apply Z.mod_pos_bound. Qed.

Lemma walk_step g n c j : 0 < n → (g + walk g n c j) mod n = walk g n c (j + 1).
Proof.
  intros. unfold walk. rewrite Z.add_mod_idemp_r by lia. f_equal. lia.
Qed.

Lemma walk_inj g n c i j :
  generates g n → 0 ≤ i < n → 0 ≤ j < n → walk g n c i = walk g n c j → i = j.
Proof.
  intros [Hg Hgcd] Hi Hj Heq. unfold walk in Heq.
  assert ((n | i - j)) as [q Hq].
  { apply (Z.gauss _ g); [|by rewrite Z.gcd_comm].
    exists ((c + i * g) / n - (c + j * g) / n).
    pose proof (Z.div_mod (c + i * g) n ltac:(lia)).
    pose proof (Z.div_mod (c + j * g) n ltac:(lia)). lia. }
  assert (q = 0) by nia. lia.
Qed.

(** A walk of [n] steps visits every index. *)
Lemma walk_surj g n c x :
  generates g n → 0 ≤ x < n → ∃ j, 0 ≤ j < n ∧ walk g n c j = x.
Proof.
  intros Hg Hx. destruct Hg as [Hg Hgcd].
  destruct (Z.gcd_bezout g n 1 Hgcd) as (u & v & Huv).
  exists (((x - c) * u) mod n). split; [apply Z.mod_pos_bound; lia|].
  unfold walk. rewrite Z.add_mod, Z.mul_mod_idemp_l, <- Z.add_mod by lia.
  replace (c + (x - c) * u * g) with (x + (- (x - c) * v) * n).
  2: { assert ((x - c) * (u * g + v * n) = (x - c) * 1) by (by rewrite Huv). lia. }
  rewrite Z.mod_add by lia. by apply Z.mod_small.
Qed.

(** Stepping with [g] reaches each of [n] indices exactly once in one round, from every
    start. *)
Definition full_cycle (g n : Z) : Prop :=
  ∀ c x, 0 ≤ x < n →
    ∃ k, (0 ≤ k < n ∧ walk g n c k = x) ∧ ∀ k', 0 ≤ k' < n → walk g n c k' = x → k' = k.

Lemma generates_full_cycle g n : generates g n → full_cycle g n.
Proof.
  intros Hgen c x Hx. destruct (walk_surj g n c x Hgen Hx) as (k & Hk & Hw).
  exists k. split; [done|]. intros k' Hk' Hw'. apply (walk_inj g n c); [done..|]. by rewrite Hw, Hw'.
Qed.

(** C30. Whatever entry a run of a small or of a medium class draws from the tables, reading
    it stays inside the table and stepping with it reaches every region of a run of its
    class exactly once in one round, from every starting index. *)
Theorem generator_full_cycle :
  (∀ i j len, 0 ≤ i < 32 → table_at GENERATORS_SMALL_LENGTHS i = Ok len → 0 ≤ j < len →
     ∃ g, gen_small i j = Ok g ∧ full_cycle g (elems_small i)) ∧
  (∀ i j len, 0 ≤ i < 4 → table_at GENERATORS_MEDIUM_LENGTHS i = Ok len → 0 ≤ j < len →
     ∃ g, gen_medium i j = Ok g ∧ full_cycle g (elems_medium i)).
Proof.
  split; intros i j len Hi Hlen Hj.
  - destruct (small_draw i Hi) as (len' & Hlen' & _ & Hdraw). rewrite Hlen in Hlen'. injection Hlen' as <-.
    destruct (Hdraw j Hj) as (g & Hg & Hgen). exists g. split; [done|by apply generates_full_cycle].
  - destruct (medium_draw i Hi) as (len' & Hlen' & _ & Hdraw). rewrite Hlen in Hlen'. injection Hlen' as <-.
    destruct (Hdraw j Hj) as (g & Hg & Hgen). exists g. split; [done|by apply generates_full_cycle].
Qed.

Lemma generator_full_cycle_witness :
  (∃ g, gen_small 2 7 = Ok g ∧ full_cycle g (elems_small 2)) ∧
  (∃ g, gen_medium 1 3 = Ok g ∧ full_cycle g (elems_medium 1)).
Proof.
  split; [apply (proj1 generator_full_cycle 2 7 300)|apply (proj2 generator_full_cycle 1 3 4)];
    first [reflexivity|by split].
Defined.
