(* ===== verification/Platform.v ===== *)
(** * Platform: platform.c

    The kernel and the C library (mmap, munmap, mprotect, sbrk, getenv, reading
    /dev/urandom) are not code of this repository: they are the operations of the
    typeclass [Kernel], over an abstract kernel state.  The functions of platform.c
    are translated over it.  [platform_map_probe] is total: the probe moves up by a
    page per iteration, so it reaches the ceiling or leaves the loop earlier. *)
From Stdlib Require Import String ZArith Lia.
From stdpp Require Import base option numbers list gmap.
From S2P Require Import Prelude.
From S2P Require Import Utils.

(** The values of errno that platform.c tells apart. *)
Inductive errno_t : Type := EEXIST | EINVAL | ENOMEM | EOTHER.

Class Kernel (OS : Type) := {
  (* mmap of anonymous private memory; the flag is MAP_FIXED_NOREPLACE *)
  k_mmap : OS → Z → Z → bool → (Z + errno_t) * OS;
  k_munmap : OS → Z → Z → option errno_t * OS;
  (* mprotect; the flag is PROT_READ | PROT_WRITE, otherwise PROT_NONE *)
  k_mprotect : OS → Z → Z → bool → option errno_t * OS;
  k_sbrk0 : OS → (Z + errno_t) * OS;
  (* open, read of four bytes and close of /dev/urandom *)
  k_urandom : OS → (Z + errno_t) * OS;
  (* getenv(SEALLOC_SEED) *)
  k_getenv_seed : OS → option (list Z)
}.

Inductive platform_status_code_t : Type :=
  | PLATFORM_STATUS_ERR_UNKNOWN
  | PLATFORM_STATUS_ERR_NOMEM
  | PLATFORM_STATUS_ERR_INVAL
  | PLATFORM_STATUS_OK
  | PLATFORM_STATUS_CEILING_HIT
  | PLATFORM_DIFFERENT_ADDRESS.

#[export] Instance platform_status_eq_dec : EqDecision platform_status_code_t.
Proof. solve_decision. Defined.

Definition get_error_from_errno (e : errno_t) : platform_status_code_t :=
  match e with
  | EINVAL => PLATFORM_STATUS_ERR_INVAL
  | ENOMEM => PLATFORM_STATUS_ERR_NOMEM
  | _ => PLATFORM_STATUS_ERR_UNKNOWN
  end.

(** const char *platform_strerror(platform_status_code_t code) *)
Definition platform_strerror (code : platform_status_code_t) : string :=
  match code with
  | PLATFORM_STATUS_ERR_INVAL => "Invalid arguments passed to function"
  | PLATFORM_STATUS_ERR_NOMEM => "No available memory or mapping cap reached"
  | PLATFORM_STATUS_ERR_UNKNOWN => "Unknown error"
  | PLATFORM_STATUS_OK => "No error"
  | PLATFORM_STATUS_CEILING_HIT => "Maximum address hit"
  | PLATFORM_DIFFERENT_ADDRESS => "kernel created mapping under different address than specified"
  end.

Section platform.
Context `{Build} `{Kernel OS}.

(** platform_map: the status, and the mapping when it is OK. *)
Definition platform_map (os : OS) (hint len : Z)
    : outcome (platform_status_code_t * option Z * OS) :=
  _ ← c_assert (0 <? len);
  match k_mmap os hint len false with
  | (inr e, os) => Ok (get_error_from_errno e, None, os)
  | (inl map, os) => Ok (PLATFORM_STATUS_OK, Some map, os)
  end.

(** A failing sbrk returns (void * )-1, which is stored in *result as well. *)
Definition platform_get_program_break (os : OS) : platform_status_code_t * Z * OS :=
  match k_sbrk0 os with
  | (inr e, os) => (get_error_from_errno e, 2 ^ 64 - 1, os)
  | (inl brk, os) => (PLATFORM_STATUS_OK, brk, os)
  end.

(** One iteration of the probing loop, from the probe [new_probe]; the result is
    the status and the new value of *probe. *)
Definition map_probe_step (probe ceiling len : Z) (st : Z * OS)
    : outcome ((Z * OS) + (platform_status_code_t * Z * OS)) :=
  let '(new_probe, os) := st in
  match k_mmap os new_probe len true with
  | (inr EEXIST, os) =>
      let new_probe := u64 (new_probe + PAGE_SIZE) in
      if ceiling <=? new_probe then Ok (inr (PLATFORM_STATUS_CEILING_HIT, probe, os))
      else Ok (inl (new_probe, os))
  | (inr e, os) => Ok (inr (get_error_from_errno e, probe, os))
  | (inl map, os) =>
      if map =? 0 then Ok (inl (new_probe, os))   (* while (map == NULL) *)
      else if negb (map =? new_probe) then Ok (inr (PLATFORM_DIFFERENT_ADDRESS, map, os))
      else Ok (inr (PLATFORM_STATUS_OK, map, os))
  end.

(** platform_map_probe: the status and the new value of *probe. *)
Definition platform_map_probe (os : OS) (probe ceiling len : Z)
    : outcome (platform_status_code_t * Z * OS) :=
  _ ← c_assert (0 <? len);
  _ ← c_assert (IS_ALIGNED len PAGE_SIZE);
  _ ← c_assert (IS_ALIGNED probe PAGE_SIZE);
  if ceiling <=? probe then Ok (PLATFORM_STATUS_CEILING_HIT, probe, os)
  else while_loop (map_probe_step probe ceiling len) 52 (probe, os).

Definition platform_unmap (os : OS) (ptr len : Z) : outcome (platform_status_code_t * OS) :=
  _ ← c_assert (0 <? len);
  match k_munmap os ptr len with
  | (None, os) => Ok (PLATFORM_STATUS_OK, os)
  | (Some e, os) => Ok (get_error_from_errno e, os)
  end.

Definition platform_guard (os : OS) (ptr len : Z) : outcome (platform_status_code_t * OS) :=
  _ ← c_assert (0 <? len);
  match k_mprotect os ptr len false with
  | (None, os) => Ok (PLATFORM_STATUS_OK, os)
  | (Some e, os) => Ok (get_error_from_errno e, os)
  end.

Definition platform_unguard (os : OS) (ptr len : Z) : outcome (platform_status_code_t * OS) :=
  _ ← c_assert (0 <? len);
  match k_mprotect os ptr len true with
  | (None, os) => Ok (PLATFORM_STATUS_OK, os)
  | (Some e, os) => Ok (get_error_from_errno e, os)
  end.

Definition platform_get_random (os : OS) : platform_status_code_t * option Z * OS :=
  match k_urandom os with
  | (inr e, os) => (get_error_from_errno e, None, os)
  | (inl v, os) => (PLATFORM_STATUS_OK, Some v, os)
  end.

(** ** platform_map_probe is total *)

(** mmap never returns a mapping at address 0. *)
Definition mmap_nonnull : Prop :=
  ∀ os a len b p os', k_mmap os a len b = (inl p, os') → p ≠ 0.

Lemma map_probe_iterate ceiling len probe0 (n : nat) : ∀ probe os,
  mmap_nonnull → 0 ≤ probe < ceiling → ceiling ≤ 2 ^ 63 →
  ceiling - probe ≤ Z.of_nat n * PAGE_SIZE →
  ∃ code p os', iterate (map_probe_step probe0 ceiling len) n (probe, os) =
                Ok (inr (code, p, os')).
Proof.
  induction n as [|n IH]; intros probe os Hnn Hp Hc Hn; [unfold PAGE_SIZE in *; lia|].
  simpl. destruct (k_mmap os probe len true) as [[map|e] os1] eqn:Hm.
  - specialize (Hnn _ _ _ _ _ _ Hm). replace (map =? 0) with false by lia.
    destruct (negb (map =? probe)); simpl; eauto.
  - destruct e; simpl; eauto. rewrite wrap_small by (unfold PAGE_SIZE; lia).
    destruct (Z.leb_spec ceiling (probe + PAGE_SIZE)); simpl; [eauto|].
    apply IH; [done|unfold PAGE_SIZE in *; lia..].
Qed.

Lemma platform_map_probe_total os probe ceiling len :
  mmap_nonnull → 0 < len → len mod PAGE_SIZE = 0 → 0 ≤ probe → probe mod PAGE_SIZE = 0 →
  ceiling ≤ 2 ^ 63 →
  ∃ code p os', platform_map_probe os probe ceiling len = Ok (code, p, os').
Proof.
  intros Hnn Hlen Hl Hp Hpa Hc. unfold platform_map_probe, IS_ALIGNED.
  rewrite !c_assert_true by lia. cbn [mbind outcome_bind].
  destruct (Z.leb_spec ceiling probe); [eauto|].
  destruct (map_probe_iterate ceiling len probe (Z.to_nat (2 ^ 52)) probe os)
    as (code & p & os' & Hit); [done|lia|done| |].
  { rewrite Z2Nat.id by lia. unfold PAGE_SIZE. lia. }
  exists code, p, os'. eapply while_loop_done; [exact Hit|].
  apply Nat2Z.inj_le. rewrite Nat2Z.inj_pow, Z2Nat.id by lia. lia.
Qed.
End platform.

(** A kernel that grants every request at the address asked for (or at a fixed one),
    for concrete runs. *)
Definition granting_kernel : Kernel unit := {|
  k_mmap _ hint _ _ := (inl (if hint =? 0 then 2 ^ 32 else hint), tt);
  k_munmap _ _ _ := (None, tt);
  k_mprotect _ _ _ _ := (None, tt);
  k_sbrk0 _ := (inl (2 ^ 24), tt);
  k_urandom _ := (inl 4, tt);
  k_getenv_seed _ := None
|}.

(** C38. platform_map_probe always returns: its probing loop ends with a mapping, an
    error or PLATFORM_STATUS_CEILING_HIT, whatever mmap answers (a non-null mapping or
    an error), because the probe rises by a page per iteration. *)
Theorem map_probe_terminates `{Build} `{Kernel OS} os probe ceiling len :
  mmap_nonnull → 0 < len → len mod PAGE_SIZE = 0 → 0 ≤ probe → probe mod PAGE_SIZE = 0 →
  ceiling ≤ 2 ^ 63 →
  ∃ code p os', platform_map_probe os probe ceiling len = Ok (code, p, os').
Proof. apply platform_map_probe_total. Qed.

Lemma map_probe_terminates_witness :
  ∃ code p os', @platform_map_probe assert_build unit granting_kernel tt 4096 (2 ^ 30) 8192
                = Ok (code, p, os').
Proof.
  apply (@map_probe_terminates assert_build unit granting_kernel); try (vm_compute; done).
  intros [] a len b p []. simpl. destruct (Z.eqb_spec a 0); intros [= <-]; done.
Defined.
