(* ===== verification/KernelSpec.v ===== *)
(** * KernelSpec: what the allocator relies on from the kernel

    [KernelLaws] states the documented behaviour of mmap, munmap and sbrk over the
    set of mapped addresses: a mapping that is granted is page-aligned, lies in user
    space and was not mapped before, a refusal maps nothing, and munmap takes away
    exactly its range.  [tracking_kernel] is a kernel with these laws, for concrete
    runs.  [map_probe_spec] states what platform_map_probe does to the mapped set. *)
From Stdlib Require Import ZArith Lia.
From stdpp Require Import base option numbers list gmap.
From S2P Require Import Prelude.
From S2P Require Import Utils.
From S2P Require Import Platform.

Class KernelLaws (OS : Type) `{!Kernel OS} := {
  k_mapped : OS → Z → Prop;
  k_mmap_grants os hint len fixed p os' :
    k_mmap os hint len fixed = (inl p, os') →
    (0 < p ∧ p mod PAGE_SIZE = 0 ∧ p + len ≤ 2 ^ 47) ∧
    (∀ x, range p len x → ¬ k_mapped os x) ∧
    (∀ x, k_mapped os' x ↔ range p len x ∨ k_mapped os x);
  k_mmap_refuses os hint len fixed e os' :
    k_mmap os hint len fixed = (inr e, os') → ∀ x, k_mapped os' x ↔ k_mapped os x;
  k_munmap_done os p len os' :
    k_munmap os p len = (None, os') → ∀ x, k_mapped os' x ↔ k_mapped os x ∧ ¬ range p len x;
  k_sbrk_user os b os' : k_sbrk0 os = (inl b, os') → 0 ≤ b < MAX_USERSPACE_ADDR64;
  k_sbrk_same os r os' : k_sbrk0 os = (r, os') → ∀ x, k_mapped os' x ↔ k_mapped os x;
  k_urandom_same os r os' : k_urandom os = (r, os') → ∀ x, k_mapped os' x ↔ k_mapped os x
}.

(** ** A kernel with these laws

    It remembers the ranges it has granted and taken back, grants a request at the
    address asked for, and never uses an address twice. *)
Record tracker : Type := Tracker { granted_ranges : list (Z * Z); taken_ranges : list (Z * Z) }.
Definition range_apartb (p n : Z) (r : Z * Z) : bool := (p + n <=? r.1) || (r.1 + r.2 <=? p).
Definition tracker_mapped (os : tracker) (x : Z) : Prop :=
  (∃ r, r ∈ granted_ranges os ∧ range r.1 r.2 x) ∧ ¬ ∃ r, r ∈ taken_ranges os ∧ range r.1 r.2 x.

Definition tracking_kernel : Kernel tracker := {|
  k_mmap os hint len _ :=
    if (0 <? len) && (0 <? hint) && (hint mod PAGE_SIZE =? 0) && (hint + len <=? 2 ^ 47) then
      if forallb (range_apartb hint len) (granted_ranges os ++ taken_ranges os)
      then (inl hint, Tracker ((hint, len) :: granted_ranges os) (taken_ranges os))
      else (inr EEXIST, os)
    else (inr EINVAL, os);
  k_munmap os p len := (None, Tracker (granted_ranges os) ((p, len) :: taken_ranges os));
  k_mprotect os _ _ _ := (None, os);
  k_sbrk0 os := (inl (2 ^ 24), os);
  k_urandom os := (inl 4, os);
  k_getenv_seed _ := None
|}.

Lemma tracker_grant os p n x :
  forallb (range_apartb p n) (granted_ranges os ++ taken_ranges os) = true → range p n x →
  (¬ ∃ r, r ∈ granted_ranges os ∧ range r.1 r.2 x) ∧ ¬ ∃ r, r ∈ taken_ranges os ∧ range r.1 r.2 x.
Proof.
  rewrite forallb_forall. intros Hall Hx.
  assert (∀ r, r ∈ granted_ranges os ++ taken_ranges os → ¬ range r.1 r.2 x) as Hno.
  { intros r Hr%list_elem_of_In Hrx. apply Hall in Hr. unfold range_apartb, range in *. lia. }
  split; intros (r & Hr & Hrx); apply (Hno r); try done; apply elem_of_app; auto.
Qed.

Instance tracking_laws : @KernelLaws tracker tracking_kernel.
Proof.
  refine {| k_mapped := tracker_mapped |}.
  - intros os hint len fixed p os'. simpl.
    destruct (_ && _) eqn:Hc; [|done]. destruct (forallb _ _) eqn:Hall; [|done]. intros [= <- <-].
    rewrite !andb_true_iff in Hc. split; [lia|]. split.
    + intros x Hx [Hg _]. by apply (tracker_grant os hint len x Hall Hx) in Hg.
    + intros x. unfold tracker_mapped. cbn [granted_ranges taken_ranges]. split.
      * intros [(r & [->|Hr]%elem_of_cons & Hrx) Hno]; [by left|]. right. split; [by exists r|done].
      * intros [Hx|[(r & Hr & Hrx) Hno]].
        -- split; [exists (hint, len); split; [by left|done]|].
           by apply (tracker_grant os hint len x Hall Hx).
        -- split; [|done]. exists r. split; [by right|done].
  - intros os hint len fixed e os'. simpl. destruct (_ && _); [destruct (forallb _ _); [done|]|]; by intros [= <- <-].
  - intros os p len os'. simpl. intros [= <-] x. unfold tracker_mapped. cbn [granted_ranges taken_ranges].
    split.
    + intros [Hg Hno]. split; [split; [done|]|].
      * intros (r & Hr & Hrx). apply Hno. exists r. split; [by right|done].
      * intros Hx. apply Hno. exists (p, len). split; [by left|done].
    + intros [[Hg Hno] Hx]. split; [done|]. intros (r & [->|Hr]%elem_of_cons & Hrx); [done|].
      apply Hno. by exists r.
  - intros os b os'. simpl. intros [= <- _]. unfold MAX_USERSPACE_ADDR64. lia.
  - intros os r os'. simpl. by intros [= _ <-].
  - intros os r os'. simpl. by intros [= _ <-].
Defined.

(** ** platform_map_probe *)
Section map_probe.
Context `{Build} `{KernelLaws OS}.

Definition same_mapped (os os' : OS) : Prop := ∀ x, k_mapped os' x ↔ k_mapped os x.

(** [os'] is [os] with the fresh mapping [p, p + n). *)
Record granted (os os' : OS) (p n : Z) : Prop := {
  gr_addr : 0 < p ∧ p mod PAGE_SIZE = 0 ∧ p + n ≤ 2 ^ 47;
  gr_fresh : ∀ x, range p n x → ¬ k_mapped os x;
  gr_mapped : ∀ x, k_mapped os' x ↔ range p n x ∨ k_mapped os x
}.

#[export] Instance same_mapped_preorder : PreOrder same_mapped.
Proof. split; [by intros os x|]. intros o1 o2 o3 H1 H2 x. rewrite (H2 x). apply H1. Qed.

Lemma granted_same os os1 os2 p n : same_mapped os os1 → granted os1 os2 p n → granted os os2 p n.
Proof.
  intros Hs [Ha Hf Hm]. split; [done| |].
  - intros x Hx Hmx. apply (Hf x Hx). by apply Hs.
  - intros x. rewrite Hm. by rewrite (Hs x).
Qed.

Lemma laws_nonnull : mmap_nonnull.
Proof. intros os a n b p os' Hm. apply k_mmap_grants in Hm as [[]]. lia. Qed.

Lemma map_probe_spec os probe ceiling n :
  0 < n → n mod PAGE_SIZE = 0 → 0 ≤ probe → probe mod PAGE_SIZE = 0 → ceiling ≤ 2 ^ 63 →
  ∃ code p os', platform_map_probe os probe ceiling n = Ok (code, p, os') ∧
    match code with
    | PLATFORM_STATUS_OK | PLATFORM_DIFFERENT_ADDRESS => granted os os' p n
    | _ => same_mapped os os' ∧ p = probe
    end.
Proof.
  intros Hn Hna Hp Hpa Hc.
  destruct (platform_map_probe_total os probe ceiling n laws_nonnull) as (code & p & os' & Heq); try done.
  exists code, p, os'. split; [done|]. revert Heq. unfold platform_map_probe, IS_ALIGNED.
  rewrite !c_assert_true by lia. cbn [mbind outcome_bind].
  destruct (ceiling <=? probe); [by intros [= <- <- <-]|].
  intros Heq.
  destruct (while_loop_invariant (map_probe_step probe ceiling n) (λ s, same_mapped os s.2)
    (λ '(code, p, os'), match code with
       | PLATFORM_STATUS_OK | PLATFORM_DIFFERENT_ADDRESS => granted os os' p n
       | _ => same_mapped os os' ∧ p = probe end) 52 (probe, os)) as [Hd|([[c' p'] o'] & Hd & HQ)];
    [|done|by rewrite Heq in Hd|rewrite Heq in Hd; by injection Hd as -> -> ->].
  clear Heq. intros [np os1] Hs. simpl in Hs. unfold map_probe_step.
  destruct (k_mmap os1 np n true) as [[map|e] os2] eqn:Hm.
  - pose proof (laws_nonnull _ _ _ _ _ _ Hm) as Hnz. rewrite (proj2 (Z.eqb_neq _ _) Hnz).
    assert (granted os os2 map n) as Hgr.
    { apply (granted_same _ os1); [done|]. apply k_mmap_grants in Hm as (H1 & H2 & H3). by split. }
    destruct (negb (map =? np)); eexists; (split; [reflexivity|done]).
  - assert (same_mapped os os2) as Hs2 by (etrans; [exact Hs|exact (k_mmap_refuses _ _ _ _ _ _ Hm)]).
    destruct e; [destruct (ceiling <=? _)|..]; eexists; (split; [reflexivity|done]).
Qed.

(** A kernel without memory: every mmap is refused with ENOMEM. *)
Definition no_memory : Prop := ∀ (os : OS) a n f, ∃ os', k_mmap os a n f = (inr ENOMEM, os').

Lemma map_probe_refused os probe ceiling n :
  no_memory → 0 < n → n mod PAGE_SIZE = 0 → probe mod PAGE_SIZE = 0 →
  ∃ code os', platform_map_probe os probe ceiling n = Ok (code, probe, os') ∧
    (code = PLATFORM_STATUS_CEILING_HIT ∨ code = PLATFORM_STATUS_ERR_NOMEM).
Proof.
  intros Hno Hn Hna Hpa. unfold platform_map_probe, IS_ALIGNED. rewrite !c_assert_true by lia.
  cbn [mbind outcome_bind]. destruct (ceiling <=? probe); [eexists _, os; by split; [|left]|].
  destruct (Hno os probe n true) as [os' Hm]. exists PLATFORM_STATUS_ERR_NOMEM, os'. split; [|by right].
  apply (while_loop_done _ 52 1); [|apply Nat.pow_lower_bound; lia].
  cbn [iterate map_probe_step]. by rewrite Hm.
Qed.
End map_probe.
