(* ===== verification/Run.v ===== *)
(** * Run: run.c and run.h

    A run hands out the regions of one size class in the order of a group walk and
    never hands out a region twice.  [run_t] is the C structure, [bin_t] the part of
    bin.h the run operations read.  [run_rep] relates a run to its abstract state,
    the regions issued so far (in order) and the set of those given back; the
    operations refine allocation of a fresh region and a one-time free.

    This is the code of a build without memory tagging; Tagging adds those branches. *)
From Stdlib Require Import ZArith Lia.
From stdpp Require Import base option numbers list gmap.
From S2P Require Import Prelude.
From S2P Require Import CArray.
From S2P Require Import Utils.
From S2P Require Import SizeClass.
From S2P Require Import Random.
From S2P Require Import Generator.
From S2P Require Import ContainerLL.

Definition RUN_SIZE_SMALL_BYTES : Z := 16384.
Definition RUN_SIZE_MEDIUM_BYTES : Z := 16384.
Definition RUN_SIZE_SMALL_PAGES : Z := RUN_SIZE_SMALL_BYTES / PAGE_SIZE.
Definition RUN_SIZE_MEDIUM_PAGES : Z := RUN_SIZE_MEDIUM_BYTES / PAGE_SIZE.

(** Region states; [STATE_3] is the bit pattern that enumerates no constant. *)
Inductive bstate_t : Type := STATE_FREE | STATE_ALLOC | STATE_ALLOC_FREE | STATE_3.

#[export] Instance bstate_eq_dec : EqDecision bstate_t.
Proof. solve_decision. Defined.

#[export] Program Instance bstate_packed : PackedEnum bstate_t := {
  enum_code s := match s with
    STATE_FREE => 0 | STATE_ALLOC => 1 | STATE_ALLOC_FREE => 2 | STATE_3 => 3 end;
  enum_of z := if z =? 0 then STATE_FREE else if z =? 1 then STATE_ALLOC
               else if z =? 2 then STATE_ALLOC_FREE else STATE_3
}.
Next Obligation. intros []; simpl; lia. Qed.
Next Obligation. by intros []. Qed.
Next Obligation. intros z Hz. assert (0 ≤ z ≤ 3) by lia. clear Hz. zcases z; done. Qed.

(** struct run_state *)
Record run_t : Type := Run {
  run_entry : ll_entry;
  navail : Z;
  nfreed : Z;
  gen : Z;
  current_idx : Z;
  reg_bitmap : arr Z
}.

(** struct bin_state (bin.h) *)
Record bin_t : Type := Bin {
  run_list_inactive : Z;
  run_list_active : Z;
  run_list_active_cnt : Z;
  avail_regs : Z;
  reg_size : Z;
  run_size_pages : Z;
  reg_mask_size_bits : Z
}.

#[export] Program Instance run_has_entry : HasEntry run_t := {
  get_entry r := run_entry r;
  put_entry e r := Run e (navail r) (nfreed r) (gen r) (current_idx r) (reg_bitmap r)
}.
Solve Obligations with done.

Definition get_bitmap_item (mem : arr Z) (idx : Z) : outcome bstate_t :=
  z ← packed_get mem idx; Ok (enum_of z).
Definition set_bitmap_item (mem : arr Z) (idx : Z) (state : bstate_t) : outcome (arr Z) :=
  packed_set mem idx (enum_code state).

(** The number of regions, [bin->reg_mask_size_bits / 2]. *)
Definition bin_elems (bin : bin_t) : Z := reg_mask_size_bits bin / 2.

(** The generator a run of this bin draws. *)
Definition choose_generator (bin : bin_t) (r : rng) : outcome (Z * rng) :=
  if IS_SIZE_SMALL (reg_size bin) then
    let gen_idx := SIZE_TO_IDX_SMALL (reg_size bin) in
    let '(x, r) := splitmix32 r in
    len ← table_at GENERATORS_SMALL_LENGTHS gen_idx;
    j ← umod x len;
    g ← gen_small gen_idx j;
    Ok (g, r)
  else if IS_SIZE_MEDIUM (reg_size bin) then
    gen_idx ← size_to_idx_medium (reg_size bin);
    let '(x, r) := splitmix32 r in
    len ← table_at GENERATORS_MEDIUM_LENGTHS gen_idx;
    j ← umod x len;
    g ← gen_medium gen_idx j;
    Ok (g, r)
  else Ok (1, r).

(** void run_init(run_t *run, bin_t *bin, void *heap) *)
Definition run_init (bin : bin_t) (heap : Z) (r : rng) : outcome (run_t * rng) :=
  '(g, r) ← choose_generator bin r;
  let '(x, r) := splitmix32 r in
  c ← umod x (bin_elems bin);
  Ok (Run (LLEntry 0 0 heap) (u16 (bin_elems bin)) 0 (u16 g) (u16 c)
          (amake (BITS2BYTES_CEIL 32 (reg_mask_size_bits bin)) 0), r).

(** void *run_allocate(run_t *run, bin_t *bin) *)
Definition run_allocate `{Build} (run : run_t) (bin : bin_t) : outcome (Z * run_t) :=
  _ ← c_assert (0 <? navail run);
  let heap := key (run_entry run) in
  let elems := bin_elems bin in
  idx ← umod (gen run + current_idx run) elems;
  let idx := u16 idx in
  st ← get_bitmap_item (reg_bitmap run) idx;
  _ ← c_assert (bool_decide (st = STATE_FREE));
  bitmap ← set_bitmap_item (reg_bitmap run) idx STATE_ALLOC;
  Ok (u64 (heap + u32 (idx * reg_size bin)),
      Run (run_entry run) (u16 (navail run - 1)) (nfreed run) (gen run) idx bitmap).

Definition SIZE_MAX : Z := 2 ^ 64 - 1.

(** The two's complement value of a 64-bit difference, ptrdiff_t. *)
Definition s64 (z : Z) : Z := let u := u64 z in if u <? 2 ^ 63 then u else u - 2 ^ 64.

(** size_t run_validate_ptr(run_t *run, bin_t *bin, void *ptr) *)
Definition run_validate_ptr (run : run_t) (bin : bin_t) (ptr : Z) : outcome Z :=
  let rel_ptr := s64 (ptr - key (run_entry run)) in
  if reg_size bin =? 0 then Fail UB
  else
    let bitmap_idx := u64 (Z.quot rel_ptr (reg_size bin)) in
    if negb (Z.rem rel_ptr (reg_size bin) =? 0) then Ok SIZE_MAX
    else
      st ← get_bitmap_item (reg_bitmap run) bitmap_idx;
      if negb (bool_decide (st = STATE_ALLOC)) then Ok SIZE_MAX
      else Ok bitmap_idx.

(** bool run_deallocate(run_t *run, bin_t *bin, void *ptr) *)
Definition run_deallocate (run : run_t) (bin : bin_t) (ptr : Z) : outcome (bool * run_t) :=
  bitmap_idx ← run_validate_ptr run bin ptr;
  if bitmap_idx =? SIZE_MAX then Ok (false, run)
  else
    bitmap ← set_bitmap_item (reg_bitmap run) bitmap_idx STATE_ALLOC_FREE;
    Ok (true, Run (run_entry run) (navail run) (u16 (nfreed run + 1)) (gen run)
                  (current_idx run) bitmap).

Definition run_is_depleted (run : run_t) : bool := navail run =? 0.
Definition run_is_freeable (run : run_t) (bin : bin_t) : bool :=
  nfreed run =? bin_elems bin.

(** ** The abstract state of a run *)

(** The shape of a bin: [n] regions of [reg_size] bytes that fit in the pages of a
    run. *)
Record bin_shape (bin : bin_t) (n : Z) : Prop := {
  bs_bits : reg_mask_size_bits bin = 2 * n;
  bs_n : 1 ≤ n ≤ 1024;
  bs_reg : 0 < reg_size bin;
  bs_fit : reg_size bin * n ≤ 2 ^ 20
}.

Lemma bin_shape_elems bin n : bin_shape bin n → bin_elems bin = n.
Proof. intros [Hb _ _ _]. unfold bin_elems. rewrite Hb, Z.mul_comm. by apply Z.div_mul. Qed.

(** The state of region [i]: [issued] lists the regions handed out, oldest first,
    and [freed] those given back. *)
Definition region_state (issued : list Z) (freed : gset Z) (i : Z) : bstate_t :=
  if decide (i ∈ freed) then STATE_ALLOC_FREE
  else if decide (i ∈ issued) then STATE_ALLOC else STATE_FREE.

Record run_rep (bin : bin_t) (n : Z) (run : run_t) (issued : list Z) (freed : gset Z) : Prop := {
  rr_gen : generates (gen run) n;
  rr_start : ∃ c, issued = (λ j, walk (gen run) n c (Z.of_nat j)) <$> seq 1 (length issued) ∧
                  current_idx run = walk (gen run) n c (Z.of_nat (length issued));
  rr_len : alen (reg_bitmap run) = BITS2BYTES_CEIL 32 (reg_mask_size_bits bin);
  rr_state : ∀ i, 0 ≤ i → eitem (reg_bitmap run) i = region_state issued freed i;
  rr_freed : ∀ i, i ∈ freed → i ∈ issued;
  rr_issued : Z.of_nat (length issued) ≤ n;
  rr_navail : navail run = n - Z.of_nat (length issued);
  rr_nfreed : nfreed run = Z.of_nat (size freed);
  rr_heap : 0 < key (run_entry run) < 2 ^ 48
}.

(** The address of region [i]. *)
Definition region_addr (bin : bin_t) (run : run_t) (i : Z) : Z :=
  key (run_entry run) + i * reg_size bin.

Section run_lemmas.
Context (bin : bin_t) (n : Z) (Hshape : bin_shape bin n).

Lemma bitmap_bytes : BITS2BYTES_CEIL 32 (reg_mask_size_bits bin) = (2 * n + 7) / 8.
Proof.
  destruct Hshape as [-> Hn _ _]. unfold BITS2BYTES_CEIL, ALIGNUP_8.
  rewrite (alignup_mod 32 8 3) by (try done; lia).
  by rewrite Z.div_mul by lia.
Qed.

Lemma bitmap_covers i : 0 ≤ i < n → 0 ≤ i < 4 * BITS2BYTES_CEIL 32 (reg_mask_size_bits bin).
Proof.
  intros. rewrite bitmap_bytes. pose proof (Z.div_mod (2 * n + 7) 8 ltac:(lia)).
  pose proof (Z.mod_pos_bound (2 * n + 7) 8 ltac:(lia)). lia.
Qed.

Lemma get_bitmap_ok (mem : arr Z) i :
  alen mem = BITS2BYTES_CEIL 32 (reg_mask_size_bits bin) →
  0 ≤ i < 4 * alen mem → get_bitmap_item mem i = Ok (eitem mem i).
Proof. intros Hl Hi. unfold get_bitmap_item. by rewrite packed_get_in. Qed.

Lemma set_bitmap_ok (mem : arr Z) i s :
  0 ≤ i < 4 * alen mem → set_bitmap_item mem i s = Ok (eupd mem i s).
Proof. intros Hi. unfold set_bitmap_item. by rewrite packed_set_in. Qed.

Lemma issued_range run issued freed i :
  run_rep bin n run issued freed → i ∈ issued → 0 ≤ i < n.
Proof.
  intros [_ (c & Hiss & _) _ _ _ _ _ _ _] Hi. rewrite Hiss in Hi.
  apply list_elem_of_fmap in Hi as (j & -> & _). destruct Hshape. apply walk_range. lia.
Qed.

Lemma issued_NoDup run issued freed : run_rep bin n run issued freed → NoDup issued.
Proof.
  intros [Hg (c & Hiss & _) _ _ _ Hlen _ _ _]. rewrite Hiss.
  apply NoDup_fmap_2_strong; [|apply NoDup_seq].
  intros i j Hi%elem_of_seq Hj%elem_of_seq Heq. destruct Hshape.
  assert (walk (gen run) n (c + gen run) (Z.of_nat i - 1) =
          walk (gen run) n (c + gen run) (Z.of_nat j - 1)) as Heq'.
  { unfold walk in *. replace (c + gen run + (Z.of_nat i - 1) * gen run)
      with (c + Z.of_nat i * gen run) by lia.
    by replace (c + gen run + (Z.of_nat j - 1) * gen run)
      with (c + Z.of_nat j * gen run) by lia. }
  apply walk_inj in Heq'; [lia|done|lia|lia].
Qed.

(** The next index of the walk is a region that was never issued. *)
Lemma next_fresh run issued freed :
  run_rep bin n run issued freed → Z.of_nat (length issued) < n →
  let i := (gen run + current_idx run) mod n in 0 ≤ i < n ∧ i ∉ issued.
Proof.
  intros Hrep Hlt. destruct Hshape as [_ Hn _ _]. cbv zeta.
  split; [apply Z.mod_pos_bound; lia|].
  destruct Hrep as [Hg (c & Hiss & Hcur) _ _ _ Hlen _ _ _].
  rewrite Hcur, walk_step by lia. rewrite Hiss at 2.
  intros (j & Heq & Hj%elem_of_seq)%list_elem_of_fmap.
  set (k := length issued) in *.
  assert (walk (gen run) n (c + gen run) (Z.of_nat k) =
          walk (gen run) n (c + gen run) (Z.of_nat j - 1)) as Heq'.
  { unfold walk in *. replace (c + gen run + Z.of_nat k * gen run)
      with (c + (Z.of_nat k + 1) * gen run) by lia.
    by replace (c + gen run + (Z.of_nat j - 1) * gen run)
      with (c + Z.of_nat j * gen run) by lia. }
  apply walk_inj in Heq'; [lia|done|lia|lia].
Qed.

(** ** Operations against the abstract state *)

Lemma region_state_issue issued freed i j :
  i ∉ issued → (∀ x, x ∈ freed → x ∈ issued) →
  region_state (issued ++ [i]) freed j =
  if decide (i = j) then STATE_ALLOC else region_state issued freed j.
Proof.
  intros Hi Hfr. unfold region_state. destruct (decide (i = j)) as [<-|Hne].
  - rewrite decide_False by auto. rewrite decide_True by set_solver. done.
  - destruct (decide (j ∈ freed)); [done|].
    destruct (decide (j ∈ issued)); [rewrite decide_True by set_solver; done|].
    rewrite decide_False by set_solver. done.
Qed.

Lemma issued_snoc g c (l : list Z) :
  l = ((λ j, walk g n c (Z.of_nat j)) <$> seq 1 (length l)) →
  l ++ [walk g n c (Z.of_nat (length l) + 1)] =
  (λ j, walk g n c (Z.of_nat j)) <$> seq 1 (length (l ++ [walk g n c (Z.of_nat (length l) + 1)])).
Proof.
  intros Hl. rewrite length_app. simpl length. rewrite Nat.add_1_r, seq_S, fmap_app, <- Hl.
  simpl. do 2 f_equal. unfold walk. do 2 f_equal. lia.
Qed.

Lemma run_allocate_ok `{Build} run issued freed :
  run_rep bin n run issued freed → Z.of_nat (length issued) < n →
  ∃ i run', run_allocate run bin = Ok (region_addr bin run i, run') ∧
            0 ≤ i < n ∧ (i ∉ issued) ∧ i = current_idx run' ∧
            run_entry run' = run_entry run ∧
            run_rep bin n run' (issued ++ [i]) freed.
Proof.
  intros Hrep Hlt. destruct (next_fresh run issued freed Hrep Hlt) as [Hi Hfresh].
  set (i := (gen run + current_idx run) mod n) in *.
  pose proof Hrep as [Hg (c & Hiss & Hcur) Hlen Hst Hfr Hle Hnav Hnf Hheap].
  pose proof Hshape as [Hbits Hn Hreg Hfit].
  pose proof (bitmap_covers i Hi) as Hcov. rewrite <- Hlen in Hcov.
  unfold run_allocate. rewrite c_assert_true by lia. cbn [mbind outcome_bind].
  rewrite (bin_shape_elems bin n), umod_ok by (done || lia). cbn [mbind outcome_bind].
  fold i. rewrite (wrap_small 16 i) by lia.
  rewrite get_bitmap_ok by done. cbn [mbind outcome_bind].
  assert (eitem (reg_bitmap run) i = STATE_FREE) as Hfree.
  { rewrite Hst by lia. unfold region_state. rewrite !decide_False by auto. done. }
  rewrite Hfree, c_assert_true by done. cbn [mbind outcome_bind].
  rewrite set_bitmap_ok by done. cbn [mbind outcome_bind].
  assert (i * reg_size bin < 2 ^ 20) by nia.
  assert (0 ≤ i * reg_size bin) by (apply Z.mul_nonneg_nonneg; lia).
  rewrite (wrap_small 32 (i * reg_size bin)) by lia.
  rewrite (wrap_small 64 (key _ + _)) by lia.
  eexists i, _. split; [reflexivity|]. split_and!; try done; try lia.
  assert (walk (gen run) n c (Z.of_nat (length issued) + 1) = i) as Hwi.
  { unfold i. by rewrite Hcur, walk_step by lia. }
  split; cbn [gen current_idx reg_bitmap navail nfreed run_entry]; try done.
  - exists c. pose proof (issued_snoc _ _ _ Hiss) as Hsn. rewrite Hwi in Hsn. split; [done|].
    rewrite length_app. simpl length. rewrite Nat2Z.inj_add. by rewrite <- Hwi.
  - intros j Hj. rewrite eitem_eupd, region_state_issue by (auto; lia).
    case_decide; [done|auto].
  - intros x Hx. apply elem_of_app. left. auto.
  - rewrite length_app. simpl. lia.
  - rewrite length_app. simpl length. rewrite wrap_small by lia. lia.
Qed.

(** run_validate_ptr on a pointer [off] bytes into the run. *)
Lemma run_validate_ok run issued freed ptr off :
  run_rep bin n run issued freed → ptr = key (run_entry run) + off → 0 ≤ off < 2 ^ 48 →
  run_validate_ptr run bin ptr =
  if negb (off mod reg_size bin =? 0) then Ok SIZE_MAX
  else if off / reg_size bin <? 4 * alen (reg_bitmap run) then
    Ok (if decide (off / reg_size bin ∈ issued ∧ off / reg_size bin ∉ freed)
        then off / reg_size bin else SIZE_MAX)
  else Fail UB.
Proof.
  intros Hrep -> Hoff. pose proof Hrep as [_ _ Hlen Hst Hfr _ _ _ Hheap].
  destruct Hshape as [Hbits Hn Hreg Hfit]. unfold run_validate_ptr.
  replace (key (run_entry run) + off - key (run_entry run)) with off by lia.
  unfold s64. rewrite (wrap_small 64 off) by lia. replace (off <? 2 ^ 63) with true by lia.
  replace (reg_size bin =? 0) with false by lia.
  rewrite Z.quot_div_nonneg, Z.rem_mod_nonneg by lia.
  assert (0 ≤ off / reg_size bin ≤ off).
  { split; [apply Z.div_pos; lia|apply Z.div_le_upper_bound; nia]. }
  rewrite (wrap_small 64 (off / _)) by lia.
  destruct (off mod reg_size bin =? 0); simpl; [|done].
  destruct (Z.ltb_spec (off / reg_size bin) (4 * alen (reg_bitmap run))) as [Hin|Hout].
  - rewrite get_bitmap_ok by (done || lia). cbn [mbind outcome_bind].
    rewrite Hst by lia. unfold region_state.
    destruct (decide (off / reg_size bin ∈ freed)).
    { rewrite decide_False by tauto. done. }
    destruct (decide (off / reg_size bin ∈ issued)).
    + rewrite decide_True by tauto. done.
    + rewrite decide_False by tauto. done.
  - unfold get_bitmap_item. by rewrite packed_get_out.
Qed.

Lemma region_state_free issued freed i j :
  i ∈ issued →
  region_state issued ({[i]} ∪ freed) j =
  if decide (i = j) then STATE_ALLOC_FREE else region_state issued freed j.
Proof.
  intros Hi. unfold region_state. destruct (decide (i = j)) as [<-|Hne].
  - rewrite decide_True by set_solver. done.
  - destruct (decide (j ∈ freed)); [rewrite decide_True by set_solver; done|].
    rewrite decide_False by set_solver. done.
Qed.

(** A region of the run: aligned, and inside its [n] regions. *)
Lemma region_offset i : 0 ≤ i < n →
  (i * reg_size bin) mod reg_size bin = 0 ∧ (i * reg_size bin) / reg_size bin = i ∧
  0 ≤ i * reg_size bin < 2 ^ 20.
Proof.
  intros Hi. destruct Hshape as [_ Hn Hreg Hfit].
  rewrite Z.mod_mul, Z.div_mul by lia. split_and!; try done; nia.
Qed.

(** run_deallocate of a region that is issued and not yet given back. *)
Lemma run_deallocate_live run issued freed i :
  run_rep bin n run issued freed → i ∈ issued → i ∉ freed →
  ∃ run', run_deallocate run bin (region_addr bin run i) = Ok (true, run') ∧
          run_entry run' = run_entry run ∧
          run_rep bin n run' issued ({[i]} ∪ freed).
Proof.
  intros Hrep Hi Hif. pose proof (issued_range _ _ _ _ Hrep Hi) as Hrange.
  pose proof (issued_NoDup _ _ _ Hrep) as Hnd.
  destruct (region_offset i Hrange) as (Hmod & Hdiv & Hoff).
  pose proof (bitmap_covers i Hrange) as Hcov.
  pose proof Hrep as [Hg Hstart Hlen Hst Hfr Hle Hnav Hnf Hheap].
  rewrite <- Hlen in Hcov. pose proof Hshape as [Hbits Hn Hreg Hfit].
  unfold run_deallocate.
  rewrite (run_validate_ok run issued freed _ (i * reg_size bin)) by (done || lia).
  rewrite Hmod, Hdiv. replace (i <? _) with true by lia. simpl negb. cbn match.
  rewrite decide_True by done. cbn [mbind outcome_bind].
  replace (i =? SIZE_MAX) with false by (unfold SIZE_MAX; lia).
  rewrite set_bitmap_ok by done. cbn [mbind outcome_bind].
  assert (size ({[i]} ∪ freed) = S (size freed)) as Hsz.
  { rewrite size_union by set_solver. by rewrite size_singleton. }
  assert (size freed ≤ length issued)%nat.
  { rewrite <- (size_list_to_set (C := gset Z) issued) by done.
    apply subseteq_size. intros x Hx. apply elem_of_list_to_set. auto. }
  eexists. split; [reflexivity|]. split; [done|].
  split; cbn [gen current_idx reg_bitmap navail nfreed run_entry]; try done.
  - intros j Hj. rewrite eitem_eupd, region_state_free by (done || lia).
    case_decide; [done|auto].
  - intros x Hx. apply elem_of_union in Hx as [->%elem_of_singleton|Hx]; auto.
  - rewrite Hsz, wrap_small by lia. lia.
Qed.

(** Every other aligned or unaligned pointer into the run is refused and leaves it
    as it was. *)
Lemma run_deallocate_refused run issued freed off :
  run_rep bin n run issued freed → 0 ≤ off < n * reg_size bin →
  ¬ (off mod reg_size bin = 0 ∧ off / reg_size bin ∈ issued ∧ off / reg_size bin ∉ freed) →
  run_deallocate run bin (key (run_entry run) + off) = Ok (false, run).
Proof.
  intros Hrep Hoff Hno. pose proof Hrep as [_ _ Hlen _ _ _ _ _ _].
  pose proof Hshape as [Hbits Hn Hreg Hfit].
  assert (0 ≤ off / reg_size bin < n) as Hi.
  { split; [apply Z.div_pos; lia|apply Z.div_lt_upper_bound; lia]. }
  pose proof (bitmap_covers _ Hi) as Hcov. rewrite <- Hlen in Hcov.
  unfold run_deallocate. rewrite (run_validate_ok run issued freed _ off) by (done || lia).
  destruct (Z.eqb_spec (off mod reg_size bin) 0); simpl; [|done].
  replace (_ <? _) with true by lia. rewrite decide_False by tauto. done.
Qed.
End run_lemmas.

(** ** The bins of the size classes *)

(** Pages of a run, and regions in it, of the class with regions of [s] bytes. *)
Definition class_pages (s : Z) : Z := if s <=? MEDIUM_SIZE_MAX_REGION then 4 else s / PAGE_SIZE.
Definition class_elems (s : Z) : Z := class_pages s * PAGE_SIZE / s.

(** What bin_init establishes and no operation changes. *)
Record bin_geometry (bin : bin_t) : Prop := {
  bg_class : reg_size bin ∈ size_classes;
  bg_pages : run_size_pages bin = class_pages (reg_size bin);
  bg_bits : reg_mask_size_bits bin = 2 * class_elems (reg_size bin)
}.

Definition class_shape_ok (s : Z) : bool :=
  (1 <=? class_elems s) && (class_elems s <=? 1024) && (0 <? s) &&
  (s * class_elems s <=? 2 ^ 20) && (s * class_elems s <=? class_pages s * PAGE_SIZE).

Lemma class_shape_all : Forall (λ s, class_shape_ok s = true) size_classes.
Proof. rewrite size_classes_eq. repeat constructor. Qed.

Lemma class_shape s : s ∈ size_classes →
  1 ≤ class_elems s ≤ 1024 ∧ 0 < s ∧ s * class_elems s ≤ 2 ^ 20 ∧
  s * class_elems s ≤ class_pages s * PAGE_SIZE.
Proof.
  intros Hs. pose proof class_shape_all as H. rewrite Forall_forall in H.
  specialize (H s Hs). unfold class_shape_ok in H. rewrite !andb_true_iff in H. lia.
Qed.

Lemma bin_geometry_shape bin : bin_geometry bin → bin_shape bin (class_elems (reg_size bin)).
Proof. intros [Hc _ Hb]. destruct (class_shape _ Hc) as (? & ? & ? & ?). by split. Qed.

(** The classes with a table row: the index, and the regions of the row. *)
Definition small_class_ok (s : Z) : bool :=
  if IS_SIZE_SMALL s then
    (0 <=? SIZE_TO_IDX_SMALL s) && (SIZE_TO_IDX_SMALL s <? 32) &&
    (elems_small (SIZE_TO_IDX_SMALL s) =? class_elems s)
  else if IS_SIZE_MEDIUM s then
    match size_to_idx_medium s with
    | Ok i => (0 <=? i) && (i <? 4) && (elems_medium i =? class_elems s)
    | Fail _ => false
    end
  else class_elems s =? 1.

Lemma small_class_all : Forall (λ s, small_class_ok s = true) size_classes.
Proof. rewrite size_classes_eq. repeat constructor. Qed.

Lemma choose_generator_ok bin r :
  bin_geometry bin →
  ∃ g r', choose_generator bin r = Ok (g, r') ∧ generates g (class_elems (reg_size bin)).
Proof.
  intros [Hc _ _]. pose proof small_class_all as H. rewrite Forall_forall in H.
  specialize (H _ Hc). unfold small_class_ok in H. unfold choose_generator.
  destruct (IS_SIZE_SMALL (reg_size bin)); [|destruct (IS_SIZE_MEDIUM (reg_size bin))].
  - rewrite !andb_true_iff in H. destruct H as [[H0 H32] Hel].
    destruct (small_draw (SIZE_TO_IDX_SMALL (reg_size bin))) as (len & Hlen & H1 & Hdraw); [lia|].
    pose proof (splitmix32_range r) as Hx. destruct (splitmix32 r) as [x r']. simpl in Hx.
    rewrite Hlen. cbn [mbind outcome_bind]. rewrite umod_ok by lia. cbn [mbind outcome_bind].
    destruct (Hdraw (x mod len)) as (g & -> & Hg); [apply Z.mod_pos_bound; lia|].
    exists g, r'. split; [done|]. apply Z.eqb_eq in Hel. by rewrite <- Hel.
  - destruct (size_to_idx_medium (reg_size bin)) as [i|]; [|done].
    rewrite !andb_true_iff in H. destruct H as [[H0 H4] Hel].
    destruct (medium_draw i) as (len & Hlen & H1 & Hdraw); [lia|]. cbn [mbind outcome_bind].
    pose proof (splitmix32_range r) as Hx. destruct (splitmix32 r) as [x r']. simpl in Hx.
    rewrite Hlen. cbn [mbind outcome_bind]. rewrite umod_ok by lia. cbn [mbind outcome_bind].
    destruct (Hdraw (x mod len)) as (g & -> & Hg); [apply Z.mod_pos_bound; lia|].
    exists g, r'. split; [done|]. apply Z.eqb_eq in Hel. by rewrite <- Hel.
  - exists 1, r. split; [done|]. apply Z.eqb_eq in H. rewrite H. split; [lia|done].
Qed.

Lemma run_init_ok bin heap r :
  bin_geometry bin → 0 < heap < 2 ^ 48 →
  ∃ run r', run_init bin heap r = Ok (run, r') ∧ run_entry run = LLEntry 0 0 heap ∧
            run_rep bin (class_elems (reg_size bin)) run [] ∅.
Proof.
  intros Hgeo Hheap. pose proof (bin_geometry_shape bin Hgeo) as Hshape.
  set (n := class_elems (reg_size bin)) in *. pose proof Hshape as [Hbits Hn Hreg Hfit].
  destruct (choose_generator_ok bin r Hgeo) as (g & r1 & Hch & Hg). fold n in Hg.
  unfold run_init. rewrite Hch. cbn [mbind outcome_bind].
  pose proof (splitmix32_range r1) as Hx. destruct (splitmix32 r1) as [x r2]. simpl in Hx.
  rewrite (bin_shape_elems bin n), umod_ok by (done || lia). cbn [mbind outcome_bind].
  pose proof (Z.mod_pos_bound x n ltac:(lia)).
  rewrite (wrap_small 16 g), (wrap_small 16 n), (wrap_small 16 (x mod n)) by (destruct Hg; lia).
  eexists _, r2. split; [reflexivity|]. split; [done|].
  split; cbn [gen current_idx reg_bitmap navail nfreed run_entry key length]; try done; try lia.
  - exists x. split; [done|]. unfold walk. simpl. f_equal. lia.
  - intros i Hi. unfold eitem. by rewrite pitem_amake_0.
Qed.

(** ** Traces

    Any interleaving of allocations and frees on one run. *)
Inductive run_op : Type := RAlloc | RFree (ptr : Z).
Inductive run_res : Type := RPtr (ptr : Z) | RFreed (ok : bool).

Definition run_exec `{Build} (bin : bin_t) (run : run_t) (op : run_op) : outcome (run_res * run_t) :=
  match op with
  | RAlloc => '(p, run) ← run_allocate run bin; Ok (RPtr p, run)
  | RFree p => '(b, run) ← run_deallocate run bin p; Ok (RFreed b, run)
  end.

Fixpoint run_exec_all `{Build} (bin : bin_t) (run : run_t) (ops : list run_op)
    : outcome (list run_res * run_t) :=
  match ops with
  | [] => Ok ([], run)
  | op :: ops =>
      '(r, run) ← run_exec bin run op;
      '(rs, run) ← run_exec_all bin run ops;
      Ok (r :: rs, run)
  end.

(** The same operations on the abstract state.  Allocation takes the next region of
    the walk; a free succeeds exactly on the address of a region that is issued and
    not yet given back. *)
Inductive arun_step (n heap size : Z) :
    list Z * gset Z → run_op → run_res → list Z * gset Z → Prop :=
  | arun_alloc issued freed i :
      0 ≤ i < n → i ∉ issued →
      arun_step n heap size (issued, freed) RAlloc (RPtr (heap + i * size)) (issued ++ [i], freed)
  | arun_free issued freed i :
      i ∈ issued → i ∉ freed →
      arun_step n heap size (issued, freed) (RFree (heap + i * size)) (RFreed true)
        (issued, {[i]} ∪ freed)
  | arun_refused issued freed ptr :
      (∀ i, ptr = heap + i * size → i ∈ issued → i ∈ freed) →
      arun_step n heap size (issued, freed) (RFree ptr) (RFreed false) (issued, freed).

Inductive arun_steps (n heap size : Z) :
    list Z * gset Z → list run_op → list run_res → list Z * gset Z → Prop :=
  | arun_nil st : arun_steps n heap size st [] [] st
  | arun_cons st op r st1 ops rs st2 :
      arun_step n heap size st op r st1 → arun_steps n heap size st1 ops rs st2 →
      arun_steps n heap size st (op :: ops) (r :: rs) st2.

(** Operations the callers perform: no more allocations than regions, and frees of
    pointers into the regions of the run. *)
Fixpoint run_ops_legal (n heap size : Z) (k : nat) (ops : list run_op) : Prop :=
  match ops with
  | [] => True
  | RAlloc :: ops => match k with O => False | S k => run_ops_legal n heap size k ops end
  | RFree p :: ops => heap ≤ p < heap + n * size ∧ run_ops_legal n heap size k ops
  end.

Section traces.
Context `{Build} (bin : bin_t) (n : Z) (Hshape : bin_shape bin n).

Lemma run_exec_refines run issued freed op heap :
  run_rep bin n run issued freed → heap = key (run_entry run) →
  match op with
  | RAlloc => Z.of_nat (length issued) < n
  | RFree p => heap ≤ p < heap + n * reg_size bin
  end →
  ∃ r run' issued' freed',
    run_exec bin run op = Ok (r, run') ∧ run_entry run' = run_entry run ∧
    arun_step n heap (reg_size bin) (issued, freed) op r (issued', freed') ∧
    run_rep bin n run' issued' freed'.
Proof.
  intros Hrep -> Hop. destruct op as [|p]; simpl.
  - destruct (run_allocate_ok bin n Hshape run issued freed Hrep Hop)
      as (i & run' & -> & Hi & Hfresh & _ & Hent & Hrep').
    eexists _, run', _, _. split; [reflexivity|]. split_and!; [done| |done]. by constructor.
  - set (off := p - key (run_entry run)).
    pose proof Hshape as [_ Hn Hreg _].
    destruct (decide (off mod reg_size bin = 0 ∧ off / reg_size bin ∈ issued ∧
                      off / reg_size bin ∉ freed)) as [(Hm & Hi & Hf)|Hno].
    + assert (p = region_addr bin run (off / reg_size bin)) as Hp.
      { unfold region_addr. pose proof (Z.div_mod off (reg_size bin) ltac:(lia)). lia. }
      clearbody off. subst p.
      destruct (run_deallocate_live bin n Hshape run issued freed _ Hrep Hi Hf)
        as (run' & -> & Hent & Hrep').
      eexists _, run', _, _. split; [reflexivity|]. split_and!; [done| |done].
      by constructor.
    + replace p with (key (run_entry run) + off) by lia.
      rewrite (run_deallocate_refused bin n Hshape run issued freed off) by (done || lia).
      eexists _, run, _, _. split; [reflexivity|]. split_and!; [done| |done].
      constructor. intros i Heq Hi.
      assert (off = i * reg_size bin) as Hoff by lia.
      rewrite Hoff, Z.mod_mul, Z.div_mul in Hno by lia.
      destruct (decide (i ∈ freed)); [done|]. exfalso. tauto.
Qed.

Lemma run_exec_all_refines run issued freed ops heap k :
  run_rep bin n run issued freed → heap = key (run_entry run) →
  Z.of_nat (length issued + k) = n →
  run_ops_legal n heap (reg_size bin) k ops →
  ∃ rs run' issued' freed',
    run_exec_all bin run ops = Ok (rs, run') ∧
    arun_steps n heap (reg_size bin) (issued, freed) ops rs (issued', freed') ∧
    run_rep bin n run' issued' freed'.
Proof.
  revert run issued freed k. induction ops as [|op ops IH];
    intros run issued freed k Hrep Hheap Hk Hlegal.
  - eexists [], run, _, _. split; [reflexivity|]. split; [constructor|done].
  - assert (∃ k', match op with
      | RAlloc => k = S k' | RFree p => k = k' ∧ heap ≤ p < heap + n * reg_size bin
      end ∧ run_ops_legal n heap (reg_size bin) k' ops) as (k' & Hop & Hlegal').
    { destruct op, k; simpl in Hlegal; naive_solver. }
    destruct (run_exec_refines run issued freed op heap)
      as (r & run1 & issued1 & freed1 & Hex & Hent & Hstep & Hrep1); [done|done| |].
    { destruct op; [lia|tauto]. }
    destruct (IH run1 issued1 freed1 k') as (rs & run2 & issued2 & freed2 & Hex2 & Hsteps & Hrep2).
    { done. } { by rewrite Hent. }
    { inversion Hstep; subst; rewrite ?length_app; simpl; lia. } { done. }
    eexists _, run2, _, _. split; [simpl; rewrite Hex; simpl; by rewrite Hex2|].
    split; [by econstructor|done].
Qed.
End traces.

(** ** Consequences for the abstract runs *)

(** The addresses handed out by a trace. *)
Fixpoint res_ptrs (rs : list run_res) : list Z :=
  match rs with
  | [] => []
  | RPtr p :: rs => p :: res_ptrs rs
  | RFreed _ :: rs => res_ptrs rs
  end.

Lemma arun_steps_ptrs n heap size st ops rs st' :
  arun_steps n heap size st ops rs st' →
  ∃ new, st'.1 = st.1 ++ new ∧ res_ptrs rs = (λ i, heap + i * size) <$> new ∧
         Forall (λ i, 0 ≤ i < n) new ∧ (NoDup st.1 → NoDup st'.1).
Proof.
  induction 1 as [st|st op r st1 ops rs st2 Hstep _ IH].
  - exists []. split_and!; [by rewrite app_nil_r|done|constructor|done].
  - destruct IH as (new & Hst2 & Hptrs & Hall & Hnd).
    inversion Hstep as [issued freed i Hi Hfresh|issued freed i|]; subst; simpl in *.
    + exists (i :: new). split_and!.
      * by rewrite Hst2, <- app_assoc.
      * by rewrite Hptrs.
      * by constructor.
      * intros Hnd0. apply Hnd. apply NoDup_app. split_and!; [done|set_solver|].
        apply NoDup_singleton.
    + by exists new.
    + by exists new.
Qed.

Lemma NoDup_full_range (n : Z) (l : list Z) :
  NoDup l → Forall (λ i, 0 ≤ i < n) l → Z.of_nat (length l) = n → l ≡ₚ seqZ 0 n.
Proof.
  intros Hnd Hall Hlen. apply submseteq_length_Permutation.
  - apply NoDup_submseteq; [done|]. intros i Hi. rewrite Forall_forall in Hall.
    apply elem_of_seqZ. specialize (Hall i Hi). lia.
  - rewrite length_seqZ. lia.
Qed.

Lemma arun_alloc_all n heap size st k rs st' :
  arun_steps n heap size st (replicate k RAlloc) rs st' → length (res_ptrs rs) = k.
Proof.
  revert st rs. induction k as [|k IH]; intros st rs Hsteps;
    inversion Hsteps as [|? ? ? ? ? ? ? Hstep Hrest]; subst; [done|].
  inversion Hstep; subst; simpl. f_equal. by eapply IH.
Qed.

Lemma run_ops_legal_allocs n heap size k : run_ops_legal n heap size k (replicate k RAlloc).
Proof. by induction k. Qed.

(** ** Properties *)

Definition example_bin : bin_t := Bin 0 0 0 0 48 4 682.
Lemma example_bin_geometry : bin_geometry example_bin.
Proof. split; [rewrite size_classes_eq; cbn; set_solver|reflexivity|reflexivity]. Qed.

#[local] Existing Instance assert_build.

(** C12. Any interleaving of allocations and frees on a fresh run, with no more
    allocations than it has regions, runs without an error or a failed assertion and
    is a run of the abstract machine [arun_step]: each allocation returns a region
    never issued before, and a free is accepted exactly once per issued region. *)
Theorem run_refines_one_time_allocation `{Build} bin heap r ops :
  bin_geometry bin → 0 < heap < 2 ^ 48 →
  run_ops_legal (class_elems (reg_size bin)) heap (reg_size bin)
    (Z.to_nat (class_elems (reg_size bin))) ops →
  ∃ run r' rs run' st',
    run_init bin heap r = Ok (run, r') ∧ run_exec_all bin run ops = Ok (rs, run') ∧
    arun_steps (class_elems (reg_size bin)) heap (reg_size bin) ([], ∅) ops rs st' ∧
    NoDup (res_ptrs rs).
Proof.
  intros Hgeo Hheap Hlegal. pose proof (bin_geometry_shape bin Hgeo) as Hshape.
  destruct (run_init_ok bin heap r Hgeo Hheap) as (run & r' & Hinit & Hent & Hrep).
  destruct (run_exec_all_refines bin _ Hshape run [] ∅ ops heap
    (Z.to_nat (class_elems (reg_size bin)))) as (rs & run' & issued & freed & Hex & Hsteps & _);
    [done|by rewrite Hent|destruct Hshape; simpl; lia|done|].
  exists run, r', rs, run', (issued, freed). split_and!; [done..|].
  apply arun_steps_ptrs in Hsteps as (new & Hiss & -> & _ & Hnd). simpl in *. subst issued.
  apply NoDup_fmap_2_strong; [|apply Hnd; constructor].
  intros i j _ _ Heq. destruct Hshape. nia.
Qed.

Lemma run_refines_one_time_allocation_witness :
  ∃ run r' rs run' st',
    run_init example_bin 65536 (Rng 1 1) = Ok (run, r') ∧
    run_exec_all example_bin run [RAlloc; RAlloc; RFree 65536; RAlloc; RFree 65584] = Ok (rs, run') ∧
    arun_steps 341 65536 48 ([], ∅) [RAlloc; RAlloc; RFree 65536; RAlloc; RFree 65584] rs st' ∧
    NoDup (res_ptrs rs).
Proof.
  apply (run_refines_one_time_allocation example_bin 65536 (Rng 1 1)
    [RAlloc; RAlloc; RFree 65536; RAlloc; RFree 65584]); [apply example_bin_geometry|lia|].
  vm_compute. split_and!; intros; discriminate || reflexivity.
Defined.

(** C16. Allocating as many times as the run has regions succeeds every time, returns
    every region exactly once, and leaves the run depleted. *)
Theorem run_allocates_every_region `{Build} bin heap r :
  bin_geometry bin → 0 < heap < 2 ^ 48 →
  let n := class_elems (reg_size bin) in
  ∃ run r' rs run',
    run_init bin heap r = Ok (run, r') ∧
    run_exec_all bin run (replicate (Z.to_nat n) RAlloc) = Ok (rs, run') ∧
    res_ptrs rs ≡ₚ (λ i, heap + i * reg_size bin) <$> seqZ 0 n ∧
    run_is_depleted run' = true.
Proof.
  intros Hgeo Hheap n. pose proof (bin_geometry_shape bin Hgeo) as Hshape. fold n in Hshape.
  destruct (run_init_ok bin heap r Hgeo Hheap) as (run & r' & Hinit & Hent & Hrep).
  destruct (run_exec_all_refines bin n Hshape run [] ∅ (replicate (Z.to_nat n) RAlloc) heap
    (Z.to_nat n)) as (rs & run' & issued & freed & Hex & Hsteps & Hrep');
    [done|by rewrite Hent|destruct Hshape; simpl; lia|apply run_ops_legal_allocs|].
  pose proof (arun_alloc_all _ _ _ _ _ _ _ Hsteps) as Hlen.
  apply arun_steps_ptrs in Hsteps as (new & Hiss & Hptrs & Hall & Hnd). simpl in *.
  subst issued. rewrite Hptrs, length_fmap in Hlen.
  assert (Z.of_nat (length new) = n) as Hn by (destruct Hshape; lia).
  exists run, r', rs, run'. split_and!; [done..| |].
  - rewrite Hptrs. apply fmap_Permutation, NoDup_full_range; [|done|done].
    apply Hnd. constructor.
  - unfold run_is_depleted. rewrite (rr_navail _ _ _ _ _ Hrep'). lia.
Qed.

Lemma run_allocates_every_region_witness :
  ∃ run r' rs run',
    run_init example_bin 65536 (Rng 1 1) = Ok (run, r') ∧
    run_exec_all example_bin run (replicate (Z.to_nat 341) RAlloc) = Ok (rs, run') ∧
    res_ptrs rs ≡ₚ (λ i, 65536 + i * 48) <$> seqZ 0 341 ∧
    run_is_depleted run' = true.
Proof.
  apply (run_allocates_every_region example_bin 65536 (Rng 1 1));
    [apply example_bin_geometry|lia].
Defined.

(** C33. A pointer into the pages of a run makes run_validate_ptr read outside the
    bitmap exactly when it points at the slack after the last region and the number
    of regions is a multiple of four, so that the bitmap has no padding. *)
Theorem run_validate_bitmap_bounds bin run issued freed off :
  bin_geometry bin → run_rep bin (class_elems (reg_size bin)) run issued freed →
  0 ≤ off < class_pages (reg_size bin) * PAGE_SIZE →
  run_validate_ptr run bin (key (run_entry run) + off) = Fail UB ↔
  off = class_elems (reg_size bin) * reg_size bin ∧ class_elems (reg_size bin) mod 4 = 0.
Proof.
  intros Hgeo Hrep Hoff. pose proof (bin_geometry_shape bin Hgeo) as Hshape.
  destruct (class_shape _ (bg_class _ Hgeo)) as (Hn & Hs & Hfit & Hpages).
  assert (class_pages (reg_size bin) * PAGE_SIZE <
          (class_elems (reg_size bin) + 1) * reg_size bin) as Htail.
  { unfold class_elems. pose proof (Z.div_mod (class_pages (reg_size bin) * PAGE_SIZE)
      (reg_size bin) ltac:(lia)).
    pose proof (Z.mod_pos_bound (class_pages (reg_size bin) * PAGE_SIZE)
      (reg_size bin) ltac:(lia)). lia. }
  set (n := class_elems (reg_size bin)) in *. clearbody n.
  assert (reg_size bin ≤ 2 ^ 20) by nia.
  rewrite (run_validate_ok bin n Hshape run issued freed _ off) by (done || nia).
  rewrite (rr_len _ _ _ _ _ Hrep), (bitmap_bytes bin n Hshape).
  assert (0 ≤ off / reg_size bin ≤ n).
  { split; [apply Z.div_pos; lia|]. apply Z.lt_succ_r, Z.div_lt_upper_bound; lia. }
  pose proof (Z.div_mod off (reg_size bin) ltac:(lia)).
  destruct (Z.eqb_spec (off mod reg_size bin) 0) as [Hm|Hm]; simpl.
  - destruct (Z.ltb_spec (off / reg_size bin) (4 * ((2 * n + 7) / 8))) as [Hlt|Hge].
    + split; [done|]. intros [Ho H4]. exfalso. rewrite Ho, Z.div_mul in Hlt by lia.
      apply Z.mod_divide in H4 as [q ->]; [|done].
      replace (2 * (q * 4) + 7) with (7 + q * 8) in Hlt by lia.
      rewrite Z.div_add, (Z.div_small 7) in Hlt by lia. lia.
    + split; [intros _|done].
      pose proof (Z.div_mod (2 * n + 7) 8 ltac:(lia)).
      pose proof (Z.mod_pos_bound (2 * n + 7) 8 ltac:(lia)).
      assert (off / reg_size bin = n) as Hd by lia. rewrite Hd in *. split; [lia|].
      apply Z.mod_divide; [done|]. exists ((2 * n + 7) / 8). lia.
  - split; [done|]. intros [Ho _]. exfalso. apply Hm. rewrite Ho. by apply Z.mod_mul; lia.
Qed.

(** The class of 80-byte regions: 204 regions, 51 bitmap bytes, 64 bytes of slack. *)
Definition slack_bin : bin_t := Bin 0 0 0 0 80 4 408.
Definition slack_run : run_t := Run (LLEntry 0 0 65536) 204 0 1 7 (amake 51 0).

Lemma slack_run_rep : run_rep slack_bin 204 slack_run [] ∅.
Proof.
  split; cbn [gen current_idx reg_bitmap navail nfreed run_entry key length slack_run];
    try done; try lia.
  - by exists 7.
  - intros i Hi. unfold eitem. by rewrite pitem_amake_0.
Qed.

Lemma run_validate_bitmap_bounds_witness :
  run_validate_ptr slack_run slack_bin (65536 + 16320) = Fail UB ↔
  16320 = class_elems 80 * 80 ∧ class_elems 80 mod 4 = 0.
Proof.
  apply (run_validate_bitmap_bounds slack_bin slack_run [] ∅ 16320).
  - split; [rewrite size_classes_eq; cbn; set_solver|reflexivity|reflexivity].
  - apply slack_run_rep.
  - vm_compute. split; [discriminate|reflexivity].
Defined.
