(* ===== verification/Bin.v ===== *)
(** * Bin: bin.c and bin.h

    A bin keeps the runs of one size class in two linked lists: the active runs can
    still serve allocations, the inactive ones cannot.  The runs live in a store
    indexed by address; [bin_rep] relates a bin and the store to the two lists and to
    the abstract state of every run.  [allocate_from_bin] and [release_to_bin] are the
    sequences of calls sealloc.c makes on a bin, with their refinement. *)
From Stdlib Require Import ZArith Lia.
From stdpp Require Import base option numbers list gmap.
From S2P Require Import Prelude.
From S2P Require Import CArray.
From S2P Require Import Utils.
From S2P Require Import SizeClass.
From S2P Require Import Random.
From S2P Require Import ContainerLL.
From S2P Require Import Generator.
From S2P Require Import Run.

Definition BIN_MINIMUM_REGIONS : Z := 256.

Definition rd_run (runs : gmap Z run_t) (a : Z) : outcome run_t :=
  match runs !! a with Some r => Ok r | None => Fail UB end.

(** Field updates. *)
Definition with_active (bin : bin_t) (head cnt avail : Z) : bin_t :=
  Bin (run_list_inactive bin) head cnt avail (reg_size bin) (run_size_pages bin)
      (reg_mask_size_bits bin).
Definition with_inactive (bin : bin_t) (head : Z) : bin_t :=
  Bin head (run_list_active bin) (run_list_active_cnt bin) (avail_regs bin) (reg_size bin)
      (run_size_pages bin) (reg_mask_size_bits bin).

Section bin.
Context `{Build}.

(** void bin_init(bin_t *bin, unsigned reg_size): every field is written. *)
Definition bin_init (rs : Z) : outcome bin_t :=
  _ ← c_assert (1 <=? rs);
  _ ← c_assert (rs <=? LARGE_SIZE_MAX_REGION);
  _ ← c_assert (is_size_aligned rs);
  let pages := if IS_SIZE_SMALL rs then RUN_SIZE_SMALL_PAGES
               else if IS_SIZE_MEDIUM rs then RUN_SIZE_MEDIUM_PAGES
               else rs / PAGE_SIZE in
  elems ← udiv (u32 (pages * PAGE_SIZE)) rs;
  Ok (Bin ll_init ll_init 0 0 rs pages (u32 (elems * 2))).

(** run_t *bin_get_run_by_addr(bin_t *bin, const void *run_ptr); NULL is 0. *)
Definition bin_get_run_by_addr (bin : bin_t) (runs : gmap Z run_t) (run_ptr : Z) : outcome Z :=
  _ ← c_assert (negb (reg_size bin =? 0));
  run ← ll_find runs (run_list_active bin) run_ptr;
  if run =? 0 then ll_find runs (run_list_inactive bin) run_ptr else Ok run.

(** void bin_add_run(bin_t *bin, run_t *run) *)
Definition bin_add_run (bin : bin_t) (runs : gmap Z run_t) (run : Z)
    : outcome (bin_t * gmap Z run_t) :=
  _ ← c_assert (negb (reg_size bin =? 0));
  r ← rd_run runs run;
  _ ← c_assert (negb (key (run_entry r) =? 0));
  _ ← c_assert (navail r =? bin_elems bin);
  _ ← (if asserts_on
       then found ← bin_get_run_by_addr bin runs (key (run_entry r)); c_assert (found =? 0)
       else Ok tt);
  let avail := u32 (avail_regs bin + navail r) in
  let cnt := u32 (run_list_active_cnt bin + 1) in
  '(head, runs) ← ll_add runs (run_list_active bin) run;
  Ok (with_active bin head cnt avail, runs).

(** void bin_delete_run(bin_t *bin, run_t *run) *)
Definition bin_delete_run (bin : bin_t) (runs : gmap Z run_t) (run : Z)
    : outcome (bin_t * gmap Z run_t) :=
  _ ← c_assert (negb (reg_size bin =? 0));
  r ← rd_run runs run;
  _ ← (if asserts_on
       then found ← bin_get_run_by_addr bin runs (key (run_entry r)); c_assert (found =? run)
       else Ok tt);
  '(head, runs) ← ll_del runs (run_list_inactive bin) run;
  Ok (with_inactive bin head, runs).

(** run_t *bin_get_run_for_allocation(bin_t *bin) *)
Definition pick_step (runs : gmap Z run_t) (st : Z * Z) : outcome ((Z * Z) + Z) :=
  let '(entry, run_idx) := st in
  if entry =? 0 then Fail ErrorExit
  else if run_idx =? 0 then Ok (inr entry)
  else e ← rd_entry runs entry; Ok (inl (fd e, u32 (run_idx - 1))).
Definition bin_get_run_for_allocation (bin : bin_t) (runs : gmap Z run_t) (r : rng)
    : outcome (Z * bin_t * rng) :=
  _ ← c_assert (negb (reg_size bin =? 0));
  _ ← c_assert (0 <? avail_regs bin);
  _ ← c_assert (0 <? run_list_active_cnt bin);
  let '(x, r) := splitmix32 r in
  run_idx ← umod x (run_list_active_cnt bin);
  entry ← while_loop (pick_step runs) 47 (run_list_active bin, run_idx);
  Ok (entry, with_active bin (run_list_active bin) (run_list_active_cnt bin)
                         (u32 (avail_regs bin - 1)), r).

(** void bin_retire_run(bin_t *bin, run_t *run) *)
Definition bin_retire_run (bin : bin_t) (runs : gmap Z run_t) (run : Z)
    : outcome (bin_t * gmap Z run_t) :=
  _ ← c_assert (negb (reg_size bin =? 0));
  r ← rd_run runs run;
  _ ← c_assert (navail r =? 0);
  '(head, runs) ← ll_del runs (run_list_active bin) run;
  let bin := with_active bin head (run_list_active_cnt bin) (avail_regs bin) in
  '(head, runs) ← ll_add runs (run_list_inactive bin) run;
  let bin := with_inactive bin head in
  Ok (with_active bin (run_list_active bin) (u32 (run_list_active_cnt bin - 1)) (avail_regs bin),
      runs).

(** The part of sealloc_allocate_with_bin that follows the supply of a run. *)
Definition allocate_from_bin (bin : bin_t) (runs : gmap Z run_t) (r : rng)
    : outcome (Z * bin_t * gmap Z run_t * rng) :=
  _ ← c_assert (BIN_MINIMUM_REGIONS <=? avail_regs bin);
  '(a, bin, r) ← bin_get_run_for_allocation bin runs r;
  run ← rd_run runs a;
  '(ptr, run) ← run_allocate run bin;
  let runs := <[a := run]> runs in
  '(bin, runs) ← (if run_is_depleted run then bin_retire_run bin runs a else Ok (bin, runs));
  Ok (ptr, bin, runs, r).

(** The part of sealloc_free_with_metadata that works on the bin: whether the pointer
    was accepted, and whether the run is to be returned to its chunk. *)
Definition release_to_bin (bin : bin_t) (runs : gmap Z run_t) (a ptr : Z)
    : outcome (bool * bin_t * gmap Z run_t) :=
  run ← rd_run runs a;
  '(ok, run) ← run_deallocate run bin ptr;
  if negb (ok : bool) then Fail Aborted
  else
    let runs := <[a := run]> runs in
    if run_is_freeable run bin then
      '(bin, runs) ← bin_delete_run bin runs a;
      Ok (true, bin, runs)
    else Ok (false, bin, runs).
End bin.

(** ** The store of runs *)
Lemma run_frame_lookup (s s' : gmap Z run_t) b :
  es_frame s s' → es_lookup s' b = es_lookup s b → s' !! b = s !! b.
Proof.
  simpl. intros Hf He. specialize (Hf b). destruct (s !! b) as [[]|], (s' !! b) as [[]|]; simplify_eq/=; done.
Qed.

Lemma dll_ext `{EntryStore St} (s s' : St) head l :
  (∀ a, a ∈ l.*1 → es_lookup s' a = es_lookup s a) → dll s head l → dll s' head l.
Proof.
  intros Hext (-> & Hseg & Hnd & Hlen). split_and!; try done. by apply (dseg_ext s).
Qed.

Lemma dll_key `{EntryStore St} (s : St) head l a k :
  dll s head l → (a, k) ∈ l → a ≠ 0 ∧ ∃ e, es_lookup s a = Some e ∧ key e = k.
Proof.
  intros (_ & Hseg & Hnd & _) Hin. apply list_elem_of_split in Hin as (l1 & l2 & ->).
  apply dseg_app in Hseg as [_ (Ha & Hl & _)]. split; [done|by eexists].
Qed.

(** Rewriting a run but not its list entry. *)
Lemma runs_insert_entry (runs : gmap Z run_t) a run run' b :
  runs !! a = Some run → run_entry run' = run_entry run →
  es_lookup (<[a := run']> runs) b = es_lookup runs b.
Proof.
  simpl. intros Ha He. rewrite lookup_insert. case_decide; [subst b|done].
  rewrite Ha. simpl. by rewrite He.
Qed.

Lemma run_rep_frame bin n run run' issued freed :
  put_entry no_entry run = put_entry no_entry run' → key (run_entry run') = key (run_entry run) →
  run_rep bin n run issued freed → run_rep bin n run' issued freed.
Proof.
  destruct run, run'. cbn. intros Heq Hk [H1 H2 H3 H4 H5 H6 H7 H8 H9]. simplify_eq.
  cbn in *. split; cbn; try done. by rewrite Hk.
Qed.

(** A run's representation depends on the bin only through its geometry. *)
Lemma run_rep_bin bin bin' n run issued freed :
  reg_mask_size_bits bin' = reg_mask_size_bits bin →
  run_rep bin n run issued freed → run_rep bin' n run issued freed.
Proof. intros Hb [H1 H2 H3 H4 H5 H6 H7 H8 H9]. split; try done. by rewrite Hb. Qed.

(** ** The representation invariant *)

(** The abstract state of the runs: the regions issued and given back, by address of
    the run. *)
Abbreviation ghost := (gmap Z (list Z * gset Z)).

(** The regions run [a] can still hand out. *)
Definition left (G : ghost) (n a : Z) : Z :=
  match G !! a with Some (issued, _) => n - Z.of_nat (length issued) | None => 0 end.

Definition run_good (bin : bin_t) (runs : gmap Z run_t) (G : ghost) (x : Z * Z) : Prop :=
  ∃ run issued freed, runs !! x.1 = Some run ∧ key (run_entry run) = x.2 ∧
    G !! x.1 = Some (issued, freed) ∧
    run_rep bin (class_elems (reg_size bin)) run issued freed.

(** The lists of a bin and the runs on them. *)
Record bin_lists (bin : bin_t) (runs : gmap Z run_t) (active inactive : list (Z * Z)) (G : ghost)
    : Prop := {
  bl_geo : bin_geometry bin;
  bl_active : dll runs (run_list_active bin) active;
  bl_inactive : dll runs (run_list_inactive bin) inactive;
  bl_addrs : NoDup (active ++ inactive).*1;
  bl_keys : NoDup (active ++ inactive).*2;
  bl_runs : ∀ x, x ∈ active ++ inactive → run_good bin runs G x;
  bl_cnt : run_list_active_cnt bin = Z.of_nat (length active)
}.

(** The bin between two calls: the active runs are those with regions left, and
    [avail_regs] counts their regions. *)
Record bin_rep (bin : bin_t) (runs : gmap Z run_t) (active inactive : list (Z * Z)) (G : ghost)
    : Prop := {
  br_lists : bin_lists bin runs active inactive G;
  br_avail : avail_regs bin = sumZ ((λ x, left G (class_elems (reg_size bin)) x.1) <$> active);
  br_pos : ∀ x, x ∈ active → 0 < left G (class_elems (reg_size bin)) x.1;
  br_full : ∀ x, x ∈ inactive → left G (class_elems (reg_size bin)) x.1 = 0;
  br_bound : avail_regs bin < 2 ^ 31;
  br_total : Z.of_nat (length (active ++ inactive)) < 2 ^ 46
}.

Lemma bin_rep_count bin runs active inactive G :
  bin_rep bin runs active inactive G → Z.of_nat (length active) ≤ avail_regs bin.
Proof.
  intros [_ Ha Hp _ _ _]. rewrite Ha.
  rewrite <- (length_fmap (λ x, left G (class_elems (reg_size bin)) x.1) active). apply sumZ_pos.
  rewrite Forall_fmap. apply Forall_forall. intros x Hx. by apply Hp.
Qed.

Lemma class_nonzero bin : bin_geometry bin → negb (reg_size bin =? 0) = true.
Proof. intros Hg. destruct (class_shape _ (bg_class _ Hg)). lia. Qed.

Lemma rd_run_ok bin runs G x :
  run_good bin runs G x → ∃ run issued freed, rd_run runs x.1 = Ok run ∧ runs !! x.1 = Some run ∧
    key (run_entry run) = x.2 ∧ G !! x.1 = Some (issued, freed) ∧
    run_rep bin (class_elems (reg_size bin)) run issued freed.
Proof.
  intros (run & issued & freed & Hr & Hk & HG & Hrep). exists run, issued, freed.
  unfold rd_run. by rewrite Hr.
Qed.

(** [run_good] survives a change of list links, when the key is kept. *)
Lemma run_good_frame bin bin' runs runs' G a k :
  es_frame runs runs' → (∃ e, es_lookup runs' a = Some e ∧ key e = k) →
  reg_size bin' = reg_size bin → reg_mask_size_bits bin' = reg_mask_size_bits bin →
  run_good bin runs G (a, k) → run_good bin' runs' G (a, k).
Proof.
  simpl. intros Hf (e & He & Hke) Hrs Hbits (run & issued & freed & Hr & Hk & HG & Hrep). simpl in *.
  apply fmap_Some in He as (run' & Hr' & ->). specialize (Hf a). rewrite Hr, Hr' in Hf.
  injection Hf as Hf1 Hf2 Hf3 Hf4 Hf5. exists run', issued, freed. simpl. rewrite Hrs.
  split_and!; [done|done|done|]. eapply run_rep_bin; [done|].
  eapply run_rep_frame; [|by rewrite Hk, <- Hke|done]. destruct run, run'; cbn in *; by subst.
Qed.

Lemma run_good_ghost bin runs G G' x :
  G' !! x.1 = G !! x.1 → run_good bin runs G x → run_good bin runs G' x.
Proof. intros HG (run & i & f & Hr & Hk & Hx & Hrep). exists run, i, f. by rewrite HG. Qed.

Lemma left_insert_ne G n a st b : b ≠ a → left (<[a := st]> G) n b = left G n b.
Proof. intros Hne. unfold left. by rewrite lookup_insert_ne by done. Qed.

Lemma left_insert G n a issued freed : left (<[a := (issued, freed)]> G) n a = n - Z.of_nat (length issued).
Proof. unfold left. by rewrite lookup_insert_eq. Qed.

Lemma fmap_left_ext G G' n (l : list (Z * Z)) :
  (∀ x, x ∈ l → left G' n x.1 = left G n x.1) →
  (λ x, left G' n x.1) <$> l = (λ x, left G n x.1) <$> l.
Proof. intros Hl. apply list_fmap_ext. intros i x Hx. by apply Hl, list_elem_of_lookup_2 with i. Qed.

(** ** bin_init *)
Lemma bin_init_ok `{Build} rs (runs : gmap Z run_t) (G : ghost) :
  rs ∈ size_classes →
  ∃ bin, bin_init rs = Ok bin ∧ reg_size bin = rs ∧ bin_geometry bin ∧ avail_regs bin = 0 ∧
         bin_rep bin runs [] [] G.
Proof.
  intros Hc. destruct (class_shape rs Hc) as (Hn & Hs & Hfit & Hpg).
  pose proof size_classes_range as Hr. rewrite Forall_forall in Hr. specialize (Hr rs Hc).
  pose proof size_classes_aligned as Ha. rewrite Forall_forall in Ha. specialize (Ha rs Hc).
  unfold bin_init. rewrite !c_assert_true by (done || lia). cbn [mbind outcome_bind].
  assert ((if IS_SIZE_SMALL rs then RUN_SIZE_SMALL_PAGES
           else if IS_SIZE_MEDIUM rs then RUN_SIZE_MEDIUM_PAGES else rs / PAGE_SIZE) = class_pages rs) as ->.
  { unfold class_pages, IS_SIZE_SMALL, IS_SIZE_MEDIUM. change MEDIUM_SIZE_MAX_REGION with 8192 in *.
    change SMALL_SIZE_MAX_REGION with 512 in *.
    destruct (Z.leb_spec rs 512), (Z.leb_spec rs 8192); simpl; try lia;
      replace (1 <=? rs) with true by lia; simpl; [done| |];
      replace (512 <? rs) with true by lia; done. }
  assert (0 ≤ class_pages rs * PAGE_SIZE ≤ 1048576) as Hb.
  { unfold class_pages. change LARGE_SIZE_MAX_REGION with 1048576 in *. unfold PAGE_SIZE.
    destruct (rs <=? MEDIUM_SIZE_MAX_REGION); [lia|].
    pose proof (Z.div_mod rs 4096 ltac:(lia)). pose proof (Z.mod_pos_bound rs 4096 ltac:(lia)).
    pose proof (Z.div_pos rs 4096 ltac:(lia) ltac:(lia)). lia. }
  rewrite (wrap_small 32 (class_pages rs * PAGE_SIZE)), udiv_ok by lia. cbn [mbind outcome_bind].
  fold (class_elems rs). rewrite wrap_small by lia.
  eexists. split; [reflexivity|]. split; [done|].
  assert (∀ b, bin_geometry (Bin b b 0 0 rs (class_pages rs) (class_elems rs * 2))) as Hg.
  { intros b. split; simpl; [done|done|lia]. }
  split; [apply Hg|]. split; [done|].
  split; [split|..]; simpl; try apply Hg; try (split_and!; try done; constructor);
    try constructor; try done; set_solver.
Qed.

(** ** bin_get_run_by_addr *)
Lemma find_key_nodup k a l : NoDup l.*2 → (a, k) ∈ l → find_key k l = a.
Proof.
  intros Hnd (l1 & l2 & ->)%list_elem_of_split. rewrite fmap_app, fmap_cons in Hnd.
  apply find_key_mid. apply NoDup_app in Hnd as (_ & Hdis & _). intros Hin.
  apply (Hdis k Hin). simpl. set_solver.
Qed.

Lemma bin_get_run_by_addr_ok `{Build} bin runs active inactive G p :
  bin_lists bin runs active inactive G →
  bin_get_run_by_addr bin runs p = Ok (find_key p (active ++ inactive)).
Proof.
  intros [Hgeo Hact Hina _ Hkeys _ _].
  unfold bin_get_run_by_addr. ok_assert by by apply class_nonzero.
  ok_rw (ll_find_ok _ _ _ p Hact).
  rewrite fmap_app in Hkeys. pose proof Hkeys as (Hnd1 & Hdis & Hnd2)%NoDup_app.
  destruct (decide (p ∈ active.*2)) as [Hin|Hin].
  - pose proof (find_key_elem _ _ Hin) as Hel. destruct (dll_key _ _ _ _ _ Hact Hel) as [H0 _].
    rewrite (proj2 (Z.eqb_neq _ 0)) by done. f_equal. symmetry. apply find_key_nodup.
    + by rewrite fmap_app.
    + set_solver.
  - rewrite (find_key_None p active) by done. simpl (0 =? 0). cbv iota.
    rewrite (ll_find_ok _ _ _ _ Hina). f_equal.
    destruct (decide (p ∈ inactive.*2)) as [Hin2|Hin2].
    + symmetry. apply find_key_nodup; [by rewrite fmap_app|].
      pose proof (find_key_elem _ _ Hin2). set_solver.
    + rewrite !find_key_None; [done|rewrite fmap_app; set_solver|done].
Qed.

Section bin_ops.
Context `{Build} (bin : bin_t) (runs : gmap Z run_t) (active inactive : list (Z * Z)) (G : ghost).
Context (Hrep : bin_rep bin runs active inactive G).

(** ** bin_add_run *)
Lemma bin_add_run_ok a k run :
  runs !! a = Some run → run_entry run = LLEntry 0 0 k → a ≠ 0 → a ∉ (active ++ inactive).*1 →
  k ∉ (active ++ inactive).*2 → avail_regs bin < 2 ^ 30 →
  Z.of_nat (length (active ++ inactive)) < 2 ^ 45 →
  run_rep bin (class_elems (reg_size bin)) run [] ∅ →
  ∃ bin' runs', bin_add_run bin runs a = Ok (bin', runs') ∧
    bin_rep bin' runs' ((a, k) :: active) inactive (<[a := ([], ∅)]> G) ∧
    reg_size bin' = reg_size bin ∧
    avail_regs bin' = avail_regs bin + class_elems (reg_size bin) ∧
    (∀ b, b ≠ a → b ∉ (active ++ inactive).*1 → runs' !! b = runs !! b).
Proof.
  intros Hr He Ha0 Ha Hk Hav Htot' Hrun. pose proof Hrep as [[Hgeo Hact Hina Haddr Hkeys Hruns Hcnt] Havail Hpos Hfull Hbd Htot].
  pose proof (bin_geometry_shape bin Hgeo) as Hshape. set (n := class_elems (reg_size bin)) in *.
  pose proof (bs_n _ _ Hshape) as Hn. pose proof (bin_rep_count _ _ _ _ _ Hrep) as Hle.
  unfold bin_add_run, rd_run. ok_assert by by apply class_nonzero. rewrite Hr.
  cbn [mbind outcome_bind]. rewrite He. cbn [key].
  assert (0 < k) as Hk0 by (pose proof (rr_heap _ _ _ _ _ Hrun) as Hh; rewrite He in Hh; simpl in Hh; lia).
  ok_assert by lia.
  pose proof (rr_navail _ _ _ _ _ Hrun) as Hnav. simpl in Hnav.
  rewrite (bin_shape_elems bin n) by done. ok_assert by lia.
  rewrite (bin_get_run_by_addr_ok _ _ _ _ _ _ (br_lists _ _ _ _ _ Hrep)), find_key_None by done.
  assert ((if asserts_on then found ← Ok 0; c_assert (found =? 0) else Ok tt) = Ok tt) as ->
    by (destruct asserts_on; [by apply c_assert_true|done]).
  cbn [mbind outcome_bind]. rewrite fmap_app in Ha, Hk.
  destruct (ll_add_ok runs (run_list_active bin) active a k) as (runs' & Hadd & Hdll & Hfr & Hoth).
  { done. } { simpl. by rewrite Hr, <- He. } { done. } { set_solver. } { lia. } { set_solver. }
  rewrite Hadd. cbn [mbind outcome_bind].
  rewrite (wrap_small 32 (avail_regs bin + navail run)) by lia.
  rewrite (wrap_small 32 (run_list_active_cnt bin + 1)) by lia.
  eexists _, runs'. split; [reflexivity|]. split; [|split; [done|split; [simpl; lia|]]].
  2: { intros b Hb1 Hb2. apply run_frame_lookup; [done|]. apply Hoth; [done|].
       rewrite fmap_app in Hb2. set_solver. }
  assert (∀ x, x ∈ active ++ inactive → x.1 ≠ a) as Hne.
  { intros x Hx Heq. rewrite <- fmap_app in Ha. apply Ha. rewrite <- Heq. by apply list_elem_of_fmap_2. }
  assert (dll runs' (run_list_inactive bin) inactive) as Hina'.
  { apply (dll_ext runs); [|done]. rewrite fmap_app in Haddr. apply NoDup_app in Haddr as (_ & Hdis & _).
    intros b Hb. apply Hoth; [set_solver|]. intros Hb'. by apply (Hdis b). }
  split; [split|..];
    cbn [with_active reg_size run_list_active run_list_inactive avail_regs run_list_active_cnt];
    fold n; try done.
  - by destruct Hgeo.
  - rewrite fmap_app. simpl. apply NoDup_cons. split; [done|]. by rewrite <- fmap_app.
  - rewrite fmap_app. simpl. apply NoDup_cons. split; [done|]. by rewrite <- fmap_app.
  - intros x Hx. destruct x as [b kb]. simpl app in Hx. apply elem_of_cons in Hx as [[= -> ->]|Hx].
    + apply (run_good_frame bin _ runs runs'); try done.
      { by destruct (dll_key _ _ _ _ _ Hdll (list_elem_of_here _ _)). }
      exists run, [], ∅. simpl. rewrite lookup_insert_eq, He. done.
    + apply (run_good_ghost _ _ G). { rewrite lookup_insert_ne; [done|]. symmetry. by apply (Hne (b, kb)). }
      apply (run_good_frame bin _ runs runs'); try done; [|by apply Hruns].
      apply elem_of_app in Hx as [Hx|Hx].
      * assert ((b, kb) ∈ (a, k) :: active) as Hx' by (by right).
        by destruct (dll_key _ _ _ _ _ Hdll Hx').
      * by destruct (dll_key _ _ _ _ _ Hina' Hx).
  - simpl length. lia.
  - rewrite fmap_cons, fmap_left_ext with (G := G) by (intros x Hx; apply left_insert_ne, Hne; set_solver).
    change (sumZ (?x :: ?l)) with (x + sumZ l). simpl (left _ _ (a, k).1). rewrite left_insert. simpl. lia.
  - intros x [->|Hx]%elem_of_cons; simpl; [rewrite left_insert; simpl; lia|].
    rewrite left_insert_ne by (apply Hne; set_solver). by apply Hpos.
  - intros x Hx. rewrite left_insert_ne by (apply Hne; set_solver). by apply Hfull.
  - lia.
  - rewrite length_app in *. cbn [length]. lia.
Qed.

(** ** bin_get_run_for_allocation *)
Lemma pick_iterate (j : nat) : ∀ prev l a k,
  dseg runs prev l 0 → l !! j = Some (a, k) → Z.of_nat j < 2 ^ 32 →
  iterate (pick_step runs) (S j) (first_of l 0, Z.of_nat j) = Ok (inr a).
Proof.
  induction j as [|j IH]; intros prev l a k Hseg Hl Hj;
    destruct l as [|[b kb] l]; simplify_eq/=; destruct Hseg as (Hb & Hlk & Hseg);
    rewrite (proj2 (Z.eqb_neq _ 0)) by done; [done|].
  cbn [mbind outcome_bind]. ok_rw (rd_entry_ok runs b _ Hlk). cbn [fd].
  rewrite wrap_small by lia. replace (Z.of_nat (S j) - 1) with (Z.of_nat j) by lia.
  specialize (IH b l a k Hseg Hl ltac:(lia)). simpl in IH. exact IH.
Qed.

Lemma bin_get_run_for_allocation_ok r :
  active ≠ [] →
  let '(x, r') := splitmix32 r in
  ∃ a k, active !! Z.to_nat (x mod Z.of_nat (length active)) = Some (a, k) ∧
    bin_get_run_for_allocation bin runs r =
    Ok (a, with_active bin (run_list_active bin) (run_list_active_cnt bin) (avail_regs bin - 1), r').
Proof.
  intros Hne. destruct (splitmix32 r) as [x r'] eqn:Hx.
  pose proof Hrep as [[Hgeo Hact _ _ _ _ Hcnt] _ _ _ Hbd _]. pose proof (bin_rep_count _ _ _ _ _ Hrep) as Hle.
  assert (0 < Z.of_nat (length active)) as Hlen by (destruct active; [done|simpl; lia]).
  pose proof (Z.mod_pos_bound x _ Hlen) as Hm.
  destruct (active !! Z.to_nat (x mod Z.of_nat (length active))) as [[a k]|] eqn:Hl.
  2: { apply lookup_ge_None in Hl. lia. }
  exists a, k. split; [done|]. unfold bin_get_run_for_allocation.
  ok_assert by by apply class_nonzero. ok_assert by lia. ok_assert by lia. rewrite Hx.
  rewrite Hcnt. ok_rw (umod_ok x _ Hlen). destruct Hact as (-> & Hseg & _ & _).
  pose proof (pick_iterate _ _ _ _ _ Hseg Hl ltac:(lia)) as Hp. rewrite Z2Nat.id in Hp by lia.
  ok_rw (while_loop_done _ 47 _ _ _ Hp ltac:(apply Nat2Z.inj_le; rewrite Nat2Z.inj_pow;
    change (Z.of_nat 2 ^ Z.of_nat 47) with (2 ^ 47); lia)).
  rewrite <- Hcnt, (wrap_small 32) by lia. done.
Qed.

End bin_ops.

Lemma NoDup_sub {A} (l k : list A) : l ⊆+ k → NoDup k → NoDup l.
Proof. intros (l' & ->)%submseteq_Permutation (? & _ & _)%NoDup_app. done. Qed.

(** ** Steps that move runs between the lists *)
Section lists_ops.
Context `{Build} (bin : bin_t) (runs : gmap Z run_t) (active inactive : list (Z * Z)) (G : ghost).
Context (Hl : bin_lists bin runs active inactive G).

Lemma bin_lists_frame bin' runs' active' inactive' :
  reg_size bin' = reg_size bin → run_size_pages bin' = run_size_pages bin →
  reg_mask_size_bits bin' = reg_mask_size_bits bin → es_frame runs runs' →
  dll runs' (run_list_active bin') active' → dll runs' (run_list_inactive bin') inactive' →
  active' ++ inactive' ⊆+ active ++ inactive →
  run_list_active_cnt bin' = Z.of_nat (length active') →
  bin_lists bin' runs' active' inactive' G.
Proof.
  pose proof Hl as [[Hc Hp Hb] Hact Hina Haddr Hkeys Hruns Hcnt].
  intros Ers Epg Ebits Hfr Hact' Hina' Hsub Hcnt'. split; try done.
  - split; congruence.
  - eapply NoDup_sub; [by apply fmap_submseteq|done].
  - eapply NoDup_sub; [by apply fmap_submseteq|done].
  - intros [b kb] Hx. apply (run_good_frame bin _ runs); try done.
    + apply elem_of_app in Hx as [Hx|Hx]; [by destruct (dll_key _ _ _ _ _ Hact' Hx)|
        by destruct (dll_key _ _ _ _ _ Hina' Hx)].
    + apply Hruns. by eapply elem_of_submseteq.
Qed.

(** Replacing the contents of one run, its list entry apart. *)
Lemma run_replaced a k run run' issued freed :
  (a, k) ∈ active ++ inactive → runs !! a = Some run → run_entry run' = run_entry run →
  run_rep bin (class_elems (reg_size bin)) run' issued freed →
  bin_lists bin (<[a := run']> runs) active inactive (<[a := (issued, freed)]> G).
Proof.
  intros Hin Hr He Hrun. destruct Hl as [Hgeo Hact Hina Haddr Hkeys Hruns Hcnt].
  assert (∀ b, es_lookup (<[a := run']> runs) b = es_lookup runs b) as Hlk
    by (intros b; by eapply runs_insert_entry).
  split; try done; [by eapply dll_ext; [|exact Hact]|by eapply dll_ext; [|exact Hina]|].
  intros [b kb] Hx. destruct (Hruns _ Hx) as (run0 & i0 & f0 & Hr0 & Hk0 & HG0 & Hrep0). simpl in *.
  destruct (decide (b = a)) as [->|Hne].
  - exists run', issued, freed. simpl. rewrite !lookup_insert_eq. split_and!; [done| |done|done].
    rewrite He. congruence.
  - exists run0, i0, f0. simpl. by rewrite !lookup_insert_ne by done.
Qed.

End lists_ops.

(** ** bin_retire_run *)
Lemma bin_retire_run_ok `{Build} bin runs active inactive G l1 a k l2 run :
  bin_lists bin runs active inactive G →
  active = l1 ++ (a, k) :: l2 → runs !! a = Some run → navail run = 0 →
  Z.of_nat (length active) < 2 ^ 32 → Z.of_nat (S (length inactive)) < 2 ^ 47 →
  ∃ bin' runs', bin_retire_run bin runs a = Ok (bin', runs') ∧
    bin_lists bin' runs' (l1 ++ l2) ((a, k) :: inactive) G ∧
    reg_size bin' = reg_size bin ∧ avail_regs bin' = avail_regs bin ∧
    (∀ b, b ∉ (active ++ inactive).*1 → runs' !! b = runs !! b).
Proof.
  intros Hl -> Hr Hnav Hlen Hlen2. pose proof Hl as [Hgeo Hact Hina Haddr Hkeys Hruns Hcnt].
  rewrite <- app_assoc in Haddr, Hkeys. simpl in Haddr, Hkeys.
  rewrite !fmap_app, !fmap_cons, !fmap_app in Haddr, Hkeys. simpl in Haddr, Hkeys.
  apply NoDup_app in Haddr as (_ & Ha1 & [Ha2 Ha3]%NoDup_cons).
  apply NoDup_app in Hkeys as (_ & Hk1 & [Hk2 Hk3]%NoDup_cons).
  apply NoDup_app in Ha3 as (_ & Ha3 & _).
  assert (k ∉ l1.*2) as Hkl1 by (intros Hin; apply (Hk1 k Hin); set_solver).
  destruct (dll_key _ _ _ a k Hact ltac:(set_solver)) as [Ha0 (e & He & Hke)].
  destruct (ll_del_ok _ _ _ _ _ _ Hact (λ _, Hkl1)) as (runs1 & Hdel & Hact1 & Ha1e & Hfr1 & Hoth1).
  assert (dll runs1 (run_list_inactive bin) inactive) as Hina1.
  { apply (dll_ext runs); [|done]. intros b Hb. apply Hoth1. rewrite fmap_app, fmap_cons. simpl.
    intros [Hb1|[->|Hb2]%elem_of_cons]%elem_of_app; [|set_solver|by apply (Ha3 b)].
    apply (Ha1 b Hb1). set_solver. }
  destruct (ll_add_ok runs1 _ inactive a k Hina1 Ha1e Ha0 ltac:(set_solver) Hlen2)
    as (runs2 & Hadd & Hina2 & Hfr2 & Hoth2).
  { intros _. split; [|set_solver]. destruct (Hruns (a, k)) as (run0 & i0 & f0 & Hr0 & Hk0 & _ & Hrep0); [set_solver|].
    simpl in *. pose proof (rr_heap _ _ _ _ _ Hrep0). lia. }
  unfold bin_retire_run. ok_assert by by apply class_nonzero. unfold rd_run. rewrite Hr.
  cbn [mbind outcome_bind]. ok_assert by lia. rewrite Hdel.
  cbn [mbind outcome_bind with_active run_list_inactive]. rewrite Hadd. cbn [mbind outcome_bind].
  cbn [with_active with_inactive run_list_active run_list_active_cnt].
  eexists _, runs2. split; [reflexivity|]. split; [|split; [done|split; [done|]]].
  - eapply bin_lists_frame; try done; cbn [with_active with_inactive run_list_active run_list_inactive run_list_active_cnt].
    + by etrans.
    + apply (dll_ext runs1); [|done]. intros b Hb. apply Hoth2; set_solver.
    + rewrite <- !app_assoc. apply submseteq_skips_l, Permutation_submseteq. symmetry. apply Permutation_middle.
    + rewrite Hcnt, !length_app in *. simpl in *. rewrite wrap_small; lia.
  - intros b Hb. apply run_frame_lookup; [by etrans|]. rewrite fmap_app in Hb.
    rewrite Hoth2, Hoth1 by set_solver. done.
Qed.

(** ** bin_delete_run *)
Lemma bin_delete_run_ok `{Build} bin runs active inactive G l1 a k l2 run :
  bin_lists bin runs active inactive G →
  inactive = l1 ++ (a, k) :: l2 → runs !! a = Some run →
  bin_get_run_by_addr bin runs (key (run_entry run)) = Ok a →
  ∃ bin' runs', bin_delete_run bin runs a = Ok (bin', runs') ∧
    bin_lists bin' runs' active (l1 ++ l2) G ∧
    reg_size bin' = reg_size bin ∧ avail_regs bin' = avail_regs bin ∧
    (∀ b, b ∉ inactive.*1 → runs' !! b = runs !! b) ∧
    (∃ run', runs' !! a = Some run' ∧ key (run_entry run') = k).
Proof.
  intros Hl -> Hr Hfind. pose proof Hl as [Hgeo Hact Hina Haddr Hkeys Hruns Hcnt].
  rewrite fmap_app in Haddr. apply NoDup_app in Haddr as (_ & Ha1 & _).
  rewrite fmap_app in Hkeys. apply NoDup_app in Hkeys as (_ & _ & Hk1).
  rewrite fmap_app, fmap_cons in Hk1. apply NoDup_app in Hk1 as (_ & Hk1 & _).
  assert (k ∉ l1.*2) as Hkl1 by (intros Hin; apply (Hk1 k Hin); set_solver).
  destruct (ll_del_ok _ _ _ _ _ _ Hina (λ _, Hkl1)) as (runs1 & Hdel & Hina1 & Ha1e & Hfr1 & Hoth1).
  unfold bin_delete_run. ok_assert by by apply class_nonzero. unfold rd_run. rewrite Hr.
  cbn [mbind outcome_bind].
  rewrite Hfind. cbn [mbind outcome_bind].
  assert ((if asserts_on then c_assert (a =? a) else Ok tt) = Ok tt) as ->
    by (destruct asserts_on; [apply c_assert_true; lia|done]).
  cbn [mbind outcome_bind]. rewrite Hdel. cbn [mbind outcome_bind].
  eexists _, runs1. split; [reflexivity|]. split; [|split; [done|split; [done|]]].
  - eapply bin_lists_frame; try done; cbn [with_inactive run_list_active run_list_inactive run_list_active_cnt].
    + apply (dll_ext runs); [|done]. intros b Hb. apply Hoth1. by apply Ha1.
    + by apply submseteq_skips_l, submseteq_skips_l, submseteq_cons.
  - split; [intros b Hb; apply run_frame_lookup; [done|by apply Hoth1]|].
    simpl in Ha1e. apply fmap_Some in Ha1e as (run' & Hr' & He'). exists run'. by rewrite <- He'.
Qed.

(** Only [avail_regs] differs. *)
Lemma bin_lists_avail `{Build} bin runs active inactive G v :
  bin_lists bin runs active inactive G →
  bin_lists (with_active bin (run_list_active bin) (run_list_active_cnt bin) v) runs active inactive G.
Proof.
  intros Hl. pose proof Hl as [Hgeo Hact Hina Haddr Hkeys Hruns Hcnt].
  eapply bin_lists_frame; try done.
Qed.

Lemma bin_rep_in `{Build} bin runs active inactive G a k :
  bin_lists bin runs active inactive G → (a, k) ∈ active ++ inactive →
  ∃ run issued freed, rd_run runs a = Ok run ∧ runs !! a = Some run ∧ key (run_entry run) = k ∧
    G !! a = Some (issued, freed) ∧ run_rep bin (class_elems (reg_size bin)) run issued freed.
Proof. intros Hl Hin. exact (rd_run_ok _ _ _ (a, k) (bl_runs _ _ _ _ _ Hl _ Hin)). Qed.

Lemma sumZ_left_other G G' n a k (l1 l2 : list (Z * Z)) :
  (∀ b, b ≠ a → left G' n b = left G n b) → a ∉ (l1 ++ l2).*1 →
  sumZ ((λ x, left G' n x.1) <$> l1 ++ (a, k) :: l2) =
  sumZ ((λ x, left G n x.1) <$> l1 ++ (a, k) :: l2) - left G n a + left G' n a ∧
  sumZ ((λ x, left G' n x.1) <$> l1 ++ l2) =
  sumZ ((λ x, left G n x.1) <$> l1 ++ (a, k) :: l2) - left G n a.
Proof.
  intros Hne Ha. rewrite !fmap_app, !fmap_cons, !sumZ_app. simpl.
  rewrite !(fmap_left_ext G G'); [lia|..]; intros x Hx; apply Hne; intros <-; apply Ha;
    rewrite fmap_app; apply elem_of_app; [right|left]; by apply list_elem_of_fmap_2.
Qed.

(** ** Allocation from a bin *)
Section allocate.
Context `{Build} (bin : bin_t) (runs : gmap Z run_t) (active inactive : list (Z * Z)) (G : ghost).
Context (Hrep : bin_rep bin runs active inactive G).
Abbreviation n := (class_elems (reg_size bin)).

(** The accounting after region [i] of run [a] is issued, the lists unchanged. *)
Lemma bin_rep_issue bin1 runs1 l1 a k l2 issued freed i :
  active = l1 ++ (a, k) :: l2 → G !! a = Some (issued, freed) →
  reg_size bin1 = reg_size bin → avail_regs bin1 = avail_regs bin - 1 →
  let G1 := <[a := (issued ++ [i], freed)]> G in
  (Z.of_nat (length issued) + 1 < n → bin_lists bin1 runs1 active inactive G1 →
   bin_rep bin1 runs1 active inactive G1) ∧
  (Z.of_nat (length issued) + 1 = n → bin_lists bin1 runs1 (l1 ++ l2) ((a, k) :: inactive) G1 →
   bin_rep bin1 runs1 (l1 ++ l2) ((a, k) :: inactive) G1).
Proof.
  intros Hact HG Hrs Hav G1. pose proof Hrep as [[_ _ _ Haddr _ _ _] Havail Hpos Hfull Hbd Htot].
  rewrite Hact, fmap_app in Haddr. apply NoDup_app in Haddr as (Haddr & Hdis & _).
  rewrite Hact in Havail, Hpos, Htot.
  assert (a ∉ (l1 ++ l2).*1) as Ha.
  { rewrite fmap_app, fmap_cons, <- Permutation_middle in Haddr. apply NoDup_cons in Haddr as [Ha _].
    by rewrite fmap_app. }
  assert (a ∉ inactive.*1) as Hai by (apply Hdis; rewrite fmap_app, fmap_cons; set_solver).
  assert (∀ b, b ≠ a → left G1 n b = left G n b) as Hne by (intros b Hb; by apply left_insert_ne).
  destruct (sumZ_left_other G G1 n a k l1 l2 Hne Ha) as [Hs1 Hs2].
  assert (left G n a = n - Z.of_nat (length issued)) as HL by (unfold left; by rewrite HG).
  assert (left G1 n a = n - Z.of_nat (length issued) - 1) as HL1.
  { unfold G1. rewrite left_insert, length_app. simpl. lia. }
  assert (∀ x, x ∈ inactive → left G1 n x.1 = 0) as Hfull1.
  { intros x Hx. rewrite Hne; [by apply Hfull|]. intros <-. apply Hai. by apply list_elem_of_fmap_2. }
  assert (∀ x, x ∈ l1 ++ (a, k) :: l2 → x.1 ≠ a → 0 < left G1 n x.1) as Hpos1.
  { intros x Hx Hxa. rewrite Hne by done. by apply Hpos. }
  rewrite Hact. split; intros Hlen Hl; split; rewrite ?Hrs; try done; try lia.
  - intros x Hx. destruct (decide (x.1 = a)) as [->|Hxa]; [lia|by apply Hpos1].
  - intros x Hx. apply Hpos1; [set_solver|]. intros <-. apply Ha. by apply list_elem_of_fmap_2.
  - intros x [->|Hx]%elem_of_cons; [simpl; lia|by apply Hfull1].
  - rewrite !length_app in *. cbn [length] in *. lia.
Qed.

Lemma allocate_from_bin_ok r :
  BIN_MINIMUM_REGIONS ≤ avail_regs bin →
  ∃ x r' a k issued freed i bin' runs' active' inactive',
    splitmix32 r = (x, r') ∧
    active !! Z.to_nat (x mod Z.of_nat (length active)) = Some (a, k) ∧
    G !! a = Some (issued, freed) ∧ 0 ≤ i < n ∧ (i ∉ issued) ∧
    allocate_from_bin bin runs r = Ok (k + i * reg_size bin, bin', runs', r') ∧
    bin_rep bin' runs' active' inactive' (<[a := (issued ++ [i], freed)]> G) ∧
    active' ++ inactive' ≡ₚ active ++ inactive ∧
    reg_size bin' = reg_size bin ∧ avail_regs bin' = avail_regs bin - 1 ∧
    (∀ b, b ∉ (active ++ inactive).*1 → runs' !! b = runs !! b).
Proof.
  intros Hmin. unfold BIN_MINIMUM_REGIONS in Hmin. pose proof Hrep as [Hl Havail Hpos Hfull Hbd Htot].
  pose proof (bin_rep_count _ _ _ _ _ Hrep) as Hcount.
  assert (active ≠ []) as Hne by (intros ->; simpl in Havail; lia).
  pose proof (bin_get_run_for_allocation_ok bin runs active inactive G Hrep r Hne) as Hget.
  destruct (splitmix32 r) as [x r']. destruct Hget as (a & k & Hlk & Hget).
  pose proof (list_elem_of_lookup_2 _ _ _ Hlk) as Hin.
  assert ((a, k) ∈ active ++ inactive) as Hin' by set_solver.
  destruct (bin_rep_in _ _ _ _ _ _ _ Hl Hin') as (run & issued & freed & Hrd & Hr & Hk & HG & Hrun).
  set (bin1 := with_active bin (run_list_active bin) (run_list_active_cnt bin) (avail_regs bin - 1)) in *.
  pose proof (bl_geo _ _ _ _ _ Hl) as Hgeo.
  assert (bin_geometry bin1) as Hgeo1 by by destruct Hgeo.
  pose proof (Hpos _ Hin) as Hpa. unfold left in Hpa. cbn [fst] in Hpa. rewrite HG in Hpa.
  destruct (run_allocate_ok bin1 n (bin_geometry_shape bin1 Hgeo1) run issued freed) as
    (i & run' & Hall & Hi & Hfresh & _ & He & Hrun'); [by eapply run_rep_bin; [|done]|lia|].
  assert (region_addr bin1 run i = k + i * reg_size bin) as Haddr by (unfold region_addr; by rewrite Hk).
  rewrite Haddr in Hall.
  pose proof (run_replaced bin runs active inactive G Hl a k run run' _ _ Hin' Hr He
                ltac:(by eapply run_rep_bin; [|exact Hrun'])) as Hl1.
  pose proof (bin_lists_avail _ _ _ _ _ (avail_regs bin - 1) Hl1) as Hl2. fold bin1 in Hl2.
  exists x, r', a, k, issued, freed, i.
  unfold allocate_from_bin. ok_assert by (unfold BIN_MINIMUM_REGIONS; lia). ok_rw Hget. ok_rw Hrd.
  ok_rw Hall. unfold run_is_depleted. pose proof (rr_navail _ _ _ _ _ Hrun') as Hnav.
  rewrite length_app in Hnav. cbn [length] in Hnav. apply list_elem_of_split in Hin as (l1 & l2 & Hact).
  destruct (bin_rep_issue bin1 (<[a:=run']> runs) l1 a k l2 issued freed i Hact HG eq_refl eq_refl)
    as [Hgo _].
  assert (∀ b, b ∉ (active ++ inactive).*1 → <[a:=run']> runs !! b = runs !! b) as Hother.
  { intros b Hb. apply lookup_insert_ne. intros <-. apply Hb. apply list_elem_of_fmap. by exists (a, k). }
  destruct (Z.eqb_spec (navail run') 0) as [Hz|Hz]; cycle 1.
  { exists bin1, (<[a := run']> runs), active, inactive. cbn [mbind outcome_bind].
    split_and!; try done; [lia|lia|]. apply Hgo; [lia|done]. }
  rewrite length_app in Htot.
  destruct (bin_retire_run_ok bin1 (<[a:=run']> runs) active inactive _ l1 a k l2 run' Hl2 Hact)
    as (bin2 & runs2 & Hret & Hl3 & Hrs & Hav & Hoth); [by rewrite lookup_insert_eq|done|lia|lia|].
  rewrite Hret. cbn [mbind outcome_bind]. exists bin2, runs2, (l1 ++ l2), ((a, k) :: inactive).
  split_and!; try done; [lia|lia|..].
  - destruct (bin_rep_issue bin2 runs2 l1 a k l2 issued freed i Hact HG Hrs Hav) as [_ Hgo2].
    apply Hgo2; [lia|done].
  - rewrite Hact. rewrite <- !app_assoc. apply Permutation_app_head. symmetry. apply Permutation_middle.
  - intros b Hb. rewrite Hoth by done. by apply Hother.
Qed.
End allocate.

(** ** Giving a region back *)
Lemma freed_le_issued bin n run issued freed :
  bin_shape bin n → run_rep bin n run issued freed → (size freed ≤ length issued)%nat.
Proof.
  intros Hshape Hrun. rewrite <- (size_list_to_set (C := gset Z) issued).
  - apply subseteq_size. intros i Hi. apply elem_of_list_to_set. by apply (rr_freed _ _ _ _ _ Hrun).
  - by eapply issued_NoDup.
Qed.

Section release.
Context `{Build} (bin : bin_t) (runs : gmap Z run_t) (active inactive : list (Z * Z)) (G : ghost).
Context (Hrep : bin_rep bin runs active inactive G).
Context (a k : Z) (issued : list Z) (freed : gset Z).
Context (Hin : (a, k) ∈ active ++ inactive) (HG : G !! a = Some (issued, freed)).
Abbreviation n := (class_elems (reg_size bin)).

(** The accounting does not look at the regions given back. *)
Lemma bin_rep_give_back bin1 runs1 inactive1 freed1 :
  inactive1 ⊆+ inactive → reg_size bin1 = reg_size bin → avail_regs bin1 = avail_regs bin →
  bin_lists bin1 runs1 active inactive1 (<[a := (issued, freed1)]> G) →
  bin_rep bin1 runs1 active inactive1 (<[a := (issued, freed1)]> G).
Proof.
  intros Hsub Hrs Hav Hl. pose proof Hrep as [_ Havail Hpos Hfull Hbd Htot].
  set (G1 := <[a := (issued, freed1)]> G).
  assert (∀ b, left G1 n b = left G n b) as Hleft.
  { intros b. unfold left, G1. destruct (decide (b = a)) as [->|Hne].
    - by rewrite lookup_insert_eq, HG.
    - by rewrite lookup_insert_ne. }
  split; rewrite ?Hrs; try done.
  - rewrite Hav, Havail. f_equal. symmetry. by apply fmap_left_ext.
  - intros x Hx. rewrite Hleft. by apply Hpos.
  - intros x Hx. rewrite Hleft. apply Hfull. by eapply elem_of_submseteq.
  - lia.
  - rewrite length_app in *. apply submseteq_length in Hsub. lia.
Qed.

Lemma release_to_bin_refused off :
  0 ≤ off < n * reg_size bin →
  ¬ (off mod reg_size bin = 0 ∧ off / reg_size bin ∈ issued ∧ off / reg_size bin ∉ freed) →
  release_to_bin bin runs a (k + off) = Fail Aborted.
Proof.
  intros Hoff Hno. pose proof (br_lists _ _ _ _ _ Hrep) as Hl.
  destruct (bin_rep_in _ _ _ _ _ _ _ Hl Hin) as (run & i0 & f0 & Hrd & Hr & Hk & HG0 & Hrun).
  rewrite HG in HG0. injection HG0 as <- <-. unfold release_to_bin. ok_rw Hrd. rewrite <- Hk.
  pose proof (bin_geometry_shape _ (bl_geo _ _ _ _ _ Hl)) as Hshape.
  by rewrite (run_deallocate_refused bin n Hshape run issued freed off Hrun Hoff Hno).
Qed.

Lemma release_to_bin_live i :
  i ∈ issued → i ∉ freed →
  let full := bool_decide (Z.of_nat (S (size freed)) = n) in
  ∃ bin' runs', release_to_bin bin runs a (k + i * reg_size bin) = Ok (full, bin', runs') ∧
    bin_rep bin' runs' active (if full then filter (λ x, x.1 ≠ a) inactive else inactive)
      (<[a := (issued, {[i]} ∪ freed)]> G) ∧
    reg_size bin' = reg_size bin ∧ avail_regs bin' = avail_regs bin ∧
    (∀ b, b ∉ (active ++ inactive).*1 → runs' !! b = runs !! b) ∧
    (∃ run', runs' !! a = Some run' ∧ key (run_entry run') = k).
Proof.
  intros Hi Hif full. pose proof (br_lists _ _ _ _ _ Hrep) as Hl.
  destruct (bin_rep_in _ _ _ _ _ _ _ Hl Hin) as (run & i0 & f0 & Hrd & Hr & Hk & HG0 & Hrun).
  rewrite HG in HG0. injection HG0 as <- <-.
  pose proof (bl_geo _ _ _ _ _ Hl) as Hgeo. pose proof (bin_geometry_shape _ Hgeo) as Hshape.
  destruct (run_deallocate_live bin n Hshape run issued freed i Hrun Hi Hif) as (run' & Hde & He & Hrun').
  pose proof (run_replaced bin runs active inactive G Hl a k run run' _ _ Hin Hr He Hrun') as Hl1.
  unfold region_addr in Hde. rewrite Hk in Hde.
  unfold release_to_bin. ok_rw Hrd. ok_rw Hde. cbn [negb].
  assert (run_is_freeable run' bin = full) as ->.
  { unfold run_is_freeable, full. rewrite (rr_nfreed _ _ _ _ _ Hrun'), (bin_shape_elems _ _ Hshape).
    rewrite size_union, size_singleton by set_solver. case_bool_decide; [by apply Z.eqb_eq|by apply Z.eqb_neq]. }
  assert (∀ b, b ∉ (active ++ inactive).*1 → <[a:=run']> runs !! b = runs !! b) as Hother.
  { intros b Hb. apply lookup_insert_ne. intros <-. apply Hb. apply list_elem_of_fmap. by exists (a, k). }
  unfold full. case_bool_decide as Hfull; cycle 1.
  { exists bin, (<[a := run']> runs). split; [done|]. split; [by apply bin_rep_give_back|].
    split_and!; try done. exists run'. rewrite lookup_insert_eq, He. done. }
  assert (Z.of_nat (size ({[i]} ∪ freed)) = n) as Hsz.
  { rewrite size_union, size_singleton by set_solver. done. }
  (* the run left the active list when its last region was issued *)
  pose proof Hin as Hin0.
  assert ((a, k) ∈ inactive) as Hina.
  { apply elem_of_app in Hin0 as [Hact|]; [|done]. exfalso.
    pose proof (br_pos _ _ _ _ _ Hrep _ Hact) as Hp. unfold left in Hp. cbn [fst] in Hp.
    rewrite HG in Hp. pose proof (freed_le_issued _ _ _ _ _ Hshape Hrun') as Hle. clear full. lia. }
  clear Hin0. apply list_elem_of_split in Hina as (l1 & l2 & Hina).
  assert (key (run_entry run') = k) as Hk' by congruence.
  destruct (bin_delete_run_ok bin (<[a:=run']> runs) active inactive _ l1 a k l2 run' Hl1 Hina)
    as (bin2 & runs2 & Hdel & Hl2 & Hrs & Hav & Hoth & ?); [by rewrite lookup_insert_eq| |].
  { rewrite (bin_get_run_by_addr_ok _ _ _ _ _ _ Hl1), Hk'. f_equal. apply find_key_nodup; [apply Hl|done]. }
  rewrite Hdel. cbn [mbind outcome_bind]. exists bin2, runs2. split; [done|].
  pose proof (bl_addrs _ _ _ _ _ Hl) as Hnd. rewrite Hina, fmap_app in Hnd.
  apply NoDup_app in Hnd as (_ & _ & Hnd).
  split; [|split_and!; try done].
  - apply bin_rep_give_back; try done.
    + rewrite Hina, filter_ne_mid by done. by apply submseteq_skips_l, submseteq_cons.
    + by rewrite Hina, filter_ne_mid.
  - intros b Hb. rewrite Hoth; [by apply Hother|]. intros Hx. apply Hb.
    rewrite fmap_app. apply elem_of_app. by right.
Qed.
End release.

(** ** Theorems *)

(** C17. With at least BIN_MINIMUM_REGIONS regions available, an allocation from a bin
    never fails: it takes the run at index splitmix32() mod run_list_active_cnt of the
    active list, returns the address of a region of that run never issued before, moves
    the run to the inactive list exactly when this was its last region, and keeps the
    invariant with [avail_regs] one smaller. *)
Theorem bin_allocates_fresh_region `{Build} bin runs active inactive G r :
  bin_rep bin runs active inactive G → BIN_MINIMUM_REGIONS ≤ avail_regs bin →
  ∃ x r' a k issued freed i bin' runs' active' inactive',
    splitmix32 r = (x, r') ∧
    active !! Z.to_nat (x mod Z.of_nat (length active)) = Some (a, k) ∧
    G !! a = Some (issued, freed) ∧ 0 ≤ i < class_elems (reg_size bin) ∧ (i ∉ issued) ∧
    allocate_from_bin bin runs r = Ok (k + i * reg_size bin, bin', runs', r') ∧
    bin_rep bin' runs' active' inactive' (<[a := (issued ++ [i], freed)]> G) ∧
    active' ++ inactive' ≡ₚ active ++ inactive ∧
    reg_size bin' = reg_size bin ∧ avail_regs bin' = avail_regs bin - 1 ∧
    (∀ b, b ∉ (active ++ inactive).*1 → runs' !! b = runs !! b).
Proof. intros Hrep Hmin. by apply allocate_from_bin_ok. Qed.

(** C18. Giving a pointer into a run of the bin back succeeds exactly when it is the
    start of a region that is issued and not yet given back, and aborts the process
    otherwise (double frees, interior pointers, regions never handed out).  The run is
    taken off the inactive list exactly when this was the last outstanding region of a
    run with all regions issued; the search assertions of bin_delete_run hold. *)
Theorem bin_release_exact `{Build} bin runs active inactive G a k issued freed off :
  bin_rep bin runs active inactive G → (a, k) ∈ active ++ inactive →
  G !! a = Some (issued, freed) → 0 ≤ off < class_elems (reg_size bin) * reg_size bin →
  let i := off / reg_size bin in
  let full := bool_decide (Z.of_nat (S (size freed)) = class_elems (reg_size bin)) in
  if bool_decide (off mod reg_size bin = 0 ∧ i ∈ issued ∧ i ∉ freed) then
    ∃ bin' runs', release_to_bin bin runs a (k + off) = Ok (full, bin', runs') ∧
      bin_rep bin' runs' active (if full then filter (λ x, x.1 ≠ a) inactive else inactive)
        (<[a := (issued, {[i]} ∪ freed)]> G) ∧
      avail_regs bin' = avail_regs bin
  else release_to_bin bin runs a (k + off) = Fail Aborted.
Proof.
  intros Hrep Hin HG Hoff i full. case_bool_decide as Hlive.
  - destruct Hlive as (Hmod & Hi & Hif).
    destruct (release_to_bin_live bin runs active inactive G Hrep a k issued freed Hin HG i Hi Hif)
      as (bin' & runs' & Hrel & Hrep' & _ & Hav & _). exists bin', runs'.
    destruct (class_shape _ (bg_class _ (bl_geo _ _ _ _ _ (br_lists _ _ _ _ _ Hrep)))) as (_ & Hrs & _).
    assert (off = i * reg_size bin) as Hoffi
      by (pose proof (Z.div_mod off (reg_size bin) ltac:(lia)); unfold i; lia).
    rewrite Hoffi. by split_and!.
  - by apply (release_to_bin_refused bin runs active inactive G Hrep a k issued freed).
Qed.

#[local] Existing Instance assert_build.
(** One run of 341 regions of 48 bytes. *)
Definition sample_run : run_t := Run (LLEntry 0 0 65536) 341 0 1 7 (amake 86 0).
Definition sample_bin : bin_t := Bin 0 4096 1 341 48 4 682.
Definition sample_runs : gmap Z run_t := {[4096 := sample_run]}.

Lemma sample_run_rep bin :
  reg_mask_size_bits bin = 682 → run_rep bin 341 sample_run [] ∅.
Proof.
  intros Hb. split; cbn [gen current_idx reg_bitmap navail nfreed run_entry key length sample_run];
    try done; try lia.
  - by exists 7.
  - rewrite Hb. reflexivity.
  - intros i Hi. unfold eitem. by rewrite pitem_amake_0.
Qed.

Lemma sample_bin_rep : bin_rep sample_bin sample_runs [(4096, 65536)] [] {[4096 := ([], ∅)]}.
Proof.
  assert (48 ∈ size_classes) as H48 by (rewrite size_classes_eq; cbn; set_solver).
  destruct (bin_init_ok 48 sample_runs ∅ H48) as (bin & Hinit & Hrs & Hgeo & Hav & Hrep).
  assert (bin = Bin 0 0 0 0 48 4 682) as -> by (vm_compute in Hinit; congruence).
  destruct (bin_add_run_ok _ _ _ _ _ Hrep 4096 65536 sample_run) as (bin' & runs' & Hadd & Hrep' & _);
    try done; try set_solver; [by apply sample_run_rep|].
  assert (bin' = sample_bin ∧ runs' = sample_runs) as [-> ->].
  { assert (bin_add_run (Bin 0 0 0 0 48 4 682) sample_runs 4096 = Ok (sample_bin, sample_runs)) as Heq
      by (vm_compute; reflexivity).
    rewrite Heq in Hadd. by injection Hadd as <- <-. }
  by rewrite insert_empty in Hrep'.
Qed.

Definition sample_rng : rng := Rng 1 2.

(** After one allocation: region 8 of the run is issued. *)
Definition sample_bin1 : bin_t := Bin 0 4096 1 340 48 4 682.
Definition sample_runs1 : gmap Z run_t :=
  {[4096 := Run (LLEntry 0 0 65536) 340 0 1 8 (aupd (amake 86 0) 2 1)]}.

Lemma sample_bin1_rep :
  bin_rep sample_bin1 sample_runs1 [(4096, 65536)] [] {[4096 := ([8], ∅)]}.
Proof.
  destruct (allocate_from_bin_ok sample_bin sample_runs _ _ _ sample_bin_rep sample_rng
              ltac:(vm_compute; discriminate))
    as (x & r' & a & k & issued & freed & i & bin' & runs' & act & ina & Hx & Hin & HG & Hi & _ & Hall & Hrep & Hperm & _).
  assert (∃ r2, allocate_from_bin sample_bin sample_runs sample_rng =
                Ok (65536 + 8 * 48, sample_bin1, sample_runs1, r2)) as [r2 Heq]
    by (eexists; vm_compute; reflexivity).
  rewrite Heq in Hall. injection Hall as Hptr <- <- _.
  apply list_elem_of_lookup_2 in Hin. apply list_elem_of_singleton in Hin. injection Hin as -> ->.
  rewrite lookup_singleton_eq in HG. injection HG as <- <-.
  change (reg_size sample_bin) with 48 in *. assert (i = 8) as -> by lia.
  rewrite insert_singleton_eq in Hrep. simpl in Hperm. apply Permutation_singleton_r in Hperm.
  destruct act as [|y act]; simpl in Hperm.
  - pose proof (br_avail _ _ _ _ _ Hrep) as Hav. discriminate Hav.
  - injection Hperm as -> Hnil. apply app_nil in Hnil as [-> ->]. exact Hrep.
Qed.

Lemma bin_allocates_fresh_region_witness :
  BIN_MINIMUM_REGIONS ≤ avail_regs sample_bin ∧
  ∃ ptr bin' runs' r', allocate_from_bin sample_bin sample_runs sample_rng = Ok (ptr, bin', runs', r') ∧
    avail_regs bin' = 340.
Proof.
  split; [vm_compute; discriminate|].
  destruct (bin_allocates_fresh_region sample_bin sample_runs [(4096, 65536)] []
              {[4096 := ([], ∅)]} sample_rng sample_bin_rep ltac:(vm_compute; discriminate))
    as (x & r' & a & k & issued & freed & i & bin' & runs' & act & ina & _ & _ & _ & _ & _ & Hall & _ & _ & _ & Hav & _).
  eexists _, _, _, _. split; [exact Hall|exact Hav].
Defined.

(** Region 8, once issued, is accepted. *)
Lemma bin_release_exact_witness :
  ((4096, 65536) ∈ [(4096, 65536)] ++ []) ∧
  ∃ bin' runs', release_to_bin sample_bin1 sample_runs1 4096 (65536 + 384) = Ok (false, bin', runs').
Proof.
  assert ((4096, 65536) ∈ [(4096, 65536)] ++ []) as Hin by by left.
  assert (({[4096 := ([8], ∅)]} : ghost) !! 4096 = Some ([8], ∅)) as HG by apply lookup_singleton_eq.
  assert (0 ≤ 384 < class_elems (reg_size sample_bin1) * reg_size sample_bin1) as Hoff
    by (vm_compute; split; [discriminate|reflexivity]).
  split; [exact Hin|].
  pose proof (bin_release_exact sample_bin1 sample_runs1 [(4096, 65536)] [] {[4096 := ([8], ∅)]}
           4096 65536 [8] ∅ 384 sample_bin1_rep Hin HG Hoff) as Hrel.
  cbv zeta in Hrel. clear HG Hoff. rewrite bool_decide_eq_true_2 in Hrel by (split_and!; [done|by left|done]).
  destruct Hrel as (bin' & runs' & Hrel & _). exists bin', runs'. exact Hrel.
Defined.
