(* ===== verification/Tagging.v ===== *)
(** * Tagging: the memory-tagging branches of run.c and platform.c

    In a build for ARM v8.5 every region of a run carries a tag, in the tag memory of the
    machine and in the top byte of the pointer handed out.  The instructions that run.c
    reaches by inline assembly (irg, gmi, ldg, stg, st2g) are the operations of the
    typeclass [TagUnit], with their documented behaviour in [TagLaws]; [soft_tags] is an
    instance.  [run_allocate_tagged] and [run_deallocate_tagged] are the operations of such
    a build, which are those of Run when tagging is off.  [tagged_regions] is the invariant
    they keep: a live region has one tag, not 0, and its live neighbours have other tags. *)
From Stdlib Require Import ZArith Lia.
From stdpp Require Import base option numbers list gmap.
From S2P Require Import Prelude.
From S2P Require Import CArray.
From S2P Require Import Utils.
From S2P Require Import SizeClass.
From S2P Require Import Random.
From S2P Require Import ContainerLL.
From S2P Require Import Run.

(** ** aarch64.h *)
Definition PLATFORM_AARCH64_TAGS : Z := 65534.
Definition TAG_OFFSET_BITS : Z := 56.
Definition MEMORY_GRANULE_SIZE : Z := 16.
Definition MEMORY_2_GRANULE_SIZE : Z := 32.
Definition PTR_CLEAR_TAG (ptr : Z) : Z := Z.land ptr (u64 (Z.shiftl 1 TAG_OFFSET_BITS - 1)).

(** ** The instructions

    [T] is the tag memory and the state of the random tag generator. *)
Class TagUnit (T : Type) := {
  asm_stg : T → Z → Z → T;        (* stg %0, [%1] *)
  asm_st2g : T → Z → Z → T;       (* st2g %0, [%1] *)
  asm_ldg : T → Z → Z;            (* ldg %0, [%1] *)
  asm_irg : T → Z → Z → Z * T;    (* irg %0, %1, %2 *)
  asm_gmi : Z → Z → Z             (* gmi %0, %1, %2 *)
}.

(** The tag of a pointer, and the granule it points into. *)
Definition ptr_tag (p : Z) : Z := (p / 2 ^ 56) mod 16.
Definition granule (p : Z) : Z := PTR_CLEAR_TAG p / 16.

Class TagLaws (T : Type) `{!TagUnit T} := {
  mem_tag : T → Z → Z;   (* the tag of a granule *)
  stg_tag t p a g : a mod 16 = 0 →
    mem_tag (asm_stg t p a) g = if decide (g = granule a) then ptr_tag p else mem_tag t g;
  st2g_tag t p a g : a mod 16 = 0 →
    mem_tag (asm_st2g t p a) g =
    if decide (granule a ≤ g < granule a + 2) then ptr_tag p else mem_tag t g;
  ldg_tag t a : ptr_tag (asm_ldg t a) = mem_tag t (granule a);
  irg_tag t p excludes q t' :
    asm_irg t p excludes = (q, t') → 0 ≤ p < 2 ^ 56 →
    (∃ k, 0 ≤ k < 16 ∧ Z.testbit excludes k = false) →
    (∃ k, 0 ≤ k < 16 ∧ Z.testbit excludes k = false ∧ q = p + k * 2 ^ 56) ∧
    ∀ g, mem_tag t' g = mem_tag t g;
  gmi_bits p excludes k :
    0 ≤ k < 16 → Z.testbit (asm_gmi p excludes) k = Z.testbit excludes k || (ptr_tag p =? k)
}.

(** ** run.c *)
Section run_tagging.
Context `{Build} `{TagUnit T}.

Definition set_tag (t : T) (tagged_ptr addr : Z) : T := asm_stg t tagged_ptr addr.
Definition get_tag_from_memory (t : T) (addr : Z) : Z := asm_ldg t addr.
Definition tag_pointer (t : T) (ptr excludes : Z) : Z * T := asm_irg t ptr excludes.
(** irg without its third operand excludes no tag. *)
Definition tag_pointer_default (t : T) (ptr : Z) : Z * T := asm_irg t ptr 0.
Definition add_to_excludes (tagged_ptr excludes : Z) : Z := asm_gmi tagged_ptr excludes.

(** for (i = 0; i < k; i++) { store; _addr += stride; } *)
Fixpoint set_tag_loop (store : T → Z → T) (stride : Z) (k : nat) (t : T) (addr : Z) : T * Z :=
  match k with
  | O => (t, addr)
  | S k => set_tag_loop store stride k (store t addr) (u64 (addr + stride))
  end.

(** static inline void set_tag_n(tagged_ptr, addr, n) *)
Definition set_tag_n (t : T) (tagged_ptr addr n : Z) : outcome T :=
  _ ← c_assert (n mod MEMORY_GRANULE_SIZE =? 0);
  _ ← c_assert (tagged_ptr mod MEMORY_GRANULE_SIZE =? 0);
  _ ← c_assert (addr mod MEMORY_GRANULE_SIZE =? 0);
  let n2g := n / MEMORY_2_GRANULE_SIZE in
  let n1g := u64 (n - MEMORY_2_GRANULE_SIZE * n2g) / MEMORY_GRANULE_SIZE in
  let '(t, _addr) :=
    set_tag_loop (λ t a, asm_st2g t tagged_ptr a) MEMORY_2_GRANULE_SIZE (Z.to_nat n2g) t addr in
  let '(t, _) :=
    set_tag_loop (λ t a, asm_stg t tagged_ptr a) MEMORY_GRANULE_SIZE (Z.to_nat n1g) t _addr in
  Ok t.

(** The tag of the region at [addr] joins the excluded ones if region [idx] is allocated. *)
Definition exclude_neighbour (t : T) (run : run_t) (idx addr excludes : Z) : outcome Z :=
  st ← get_bitmap_item (reg_bitmap run) idx;
  if bool_decide (st = STATE_ALLOC)
  then Ok (add_to_excludes (get_tag_from_memory t addr) excludes) else Ok excludes.

(** void *run_allocate(run_t *run, bin_t *bin) of a build with memory tagging *)
Definition run_allocate_tagged (is_mte_enabled : bool) (t : T) (run : run_t) (bin : bin_t)
    : outcome (Z * run_t * T) :=
  '(ptr, run) ← run_allocate run bin;
  if negb is_mte_enabled then Ok (ptr, run, t)
  else
    let excludes := 1 in
    excludes ←
      (if 0 <? current_idx run
       then exclude_neighbour t run (current_idx run - 1) (u64 (ptr - reg_size bin)) excludes
       else Ok excludes);
    excludes ←
      (if current_idx run <? u32 (bin_elems bin - 1)
       then exclude_neighbour t run (current_idx run + 1) (u64 (ptr + reg_size bin)) excludes
       else Ok excludes);
    let '(ptr, t) := tag_pointer t ptr excludes in
    t ← set_tag_n t ptr ptr (reg_size bin);
    Ok (ptr, run, t).

(** size_t run_validate_ptr(run_t *run, bin_t *bin, void *ptr) of such a build *)
Definition run_validate_ptr_tagged (is_mte_enabled : bool) (run : run_t) (bin : bin_t) (ptr : Z)
    : outcome Z :=
  let ptr :=
    if is_mte_enabled then Z.land ptr (u64 (Z.shiftl 1 TAG_OFFSET_BITS - 1)) else ptr in
  run_validate_ptr run bin ptr.

(** bool run_deallocate(run_t *run, bin_t *bin, void *ptr) of such a build *)
Definition run_deallocate_tagged (is_mte_enabled : bool) (run : run_t) (bin : bin_t) (ptr : Z)
    : outcome (bool * run_t) :=
  bitmap_idx ← run_validate_ptr_tagged is_mte_enabled run bin ptr;
  if bitmap_idx =? SIZE_MAX then Ok (false, run)
  else
    bitmap ← set_bitmap_item (reg_bitmap run) bitmap_idx STATE_ALLOC_FREE;
    Ok (true, Run (run_entry run) (navail run) (u16 (nfreed run + 1)) (gen run)
                  (current_idx run) bitmap).
End run_tagging.

(** ** platform.c: switching tagging on *)
Class TagKernel (OS : Type) := {
  HWCAP2_MTE : Z;
  PR_TAGGED_ADDR_ENABLE : Z;
  PR_MTE_TCF_SYNC : Z;
  PR_MTE_TAG_SHIFT : Z;
  PROT_MTE : Z;
  k_getauxval_hwcap2 : OS → Z;              (* getauxval(AT_HWCAP2) *)
  k_prctl_tagged_addr : OS → Z → Z * OS     (* prctl(PR_SET_TAGGED_ADDR_CTRL, flags, 0, 0, 0) *)
}.

(** The values of is_mte_enabled and additional_prot_flags. *)
Definition init_aarch64 `{TagKernel OS} (os : OS) : Z * Z * OS :=
  let hwcap2 := k_getauxval_hwcap2 os in
  if negb (Z.land hwcap2 HWCAP2_MTE =? 0) then
    let '(failed, os) := k_prctl_tagged_addr os
      (Z.lor (Z.lor PR_TAGGED_ADDR_ENABLE PR_MTE_TCF_SYNC)
             (Z.shiftl PLATFORM_AARCH64_TAGS PR_MTE_TAG_SHIFT)) in
    if negb (failed =? 0) then (0, 0, os) else (1, PROT_MTE, os)
  else (0, 0, os).

(** ** Tagged pointers *)
Lemma clear_tag_mod p : PTR_CLEAR_TAG p = p mod 2 ^ 56.
Proof.
  unfold PTR_CLEAR_TAG, TAG_OFFSET_BITS. change (u64 _) with (Z.ones 56). by apply Z.land_ones.
Qed.

Section tagged_pointer.
Context (p k : Z) (Hp : 0 ≤ p < 2 ^ 56) (Hk : 0 ≤ k < 16).

Lemma tagged_clear : PTR_CLEAR_TAG (p + k * 2 ^ 56) = p.
Proof. rewrite clear_tag_mod, Z.mod_add, Z.mod_small by lia. done. Qed.

Lemma tagged_ptr_tag : ptr_tag (p + k * 2 ^ 56) = k.
Proof. unfold ptr_tag. rewrite Z.div_add, (Z.div_small p), Z.mod_small by lia. lia. Qed.

Lemma tagged_granule : granule (p + k * 2 ^ 56) = p / 16.
Proof. unfold granule. by rewrite tagged_clear. Qed.

Lemma tagged_aligned : p mod 16 = 0 → (p + k * 2 ^ 56) mod 16 = 0.
Proof. intros. replace (k * 2 ^ 56) with (k * 2 ^ 52 * 16) by lia. by rewrite Z.mod_add by lia. Qed.
End tagged_pointer.

Lemma untagged_clear p : 0 ≤ p < 2 ^ 56 → PTR_CLEAR_TAG p = p.
Proof. intros. by rewrite clear_tag_mod, Z.mod_small. Qed.

Lemma untagged_granule p : 0 ≤ p < 2 ^ 56 → granule p = p / 16.
Proof. intros. unfold granule. by rewrite untagged_clear. Qed.

(** ** set_tag_n *)
Section set_tags.
Context `{Build} `{TagLaws T} (p k : Z) (Hk : 0 ≤ k < 16).

(** A store that tags the [c] granules from its address on. *)
Definition tags_granules (store : T → Z → T) (c : Z) : Prop :=
  ∀ t a g, a mod 16 = 0 →
    mem_tag (store t a) g = if decide (granule a ≤ g < granule a + c) then k else mem_tag t g.

Lemma set_tag_loop_ok store c (n : nat) : tags_granules store c → 0 ≤ c ≤ 2 → ∀ t a,
  0 ≤ a → a mod 16 = 0 → a + 16 * c * Z.of_nat n < 2 ^ 56 →
  ∃ t', set_tag_loop store (16 * c) n t (a + k * 2 ^ 56) = (t', a + 16 * c * Z.of_nat n + k * 2 ^ 56) ∧
    ∀ g, mem_tag t' g = if decide (a / 16 ≤ g < a / 16 + c * Z.of_nat n) then k else mem_tag t g.
Proof.
  intros Hst Hc. induction n as [|n IH]; intros t a Ha Hal Hle.
  - exists t. simpl. split; [f_equal; lia|]. intros g. by rewrite decide_False by lia.
  - cbn [set_tag_loop]. rewrite wrap_small by nia.
    replace (a + k * 2 ^ 56 + 16 * c) with ((a + 16 * c) + k * 2 ^ 56) by lia.
    destruct (IH (store t (a + k * 2 ^ 56)) (a + 16 * c)) as (t' & Heq & Ht); [nia| |nia|].
    { replace (16 * c) with (c * 16) by lia. by rewrite Z.mod_add. }
    exists t'. split; [rewrite Heq; f_equal; nia|]. intros g. rewrite Ht.
    rewrite (Hst t _ g) by (apply tagged_aligned; done). rewrite tagged_granule by lia.
    replace ((a + 16 * c) / 16) with (a / 16 + c)
      by (replace (16 * c) with (c * 16) by lia; by rewrite Z.div_add).
    assert (0 ≤ c * Z.of_nat n) by nia. rewrite Nat2Z.inj_succ.
    destruct (decide (a / 16 + c ≤ g < _)); [by rewrite decide_True by nia|].
    destruct (decide (a / 16 ≤ g < a / 16 + c)); [by rewrite decide_True by nia|].
    by rewrite decide_False by nia.
Qed.

(** set_tag_n gives the tag of the pointer to every granule of [n] bytes, and to no other. *)
Lemma set_tag_n_ok t n :
  0 ≤ p → p mod 16 = 0 → 0 ≤ n → n mod 16 = 0 → p + n < 2 ^ 56 →
  ∃ t', set_tag_n t (p + k * 2 ^ 56) (p + k * 2 ^ 56) n = Ok t' ∧
    ∀ g, mem_tag t' g = if decide (p / 16 ≤ g < (p + n) / 16) then k else mem_tag t g.
Proof.
  intros Hp Hpal Hn Hnal Hle. pose proof (tagged_aligned p k Hpal) as Hal.
  unfold set_tag_n. change MEMORY_GRANULE_SIZE with 16. change MEMORY_2_GRANULE_SIZE with 32.
  ok_assert by lia. ok_assert by lia. ok_assert by lia.
  pose proof (Z.div_mod n 32 ltac:(lia)) as Hdiv. pose proof (Z.mod_pos_bound n 32 ltac:(lia)) as Hb.
  assert (0 ≤ n / 32) as Hq by (apply Z.div_pos; lia).
  rewrite (wrap_small 64 (n - 32 * (n / 32))) by lia. replace (n - 32 * (n / 32)) with (n mod 32) by lia.
  assert (0 ≤ n mod 32 / 16) as Hr by (apply Z.div_pos; lia).
  pose proof (Z.div_mod (n mod 32) 16 ltac:(lia)) as Hdiv2.
  assert ((n mod 32) mod 16 = 0) as Hm.
  { rewrite Hdiv, Z.add_comm, Z.mul_comm in Hnal. replace (n / 32 * 32) with (n / 32 * 2 * 16) in Hnal by lia.
    by rewrite Z.mod_add in Hnal. }
  assert (∀ x, ptr_tag (x + k * 2 ^ 56) = k → tags_granules (λ t a, asm_st2g t (x + k * 2 ^ 56) a) 2) as H2.
  { intros x Hx t0 a g Ha. by rewrite st2g_tag, Hx. }
  assert (∀ x, ptr_tag (x + k * 2 ^ 56) = k → tags_granules (λ t a, asm_stg t (x + k * 2 ^ 56) a) 1) as H1.
  { intros x Hx t0 a g Ha. rewrite stg_tag, Hx by done.
    repeat case_decide; try done; lia. }
  pose proof (tagged_ptr_tag p k ltac:(lia) Hk) as Htag.
  destruct (set_tag_loop_ok _ 2 (Z.to_nat (n / 32)) (H2 p Htag) ltac:(lia) t p) as (t1 & Hl1 & Ht1); [lia..|].
  rewrite Z2Nat.id in Hl1, Ht1 by done. change (16 * 2) with 32 in Hl1. rewrite Hl1. cbv beta match zeta.
  assert ((p + 32 * (n / 32)) mod 16 = 0) as Hal2.
  { replace (32 * (n / 32)) with (n / 32 * 2 * 16) by lia. by rewrite Z.mod_add. }
  destruct (set_tag_loop_ok _ 1 (Z.to_nat (n mod 32 / 16)) (H1 p Htag) ltac:(lia) t1
    (p + 32 * (n / 32))) as (t2 & Hl2 & Ht2); [lia|done|lia|].
  rewrite Z2Nat.id in Hl2, Ht2 by done. change (16 * 1) with 16 in Hl2. rewrite Hl2. cbv beta match zeta.
  exists t2. split; [done|]. intros g. rewrite Ht2, Ht1.
  replace ((p + 32 * (n / 32)) / 16) with (p / 16 + 2 * (n / 32))
    by (replace (32 * (n / 32)) with (2 * (n / 32) * 16) by lia; by rewrite Z.div_add).
  replace ((p + n) / 16) with (p / 16 + 2 * (n / 32) + n mod 32 / 16).
  2:{ replace (p + n) with (p + (2 * (n / 32) + n mod 32 / 16) * 16) by lia. rewrite Z.div_add by lia. lia. }
  repeat case_decide; try done; lia.
Qed.
End set_tags.

(** ** The tags of the regions of a run *)
Section tagged_runs.
Context `{Build} `{TagLaws T}.

(** [excludes] is the mask of the tags in [l]. *)
Definition excludes_tags (excludes : Z) (l : list Z) : Prop :=
  ∀ k, 0 ≤ k < 16 → Z.testbit excludes k = bool_decide (k ∈ l).

Lemma excludes_room excludes l :
  excludes_tags excludes l → (length l < 16)%nat → ∃ k, 0 ≤ k < 16 ∧ Z.testbit excludes k = false.
Proof.
  intros He Hl. destruct (decide (Exists (λ k, k ∉ l) (seqZ 0 16))) as [Hex|Hno].
  - apply Exists_exists in Hex as (k & Hk%elem_of_seqZ & Hkl). exists k. split; [lia|].
    rewrite He by lia. by apply bool_decide_eq_false.
  - exfalso. assert (seqZ 0 16 ⊆+ l) as Hsub.
    { apply NoDup_submseteq; [apply NoDup_seqZ|]. intros k Hk. destruct (decide (k ∈ l)) as [|Hkl]; [done|].
      exfalso. apply Hno, Exists_exists. by exists k. }
    apply submseteq_length in Hsub. rewrite length_seqZ in Hsub. lia.
Qed.

Lemma excludes_first : excludes_tags 1 [0].
Proof.
  intros k Hk. assert (0 ≤ k ≤ 15) as Hk' by lia. clear Hk. zcases k; done || (exfalso; lia).
Qed.

Lemma excludes_add excludes l p :
  excludes_tags excludes l → excludes_tags (asm_gmi p excludes) (ptr_tag p :: l).
Proof.
  intros He k Hk. rewrite gmi_bits, He by done. apply eq_true_iff_eq.
  rewrite orb_true_iff, !bool_decide_eq_true, elem_of_cons. split; [intros [|]; [by right|left; lia]|].
  intros [->|]; [right; lia|by left].
Qed.

Definition region_tag (t : T) (heap size i : Z) : Z := mem_tag t ((heap + i * size) / 16).
Definition live_index (issued : list Z) (freed : gset Z) (i : Z) : Prop := i ∈ issued ∧ i ∉ freed.

Record tagged_regions (t : T) (heap size : Z) (issued : list Z) (freed : gset Z) : Prop := {
  tr_uniform : ∀ i x, i ∈ issued → range (heap + i * size) size x →
    mem_tag t (x / 16) = region_tag t heap size i;
  tr_nonzero : ∀ i, i ∈ issued → region_tag t heap size i ≠ 0;
  tr_differ : ∀ i, live_index issued freed i → live_index issued freed (i + 1) →
    region_tag t heap size i ≠ region_tag t heap size (i + 1)
}.

(** Tags outside the regions do not matter. *)
Lemma tagged_regions_agree t t' heap size issued freed :
  (∀ i x, i ∈ issued → range (heap + i * size) size x → mem_tag t' (x / 16) = mem_tag t (x / 16)) →
  0 < size → tagged_regions t heap size issued freed → tagged_regions t' heap size issued freed.
Proof.
  intros Heq Hs [Hu Hz Hd].
  assert (∀ i, i ∈ issued → region_tag t' heap size i = region_tag t heap size i) as Hr.
  { intros i Hi. apply (Heq i); [done|]. unfold range. lia. }
  split.
  - intros i x Hi Hx. rewrite (Heq i x Hi Hx), Hr by done. by apply Hu.
  - intros i Hi. rewrite Hr by done. by apply Hz.
  - intros i Hi Hj. rewrite !Hr by (by apply Hi || apply Hj). by apply Hd.
Qed.

Lemma tagged_regions_nil t heap size : tagged_regions t heap size [] ∅.
Proof. split; unfold live_index; set_solver. Qed.

Lemma tagged_regions_freed t heap size issued freed freed' :
  freed ⊆ freed' → tagged_regions t heap size issued freed → tagged_regions t heap size issued freed'.
Proof.
  intros Hs [Hu Hz Hd]. split; [done..|]. intros i [Hi Hi'] [Hj Hj']. apply Hd; split; set_solver.
Qed.

Section one_run.
Context (bin : bin_t) (n : Z) (Hshape : bin_shape bin n).
Context (Hsize : reg_size bin mod 16 = 0).

Lemma exclude_neighbour_ok t run issued freed i excludes l :
  run_rep bin n run issued freed → 0 ≤ i < n → excludes_tags excludes l →
  ∃ e l', exclude_neighbour t run i (region_addr bin run i) excludes = Ok e ∧ excludes_tags e l' ∧
    l ⊆ l' ∧ (length l' ≤ S (length l))%nat ∧
    (live_index issued freed i → region_tag t (key (run_entry run)) (reg_size bin) i ∈ l').
Proof.
  intros Hrep Hi He. pose proof Hrep as [_ _ Hlen Hst Hfr _ _ _ Hheap]. pose proof Hshape as [_ Hn Hreg Hfit].
  pose proof (bitmap_covers bin n Hshape i Hi) as Hcov. rewrite <- Hlen in Hcov.
  assert (0 ≤ i * reg_size bin < 2 ^ 20) as Hoff by nia.
  unfold exclude_neighbour. ok_rw (get_bitmap_ok bin (reg_bitmap run) i Hlen Hcov).
  rewrite Hst by lia. unfold region_state, live_index.
  destruct (decide (i ∈ freed)) as [Hf|Hf]; [|destruct (decide (i ∈ issued)) as [Hiss|Hiss]].
  - exists excludes, l. rewrite bool_decide_false by done. split_and!; try done; [lia|by intros [_ ?]].
  - rewrite bool_decide_true by done. unfold add_to_excludes, get_tag_from_memory.
    eexists _, _. split; [done|]. split; [by apply excludes_add|]. split; [set_solver|].
    split; [done|]. intros _. unfold region_tag. rewrite ldg_tag. unfold region_addr in *.
    rewrite untagged_granule by lia. by left.
  - exists excludes, l. rewrite bool_decide_false by done. split_and!; try done; [lia|by intros [? _]].
Qed.

Lemma exclude_neighbours_ok t run issued freed i :
  run_rep bin n run issued freed → i = current_idx run → 0 ≤ i < n →
  ∃ e l, (excludes ←
      (if 0 <? current_idx run
       then exclude_neighbour t run (current_idx run - 1) (u64 (region_addr bin run i - reg_size bin)) 1
       else Ok 1);
      if current_idx run <? u32 (bin_elems bin - 1)
      then exclude_neighbour t run (current_idx run + 1) (u64 (region_addr bin run i + reg_size bin)) excludes
      else Ok excludes) = Ok e ∧
    excludes_tags e l ∧ (length l < 16)%nat ∧ 0 ∈ l ∧
    (∀ j, j = i - 1 ∨ j = i + 1 → live_index issued freed j →
       region_tag t (key (run_entry run)) (reg_size bin) j ∈ l).
Proof.
  intros Hrep Hcur Hi. pose proof (rr_heap _ _ _ _ _ Hrep) as Hheap. pose proof Hshape as [_ Hn Hreg Hfit].
  pose proof (issued_range bin n Hshape run issued freed) as Hran.
  rewrite (bin_shape_elems bin n Hshape), (wrap_small 32 (n - 1)) by lia. rewrite <- Hcur.
  assert (∀ j, 0 ≤ j < n → 0 ≤ j * reg_size bin < 2 ^ 20) as Hoff by (intros; nia).
  assert (∃ e l, (if 0 <? i
      then exclude_neighbour t run (i - 1) (u64 (region_addr bin run i - reg_size bin)) 1 else Ok 1) = Ok e ∧
    excludes_tags e l ∧ (length l < 15)%nat ∧ 0 ∈ l ∧
    (live_index issued freed (i - 1) → region_tag t (key (run_entry run)) (reg_size bin) (i - 1) ∈ l))
    as (e & l & He & Hel & Hlen & Hzero & Hleft).
  { destruct (Z.ltb_spec 0 i) as [Hpos|Hz].
    - replace (region_addr bin run i - reg_size bin) with (region_addr bin run (i - 1)) by (unfold region_addr; lia).
      rewrite wrap_small by (unfold region_addr; specialize (Hoff (i - 1)); lia).
      destruct (exclude_neighbour_ok t run issued freed (i - 1) 1 [0] Hrep ltac:(lia) excludes_first)
        as (e & l & He & Hel & Hsub & Hlen & Hin).
      exists e, l. split_and!; [done..|simpl in Hlen; lia|apply Hsub; by left|done].
    - exists 1, [0]. split_and!; [done|apply excludes_first|simpl; lia|by left|].
      intros [Hj _]. specialize (Hran _ Hrep Hj). lia. }
  rewrite (bind_Ok_l _ _ _ He).
  destruct (Z.ltb_spec i (n - 1)) as [Hlt|Hge].
  - replace (region_addr bin run i + reg_size bin) with (region_addr bin run (i + 1)) by (unfold region_addr; lia).
    rewrite wrap_small by (unfold region_addr; specialize (Hoff (i + 1)); lia).
    destruct (exclude_neighbour_ok t run issued freed (i + 1) e l Hrep ltac:(lia) Hel)
      as (e' & l' & He' & Hel' & Hsub & Hlen' & Hin).
    exists e', l'. split_and!; [done..|lia|by apply Hsub|]. intros j [-> | ->] Hj; [by apply Hsub, Hleft|by apply Hin].
  - exists e, l. split_and!; [done..|lia|done|]. intros j [-> | ->] Hj; [by apply Hleft|].
    specialize (Hran _ Hrep (proj1 Hj)). lia.
Qed.

(** A pointer to region [i] that carries the tag of the region. *)
Definition tagged_for (t : T) (heap size i p : Z) : Prop :=
  PTR_CLEAR_TAG p = heap + i * size ∧ ptr_tag p = region_tag t heap size i.

(** The new region gets the tag of the pointer, and no other region of the run loses its. *)
Lemma tagged_regions_issue t t' heap issued freed i k :
  heap mod 16 = 0 → 0 < reg_size bin → i ∉ issued → k ≠ 0 →
  (∀ g, mem_tag t' g = if decide ((heap + i * reg_size bin) / 16 ≤ g < (heap + i * reg_size bin + reg_size bin) / 16)
                       then k else mem_tag t g) →
  (∀ j, j = i - 1 ∨ j = i + 1 → live_index issued freed j → region_tag t heap (reg_size bin) j ≠ k) →
  tagged_regions t heap (reg_size bin) issued freed →
  tagged_regions t' heap (reg_size bin) (issued ++ [i]) freed ∧ region_tag t' heap (reg_size bin) i = k ∧
  ∀ j, j ∈ issued → region_tag t' heap (reg_size bin) j = region_tag t heap (reg_size bin) j.
Proof.
  intros Hheap Hpos Hi Hk Ht Hnb [Hu Hz Hd]. set (s := reg_size bin) in *.
  assert (∃ c, s = 16 * c) as [c Hc] by (exists (s / 16); pose proof (Z.div_mod s 16); lia).
  assert (∃ h, heap = 16 * h) as [h Hh] by (exists (heap / 16); pose proof (Z.div_mod heap 16); lia).
  assert (∀ j x, range (heap + j * s) s x → h + j * c ≤ x / 16 < h + j * c + c) as Hgr.
  { intros j x Hx. unfold range in Hx. split; [apply Z.div_le_lower_bound; nia|apply Z.div_lt_upper_bound; nia]. }
  replace (heap + i * s + s) with ((h + i * c + c) * 16) in Ht by lia.
  replace (heap + i * s) with ((h + i * c) * 16) in Ht by lia. rewrite !Z.div_mul in Ht by lia.
  assert (∀ x, range (heap + i * s) s x → mem_tag t' (x / 16) = k) as Hself.
  { intros x Hx. rewrite Ht, decide_True; [done|by apply Hgr]. }
  assert (∀ j x, j ∈ issued → range (heap + j * s) s x → mem_tag t' (x / 16) = mem_tag t (x / 16)) as Hother.
  { intros j x Hj Hx. rewrite Ht, decide_False; [done|]. pose proof (Hgr j x Hx).
    assert (j ≠ i) by (by intros ->). nia. }
  assert (region_tag t' heap s i = k) as Hki by (apply Hself; unfold range; lia).
  assert (∀ j, j ∈ issued → region_tag t' heap s j = region_tag t heap s j) as Hkj.
  { intros j Hj. apply (Hother j); [done|unfold range; lia]. }
  split; [|done].
  assert (∀ j, live_index (issued ++ [i]) freed j → j = i ∨ live_index issued freed j) as Hlive.
  { intros j [[Hj| ->%list_elem_of_singleton]%elem_of_app Hf]; [right; by split|by left]. }
  split.
  - intros j x [Hj| ->%list_elem_of_singleton]%elem_of_app Hx; [|by rewrite Hki, Hself].
    rewrite Hkj by done. rewrite (Hother j x Hj Hx). by apply Hu.
  - intros j [Hj| ->%list_elem_of_singleton]%elem_of_app; [|by rewrite Hki]. rewrite Hkj by done. by apply Hz.
  - intros j Hj1 Hj2. pose proof (Hlive (j + 1) Hj2) as Hr.
    destruct (Hlive j Hj1) as [->|Hl1]; destruct Hr as [He|Hl2]; [lia|..].
    + rewrite Hki, (Hkj (i + 1)) by apply Hl2. intros Heq. symmetry in Heq. revert Heq. apply Hnb; [by right|done].
    + rewrite He, Hki, (Hkj j) by apply Hl1. apply Hnb; [left; lia|done].
    + rewrite (Hkj j), (Hkj (j + 1)) by (apply Hl1 || apply Hl2). by apply Hd.
Qed.

(** [t'] is [t] with the tag of [p] on the [size] bytes it points to. *)
Definition retagged (t t' : T) (p size : Z) : Prop :=
  ∀ g, mem_tag t' g = if decide (PTR_CLEAR_TAG p / 16 ≤ g < (PTR_CLEAR_TAG p + size) / 16)
                      then ptr_tag p else mem_tag t g.

(** run_allocate with tagging on takes the region run_allocate takes, and puts all of it
    under a tag that is not 0 and that no live neighbour starts with. *)
Lemma run_allocate_tagged_region t run issued freed :
  run_rep bin n run issued freed → Z.of_nat (length issued) < n → key (run_entry run) mod 16 = 0 →
  ∃ i p run' t', run_allocate_tagged true t run bin = Ok (p, run', t') ∧
    run_allocate run bin = Ok (PTR_CLEAR_TAG p, run') ∧ run_entry run' = run_entry run ∧
    0 ≤ i < n ∧ (i ∉ issued) ∧ run_rep bin n run' (issued ++ [i]) freed ∧
    PTR_CLEAR_TAG p = region_addr bin run i ∧ retagged t t' p (reg_size bin) ∧ ptr_tag p ≠ 0 ∧
    (∀ j, j = i - 1 ∨ j = i + 1 → live_index issued freed j →
       region_tag t (key (run_entry run)) (reg_size bin) j ≠ ptr_tag p).
Proof.
  intros Hrep Hlt Hheap. pose proof (rr_heap _ _ _ _ _ Hrep) as Hk48. pose proof Hshape as [_ Hn Hreg Hfit].
  destruct (run_allocate_ok bin n Hshape run issued freed Hrep Hlt) as (i & run' & Hal & Hi & Hiss & Hcur & Hent & Hrep').
  assert (0 ≤ i * reg_size bin < 2 ^ 20) as Hoff by nia.
  assert (region_addr bin run' i = region_addr bin run i) as Haddr by (unfold region_addr; by rewrite Hent).
  destruct (exclude_neighbours_ok t run' (issued ++ [i]) freed i Hrep' Hcur Hi) as (e & l & He & Hel & Hlen & Hzero & Hnb).
  unfold run_allocate_tagged. ok_rw Hal. cbn [negb]. cbv zeta.
  rewrite <- outcome_bind_assoc, <- Haddr, He. cbn [mbind outcome_bind]. rewrite Haddr in *.
  unfold tag_pointer. destruct (asm_irg t (region_addr bin run i) e) as [p t1] eqn:Hirg.
  assert (0 ≤ region_addr bin run i < 2 ^ 56) as Hran by (unfold region_addr; lia).
  apply irg_tag in Hirg as [(k & Hk & Hek & ->) Ht1]; [|done|by apply (excludes_room e l)].
  rewrite Hel in Hek by done. apply bool_decide_eq_false in Hek.
  assert (region_addr bin run i mod 16 = 0) as Hal16.
  { unfold region_addr. rewrite <- Z.add_mod_idemp_r, <- Z.mul_mod_idemp_r, Hsize, Z.mul_0_r by lia.
    by rewrite Z.mod_0_l, Z.add_0_r by lia. }
  destruct (set_tag_n_ok (region_addr bin run i) k Hk t1 (reg_size bin)) as (t' & Hset & Ht');
    [lia|done|lia|done|unfold region_addr; nia|].
  ok_rw Hset. pose proof (tagged_clear (region_addr bin run i) k Hran) as Hclr.
  pose proof (tagged_ptr_tag (region_addr bin run i) k Hran Hk) as Hpt.
  eexists i, _, run', t'. rewrite Hclr, Hpt. split_and!; try (done || lia).
  - intros g. unfold retagged. by rewrite Hclr, Hpt, Ht', Ht1.
  - by intros ->.
  - intros j Hj [Hjl Hjf] Heq. apply Hek. rewrite <- Heq, <- Hent. apply Hnb; [done|].
    split; [by apply elem_of_app; left|done].
Qed.

(** Under the invariant, the region joins the others. *)
Lemma run_allocate_tagged_ok t run issued freed :
  run_rep bin n run issued freed → Z.of_nat (length issued) < n → key (run_entry run) mod 16 = 0 →
  tagged_regions t (key (run_entry run)) (reg_size bin) issued freed →
  ∃ i p run' t', run_allocate_tagged true t run bin = Ok (p, run', t') ∧
    run_allocate run bin = Ok (PTR_CLEAR_TAG p, run') ∧ run_entry run' = run_entry run ∧
    0 ≤ i < n ∧ (i ∉ issued) ∧ run_rep bin n run' (issued ++ [i]) freed ∧
    tagged_for t' (key (run_entry run)) (reg_size bin) i p ∧
    tagged_regions t' (key (run_entry run)) (reg_size bin) (issued ++ [i]) freed ∧
    (∀ j, j ∈ issued → region_tag t' (key (run_entry run)) (reg_size bin) j =
                       region_tag t (key (run_entry run)) (reg_size bin) j).
Proof.
  intros Hrep Hlt Hheap Htag.
  destruct (run_allocate_tagged_region t run issued freed Hrep Hlt Hheap)
    as (i & p & run' & t' & Hex & Hal & Hent & Hi & Hfresh & Hrep' & Hclr & Hre & Hz & Hnb).
  unfold retagged in Hre. rewrite Hclr in Hre.
  destruct (tagged_regions_issue t t' (key (run_entry run)) issued freed i (ptr_tag p)) as (Htr & Hki & Hkj);
    try done; [apply Hshape|].
  exists i, p, run', t'. split_and!; done || lia.
Qed.

(** run_deallocate of such a build looks at the address of the pointer only. *)
Lemma run_deallocate_tagged_on run p :
  run_deallocate_tagged true run bin p = run_deallocate run bin (PTR_CLEAR_TAG p).
Proof. done. Qed.
End one_run.
End tagged_runs.

(** ** Traces *)
Definition accessible `{TagLaws T} (t : T) (p x : Z) : Prop := mem_tag t (x / 16) = ptr_tag p.

(** An operation of the caller, on pointers that carry a tag, and the operation it stands
    for in a build without tags. *)
Definition run_exec_tagged `{Build} `{TagUnit T} (on : bool) (bin : bin_t) (t : T) (run : run_t) (op : run_op)
    : outcome (run_res * run_t * T) :=
  match op with
  | RAlloc => '(p, run, t) ← run_allocate_tagged on t run bin; Ok (RPtr p, run, t)
  | RFree p => '(b, run) ← run_deallocate_tagged on run bin p; Ok (RFreed b, run, t)
  end.
Fixpoint run_exec_tagged_all `{Build} `{TagUnit T} (on : bool) (bin : bin_t) (t : T) (run : run_t)
    (ops : list run_op) : outcome (list run_res * run_t * T) :=
  match ops with
  | [] => Ok ([], run, t)
  | op :: ops =>
      '(r, run, t) ← run_exec_tagged on bin t run op;
      '(rs, run, t) ← run_exec_tagged_all on bin t run ops;
      Ok (r :: rs, run, t)
  end.
Definition erase_op (op : run_op) : run_op :=
  match op with RAlloc => RAlloc | RFree p => RFree (PTR_CLEAR_TAG p) end.
Definition erase_res (r : run_res) : run_res :=
  match r with RPtr p => RPtr (PTR_CLEAR_TAG p) | RFreed b => RFreed b end.

Section tagged_traces.
Context `{Build} `{TagLaws T} (bin : bin_t) (n : Z) (Hshape : bin_shape bin n).
Context (Hsize : reg_size bin mod 16 = 0) (heap : Z) (Hheap : heap mod 16 = 0).
Abbreviation size := (reg_size bin).

(** The run, the tags, and the pointers handed out so far. *)
Record tagged_run (t : T) (run : run_t) (issued : list Z) (freed : gset Z) (ps : list Z) : Prop := {
  tn_rep : run_rep bin n run issued freed;
  tn_heap : key (run_entry run) = heap;
  tn_tags : tagged_regions t heap size issued freed;
  tn_ptrs : ∀ p, p ∈ ps → ∃ i, i ∈ issued ∧ tagged_for t heap size i p
}.

Lemma run_exec_tagged_ok t run issued freed ps op :
  tagged_run t run issued freed ps →
  match erase_op op with
  | RAlloc => Z.of_nat (length issued) < n
  | RFree p => heap ≤ p < heap + n * size
  end →
  ∃ r run' t' issued' freed', run_exec_tagged true bin t run op = Ok (r, run', t') ∧
    run_exec bin run (erase_op op) = Ok (erase_res r, run') ∧
    arun_step n heap size (issued, freed) (erase_op op) (erase_res r) (issued', freed') ∧
    tagged_run t' run' issued' freed' (ps ++ res_ptrs [r]).
Proof.
  intros [Hrep Hk Htag Hps] Hop. destruct op as [|p]; cbn [erase_op] in *.
  - rewrite <- Hk in Hheap, Htag.
    destruct (run_allocate_tagged_ok bin n Hshape Hsize t run issued freed Hrep Hop Hheap Htag)
      as (i & p & run' & t' & Hal & Hal0 & Hent & Hi & Hfresh & Hrep' & Hfor & Htag' & Hout).
    rewrite Hk in *. exists (RPtr p), run', t', (issued ++ [i]), freed.
    cbn [run_exec_tagged run_exec]. rewrite Hal, Hal0. cbn [mbind outcome_bind].
    split; [done|]. split; [done|]. split.
    { cbn [erase_res]. rewrite (proj1 Hfor). by constructor. }
    split; [done|by rewrite Hent|done|]. cbn [res_ptrs]. intros q [Hq| ->%list_elem_of_singleton]%elem_of_app.
    + destruct (Hps q Hq) as (j & Hj & Hq1 & Hq2). exists j. split; [by apply elem_of_app; left|]. split; [done|].
      rewrite Hq2. symmetry. by apply Hout.
    + exists i. split; [by apply elem_of_app; right; left|done].
  - destruct (run_exec_refines bin n Hshape run issued freed (RFree (PTR_CLEAR_TAG p)) heap Hrep (eq_sym Hk) Hop)
      as (r & run' & issued' & freed' & Hex & Hent & Hstep & Hrep').
    cbn [run_exec_tagged]. rewrite run_deallocate_tagged_on. cbn [run_exec] in *.
    destruct (run_deallocate run bin (PTR_CLEAR_TAG p)) as [[b run1]|e]; [|done].
    cbn [mbind outcome_bind] in *. injection Hex as <- <-.
    exists (RFreed b), run1, t, issued', freed'. split; [done|]. split; [done|]. split; [done|].
    split; [done|by rewrite Hent|..]; rewrite ?app_nil_r; inversion Hstep; subst; try done.
    eapply tagged_regions_freed; [|done]. set_solver.
Qed.

Lemma run_exec_tagged_all_ok ops : ∀ t run issued freed ps k,
  tagged_run t run issued freed ps → Z.of_nat (length issued + k) = n →
  run_ops_legal n heap size k (erase_op <$> ops) →
  ∃ rs run' t' issued' freed', run_exec_tagged_all true bin t run ops = Ok (rs, run', t') ∧
    run_exec_all bin run (erase_op <$> ops) = Ok (erase_res <$> rs, run') ∧
    arun_steps n heap size (issued, freed) (erase_op <$> ops) (erase_res <$> rs) (issued', freed') ∧
    tagged_run t' run' issued' freed' (ps ++ res_ptrs rs).
Proof.
  induction ops as [|op ops IH]; intros t run issued freed ps k Hrun Hk Hlegal.
  - exists [], run, t, issued, freed. split; [done|]. split; [done|]. split; [constructor|by rewrite app_nil_r].
  - rewrite fmap_cons in Hlegal. assert (∃ k', match erase_op op with
      | RAlloc => k = S k' | RFree p => k = k' ∧ heap ≤ p < heap + n * size
      end ∧ run_ops_legal n heap size k' (erase_op <$> ops)) as (k' & Hop & Hlegal').
    { destruct op, k; simpl in *; naive_solver. }
    destruct (run_exec_tagged_ok t run issued freed ps op Hrun) as
      (r & run1 & t1 & issued1 & freed1 & Hex & Hex0 & Hstep & Hrun1).
    { destruct op; simpl in *; [lia|tauto]. }
    destruct (IH t1 run1 issued1 freed1 (ps ++ res_ptrs [r]) k' Hrun1) as
      (rs & run2 & t2 & issued2 & freed2 & Hexs & Hexs0 & Hsteps & Hrun2); [|done|].
    { inversion Hstep as [? ? ? ? ? He1 He2| |]; subst; destruct op; try done; rewrite ?length_app; simpl in *; lia. }
    exists (r :: rs), run2, t2, issued2, freed2. rewrite !fmap_cons. cbn [run_exec_tagged_all run_exec_all].
    ok_rw Hex. ok_rw Hexs. ok_rw Hex0. ok_rw Hexs0. split; [done|]. split; [done|].
    split; [by econstructor|]. replace (ps ++ res_ptrs (r :: rs)) with ((ps ++ res_ptrs [r]) ++ res_ptrs rs); [done|].
    rewrite <- app_assoc. by destruct r.
Qed.
End tagged_traces.

(** The region sizes are multiples of the granule. *)
Lemma class_granules s : s ∈ size_classes → s mod 16 = 0.
Proof.
  assert (Forall (λ s, s mod 16 = 0) size_classes) as Hall by (rewrite size_classes_eq; by repeat constructor).
  rewrite Forall_forall in Hall. apply Hall.
Qed.

(** ** An instance: tags in a finite map, the first tag allowed *)
Definition soft_mem_tag (t : gmap Z Z) (g : Z) : Z := default 0 (t !! g).
Definition first_allowed (excludes : Z) : Z :=
  default 0 (List.find (λ k, negb (Z.testbit excludes k)) (seqZ 0 16)).

#[export] Instance soft_tags : TagUnit (gmap Z Z) := {
  asm_stg t p a := <[granule a := ptr_tag p]> t;
  asm_st2g t p a := <[granule a + 1 := ptr_tag p]> (<[granule a := ptr_tag p]> t);
  asm_ldg t a := (soft_mem_tag t (granule a) mod 16) * 2 ^ 56;
  asm_irg t p excludes := (p + first_allowed excludes * 2 ^ 56, t);
  asm_gmi p excludes := Z.lor excludes (Z.shiftl 1 (ptr_tag p))
}.

Lemma ptr_tag_range p : 0 ≤ ptr_tag p < 16.
Proof. apply Z.mod_pos_bound. lia. Qed.

Lemma first_allowed_ok excludes :
  (∃ k, 0 ≤ k < 16 ∧ Z.testbit excludes k = false) →
  0 ≤ first_allowed excludes < 16 ∧ Z.testbit excludes (first_allowed excludes) = false.
Proof.
  intros (k & Hk & Hb). unfold first_allowed. destruct (List.find _ _) as [j|] eqn:Hf.
  - apply List.find_some in Hf as [Hj Hjb]. apply list_elem_of_In, elem_of_seqZ in Hj. simpl.
    split; [lia|by apply negb_true_iff].
  - exfalso. assert (In k (seqZ 0 16)) as Hin by (apply list_elem_of_In, elem_of_seqZ; lia).
    pose proof (List.find_none _ _ Hf k Hin) as Hn. cbv beta in Hn. by rewrite Hb in Hn.
Qed.

#[export] Program Instance soft_laws : TagLaws (gmap Z Z) := {
  mem_tag t g := soft_mem_tag t g mod 16
}.
Next Obligation.
  intros t p a g _. simpl. unfold soft_mem_tag. case_decide as Hd.
  - subst. rewrite lookup_insert_eq. apply Z.mod_small, ptr_tag_range.
  - by rewrite lookup_insert_ne.
Qed.
Next Obligation.
  intros t p a g _. simpl. unfold soft_mem_tag. case_decide as Hd.
  - assert (g = granule a ∨ g = granule a + 1) as [->| ->] by lia.
    + rewrite lookup_insert_ne, lookup_insert_eq by lia. apply Z.mod_small, ptr_tag_range.
    + rewrite lookup_insert_eq. apply Z.mod_small, ptr_tag_range.
  - by rewrite !lookup_insert_ne by lia.
Qed.
Next Obligation.
  intros t a. simpl. unfold ptr_tag. rewrite Z.div_mul by lia. by rewrite Z.mod_mod.
Qed.
Next Obligation.
  intros t p e q t' [= <- <-] _ Hroom. split; [|done].
  destruct (first_allowed_ok e Hroom). by exists (first_allowed e).
Qed.
Next Obligation.
  intros p e k Hk. simpl. pose proof (ptr_tag_range p). rewrite Z.lor_spec, Z.shiftl_spec by lia.
  f_equal. destruct (Z.eqb_spec (ptr_tag p) k) as [->|Hne]; [by rewrite Z.sub_diag|].
  destruct (Z.ltb_spec k (ptr_tag p)); [by rewrite Z.testbit_neg_r by lia|apply (Z.bits_above_log2 1); simpl; lia].
Qed.

(** ** Property *)
#[local] Existing Instance assert_build.

(** C7. Any interleaving of allocations and frees on a fresh run of a build with memory
    tagging does what the same interleaving does without tags, once the tags are cleared
    from the pointers: no assertion fails, in particular none of set_tag_n.  The pointer
    to a live region has a tag other than 0 which is the tag of every byte of the region,
    so all of it is accessible through the pointer, and no byte of a live neighbour is:
    an overflow or underflow into the next region in use faults. *)
Theorem tagged_regions_isolated `{Build} `{TagLaws T} bin heap r (t : T) ops :
  bin_geometry bin → 0 < heap < 2 ^ 48 → heap mod 16 = 0 →
  let n := class_elems (reg_size bin) in
  let size := reg_size bin in
  run_ops_legal n heap size (Z.to_nat n) (erase_op <$> ops) →
  ∃ run r' rs run' t' issued freed,
    run_init bin heap r = Ok (run, r') ∧ run_exec_tagged_all true bin t run ops = Ok (rs, run', t') ∧
    run_exec_all bin run (erase_op <$> ops) = Ok (erase_res <$> rs, run') ∧
    arun_steps n heap size ([], ∅) (erase_op <$> ops) (erase_res <$> rs) (issued, freed) ∧
    ∀ p, p ∈ res_ptrs rs → ∃ i, PTR_CLEAR_TAG p = heap + i * size ∧ i ∈ issued ∧ ptr_tag p ≠ 0 ∧
      (∀ x, range (heap + i * size) size x → accessible t' p x) ∧
      (live_index issued freed i → ∀ j x, j = i - 1 ∨ j = i + 1 → live_index issued freed j →
         range (heap + j * size) size x → ¬ accessible t' p x).
Proof.
  intros Hgeo Hheap Hal n size Hlegal. pose proof (bin_geometry_shape bin Hgeo) as Hshape. fold n in Hshape.
  destruct (run_init_ok bin heap r Hgeo Hheap) as (run & r' & Hinit & Hent & Hrep). fold n in Hrep.
  destruct (run_exec_tagged_all_ok bin n Hshape (class_granules _ (bg_class _ Hgeo)) heap Hal ops t run [] ∅ [] (Z.to_nat n))
    as (rs & run' & t' & issued & freed & Hex & Hex0 & Hsteps & [_ _ [Hu Hz Hd] Hps]); [|simpl; destruct Hshape; lia|done|].
  { split; [done|by rewrite Hent|apply tagged_regions_nil|set_solver]. }
  exists run, r', rs, run', t', issued, freed. split_and!; [done..|]. intros p Hp.
  destruct (Hps p Hp) as (i & Hi & Hclr & Htag). exists i. unfold accessible. rewrite Htag.
  split_and!; [done|done|by apply Hz|intros x Hx; by apply Hu|].
  intros Hli j x Hj Hlj Hx. rewrite (Hu j x (proj1 Hlj) Hx). destruct Hj as [-> | ->].
  - pose proof (Hd (i - 1) Hlj) as Hne. replace (i - 1 + 1) with i in Hne by lia. by apply Hne.
  - intros Heq. symmetry in Heq. by apply Hd in Heq.
Qed.

Definition tagged_ops : list run_op := [RAlloc; RAlloc; RFree 65536; RAlloc; RAlloc].

Lemma tagged_regions_isolated_witness :
  run_ops_legal 341 65536 48 341 (erase_op <$> tagged_ops) ∧
  ∃ run r' rs run' t' issued freed,
    run_init example_bin 65536 (Rng 1 1) = Ok (run, r') ∧
    run_exec_tagged_all true example_bin (∅ : gmap Z Z) run tagged_ops = Ok (rs, run', t') ∧
    run_exec_all example_bin run (erase_op <$> tagged_ops) = Ok (erase_res <$> rs, run') ∧
    arun_steps 341 65536 48 ([], ∅) (erase_op <$> tagged_ops) (erase_res <$> rs) (issued, freed) ∧
    ∀ p, p ∈ res_ptrs rs → ∃ i, PTR_CLEAR_TAG p = 65536 + i * 48 ∧ i ∈ issued ∧ ptr_tag p ≠ 0 ∧
      (∀ x, range (65536 + i * 48) 48 x → accessible t' p x) ∧
      (live_index issued freed i → ∀ j x, j = i - 1 ∨ j = i + 1 → live_index issued freed j →
         range (65536 + j * 48) 48 x → ¬ accessible t' p x).
Proof.
  assert (run_ops_legal 341 65536 48 341 (erase_op <$> tagged_ops)) as Hl
    by (vm_compute; split_and!; intros; discriminate || reflexivity).
  split; [exact Hl|].
  apply (tagged_regions_isolated example_bin 65536 (Rng 1 1) (∅ : gmap Z Z) tagged_ops);
    [apply example_bin_geometry|lia|done|exact Hl].
Defined.

(** A run of two regions, both in use: they get the tags 1 and 2. *)
Definition pair_bin : bin_t := Bin 0 0 0 0 8192 4 4.
Example pair_tags :
  match run_exec_tagged_all true pair_bin (∅ : gmap Z Z) (Run (LLEntry 0 0 65536) 2 0 1 0 (amake 1 0))
      [RAlloc; RAlloc] with
  | Ok (rs, _, _) => rs = [RPtr (73728 + 1 * 2 ^ 56); RPtr (65536 + 2 * 2 ^ 56)]
  | Fail _ => False
  end.
Proof. vm_compute. reflexivity. Qed.
