(* ===== verification/InternalAllocator.v ===== *)
(** * InternalAllocator: internal_allocator.c and internal_allocator.h, the code

    Metadata (chunks, runs, huge mappings) is carved out of 8MB mappings by a binary
    buddy allocator whose tree of two-bit node states sits in the same mapping.  The
    search of internal_alloc is a walk over the tree driven by a three-valued state;
    the loop state is the record [alloc_st].  IntAllocTree.v and IntAllocProps.v have the theorems. *)
From Stdlib Require Import ZArith Lia.
From stdpp Require Import base option numbers list gmap.
From S2P Require Import Prelude.
From S2P Require Import CArray.
From S2P Require Import ContainerLL.

Definition INTERNAL_ALLOC_CHUNK_SIZE_BYTES : Z := 8388608.
Definition INTERNAL_ALLOC_LEAST_REGION_SIZE_BYTES : Z := 32.
Definition INTERNAL_ALLOC_NO_NODES_LAST_LAYER : Z :=
  INTERNAL_ALLOC_CHUNK_SIZE_BYTES / INTERNAL_ALLOC_LEAST_REGION_SIZE_BYTES.
Definition INTERNAL_ALLOC_NO_NODES : Z :=
  INTERNAL_ALLOC_NO_NODES_LAST_LAYER + (INTERNAL_ALLOC_NO_NODES_LAST_LAYER - 1).
Definition INTERNAL_ALLOC_BUDDY_TREE_SIZE_BITS : Z := INTERNAL_ALLOC_NO_NODES * 2.
Definition INTERNAL_ALLOC_BUDDY_TREE_SIZE_BYTES : Z :=
  Z.land (INTERNAL_ALLOC_BUDDY_TREE_SIZE_BITS + 7) (Z.lnot 7) / 8.

(** struct internal_allocator_state, the member [memory] apart: its bytes are the
    metadata structures, which have stores of their own. *)
Record int_alloc_t : Type := IntAlloc {
  ia_entry : ll_entry;
  ia_free_mem : Z;
  ia_buddy_tree : arr Z
}.
#[export] Program Instance int_alloc_has_entry : HasEntry int_alloc_t := {
  get_entry a := ia_entry a;
  put_entry e a := IntAlloc e (ia_free_mem a) (ia_buddy_tree a)
}.
Solve Obligations with done.
Definition with_tree (ia : int_alloc_t) (bt : arr Z) : int_alloc_t :=
  IntAlloc (ia_entry ia) (ia_free_mem ia) bt.
Definition with_free_mem (ia : int_alloc_t) (v : Z) : int_alloc_t :=
  IntAlloc (ia_entry ia) v (ia_buddy_tree ia).

(** offsetof(int_alloc_t, memory) and sizeof(int_alloc_t), with 64-bit pointers: three
    pointers, a size_t and the tree precede the memory. *)
Definition MEMORY_OFFSET : Z := 24 + 8 + INTERNAL_ALLOC_BUDDY_TREE_SIZE_BYTES.
Definition SIZEOF_INT_ALLOC : Z := MEMORY_OFFSET + INTERNAL_ALLOC_CHUNK_SIZE_BYTES.

(** What a fresh anonymous mapping holds. *)
Definition ia_zeroed : int_alloc_t :=
  IntAlloc (LLEntry 0 0 0) 0 (amake INTERNAL_ALLOC_BUDDY_TREE_SIZE_BYTES 0).

(** size_t arithmetic of the macros. *)
Definition RIGHT_CHILD (idx : Z) : Z := u64 (idx * 2 + 1).
Definition LEFT_CHILD (idx : Z) : Z := u64 (idx * 2).
Definition PARENT (idx : Z) : Z := idx / 2.
Definition IS_ROOT (idx : Z) : bool := idx =? 1.
Definition IS_LEAF (idx : Z) : bool := (INTERNAL_ALLOC_NO_NODES + 1) / 2 <=? idx.
Definition IS_RIGHT_CHILD (idx : Z) : bool := Z.odd idx.

Inductive ia_node_t : Type := NODE_FULL | NODE_SPLIT | NODE_USED | NODE_FREE.

#[export] Instance ia_node_eq_dec : EqDecision ia_node_t.
Proof. solve_decision. Defined.

#[export] Program Instance ia_node_packed : PackedEnum ia_node_t := {
  enum_code s := match s with
    NODE_FULL => 0 | NODE_SPLIT => 1 | NODE_USED => 2 | NODE_FREE => 3 end;
  enum_of z := if z =? 0 then NODE_FULL else if z =? 1 then NODE_SPLIT
               else if z =? 2 then NODE_USED else NODE_FREE
}.
Next Obligation. intros []; simpl; lia. Qed.
Next Obligation. by intros []. Qed.
Next Obligation. intros z Hz. assert (0 ≤ z ≤ 3) by lia. clear Hz. zcases z; done. Qed.

Inductive tstate_t : Type := DOWN | UP_LEFT | UP_RIGHT.

(** void internal_allocator_init(int_alloc_t *ia), on the structure at address [addr] *)
Definition internal_allocator_init (addr : Z) (ia : int_alloc_t) : outcome int_alloc_t :=
  bt ← awrite (ia_buddy_tree ia) 0 (enum_code NODE_FREE);
  Ok (IntAlloc (LLEntry 0 0 addr) INTERNAL_ALLOC_CHUNK_SIZE_BYTES bt).

Definition get_tree_item (mem : arr Z) (idx : Z) : outcome ia_node_t :=
  z ← packed_get mem (u64 (idx - 1)); Ok (enum_of z).
Definition set_tree_item (mem : arr Z) (idx : Z) (node_state : ia_node_t) : outcome (arr Z) :=
  packed_set mem (u64 (idx - 1)) (enum_code node_state).

(** static void mark_nodes_split(uint8_t *mem, size_t idx) *)
Definition mark_step (st : arr Z * Z) : outcome ((arr Z * Z) + arr Z) :=
  let '(mem, idx) := st in
  if 0 <? idx then
    state ← get_tree_item mem idx;
    if bool_decide (state = NODE_FULL) then
      mem ← set_tree_item mem idx NODE_SPLIT;
      Ok (inl (mem, idx / 2))
    else Ok (inr mem)
  else Ok (inr mem).
Definition mark_nodes_split (mem : arr Z) (idx : Z) : outcome (arr Z) :=
  while_loop mark_step 7 (mem, idx).

(** static void coalesce_free_nodes(uint8_t *mem, size_t idx) *)
Definition coalesce_free_step (st : arr Z * Z) : outcome ((arr Z * Z) + arr Z) :=
  let '(mem, idx) := st in
  if 1 <? idx then
    let neigh_idx := if IS_RIGHT_CHILD idx then u64 (idx - 1) else u64 (idx + 1) in
    state ← get_tree_item mem neigh_idx;
    if bool_decide (state = NODE_FREE) then
      mem ← set_tree_item mem (idx / 2) NODE_FREE;
      Ok (inl (mem, idx / 2))
    else
      mem ← mark_nodes_split mem (idx / 2);
      Ok (inr mem)
  else Ok (inr mem).
Definition coalesce_free_nodes (mem : arr Z) (idx : Z) : outcome (arr Z) :=
  while_loop coalesce_free_step 7 (mem, idx).

(** static void coalesce_full_nodes(uint8_t *mem, size_t idx) *)
Definition coalesce_full_step (st : arr Z * Z) : outcome ((arr Z * Z) + arr Z) :=
  let '(mem, idx) := st in
  if 1 <? idx then
    let neigh_idx := if IS_RIGHT_CHILD idx then u64 (idx - 1) else u64 (idx + 1) in
    state ← get_tree_item mem neigh_idx;
    if bool_decide (state = NODE_FULL) || bool_decide (state = NODE_USED) then
      mem ← set_tree_item mem (idx / 2) NODE_FULL;
      Ok (inl (mem, idx / 2))
    else Ok (inr mem)
  else Ok (inr mem).
Definition coalesce_full_nodes (mem : arr Z) (idx : Z) : outcome (arr Z) :=
  while_loop coalesce_full_step 7 (mem, idx).

(** The variables of the search loop of internal_alloc. *)
Record alloc_st : Type := AllocSt {
  st_idx : Z; st_cur_size : Z; st_ptr : Z; st_state : tstate_t; st_root : int_alloc_t
}.

(** The four lines that leave a node for its parent. *)
Definition go_up (st : alloc_st) : alloc_st :=
  let right := IS_RIGHT_CHILD (st_idx st) in
  AllocSt (PARENT (st_idx st)) (u64 (st_cur_size st * 2))
          (if right then u64 (st_ptr st - st_cur_size st) else st_ptr st)
          (if right then UP_RIGHT else UP_LEFT) (st_root st).

(** The node is taken: the new pointer, and the tree with the full nodes marked. *)
Definition take_node (st : alloc_st) : outcome (alloc_st + Z * int_alloc_t) :=
  bt ← set_tree_item (ia_buddy_tree (st_root st)) (st_idx st) NODE_USED;
  let root := with_free_mem (st_root st) (u64 (ia_free_mem (st_root st) - st_cur_size st)) in
  bt ← coalesce_full_nodes bt (st_idx st);
  Ok (inr (st_ptr st, with_tree root bt)).

Definition alloc_down (size : Z) (st : alloc_st) : outcome (alloc_st + Z * int_alloc_t) :=
  let '(AllocSt idx cur_size ptr state root) := st in
  node ← get_tree_item (ia_buddy_tree root) idx;
  match node with
  | NODE_SPLIT =>
      if (cur_size / 2 <? size) && (size <=? cur_size) then Ok (inl (go_up st))
      else Ok (inl (AllocSt (LEFT_CHILD idx) (cur_size / 2) ptr state root))
  | NODE_FREE =>
      if (cur_size / 2 <? size) && (size <=? cur_size) then take_node st
      else
        bt ← set_tree_item (ia_buddy_tree root) idx NODE_SPLIT;
        bt ← set_tree_item bt (LEFT_CHILD idx) NODE_FREE;
        bt ← set_tree_item bt (RIGHT_CHILD idx) NODE_FREE;
        Ok (inl (AllocSt (LEFT_CHILD idx) (cur_size / 2) ptr state (with_tree root bt)))
  | NODE_USED => Ok (inl (go_up st))
  | NODE_FULL => Ok (inl (go_up st))
  end.

(** One iteration of the search.  The result is the pointer, 0 for NULL. *)
Definition alloc_step (size : Z) (st : alloc_st) : outcome (alloc_st + Z * int_alloc_t) :=
  let '(AllocSt idx cur_size ptr state root) := st in
  if (idx =? 1) && (match state with UP_RIGHT => true | _ => false end) then Ok (inr (0, root))
  else if IS_LEAF idx then
    node ← get_tree_item (ia_buddy_tree root) idx;
    match node with
    | NODE_FREE => take_node st
    | NODE_USED => Ok (inl (go_up st))
    | NODE_SPLIT => Fail ErrorExit
    | NODE_FULL => Fail ErrorExit
    end
  else
    match state with
    | DOWN => alloc_down size st
    | UP_LEFT =>
        let cur_size := cur_size / 2 in
        Ok (inl (AllocSt (RIGHT_CHILD idx) cur_size (u64 (ptr + cur_size)) DOWN root))
    | UP_RIGHT => Ok (inl (go_up st))
    end.

(** void *internal_alloc(int_alloc_t *root, size_t size), for the structure at [addr] *)
Definition internal_alloc (addr : Z) (root : int_alloc_t) (size : Z) : outcome (Z * int_alloc_t) :=
  if ia_free_mem root <? size then Ok (0, root)
  else while_loop (alloc_step size) 47
         (AllocSt 1 INTERNAL_ALLOC_CHUNK_SIZE_BYTES (u64 (addr + MEMORY_OFFSET)) DOWN root).

(** The search loop of internal_free: index, size, address and state of the node. *)
Definition free_step (mem : arr Z) (ptr_dest : Z) (st : Z * Z * Z * ia_node_t)
    : outcome (Z * Z * Z * ia_node_t + Z * Z) :=
  let '(idx, cur_size, ptr_cur, state) := st in
  if (ptr_cur =? ptr_dest) && bool_decide (state = NODE_USED) then Ok (inr (idx, cur_size))
  else if IS_LEAF idx then Fail ErrorExit
  else
    let cur_size := cur_size / 2 in
    let '(idx, ptr_cur) :=
      if u64 (ptr_cur + cur_size) <=? ptr_dest then (RIGHT_CHILD idx, u64 (ptr_cur + cur_size))
      else (LEFT_CHILD idx, ptr_cur) in
    state ← get_tree_item mem idx;
    Ok (inl (idx, cur_size, ptr_cur, state)).

(** void internal_free(int_alloc_t *root, void *ptr) *)
Definition internal_free (addr : Z) (root : int_alloc_t) (ptr : Z) : outcome int_alloc_t :=
  state ← get_tree_item (ia_buddy_tree root) 1;
  '(idx, cur_size) ← while_loop (free_step (ia_buddy_tree root) ptr) 7
      (1, INTERNAL_ALLOC_CHUNK_SIZE_BYTES, u64 (addr + MEMORY_OFFSET), state);
  bt ← set_tree_item (ia_buddy_tree root) idx NODE_FREE;
  let free_mem := u64 (ia_free_mem root + cur_size) in
  bt ← coalesce_free_nodes bt idx;
  Ok (IntAlloc (ia_entry root) free_mem bt).
