(* ===== verification/IntAllocTree.v ===== *)
(** * IntAllocTree: the tree of blocks of the internal allocator

    The packed node states represent an inductive tree [bt] of free, used and split
    blocks ([rep], with [ctx_rep] for the rest of the tree around a node).
    [bt_alloc] is a first fit on this tree and [bt_free] gives a used block back and
    merges free siblings; the loops of internal_alloc and internal_free are followed
    step by step ([dfs_some], [dfs_none], [free_some], [free_none]). *)
From Stdlib Require Import ZArith Lia.
From stdpp Require Import base option numbers list sorting gmap.
From S2P Require Import Prelude.
From S2P Require Import CArray.
From S2P Require Import ContainerLL.
From S2P Require Import InternalAllocator.

(** ** The tree of blocks *)
Inductive bt : Type := Free | Used | Split (l r : bt).

(** The size of a block [d] levels above the leaves. *)
Definition bsize (d : nat) : Z := 32 * 2 ^ Z.of_nat d.

(** The tree has 18 levels below its root.  The number is sealed, so that nothing
    unfolds the recursive definitions over it by accident. *)
Definition HALF_seal : seal 17%nat. Proof. by eexists. Qed.
Definition HALF : nat := unseal HALF_seal.
Abbreviation TOP := (S HALF).
Lemma HALF_eq : HALF = 17%nat. Proof. apply (seal_eq HALF_seal). Qed.
Lemma TOP_eq : TOP = 18%nat. Proof. by rewrite HALF_eq. Qed.

Fixpoint full (t : bt) : bool :=
  match t with Free => false | Used => true | Split l r => full l && full r end.

(** First fit: the new tree, the offset of the block and its level. *)
Definition fits (d : nat) (size : Z) : bool := (bsize d / 2 <? size) && (size <=? bsize d).
Fixpoint bt_alloc (d : nat) (size : Z) (t : bt) : option (bt * Z * nat) :=
  match t, d with
  | Used, _ => None
  | Free, O => Some (Used, 0, O)
  | Free, S d' =>
      if fits d size then Some (Used, 0, d)
      else '(l, off, e) ← bt_alloc d' size Free; Some (Split l Free, off, e)
  | Split _ _, O => None
  | Split l r, S d' =>
      if full t || fits d size then None
      else match bt_alloc d' size l with
           | Some (l, off, e) => Some (Split l r, off, e)
           | None => '(r, off, e) ← bt_alloc d' size r; Some (Split l r, bsize d' + off, e)
           end
  end.

(** Free siblings merge. *)
Definition bt_mk (l r : bt) : bt := match l, r with Free, Free => Free | _, _ => Split l r end.
Fixpoint bt_free (d : nat) (off : Z) (t : bt) : option bt :=
  match t, d with
  | Used, _ => if off =? 0 then Some Free else None
  | Split l r, S d' =>
      if bsize d' <=? off then r ← bt_free d' (off - bsize d') r; Some (bt_mk l r)
      else l ← bt_free d' off l; Some (bt_mk l r)
  | _, _ => None
  end.

(** The used blocks (offset, level), and the bytes that are free. *)
Fixpoint blocks (d : nat) (off : Z) (t : bt) : list (Z * nat) :=
  match t, d with
  | Used, _ => [(off, d)]
  | Split l r, S d' => blocks d' off l ++ blocks d' (off + bsize d') r
  | _, _ => []
  end.
Fixpoint free_bytes (d : nat) (t : bt) : Z :=
  match t, d with
  | Free, _ => bsize d
  | Split l r, S d' => free_bytes d' l + free_bytes d' r
  | _, _ => 0
  end.
(** Free blocks are maximal, and splits are above the leaves. *)
Fixpoint bt_wf (d : nat) (t : bt) : Prop :=
  match t, d with
  | Split l r, S d' => bt_wf d' l ∧ bt_wf d' r ∧ ¬ (l = Free ∧ r = Free)
  | Split _ _, O => False
  | _, _ => True
  end.

Lemma bsize_S d : bsize (S d) = 2 * bsize d.
Proof. unfold bsize. rewrite Nat2Z.inj_succ, Z.pow_succ_r by lia. lia. Qed.

Lemma bsize_TOP : bsize TOP = 8388608.
Proof. by rewrite TOP_eq. Qed.
Lemma bsize_HALF : bsize HALF = 4194304.
Proof. by rewrite HALF_eq. Qed.

Lemma bsize_pos d : 32 ≤ bsize d.
Proof. unfold bsize. pose proof (Z.pow_pos_nonneg 2 (Z.of_nat d)). lia. Qed.

Lemma bsize_half d : bsize (S d) / 2 = bsize d.
Proof. rewrite bsize_S, Z.mul_comm, Z.div_mul by lia. done. Qed.

Lemma bsize_mono d e : (d ≤ e)%nat → bsize d ≤ bsize e.
Proof. intros. unfold bsize. apply Z.mul_le_mono_nonneg_l; [lia|]. apply Z.pow_le_mono_r; lia. Qed.

(** ** The subtree of an index *)
Definition under (i j : Z) : Prop := ∃ k, 0 ≤ k ∧ j / 2 ^ k = i.

Lemma under_refl i : under i i.
Proof. exists 0. split; [lia|apply Z.div_1_r]. Qed.

Lemma under_le i j : 1 ≤ i → under i j → i ≤ j.
Proof.
  intros Hi (k & Hk & Hj). pose proof (Z.pow_pos_nonneg 2 k ltac:(lia) Hk).
  pose proof (Z.mul_div_le j (2 ^ k) ltac:(lia)). nia.
Qed.

Lemma half_double b i : b = 0 ∨ b = 1 → (2 * i + b) / 2 = i.
Proof. intros Hb. rewrite Z.mul_comm, Z.div_add_l, Z.div_small by lia. lia. Qed.

(** Everything below a child is below the node, and the node is not below its child. *)
Lemma under_child b i j : b = 0 ∨ b = 1 → under (2 * i + b) j → under i j.
Proof.
  intros Hb (k & Hk & Hj). exists (k + 1). split; [lia|].
  by rewrite Z.pow_add_r, <- Z.div_div, Hj, half_double by lia.
Qed.

Lemma under_strict b i : 1 ≤ i → b = 0 ∨ b = 1 → ¬ under (2 * i + b) i.
Proof. intros Hi Hb Hu. apply under_le in Hu; lia. Qed.

Lemma under_disjoint i j : 1 ≤ i → under (2 * i + 0) j → ¬ under (2 * i + 1) j.
Proof.
  intros Hi (k & Hk & Hj) (k' & Hk' & Hj').
  destruct (Z.lt_trichotomy k k') as [H|[H|H]].
  - replace k' with (k + (k' - k)) in Hj' by lia. rewrite Z.pow_add_r, <- Z.div_div, Hj in Hj' by lia.
    assert (2 ≤ 2 ^ (k' - k)) by (change 2 with (2 ^ 1) at 1; apply Z.pow_le_mono_r; lia).
    pose proof (Z.mul_div_le (2 * i + 0) (2 ^ (k' - k)) ltac:(lia)). nia.
  - subst k'. lia.
  - replace k with (k' + (k - k')) in Hj by lia. rewrite Z.pow_add_r, <- Z.div_div, Hj' in Hj by lia.
    assert (2 ≤ 2 ^ (k - k')) by (change 2 with (2 ^ 1) at 1; apply Z.pow_le_mono_r; lia).
    pose proof (Z.mul_div_le (2 * i + 1) (2 ^ (k - k')) ltac:(lia)). nia.
Qed.

(** ** Representation *)

(** The state stored at index [j]. *)
Abbreviation item mem j := (eitem mem (j - 1)).

Definition state_of (t : bt) : ia_node_t :=
  match t with
  | Free => NODE_FREE | Used => NODE_USED
  | Split l r => if full l && full r then NODE_FULL else NODE_SPLIT
  end.
Definition split_state (f : bool) : ia_node_t := if f then NODE_FULL else NODE_SPLIT.

(** No stale NODE_USED strictly below the index. *)
Definition quiet (mem : arr Z) (i : Z) : Prop := ∀ j, under i j → j ≠ i → item mem j ≠ NODE_USED.

Fixpoint rep (mem : arr Z) (i : Z) (d : nat) (t : bt) : Prop :=
  item mem i = state_of t ∧
  match t, d with
  | Split l r, S d' => rep mem (2 * i + 0) d' l ∧ rep mem (2 * i + 1) d' r
  | Split _ _, O => False
  | _, _ => quiet mem i
  end.

(** The path from a node to the root: at each step the sibling, to the right ([InL]) or
    to the left ([InR]).  [ctx_rep mem c d f] describes the rest of the tree around
    a node at level [d] whose fullness is [f]. *)
Inductive side : Type := InL (r : bt) | InR (l : bt).
Definition bit (s : side) : Z := match s with InL _ => 0 | InR _ => 1 end.
Definition sib (s : side) : bt := match s with InL r => r | InR l => l end.
Fixpoint idx_of (c : list side) : Z := match c with [] => 1 | s :: c => 2 * idx_of c + bit s end.
Fixpoint ctx_rep (mem : arr Z) (c : list side) (d : nat) (f : bool) : Prop :=
  match c with
  | [] => True
  | s :: c =>
      rep mem (2 * idx_of c + (1 - bit s)) d (sib s) ∧
      item mem (idx_of c) = split_state (f && full (sib s)) ∧
      ctx_rep mem c (S d) (f && full (sib s))
  end.
(** The tree around the node, with free siblings merged. *)
Definition join (s : side) (t : bt) : bt := match s with InL r => bt_mk t r | InR l => bt_mk l t end.
Fixpoint plug (c : list side) (t : bt) : bt := match c with [] => t | s :: c => plug c (join s t) end.

Definition wf_mem (mem : arr Z) : Prop := alen mem = INTERNAL_ALLOC_BUDDY_TREE_SIZE_BYTES.

Lemma bit_range s : bit s = 0 ∨ bit s = 1.
Proof. destruct s; auto. Qed.
Lemma bit_flip s : 1 - bit s = 0 ∨ 1 - bit s = 1.
Proof. destruct s; auto. Qed.

Lemma idx_of_range c : 2 ^ Z.of_nat (length c) ≤ idx_of c < 2 ^ Z.of_nat (S (length c)).
Proof.
  induction c as [|s c IH]; [simpl; lia|]. cbn [idx_of length].
  rewrite (Nat2Z.inj_succ (S _)), !Nat2Z.inj_succ, !Z.pow_succ_r in * by lia.
  pose proof (bit_range s). lia.
Qed.

Lemma idx_of_pos c : 1 ≤ idx_of c.
Proof. pose proof (idx_of_range c). pose proof (Z.pow_pos_nonneg 2 (Z.of_nat (length c))). lia. Qed.

(** ** Frames *)
Lemma rep_frame mem mem' i d t :
  1 ≤ i → (∀ j, 1 ≤ j → under i j → item mem' j = item mem j) → rep mem i d t → rep mem' i d t.
Proof.
  revert i t. induction d as [|d IH]; intros i t Hi Hext; destruct t as [| |l r]; cbn [rep];
    intros [Hit Hq]; (split; [rewrite Hext; [exact Hit|lia|apply under_refl]|]);
    try (intros j Hj Hne; rewrite Hext; [by apply Hq|apply under_le in Hj; lia|exact Hj]); [done|].
  destruct Hq as [Hl Hr].
  split; (apply IH; [lia| |done]); (intros j Hj1 Hj; apply Hext; [done|apply under_child in Hj; auto]).
Qed.

Lemma ctx_frame mem mem' c d f :
  (∀ j, 1 ≤ j → ¬ under (idx_of c) j → item mem' j = item mem j) → ctx_rep mem c d f → ctx_rep mem' c d f.
Proof.
  revert d f. induction c as [|s c IH]; intros d f Hext; [done|]. cbn [ctx_rep idx_of].
  pose proof (idx_of_pos c). intros (Hsib & Hi & Hc). split_and!.
  - apply (rep_frame mem); [destruct s; simpl; lia| |done]. intros j Hj1 Hj. apply Hext; [done|]. intros Hj'.
    destruct s; simpl in *; [by apply (under_disjoint (idx_of c) j ltac:(lia) Hj')|by apply (under_disjoint (idx_of c) j ltac:(lia) Hj)].
  - rewrite Hext; [done|lia|]. apply under_strict; [lia|apply bit_range].
  - apply IH; [|done]. intros j Hj1 Hj. apply Hext; [done|]. intros Hj'. apply Hj. by apply under_child in Hj'; [|apply bit_range].
Qed.

(** ** Reading and writing states *)
Definition tset (mem : arr Z) (i : Z) (s : ia_node_t) : arr Z := eupd mem (i - 1) s.

Lemma get_tree_ok mem i : wf_mem mem → 1 ≤ i < 2 ^ 19 → get_tree_item mem i = Ok (item mem i).
Proof.
  intros Hw Hi. unfold get_tree_item. rewrite wrap_small, packed_get_in; [done| |lia].
  rewrite Hw. change INTERNAL_ALLOC_BUDDY_TREE_SIZE_BYTES with (2 ^ 17). lia.
Qed.

Lemma set_tree_ok mem i s : wf_mem mem → 1 ≤ i < 2 ^ 19 → set_tree_item mem i s = Ok (tset mem i s).
Proof.
  intros Hw Hi. unfold set_tree_item. rewrite wrap_small, packed_set_in; [done| |lia].
  rewrite Hw. change INTERNAL_ALLOC_BUDDY_TREE_SIZE_BYTES with (2 ^ 17). lia.
Qed.

Lemma item_tset mem i j s :
  1 ≤ i → 1 ≤ j → item (tset mem i s) j = if decide (i = j) then s else item mem j.
Proof.
  intros Hi Hj. unfold tset. rewrite eitem_eupd by lia. do 2 case_decide; try done; lia.
Qed.
Lemma item_tset_eq mem i s : 1 ≤ i → item (tset mem i s) i = s.
Proof. intros Hi. rewrite item_tset by lia. by rewrite decide_True. Qed.
Lemma item_tset_ne mem i j s : 1 ≤ i → 1 ≤ j → i ≠ j → item (tset mem i s) j = item mem j.
Proof. intros Hi Hj Hne. rewrite item_tset by lia. by rewrite decide_False. Qed.

Lemma wf_tset mem i s : wf_mem mem → wf_mem (tset mem i s).
Proof. done. Qed.

Lemma rep_item mem i d t : rep mem i d t → item mem i = state_of t.
Proof. destruct d, t; simpl; tauto. Qed.

Lemma state_full t :
  bool_decide (state_of t = NODE_FULL) || bool_decide (state_of t = NODE_USED) = full t.
Proof. destruct t as [| |l r]; simpl; try done. by destruct (full l && full r). Qed.
#[local] Instance bt_free_dec (t : bt) : Decision (t = Free).
Proof. destruct t; [by left|by right|by right]. Defined.
Lemma state_free t : bool_decide (state_of t = NODE_FREE) = bool_decide (t = Free).
Proof. destruct t as [| |l r]; simpl; try done. by destruct (full l && full r). Qed.

(** A context of [length c] nodes above level [d] of the 18 levels. *)
Lemma idx_bound c d : (length c + d = 18)%nat → 1 ≤ idx_of c < 2 ^ 19.
Proof.
  intros Hd. pose proof (idx_of_pos c). pose proof (idx_of_range c) as [_ Hr].
  assert (2 ^ Z.of_nat (S (length c)) ≤ 2 ^ 19) by (apply Z.pow_le_mono_r; lia). lia.
Qed.

Lemma idx_parent s c : idx_of (s :: c) / 2 = idx_of c.
Proof. cbn [idx_of]. apply half_double, bit_range. Qed.

Lemma idx_odd s c : IS_RIGHT_CHILD (idx_of (s :: c)) = (bit s =? 1).
Proof.
  unfold IS_RIGHT_CHILD. cbn [idx_of]. rewrite Z.odd_add, Z.odd_mul. by destruct s.
Qed.

Lemma neigh_idx s c d :
  (length (s :: c) + d = 18)%nat →
  (if IS_RIGHT_CHILD (idx_of (s :: c)) then u64 (idx_of (s :: c) - 1) else u64 (idx_of (s :: c) + 1))
  = 2 * idx_of c + (1 - bit s) ∧ 1 ≤ 2 * idx_of c + (1 - bit s) < 2 ^ 19.
Proof.
  intros Hd. rewrite idx_odd. pose proof (idx_bound (s :: c) d Hd). pose proof (idx_of_pos c).
  pose proof (idx_of_range (s :: c)) as [_ Hr]. cbn [length] in Hd.
  assert (idx_of c < 2 ^ 18).
  { pose proof (idx_of_range c) as [_ Hc].
    assert (2 ^ Z.of_nat (S (length c)) ≤ 2 ^ 18) by (apply Z.pow_le_mono_r; lia). lia. }
  cbn [idx_of] in *. destruct s; simpl (_ =? _); cbv iota; cbn [bit] in *; rewrite wrap_small; lia.
Qed.

Lemma root_gt1 s c : (1 <? idx_of (s :: c)) = true.
Proof. cbn [idx_of]. pose proof (idx_of_pos c). pose proof (bit_range s). lia. Qed.

(** ** Marking full branches *)
Lemma coalesce_full_iterate c : ∀ mem d,
  wf_mem mem → (length c + d = 18)%nat → ctx_rep mem c d false →
  ∃ mem', iterate coalesce_full_step (S (length c)) (mem, idx_of c) = Ok (inr mem') ∧
    wf_mem mem' ∧ ctx_rep mem' c d true ∧
    (∀ j, 1 ≤ j → under (idx_of c) j → item mem' j = item mem j).
Proof.
  induction c as [|s c IH]; intros mem d Hw Hd Hctx; [by exists mem|].
  destruct (neigh_idx s c d Hd) as [Hn Hnr]. cbn [length ctx_rep] in Hd, Hctx.
  destruct Hctx as (Hsib & Hi & Hc). pose proof (idx_bound c (S d) ltac:(lia)) as Hir.
  cbn [iterate coalesce_full_step]. rewrite root_gt1. cbv zeta. rewrite Hn, idx_parent.
  ok_rw (get_tree_ok mem _ Hw Hnr). rewrite (rep_item _ _ _ _ Hsib), state_full.
  destruct (full (sib s)) eqn:Hf; cycle 1.
  { exists mem. cbn [mbind outcome_bind ctx_rep]. rewrite Hf in *. by split_and!. }
  ok_rw (set_tree_ok mem _ NODE_FULL Hw Hir). cbn [mbind outcome_bind].
  destruct (IH (tset mem (idx_of c) NODE_FULL) (S d)) as (mem' & Hit & Hw' & Hc' & Hun); [done|lia| |].
  { eapply ctx_frame; [|exact Hc]. intros j Hj1 Hj. apply item_tset_ne; [lia|done|]. intros <-.
    apply Hj, under_refl. }
  assert (∀ b j, b = 0 ∨ b = 1 → 1 ≤ j → under (2 * idx_of c + b) j → item mem' j = item mem j) as Hsame.
  { intros b j Hb Hj1 Hj. rewrite Hun; [|done|by eapply under_child].
    apply item_tset_ne; [lia|done|]. intros <-. by apply (under_strict b (idx_of c)) in Hj; [|lia|]. }
  exists mem'. split; [exact Hit|]. split; [done|]. cbn [ctx_rep]. rewrite Hf. split_and!.
  - eapply rep_frame; [lia| |exact Hsib]. intros j Hj1 Hj. eapply Hsame; [apply bit_flip|done|exact Hj].
  - rewrite Hun by (lia || apply under_refl). rewrite item_tset_eq by lia. done.
  - done.
  - intros j Hj1 Hj. eapply Hsame; [apply (bit_range s)|done|exact Hj].
Qed.

(** ** Unmarking full branches *)
Lemma mark_iterate c : ∀ mem d f,
  wf_mem mem → (length c + d = 18)%nat → item mem (idx_of c) = split_state f → ctx_rep mem c d f →
  ∃ mem', iterate mark_step (S (S (length c))) (mem, idx_of c) = Ok (inr mem') ∧
    wf_mem mem' ∧ item mem' (idx_of c) = NODE_SPLIT ∧ ctx_rep mem' c d false ∧
    (∀ j, 1 ≤ j → under (idx_of c) j → j ≠ idx_of c → item mem' j = item mem j).
Proof.
  induction c as [|s c IH]; intros mem d f Hw Hd Hi Hctx; destruct f.
  - exists (tset mem 1 NODE_SPLIT). cbn [length idx_of ctx_rep iterate mark_step] in *.
    simpl (0 <? 1). cbv iota. ok_rw (get_tree_ok mem 1 Hw ltac:(lia)). rewrite Hi. simpl bool_decide. cbv iota.
    ok_rw (set_tree_ok mem 1 NODE_SPLIT Hw ltac:(lia)). split_and!; try done.
    + by apply item_tset_eq.
    + intros j Hj1 _ Hne. by apply item_tset_ne.
  - exists mem. cbn [length idx_of ctx_rep iterate mark_step] in *.
    simpl (0 <? 1). cbv iota. ok_rw (get_tree_ok mem 1 Hw ltac:(lia)). rewrite Hi. by split_and!.
  - set (i := idx_of (s :: c)) in *. pose proof (idx_bound (s :: c) d Hd) as Hir. fold i in Hir.
    cbn [length ctx_rep] in Hd, Hctx. destruct Hctx as (Hsib & Hp & Hc). pose proof (bit_range s) as Hbs.
    pose proof (idx_bound c (S d) ltac:(lia)) as Hcr.
    destruct (IH (tset mem i NODE_SPLIT) (S d) (full (sib s))) as (mem' & Hit & Hw' & Hp' & Hc' & Hun);
      [done|lia| | |].
    { rewrite item_tset_ne by (try lia; unfold i; cbn [idx_of]; pose proof (bit_range s); lia). by rewrite Hp. }
    { eapply ctx_frame; [|exact Hc]. intros j Hj1 Hj. apply item_tset_ne; [lia|done|]. intros <-.
      apply Hj. unfold i. cbn [idx_of]. eapply under_child; [apply bit_range|apply under_refl]. }
    assert (∀ b j, b = 0 ∨ b = 1 → 1 ≤ j → under (2 * idx_of c + b) j → j ≠ i → item mem' j = item mem j) as Hsame.
    { intros b j Hb Hj1 Hj Hne. rewrite Hun; [by apply item_tset_ne; [lia|..]|done|by eapply under_child|].
      intros ->. by apply (under_strict b (idx_of c)) in Hj; [|lia|]. }
    exists mem'. cbn [length]. split; [|split; [done|]].
    + change (iterate mark_step (S ?n) ?st) with
        (r ← mark_step st; match r with inl s' => iterate mark_step n s' | inr x => Ok (inr x) end).
      cbn [mark_step]. replace (0 <? i) with true by lia.
      ok_rw (get_tree_ok mem i Hw Hir). rewrite Hi. simpl bool_decide. cbv iota.
      ok_rw (set_tree_ok mem i NODE_SPLIT Hw Hir). cbn [mbind outcome_bind]. unfold i.
      rewrite idx_parent. exact Hit.
    + split.
      { rewrite Hun; [by apply item_tset_eq; lia|lia| |].
        - unfold i. cbn [idx_of]. eapply under_child; [apply bit_range|apply under_refl].
        - unfold i. cbn [idx_of]. pose proof (bit_range s). lia. }
      cbn [ctx_rep]. split_and!; [|done|done|].
      * eapply rep_frame; [lia| |exact Hsib]. intros j Hj1 Hj. eapply Hsame; [apply bit_flip|done|exact Hj|].
        intros ->. unfold i in Hj. cbn [idx_of] in Hj. apply under_le in Hj as Hle; [|lia].
        destruct s; cbn [bit] in *; [lia|]. apply (under_disjoint (idx_of c) (2 * idx_of c + 1)) in Hj; [|lia].
        apply Hj, under_refl.
      * intros j Hj1 Hj Hne. eapply Hsame; [apply (bit_range s)|done|exact Hj|done].
  - exists mem. pose proof (idx_bound (s :: c) d Hd) as Hir.
    change (iterate mark_step (S ?n) ?st) with
        (r ← mark_step st; match r with inl s' => iterate mark_step n s' | inr x => Ok (inr x) end).
    cbn [mark_step]. replace (0 <? idx_of (s :: c)) with true by lia.
    ok_rw (get_tree_ok mem _ Hw Hir). rewrite Hi. simpl bool_decide. cbv iota. by split_and!.
Qed.

(** ** Merging free blocks *)
Lemma under_cases i j : under i j → j = i ∨ under (2 * i + 0) j ∨ under (2 * i + 1) j.
Proof.
  intros (k & Hk & Hj). destruct (decide (k = 0)) as [->|Hk0]; [rewrite Z.div_1_r in Hj; auto|].
  right. replace k with (k - 1 + 1) in Hj by lia. rewrite Z.pow_add_r, <- Z.div_div in Hj by lia.
  change (2 ^ 1) with 2 in Hj. set (q := j / 2 ^ (k - 1)) in *.
  pose proof (Z.div_mod q 2 ltac:(lia)). pose proof (Z.mod_pos_bound q 2 ltac:(lia)).
  destruct (decide (q mod 2 = 0)); [left|right]; exists (k - 1); fold q; lia.
Qed.

Lemma quiet_children mem i :
  (∀ b, b = 0 ∨ b = 1 → item mem (2 * i + b) ≠ NODE_USED ∧ quiet mem (2 * i + b)) → quiet mem i.
Proof.
  intros Hc j Hj Hne. apply under_cases in Hj as [|Hj]; [done|].
  assert (∃ b, (b = 0 ∨ b = 1) ∧ under (2 * i + b) j) as (b & Hb & Hu)
    by (destruct Hj; eexists; (split; [|eassumption]); auto).
  destruct (Hc b Hb) as [Hit Hq]. destruct (decide (j = 2 * i + b)) as [->|]; [done|by apply Hq].
Qed.

Lemma rep_Free mem i d : rep mem i d Free ↔ item mem i = NODE_FREE ∧ quiet mem i.
Proof. by destruct d. Qed.
Lemma rep_Used mem i d : rep mem i d Used ↔ item mem i = NODE_USED ∧ quiet mem i.
Proof. by destruct d. Qed.

Lemma rep_split mem s c d t :
  rep mem (idx_of (s :: c)) d t → rep mem (2 * idx_of c + (1 - bit s)) d (sib s) →
  item mem (idx_of c) = split_state (full t && full (sib s)) →
  rep mem (idx_of c) (S d) (match s with InL r => Split t r | InR l => Split l t end).
Proof.
  intros Ht Hs Hi. destruct s; cbn [rep state_of sib bit idx_of] in *; rewrite Hi; split; try done.
  by rewrite andb_comm.
Qed.

Lemma join_split s t : t ≠ Free ∨ sib s ≠ Free →
  join s t = match s with InL r => Split t r | InR l => Split l t end.
Proof. destruct s as [r|l]; simpl; [destruct t, r|destruct l, t]; naive_solver. Qed.

Lemma rep_plug mem c : ∀ d t,
  (length c + d = 18)%nat → rep mem (idx_of c) d t → ctx_rep mem c d (full t) → t ≠ Free →
  rep mem 1 TOP (plug c t).
Proof.
  induction c as [|s c IH]; intros d t Hd Ht Hctx Hne; cbn [plug length] in *.
  { replace TOP with d by (pose proof TOP_eq; lia). done. }
  cbn [ctx_rep] in Hctx. destruct Hctx as (Hs & Hi & Hc). rewrite join_split by auto.
  pose proof (rep_split mem s c d t Ht Hs Hi) as Hr.
  apply (IH (S d)); [lia|done| |by destruct s].
  destruct s as [r|l]; cbn [full sib] in *; [done|]. by rewrite (andb_comm (full l)).
Qed.

Lemma coalesce_free_iterate c : ∀ mem d f,
  wf_mem mem → (length c + d = 18)%nat → rep mem (idx_of c) d Free → ctx_rep mem c d f →
  ∃ mem', iterate coalesce_free_step (S (length c)) (mem, idx_of c) = Ok (inr mem') ∧
    wf_mem mem' ∧ rep mem' 1 TOP (plug c Free).
Proof.
  induction c as [|s c IH]; intros mem d f Hw Hd Hfree Hctx.
  { exists mem. cbn [length] in Hd. by replace TOP with d by (pose proof TOP_eq; lia). }
  destruct (neigh_idx s c d Hd) as [Hn Hnr]. cbn [length ctx_rep] in Hd, Hctx.
  destruct Hctx as (Hsib & Hi & Hc). pose proof (idx_bound c (S d) ltac:(lia)) as Hir.
  pose proof (bit_range s) as Hbs.
  change (iterate coalesce_free_step (S ?n) ?st) with
    (r ← coalesce_free_step st; match r with inl s' => iterate coalesce_free_step n s' | inr x => Ok (inr x) end).
  cbn [coalesce_free_step length]. rewrite root_gt1. cbv zeta. rewrite Hn, idx_parent.
  ok_rw (get_tree_ok mem _ Hw Hnr). rewrite (rep_item _ _ _ _ Hsib), state_free. cbn [plug].
  case_bool_decide as Hsf.
  - ok_rw (set_tree_ok mem _ NODE_FREE Hw Hir). cbn [mbind outcome_bind].
    set (mem1 := tset mem (idx_of c) NODE_FREE).
    assert (∀ b j, b = 0 ∨ b = 1 → 1 ≤ j → under (2 * idx_of c + b) j → item mem1 j = item mem j) as Hsame.
    { intros b j Hb Hj1 Hj. apply item_tset_ne; [lia|done|]. intros <-.
      by apply (under_strict b (idx_of c)) in Hj; [|lia|]. }
    destruct (IH mem1 (S d) (f && full (sib s))) as (mem' & Hit & Hw' & Hr'); [done|lia| | |].
    { apply rep_Free. split; [by apply item_tset_eq; lia|]. apply quiet_children. intros b Hb.
      assert (rep mem1 (2 * idx_of c + b) d Free) as Hchild.
      { eapply rep_frame; [lia|intros j Hj1 Hj; by eapply Hsame|]. rewrite Hsf in Hsib.
        destruct (decide (b = bit s)) as [->|Hne]; [exact Hfree|].
        by replace b with (1 - bit s) by lia. }
      apply rep_Free in Hchild as [-> Hq]. done. }
    { eapply ctx_frame; [|exact Hc]. intros j Hj1 Hj. apply item_tset_ne; [lia|done|]. intros <-.
      apply Hj, under_refl. }
    exists mem'. split; [exact Hit|]. split; [done|].
    by replace (join s Free) with Free by (destruct s; cbn [join sib] in *; by subst).
  - destruct (mark_iterate c mem (S d) (f && full (sib s))) as (mem' & Hit & Hw' & Hp & Hc' & Hun); [done|lia|done|done|].
    assert (mark_nodes_split mem (idx_of c) = Ok mem') as Hmark.
    { apply (while_loop_done _ 7 _ _ _ Hit). change (2 ^ 7)%nat with 128%nat. lia. }
    ok_rw Hmark. exists mem'. split; [done|]. split; [done|].
    rewrite join_split by auto.
    assert (∀ b j, b = 0 ∨ b = 1 → 1 ≤ j → under (2 * idx_of c + b) j → item mem' j = item mem j) as Hsame.
    { intros b j Hb Hj1 Hj. apply Hun; [done|by eapply under_child|]. intros ->.
      by apply (under_strict b (idx_of c)) in Hj; [|lia|]. }
    apply (rep_plug mem' c (S d)); [lia| | |by destruct s].
    + apply rep_split.
      * eapply rep_frame; [apply idx_of_pos|intros j Hj1 Hj; by eapply Hsame|exact Hfree].
      * eapply rep_frame; [lia|intros j Hj1 Hj; eapply Hsame; [apply bit_flip|done|exact Hj]|exact Hsib].
      * exact Hp.
    + destruct s; cbn [full sib]; rewrite ?andb_false_r; exact Hc'.
Qed.

(** ** The search of internal_alloc *)
Lemma is_leaf_at c d : (length c + d = 18)%nat → IS_LEAF (idx_of c) = bool_decide (d = 0%nat).
Proof.
  intros Hd. unfold IS_LEAF. change ((INTERNAL_ALLOC_NO_NODES + 1) / 2) with (2 ^ 18).
  pose proof (idx_of_range c) as [Hlo Hhi]. case_bool_decide as Hz.
  - replace (Z.of_nat (length c)) with 18 in Hlo by lia. lia.
  - assert (2 ^ Z.of_nat (S (length c)) ≤ 2 ^ 18) by (apply Z.pow_le_mono_r; lia). lia.
Qed.

Lemma fits_false d size : size ≤ bsize (S d) → fits (S d) size = false → size ≤ bsize d.
Proof. unfold fits. rewrite bsize_half. intros Hs. destruct (Z.ltb_spec (bsize d) size), (Z.leb_spec size (bsize (S d))); simpl; done || lia. Qed.

Lemma bsize_bound d : (d ≤ 18)%nat → bsize d ≤ 2 ^ 23.
Proof. intros Hd. change (2 ^ 23) with (bsize 18). by apply bsize_mono. Qed.

Section search.
Context (size : Z).
Abbreviation mem root := (ia_buddy_tree root).
Definition at_node (c : list side) (d : nat) (ptr : Z) (root : int_alloc_t) : alloc_st :=
  AllocSt (idx_of c) (bsize d) ptr DOWN root.

Lemma go_up_at s c d ptr root :
  (length (s :: c) + d = 18)%nat → bit s * bsize d ≤ ptr < 2 ^ 64 →
  go_up (at_node (s :: c) d ptr root) =
  AllocSt (idx_of c) (bsize (S d)) (ptr - bit s * bsize d)
          (match s with InL _ => UP_LEFT | InR _ => UP_RIGHT end) root.
Proof.
  intros Hd Hptr. unfold go_up, at_node. cbn [st_idx st_cur_size st_ptr st_state st_root].
  rewrite idx_odd. unfold PARENT. rewrite idx_parent, Z.mul_comm, <- bsize_S.
  cbn [length] in Hd. pose proof (bsize_pos (S d)). pose proof (bsize_bound (S d) ltac:(lia)).
  pose proof (bsize_pos d). rewrite wrap_small by lia.
  destruct s; cbn [bit] in *; simpl (_ =? _); cbv iota; f_equal; [lia|rewrite wrap_small; lia].
Qed.

Lemma step_down c d ptr root :
  (length c + S d = 18)%nat → alloc_step size (at_node c (S d) ptr root) = alloc_down size (at_node c (S d) ptr root).
Proof.
  intros Hd. unfold alloc_step, at_node. by rewrite andb_false_r, (is_leaf_at c (S d) Hd), bool_decide_eq_false_2.
Qed.

Lemma step_up_left c d ptr root :
  (length c + S d = 18)%nat → 0 ≤ ptr → ptr + bsize d < 2 ^ 64 →
  alloc_step size (AllocSt (idx_of c) (bsize (S d)) ptr UP_LEFT root) =
  Ok (inl (AllocSt (2 * idx_of c + 1) (bsize d) (ptr + bsize d) DOWN root)).
Proof.
  intros Hd Hptr Hlt. unfold alloc_step. rewrite andb_false_r, (is_leaf_at c (S d) Hd), bool_decide_eq_false_2 by done.
  cbv zeta. rewrite bsize_half. pose proof (bsize_pos d). unfold RIGHT_CHILD.
  pose proof (idx_bound c (S d) Hd). rewrite !wrap_small by lia. by rewrite (Z.mul_comm 2).
Qed.

Lemma step_up_right s c d ptr root :
  (length (s :: c) + S d = 18)%nat →
  alloc_step size (AllocSt (idx_of (s :: c)) (bsize (S d)) ptr UP_RIGHT root) =
  Ok (inl (go_up (at_node (s :: c) (S d) ptr root))).
Proof.
  intros Hd. unfold alloc_step. pose proof (root_gt1 s c).
  replace (idx_of (s :: c) =? 1) with false by lia. cbn [andb].
  by rewrite (is_leaf_at (s :: c) (S d) Hd), bool_decide_eq_false_2.
Qed.

(** Both subtrees of a split node fail: the walk comes back from the right. *)
Definition none_at (d : nat) : Prop := ∀ s c t root ptr,
  wf_mem (mem root) → (length (s :: c) + d = 18)%nat → rep (mem root) (idx_of (s :: c)) d t →
  bt_alloc d size t = None → size ≤ bsize d → bit s * bsize d ≤ ptr → ptr + bsize d < 2 ^ 64 →
  ∃ k, (Z.of_nat k ≤ 4 * 2 ^ Z.of_nat d - 3) ∧
    iterate (alloc_step size) k (at_node (s :: c) d ptr root) =
    Ok (inl (go_up (at_node (s :: c) d ptr root))).

Lemma split_none d c l r root ptr :
  none_at d → wf_mem (mem root) → (length c + S d = 18)%nat → rep (mem root) (idx_of c) (S d) (Split l r) →
  full (Split l r) = false → fits (S d) size = false →
  bt_alloc d size l = None → bt_alloc d size r = None → size ≤ bsize d →
  0 ≤ ptr → ptr + bsize (S d) < 2 ^ 64 →
  ∃ k, (Z.of_nat k ≤ 8 * 2 ^ Z.of_nat d - 4) ∧
    iterate (alloc_step size) k (at_node c (S d) ptr root) =
    Ok (inl (AllocSt (idx_of c) (bsize (S d)) ptr UP_RIGHT root)).
Proof.
  intros Hnone Hw Hd (Hi & Hl & Hr) Hfull Hfits Hln Hrn Hsz Hptr Hlt.
  pose proof (idx_bound c (S d) Hd) as Hir. pose proof (bsize_S d) as HS. pose proof (bsize_pos d) as Hpos.
  destruct (Hnone (InL r) c l root ptr) as (k1 & Hk1 & Hit1);
    try done; try (cbn [length bit] in *; lia).
  destruct (Hnone (InR l) c r root (ptr + bsize d)) as (k2 & Hk2 & Hit2);
    try done; try (cbn [length bit] in *; lia).
  exists (S (k1 + S k2)). split; [lia|].
  rewrite (iterate_next _ _ _ (at_node (InL r :: c) d ptr root)); cycle 1.
  { rewrite step_down by done. unfold alloc_down, at_node. ok_rw (get_tree_ok _ _ Hw Hir). rewrite Hi.
    cbn [state_of]. cbn [full] in Hfull. rewrite Hfull. unfold fits in Hfits. rewrite Hfits.
    rewrite bsize_half. unfold LEFT_CHILD. rewrite wrap_small by lia. cbn [idx_of bit].
    by rewrite (Z.mul_comm 2), Z.add_0_r. }
  rewrite iterate_add, Hit1. cbn [mbind outcome_bind].
  rewrite go_up_at by (cbn [length bit]; lia). cbn [bit]. rewrite Z.mul_0_l, Z.sub_0_r.
  rewrite (iterate_next _ _ _ (at_node (InR l :: c) d (ptr + bsize d) root))
    by (rewrite step_up_left by (done || lia); done).
  rewrite Hit2, go_up_at by (cbn [length bit]; lia). cbn [bit]. do 3 f_equal. lia.
Qed.

Lemma dfs_none d : none_at d.
Proof.
  induction d as [|d IH]; intros s c t root ptr Hw Hd Hrep Hnone Hsz Hptr Hlt.
  - pose proof (idx_bound _ _ Hd) as Hir. exists 1%nat. split; [simpl; lia|]. rewrite iterate_1.
    unfold alloc_step, at_node. rewrite andb_false_r, (is_leaf_at _ 0 Hd). cbn [bool_decide].
    rewrite bool_decide_eq_true_2 by done. ok_rw (get_tree_ok _ _ Hw Hir).
    destruct t as [| |l r]; cbn [rep] in Hrep; destruct Hrep as [-> Hrep]; [done|done|done].
  - pose proof (idx_bound _ _ Hd) as Hir. pose proof (Z.pow_pos_nonneg 2 (Z.of_nat d) ltac:(lia) ltac:(lia)).
    assert (2 ^ Z.of_nat (S d) = 2 * 2 ^ Z.of_nat d) as Hpow by (rewrite Nat2Z.inj_succ, Z.pow_succ_r; lia).
    assert (∀ node, item (mem root) (idx_of (s :: c)) = node →
      (node = NODE_USED ∨ node = NODE_FULL ∨ node = NODE_SPLIT ∧ fits (S d) size = true) →
      ∃ k, (Z.of_nat k ≤ 4 * 2 ^ Z.of_nat (S d) - 3) ∧
        iterate (alloc_step size) k (at_node (s :: c) (S d) ptr root) =
        Ok (inl (go_up (at_node (s :: c) (S d) ptr root)))) as Hup.
    { intros node Hnode Hcase. exists 1%nat. split; [lia|]. rewrite iterate_1, step_down by done.
      unfold alloc_down, at_node at 1. ok_rw (get_tree_ok _ _ Hw Hir). rewrite Hnode.
      destruct Hcase as [->|[->|[-> Hfit]]]; [done|done|]. unfold fits in Hfit. by rewrite Hfit. }
    destruct t as [| |l r].
    + exfalso. clear -Hnone. cbn [bt_alloc] in Hnone. destruct (fits (S d) size); [done|].
      assert (∃ x, bt_alloc d size Free = Some x) as [[[]] Hx]; [|by rewrite Hx in Hnone].
      clear. induction d as [|d [[[]] IH]]; [by eexists|]. cbn [bt_alloc]. rewrite IH.
      destruct (fits (S d) size); by eexists.
    + eapply Hup; [exact (rep_item _ _ _ _ Hrep)|auto].
    + pose proof (rep_item _ _ _ _ Hrep) as Hit. cbn [bt_alloc] in Hnone.
      destruct (full (Split l r)) eqn:Hfull; [eapply Hup; [exact Hit|]; cbn [state_of full] in *; rewrite Hfull; auto|].
      destruct (fits (S d) size) eqn:Hfits;
        [eapply Hup; [exact Hit|]; cbn [state_of full] in *; rewrite Hfull; auto|].
      cbn [orb] in Hnone. destruct (bt_alloc d size l) as [[[]]|] eqn:Hl; [done|].
      destruct (bt_alloc d size r) as [[[]]|] eqn:Hr; [done|].
      destruct (split_none d (s :: c) l r root ptr) as (k & Hk & Hit2); try done; [by apply fits_false|..].
      { pose proof (bsize_pos (S d)). pose proof (bit_range s). nia. }
      exists (k + 1)%nat. split; [lia|]. rewrite iterate_add, Hit2. cbn [mbind outcome_bind].
      by rewrite iterate_1, step_up_right by done.
Qed.

(** The node found is taken. *)
Lemma take_node_ok c d ptr root :
  wf_mem (mem root) → (length c + d = 18)%nat → rep (mem root) (idx_of c) d Free →
  ctx_rep (mem root) c d false →
  ∃ mem', take_node (at_node c d ptr root) =
      Ok (inr (ptr, IntAlloc (ia_entry root) (u64 (ia_free_mem root - bsize d)) mem')) ∧
    wf_mem mem' ∧ rep mem' (idx_of c) d Used ∧ ctx_rep mem' c d true.
Proof.
  intros Hw Hd Hrep Hctx. pose proof (idx_bound c d Hd) as Hir.
  apply rep_Free in Hrep as [Hi Hq]. set (mem1 := tset (mem root) (idx_of c) NODE_USED).
  destruct (coalesce_full_iterate c mem1 d) as (mem' & Hit & Hw' & Hc' & Hun); [done|done| |].
  { eapply ctx_frame; [|exact Hctx]. intros j Hj1 Hj. apply item_tset_ne; [lia|done|]. intros <-.
    apply Hj, under_refl. }
  assert (coalesce_full_nodes mem1 (idx_of c) = Ok mem') as Hco.
  { apply (while_loop_done _ 7 _ _ _ Hit). change (2 ^ 7)%nat with 128%nat. lia. }
  exists mem'. unfold take_node, at_node. cbn [st_root st_idx st_cur_size st_ptr].
  ok_rw (set_tree_ok _ _ NODE_USED Hw Hir). fold mem1. ok_rw Hco. split; [done|]. split; [done|].
  split; [|done]. apply rep_Used. split.
  - rewrite Hun by (lia || apply under_refl). apply item_tset_eq; lia.
  - intros j Hj Hne. pose proof (under_le (idx_of c) j ltac:(lia) Hj). rewrite Hun by (lia || done).
    unfold mem1. rewrite item_tset_ne by lia. by apply Hq.
Qed.

(** A free block too large is split. *)
Definition split_mem (m : arr Z) (i : Z) : arr Z :=
  tset (tset (tset m i NODE_SPLIT) (2 * i + 0) NODE_FREE) (2 * i + 1) NODE_FREE.

Lemma split_free_child m i b d :
  1 ≤ i → quiet m i → b = 0 ∨ b = 1 → rep (split_mem m i) (2 * i + b) d Free.
Proof.
  intros Hi Hq Hb. apply rep_Free. unfold split_mem. split.
  - destruct Hb as [-> | ->]; [rewrite item_tset_ne by lia|]; apply item_tset_eq; lia.
  - intros j Hj Hne. pose proof (under_le (2 * i + b) j ltac:(lia) Hj) as Hle.
    assert (j ≠ 2 * i + (1 - b)) as Hne2.
    { intros ->. destruct Hb as [-> | ->]; [|lia].
      apply (under_disjoint i _ Hi Hj). apply under_refl. }
    rewrite !item_tset_ne by lia. apply Hq; [by eapply under_child|lia].
Qed.

Lemma split_free_ok c d ptr root :
  wf_mem (mem root) → (length c + S d = 18)%nat → rep (mem root) (idx_of c) (S d) Free →
  ctx_rep (mem root) c (S d) false → fits (S d) size = false →
  let root1 := with_tree root (split_mem (mem root) (idx_of c)) in
  alloc_step size (at_node c (S d) ptr root) = Ok (inl (at_node (InL Free :: c) d ptr root1)) ∧
  rep (mem root1) (idx_of (InL Free :: c)) d Free ∧ ctx_rep (mem root1) (InL Free :: c) d false.
Proof.
  intros Hw Hd Hrep Hctx Hfits root1. pose proof (idx_bound c (S d) Hd) as Hir.
  pose proof (idx_bound (InR Free :: c) d ltac:(cbn [length]; lia)) as Hrr. cbn [idx_of bit] in Hrr.
  apply rep_Free in Hrep as [Hi Hq]. split_and!.
  - rewrite step_down by done. unfold alloc_down, at_node. ok_rw (get_tree_ok _ _ Hw Hir). rewrite Hi.
    unfold fits in Hfits. rewrite Hfits. ok_rw (set_tree_ok _ _ NODE_SPLIT Hw Hir).
    unfold LEFT_CHILD, RIGHT_CHILD. rewrite !wrap_small by lia.
    replace (idx_of c * 2) with (2 * idx_of c + 0) by lia.
    replace (2 * idx_of c + 0 + 1) with (2 * idx_of c + 1) by lia.
    ok_rw (set_tree_ok _ (2 * idx_of c + 0) NODE_FREE (wf_tset _ (idx_of c) NODE_SPLIT Hw) ltac:(lia)).
    ok_rw (set_tree_ok _ (2 * idx_of c + 1) NODE_FREE
      (wf_tset _ (2 * idx_of c + 0) NODE_FREE (wf_tset _ (idx_of c) NODE_SPLIT Hw)) Hrr).
    rewrite bsize_half. done.
  - apply (split_free_child _ (idx_of c) 0); [lia|done|by left].
  - cbn [ctx_rep sib bit]. split_and!.
    + apply (split_free_child _ (idx_of c) 1); [lia|done|by right].
    + unfold root1, with_tree. cbn [ia_buddy_tree]. unfold split_mem.
      rewrite 2!item_tset_ne, item_tset_eq by lia. done.
    + eapply ctx_frame; [|exact Hctx]. intros j Hj1 Hj. unfold root1, with_tree, split_mem. cbn [ia_buddy_tree].
      rewrite !item_tset_ne; [done|lia|done| |lia|done| |lia|done|]; intros <-; apply Hj;
        [apply under_refl|eapply (under_child 0); [auto|apply under_refl]
        |eapply (under_child 1); [auto|apply under_refl]].
Qed.

Definition steps_bound (d : nat) : Z := 4 * 2 ^ Z.of_nat d.

Lemma dfs_some d : ∀ c t root ptr t' off e,
  wf_mem (mem root) → (length c + d = 18)%nat → rep (mem root) (idx_of c) d t →
  ctx_rep (mem root) c d (full t) → bt_alloc d size t = Some (t', off, e) →
  size ≤ bsize d → 0 ≤ ptr → ptr + bsize d < 2 ^ 64 →
  ∃ k mem', Z.of_nat k ≤ steps_bound d ∧
    iterate (alloc_step size) k (at_node c d ptr root) =
      Ok (inr (ptr + off, IntAlloc (ia_entry root) (u64 (ia_free_mem root - bsize e)) mem')) ∧
    wf_mem mem' ∧ rep mem' (idx_of c) d t' ∧ ctx_rep mem' c d (full t').
Proof.
  unfold steps_bound. induction d as [|d IH]; intros c t root ptr t' off e Hw Hd Hrep Hctx Hal Hsz Hptr Hlt;
    pose proof (idx_bound c _ Hd) as Hir.
  - destruct t as [| |l r]; [|done|done]. cbn [bt_alloc] in Hal. injection Hal as <- <- <-.
    destruct (take_node_ok c 0 ptr root Hw Hd Hrep Hctx) as (mem' & Htake & Hw' & Hr' & Hc').
    exists 1%nat, mem'. split; [simpl; lia|]. split; [|done]. rewrite iterate_1, Z.add_0_r. unfold alloc_step, at_node.
    rewrite andb_false_r, (is_leaf_at _ 0 Hd), bool_decide_eq_true_2 by done.
    ok_rw (get_tree_ok _ _ Hw Hir). rewrite (rep_item _ _ _ _ Hrep). exact Htake.
  - assert (2 ^ Z.of_nat (S d) = 2 * 2 ^ Z.of_nat d) as Hpow by (rewrite Nat2Z.inj_succ, Z.pow_succ_r; lia).
    pose proof (Z.pow_pos_nonneg 2 (Z.of_nat d) ltac:(lia) ltac:(lia)). pose proof (bsize_S d) as HS.
    pose proof (bsize_pos d) as Hpos. destruct t as [| |l r]; cbn [bt_alloc] in Hal; [|done|].
    + destruct (fits (S d) size) eqn:Hfits.
      * injection Hal as <- <- <-.
        destruct (take_node_ok c (S d) ptr root Hw Hd Hrep Hctx) as (mem' & Htake & Hw' & Hr' & Hc').
        exists 1%nat, mem'. split; [lia|]. split; [|done]. rewrite iterate_1, step_down, Z.add_0_r by done.
        unfold alloc_down, at_node. ok_rw (get_tree_ok _ _ Hw Hir). rewrite (rep_item _ _ _ _ Hrep).
        unfold fits in Hfits. rewrite Hfits. exact Htake.
      * destruct (bt_alloc d size Free) as [[[l' o] e']|] eqn:Hl; [|done]. cbn in Hal. injection Hal as <- <- <-.
        destruct (split_free_ok c d ptr root Hw Hd Hrep Hctx Hfits) as (Hstep & Hr1 & Hc1).
        destruct (IH (InL Free :: c) Free (with_tree root (split_mem (mem root) (idx_of c))) ptr l' o e')
          as (k & mem' & Hk & Hit & Hw' & Hr' & Hc'); try done; [cbn [length]; lia|by apply fits_false|lia|].
        exists (S k), mem'. split; [lia|]. split; [by rewrite (iterate_next _ _ _ _ Hstep)|]. split; [done|].
        cbn [ctx_rep sib bit] in Hc'. destruct Hc' as (Hs' & Hi' & Hc'). split.
        -- by apply (rep_split mem' (InL Free) c d l').
        -- cbn [full]. exact Hc'.
    + destruct (full (Split l r)) eqn:Hfull; [done|]. destruct (fits (S d) size) eqn:Hfits; [done|].
      cbn [orb] in Hal. pose proof (rep_item _ _ _ _ Hrep) as Hit0. cbn [state_of full] in Hit0, Hfull.
      rewrite Hfull in Hit0. pose proof (fits_false _ _ Hsz Hfits) as Hsz'.
      destruct Hrep as (_ & Hl & Hr).
      assert (alloc_step size (at_node c (S d) ptr root) = Ok (inl (at_node (InL r :: c) d ptr root))) as Hstep.
      { rewrite step_down by done. unfold alloc_down, at_node. ok_rw (get_tree_ok _ _ Hw Hir). rewrite Hit0.
        unfold fits in Hfits. rewrite Hfits, bsize_half. unfold LEFT_CHILD. rewrite wrap_small by lia.
        cbn [idx_of bit]. by rewrite (Z.mul_comm 2), Z.add_0_r. }
      destruct (bt_alloc d size l) as [[[l' o] e']|] eqn:Hla.
      * injection Hal as <- <- <-.
        destruct (IH (InL r :: c) l root ptr l' o e') as (k & mem' & Hk & Hit & Hw' & Hr' & Hc'); try done;
          [cbn [length]; lia|by cbn [ctx_rep sib bit]; rewrite Hfull|lia|].
        exists (S k), mem'. split; [lia|]. split; [by rewrite (iterate_next _ _ _ _ Hstep)|]. split; [done|].
        cbn [ctx_rep sib bit] in Hc'. destruct Hc' as (Hs' & Hi' & Hc'). split; [|exact Hc'].
        by apply (rep_split mem' (InL r) c d l').
      * destruct (bt_alloc d size r) as [[[r' o] e']|] eqn:Hra; [|done]. cbn in Hal. injection Hal as <- <- <-.
        destruct (dfs_none d (InL r) c l root ptr Hw ltac:(cbn [length]; lia) Hl Hla Hsz' ltac:(cbn [bit]; lia) ltac:(lia))
          as (k1 & Hk1 & Hit1).
        destruct (IH (InR l :: c) r root (ptr + bsize d) r' o e') as (k & mem' & Hk & Hit & Hw' & Hr' & Hc'); try done;
          [cbn [length]; lia| |lia|lia|].
        { cbn [ctx_rep sib bit]. by rewrite (andb_comm (full r)), Hfull. }
        exists (S (k1 + S k)), mem'. split; [lia|]. split.
        { rewrite (iterate_next _ _ _ _ Hstep), iterate_add, Hit1. cbn [mbind outcome_bind].
          rewrite go_up_at by (cbn [length bit]; lia). cbn [bit]. rewrite Z.mul_0_l, Z.sub_0_r.
          rewrite (iterate_next _ _ _ (at_node (InR l :: c) d (ptr + bsize d) root))
            by (rewrite step_up_left by (done || lia); done).
          by rewrite Hit, Z.add_assoc. }
        split; [done|]. cbn [ctx_rep sib bit] in Hc'. destruct Hc' as (Hs' & Hi' & Hc'). split.
        -- by apply (rep_split mem' (InR l) c d r').
        -- cbn [full]. by rewrite andb_comm.
Qed.
End search.

(** ** Allocation and release on the tree *)
Fixpoint free_levels (d : nat) (t : bt) : list nat :=
  match t, d with
  | Free, _ => [d]
  | Split l r, S d' => free_levels d' l ++ free_levels d' r
  | _, _ => []
  end.

Definition before (x y : Z * nat) : Prop := x.1 + bsize x.2 ≤ y.1.

Lemma blocks_range d : ∀ o t x, x ∈ blocks d o t → o ≤ x.1 ∧ x.1 + bsize x.2 ≤ o + bsize d.
Proof.
  induction d as [|d IH]; intros o t x; destruct t as [| |l r]; cbn [blocks];
    try (intros []%not_elem_of_nil); try (intros ->%list_elem_of_singleton; simpl; lia).
  - rewrite bsize_S. pose proof (bsize_pos d).
    intros [Hx|Hx]%elem_of_app; apply IH in Hx; lia.
Qed.

(** The used blocks do not overlap. *)
Lemma blocks_sorted d : ∀ o t, StronglySorted before (blocks d o t).
Proof.
  induction d as [|d IH]; intros o t; destruct t as [| |l r]; cbn [blocks]; try (repeat constructor; done).
  apply StronglySorted_app_2; [|apply IH|apply IH]. intros x y Hx Hy.
  apply blocks_range in Hx, Hy. unfold before. lia.
Qed.

Lemma bt_alloc_Free d size : ∃ x, bt_alloc d size Free = Some x.
Proof.
  induction d as [|d [[[l o] e] IH]]; [by eexists|]. cbn [bt_alloc].
  destruct (fits (S d) size); [by eexists|]. rewrite IH. by eexists.
Qed.

Lemma fits_true d size : fits (S d) size = true → bsize d < size ≤ bsize (S d).
Proof. unfold fits. rewrite bsize_half. intros. lia. Qed.

Lemma full_free_bytes d : ∀ t, full t = true → free_bytes d t = 0.
Proof.
  induction d as [|d IH]; intros [| |l r]; simpl; try done. intros [Hl Hr]%andb_true_iff.
  rewrite !IH by done. lia.
Qed.
Lemma free_bytes_nonneg d : ∀ t, 0 ≤ free_bytes d t ≤ bsize d.
Proof.
  induction d as [|d IH]; intros [| |l r]; cbn [free_bytes]; pose proof (bsize_pos 0); try lia;
    rewrite bsize_S; pose proof (bsize_pos d); try lia. pose proof (IH l). pose proof (IH r). lia.
Qed.

(** A tree with a used block has fewer free bytes. *)
Lemma free_bytes_lt d : ∀ t, bt_wf d t → t ≠ Free → free_bytes d t < bsize d.
Proof.
  induction d as [|d IH]; intros [| |l r] Hwf Hne; cbn [free_bytes]; try done;
    try (pose proof (bsize_pos 0); lia); try (pose proof (bsize_pos (S d)); lia).
  destruct Hwf as (Hl & Hr & Hn). rewrite bsize_S.
  pose proof (free_bytes_nonneg d l). pose proof (free_bytes_nonneg d r).
  destruct (decide (l = Free)) as [->|Hlf]; [|specialize (IH l Hl Hlf); lia].
  assert (r ≠ Free) as Hrf by (intros ->; by apply Hn). specialize (IH r Hr Hrf). lia.
Qed.

(** What an allocation does. *)
Record alloc_effect (d : nat) (size : Z) (t t' : bt) (off : Z) (e : nat) : Prop := {
  ae_level : (e ≤ d)%nat;
  ae_off : 0 ≤ off ∧ off + bsize e ≤ bsize d;
  ae_align : (bsize e | off);
  ae_size : size ≤ bsize e;
  ae_tight : e = 0%nat ∨ bsize e / 2 < size;
  ae_wf : bt_wf d t';
  ae_busy : t' ≠ Free;
  ae_free : free_bytes d t' = free_bytes d t - bsize e;
  ae_blocks : ∀ o, blocks d o t' ≡ₚ (o + off, e) :: blocks d o t;
  ae_source : ∃ e0, e0 ∈ free_levels d t ∧ (e ≤ e0)%nat
}.

Lemma bsize_divide d e : (e ≤ d)%nat → (bsize e | bsize d).
Proof.
  intros He. exists (2 ^ Z.of_nat (d - e)). unfold bsize.
  replace (Z.of_nat d) with (Z.of_nat (d - e) + Z.of_nat e) by lia. rewrite Z.pow_add_r by lia. lia.
Qed.

Lemma bt_alloc_effect d size : ∀ t t' off e,
  bt_wf d t → bt_alloc d size t = Some (t', off, e) → size ≤ bsize d →
  alloc_effect d size t t' off e.
Proof.
  induction d as [|d IH]; intros t t' off e Hwf Hal Hsz.
  - destruct t; try done. cbn [bt_alloc] in Hal. injection Hal as <- <- <-.
    split; cbn [free_bytes blocks]; try done; try lia; [apply Z.divide_0_r| |].
    { intros o. by rewrite Z.add_0_r. }
    exists 0%nat. split; [by left|done].
  - pose proof (bsize_S d) as HS. pose proof (bsize_pos d) as Hpos.
    destruct t as [| |l r]; cbn [bt_alloc] in Hal; [|done|].
    + destruct (fits (S d) size) eqn:Hfits.
      { injection Hal as <- <- <-. apply fits_true in Hfits.
        split; cbn [free_bytes blocks]; try done; try lia; [apply Z.divide_0_r|rewrite bsize_half; lia| |].
        { intros o. by rewrite Z.add_0_r. } { exists (S d). split; [by left|done]. } }
      destruct (bt_alloc d size Free) as [[[l' o'] e']|] eqn:Hl; [|done]. cbn in Hal. injection Hal as <- <- <-.
      destruct (IH Free _ _ _ ltac:(by destruct d) Hl (fits_false _ _ Hsz Hfits)) as [H1 H2 H3 H4 H5 H6 H7 H8 H9 (e0 & He0 & Hle0)].
      split; try done; try lia.
      * cbn [bt_wf]. split_and!; [done|by destruct d|naive_solver].
      * cbn [free_bytes]. rewrite H8. destruct d; cbn [free_bytes]; lia.
      * intros o. cbn [blocks]. rewrite H9. destruct d; done.
      * exists (S d). split; [by left|lia].
    + destruct Hwf as (Hwl & Hwr & Hne).
      destruct (full (Split l r)); [done|]. destruct (fits (S d) size) eqn:Hfits; [done|]. cbn [orb] in Hal.
      destruct (bt_alloc d size l) as [[[l' o'] e']|] eqn:Hl.
      * injection Hal as <- <- <-.
        destruct (IH _ _ _ _ Hwl Hl (fits_false _ _ Hsz Hfits)) as [H1 H2 H3 H4 H5 H6 H7 H8 H9 (e0 & He0 & Hle0)].
        split; try done; try lia.
        -- cbn [bt_wf]. split_and!; [done|done|naive_solver].
        -- cbn [free_bytes]. lia.
        -- intros o. cbn [blocks]. by rewrite H9.
        -- exists e0. split; [|done]. cbn [free_levels]. apply elem_of_app. by left.
      * destruct (bt_alloc d size r) as [[[r' o'] e']|] eqn:Hr; [|done]. cbn in Hal. injection Hal as <- <- <-.
        destruct (IH _ _ _ _ Hwr Hr (fits_false _ _ Hsz Hfits)) as [H1 H2 H3 H4 H5 H6 H7 H8 H9 (e0 & He0 & Hle0)].
        split; try done; try lia.
        -- apply Z.divide_add_r; [by apply bsize_divide|done].
        -- cbn [bt_wf]. split_and!; [done|done|naive_solver].
        -- cbn [free_bytes]. lia.
        -- intros o. cbn [blocks]. rewrite H9, Z.add_assoc. by rewrite <- Permutation_middle.
        -- exists e0. split; [|done]. cbn [free_levels]. apply elem_of_app. by right.
Qed.

(** It only fails when every free block is too small. *)
Lemma free_levels_le d : ∀ t e, e ∈ free_levels d t → (e ≤ d)%nat.
Proof.
  induction d as [|d IH]; intros [| |l r] e; cbn [free_levels];
    try (intros []%not_elem_of_nil); try (by intros ->%list_elem_of_singleton).
  - intros [He|He]%elem_of_app; apply IH in He; lia.
Qed.
Lemma full_no_free d : ∀ t, full t = true → free_levels d t = [].
Proof.
  induction d as [|d IH]; intros [| |l r]; simpl; try done. intros [Hl Hr]%andb_true_iff. by rewrite !IH.
Qed.

Lemma bt_alloc_None d size : ∀ t,
  bt_wf d t → bt_alloc d size t = None → size ≤ bsize d → ∀ e, e ∈ free_levels d t → bsize e < size.
Proof.
  induction d as [|d IH]; intros t Hwf Hal Hsz e He.
  - destruct t; try done. simpl in He. set_solver.
  - destruct t as [| |l r].
    + destruct (bt_alloc_Free (S d) size) as [x Hx]. by rewrite Hx in Hal.
    + simpl in He. set_solver.
    + destruct Hwf as (Hwl & Hwr & _). cbn [bt_alloc] in Hal.
      destruct (full (Split l r)) eqn:Hfull; [rewrite full_no_free in He by done; set_solver|].
      destruct (fits (S d) size) eqn:Hfits.
      * apply fits_true in Hfits. assert ((e ≤ d)%nat) as Hle
          by (apply elem_of_app in He as [He|He]; by apply free_levels_le in He).
        pose proof (bsize_mono _ _ Hle). lia.
      * cbn [orb] in Hal. pose proof (fits_false _ _ Hsz Hfits).
        destruct (bt_alloc d size l) as [[[]]|] eqn:Hl; [done|].
        destruct (bt_alloc d size r) as [[[]]|] eqn:Hr; [done|].
        apply elem_of_app in He as [He|He]; [by eapply (IH l)|by eapply (IH r)].
Qed.

(** The free blocks (offset, level) in the order of their addresses.  The search takes the
    first one that is large enough, from its start. *)
Fixpoint free_blocks (d : nat) (off : Z) (t : bt) : list (Z * nat) :=
  match t, d with
  | Free, _ => [(off, d)]
  | Split l r, S d' => free_blocks d' off l ++ free_blocks d' (off + bsize d') r
  | _, _ => []
  end.

Lemma free_blocks_levels d : ∀ o t, (free_blocks d o t).*2 = free_levels d t.
Proof.
  induction d as [|d IH]; intros o [| |l r]; cbn [free_blocks free_levels]; try done.
  by rewrite fmap_app, !IH.
Qed.

Definition first_fit (size : Z) (l : list (Z * nat)) (off : Z) : Prop :=
  ∃ pre e0 post, l = pre ++ (off, e0) :: post ∧ size ≤ bsize e0 ∧ Forall (λ b, bsize b.2 < size) pre.

Lemma first_fit_app_l size l1 l2 off : first_fit size l1 off → first_fit size (l1 ++ l2) off.
Proof.
  intros (pre & e0 & post & -> & H). exists pre, e0, (post ++ l2). split; [|done]. by rewrite <- app_assoc.
Qed.
Lemma first_fit_app_r size l1 l2 off :
  Forall (λ b : Z * nat, bsize b.2 < size) l1 → first_fit size l2 off → first_fit size (l1 ++ l2) off.
Proof.
  intros Hl (pre & e0 & post & -> & Hsz & Hpre). exists (l1 ++ pre), e0, post. split; [by rewrite <- app_assoc|].
  split; [done|]. by apply Forall_app.
Qed.

Lemma first_fit_find size l off :
  first_fit size l off → ∃ i e0, list_find (λ b, size ≤ bsize b.2) l = Some (i, (off, e0)).
Proof.
  intros (pre & e0 & post & -> & Hsz & Hpre). exists (length pre), e0. apply list_find_Some.
  split; [by apply list_lookup_middle|]. split; [done|]. intros j y Hj Hlt.
  rewrite lookup_app_l in Hj by done. rewrite Forall_lookup in Hpre. specialize (Hpre j y Hj). lia.
Qed.

Lemma small_free_blocks d size o t :
  (∀ e, e ∈ free_levels d t → bsize e < size) → Forall (λ b, bsize b.2 < size) (free_blocks d o t).
Proof.
  intros Hall. apply Forall_forall. intros [x e] Hx. apply Hall. rewrite <- (free_blocks_levels d o).
  apply list_elem_of_fmap. by exists (x, e).
Qed.

Lemma bt_alloc_first_fit d size : ∀ o t t' off e,
  bt_wf d t → bt_alloc d size t = Some (t', off, e) → size ≤ bsize d → first_fit size (free_blocks d o t) (o + off).
Proof.
  assert (∀ d t' off e, bt_alloc d size Free = Some (t', off, e) → off = 0) as Hzero.
  { clear. induction d as [|d IH]; intros t' off e; cbn [bt_alloc]; [by intros [= _ <- _]|].
    destruct (fits (S d) size); [by intros [= _ <- _]|].
    destruct (bt_alloc d size Free) as [[[l o] e0]|] eqn:Hl; [|done]. intros [= _ <- _]. by eapply IH. }
  induction d as [|d IH]; intros o t t' off e Hwf Hal Hsz.
  - destruct t; try done. apply Hzero in Hal as ->. rewrite Z.add_0_r. exists [], 0%nat, []. done.
  - destruct t as [| |l r]; [|done|].
    { apply Hzero in Hal as ->. rewrite Z.add_0_r. by exists [], (S d), []. }
    destruct Hwf as (Hwl & Hwr & _). cbn [bt_alloc] in Hal. cbn [free_blocks].
    destruct (full (Split l r)); [done|]. destruct (fits (S d) size) eqn:Hfits; [done|]. cbn [orb] in Hal.
    pose proof (fits_false _ _ Hsz Hfits) as Hsz'.
    destruct (bt_alloc d size l) as [[[l' o'] e']|] eqn:Hl.
    + injection Hal as <- <- <-. apply first_fit_app_l. by eapply IH.
    + destruct (bt_alloc d size r) as [[[r' o'] e']|] eqn:Hr; [|done]. cbn in Hal. injection Hal as <- <- <-.
      apply first_fit_app_r; [by apply small_free_blocks, bt_alloc_None|].
      rewrite Z.add_assoc. by eapply IH.
Qed.

(** Release: the block found, or none there. *)
Record free_effect (d : nat) (t t' : bt) (off : Z) (e : nat) : Prop := {
  fe_level : (e ≤ d)%nat;
  fe_wf : bt_wf d t';
  fe_free : free_bytes d t' = free_bytes d t + bsize e;
  fe_blocks : ∀ o, blocks d o t ≡ₚ (o + off, e) :: blocks d o t'
}.

Lemma bt_mk_ok d l r :
  bt_wf d l → bt_wf d r →
  bt_wf (S d) (bt_mk l r) ∧ free_bytes (S d) (bt_mk l r) = free_bytes d l + free_bytes d r ∧
  (∀ o, blocks (S d) o (bt_mk l r) = blocks d o l ++ blocks d (o + bsize d) r).
Proof.
  intros Hl Hr. destruct l, r; cbn [bt_mk]; try (split_and!; try done; cbn [bt_wf]; naive_solver).
  split_and!; [done| |intros o; by destruct d]. destruct d; cbn [free_bytes]; rewrite bsize_S; lia.
Qed.

Lemma bt_free_effect d : ∀ t t' off,
  bt_wf d t → bt_free d off t = Some t' → ∃ e, free_effect d t t' off e.
Proof.
  induction d as [|d IH]; intros t t' off Hwf Hf.
  - destruct t; try done. cbn [bt_free] in Hf. destruct (Z.eqb_spec off 0); [|done]. injection Hf as <-.
    exists 0%nat. split; try done. intros o. subst off. by rewrite Z.add_0_r.
  - pose proof (bsize_S d) as HS. destruct t as [| |l r]; cbn [bt_free] in Hf; [done| |].
    { destruct (Z.eqb_spec off 0); [|done]. injection Hf as <-. exists (S d). split; try done.
      intros o. subst off. by rewrite Z.add_0_r. }
    destruct Hwf as (Hwl & Hwr & _). destruct (Z.leb_spec (bsize d) off).
    + destruct (bt_free d (off - bsize d) r) as [r'|] eqn:Hr; [|done]. cbn in Hf. injection Hf as <-.
      destruct (IH _ _ _ Hwr Hr) as (e & [H1 H2 H3 H4]). destruct (bt_mk_ok d l r' Hwl H2) as (Hm1 & Hm2 & Hm3).
      exists e. split; [lia|done| |].
      * rewrite Hm2, H3. cbn [free_bytes]. lia.
      * intros o. rewrite Hm3. cbn [blocks]. rewrite H4. rewrite <- Permutation_middle.
        by replace (o + bsize d + (off - bsize d)) with (o + off) by lia.
    + destruct (bt_free d off l) as [l'|] eqn:Hl; [|done]. cbn in Hf. injection Hf as <-.
      destruct (IH _ _ _ Hwl Hl) as (e & [H1 H2 H3 H4]). destruct (bt_mk_ok d l' r H2 Hwr) as (Hm1 & Hm2 & Hm3).
      exists e. split; [lia|done| |].
      * rewrite Hm2, H3. cbn [free_bytes]. lia.
      * intros o. rewrite Hm3. cbn [blocks]. by rewrite H4.
Qed.

Lemma bt_free_None d : ∀ t off, bt_wf d t → bt_free d off t = None → off ∉ (blocks d 0 t).*1.
Proof.
  assert (∀ d o t, (blocks d o t).*1 = (λ x, o + x) <$> (blocks d 0 t).*1) as Hshift.
  { clear. induction d as [|d IH]; intros o [| |l r]; cbn [blocks]; try done; try (simpl; by rewrite Z.add_0_r).
    rewrite !fmap_app, (IH o), (IH (o + bsize d)), (IH (0 + bsize d)), <- !list_fmap_compose. f_equal.
    apply list_fmap_ext. intros _ x _. unfold compose. lia. }
  induction d as [|d IH]; intros t off Hwf Hf Hin.
  - destruct t; try done; [set_solver|]. cbn [bt_free] in Hf. destruct (Z.eqb_spec off 0); [done|].
    apply list_elem_of_singleton in Hin. done.
  - destruct t as [| |l r]; [set_solver| |].
    { cbn [bt_free] in Hf. destruct (Z.eqb_spec off 0); [done|]. by apply list_elem_of_singleton in Hin. }
    destruct Hwf as (Hwl & Hwr & _). cbn [bt_free] in Hf. cbn [blocks] in Hin. rewrite fmap_app in Hin.
    pose proof (bsize_pos d) as Hpos.
    apply elem_of_app in Hin as [Hin|Hin].
    + destruct (Z.leb_spec (bsize d) off).
      { apply list_elem_of_fmap in Hin as (x & -> & Hx). apply blocks_range in Hx. pose proof (bsize_pos x.2). lia. }
      destruct (bt_free d off l) eqn:Hl; [done|]. by apply (IH l off).
    + rewrite Hshift in Hin. apply list_elem_of_fmap in Hin as (y & -> & Hy).
      destruct (Z.leb_spec (bsize d) (0 + bsize d + y)).
      * replace (0 + bsize d + y - bsize d) with y in Hf by lia.
        destruct (bt_free d y r) eqn:Hr; [done|]. by apply (IH r y).
      * apply list_elem_of_fmap in Hy as (x & -> & Hx). apply blocks_range in Hx. lia.
Qed.

(** ** The search of internal_free *)
Lemma free_step_down m ptr_dest c d ptr state :
  wf_mem m → (length c + S d = 18)%nat → 0 ≤ ptr → ptr + bsize (S d) < 2 ^ 64 →
  (ptr =? ptr_dest) && bool_decide (state = NODE_USED) = false →
  free_step m ptr_dest (idx_of c, bsize (S d), ptr, state) =
  let b := if bsize d <=? ptr_dest - ptr then 1 else 0 in
  Ok (inl (2 * idx_of c + b, bsize d, ptr + b * bsize d, item m (2 * idx_of c + b))).
Proof.
  intros Hw Hd Hptr Hlt Hstop. pose proof (idx_bound c (S d) Hd) as Hir.
  pose proof (bsize_S d) as HS. pose proof (bsize_pos d) as Hpos.
  pose proof (idx_bound (InR Free :: c) d ltac:(cbn [length]; lia)) as Hrr. cbn [idx_of bit] in Hrr.
  unfold free_step. rewrite Hstop, (is_leaf_at c (S d) Hd), bool_decide_eq_false_2 by done.
  cbv zeta. rewrite bsize_half. unfold LEFT_CHILD, RIGHT_CHILD. rewrite !wrap_small by lia.
  destruct (Z.leb_spec (ptr + bsize d) ptr_dest), (Z.leb_spec (bsize d) (ptr_dest - ptr)); try lia.
  - replace (idx_of c * 2 + 1) with (2 * idx_of c + 1) by lia. ok_rw (get_tree_ok m _ Hw Hrr).
    by rewrite Z.mul_1_l.
  - replace (idx_of c * 2) with (2 * idx_of c + 0) by lia.
    ok_rw (get_tree_ok m (2 * idx_of c + 0) Hw ltac:(lia)). by replace (ptr + 0 * bsize d) with ptr by lia.
Qed.

(** The context of the child the search enters. *)
Definition step_side (b : Z) (t : bt) : side := if b =? 1 then InR t else InL t.

(** Below a block that is not split there is no used node. *)
Lemma free_stale m ptr_dest d : ∀ c ptr state,
  wf_mem m → (length c + d = 18)%nat → 0 ≤ ptr → ptr + bsize d < 2 ^ 64 → quiet m (idx_of c) →
  (ptr =? ptr_dest) && bool_decide (state = NODE_USED) = false →
  iterate (free_step m ptr_dest) (S d) (idx_of c, bsize d, ptr, state) = Fail ErrorExit.
Proof.
  induction d as [|d IH]; intros c ptr state Hw Hd Hptr Hlt Hq Hstop.
  - cbn [iterate]. unfold free_step. by rewrite Hstop, (is_leaf_at c 0 Hd), bool_decide_eq_true_2.
  - pose proof (bsize_S d) as HS. pose proof (bsize_pos d) as Hpos. pose proof (idx_of_pos c) as Hc.
    rewrite (iterate_next _ _ _ _ (free_step_down m ptr_dest c d ptr state Hw Hd Hptr Hlt Hstop)).
    set (b := if bsize d <=? ptr_dest - ptr then 1 else 0).
    assert (b = 0 ∨ b = 1) as Hb by (unfold b; destruct (_ <=? _); auto).
    replace (2 * idx_of c + b) with (idx_of (step_side b Free :: c))
      by (destruct Hb as [-> | ->]; done).
    assert (item m (idx_of (step_side b Free :: c)) ≠ NODE_USED) as Hchild.
    { apply Hq; destruct Hb as [-> | ->]; cbn [idx_of step_side bit Z.eqb Pos.eqb]; try lia;
        [apply (under_child 0)|apply (under_child 1)]; auto; apply under_refl. }
    apply IH; try done; try (destruct Hb as [-> | ->]; cbn [length]; lia).
    + intros j Hj Hne. apply Hq.
      * destruct Hb as [-> | ->]; cbn [idx_of step_side bit Z.eqb Pos.eqb] in Hj; apply under_child in Hj; auto.
      * apply under_le in Hj; [|apply idx_of_pos]. cbn [idx_of] in Hj.
        pose proof (bit_range (step_side b Free)). lia.
    + rewrite bool_decide_eq_false_2 by done. apply andb_false_r.
Qed.

Lemma state_used t : bool_decide (state_of t = NODE_USED) = (match t with Used => true | _ => false end).
Proof. destruct t as [| |l r]; simpl; try done. by destruct (full l && full r). Qed.

(** The children of a split node, and what the search does there. *)
Lemma free_split m ptr_dest c d ptr l r :
  wf_mem m → (length c + S d = 18)%nat → 0 ≤ ptr → ptr + bsize (S d) < 2 ^ 64 →
  rep m (idx_of c) (S d) (Split l r) →
  free_step m ptr_dest (idx_of c, bsize (S d), ptr, state_of (Split l r)) =
    (if bsize d <=? ptr_dest - ptr
     then Ok (inl (idx_of (InR l :: c), bsize d, ptr + bsize d, state_of r))
     else Ok (inl (idx_of (InL r :: c), bsize d, ptr, state_of l))).
Proof.
  intros Hw Hd Hptr Hlt (_ & Hl & Hr). rewrite free_step_down by (done || by rewrite state_used, andb_false_r).
  destruct (bsize d <=? ptr_dest - ptr); cbv zeta.
  - by rewrite (rep_item _ _ _ _ Hr), Z.mul_1_l.
  - rewrite (rep_item _ _ _ _ Hl). by replace (ptr + 0 * bsize d) with ptr by lia.
Qed.

Lemma free_none m d : ∀ c t off ptr,
  wf_mem m → (length c + d = 18)%nat → 0 ≤ ptr → ptr + bsize d < 2 ^ 64 →
  rep m (idx_of c) d t → bt_free d off t = None →
  iterate (free_step m (ptr + off)) (S d) (idx_of c, bsize d, ptr, state_of t) = Fail ErrorExit.
Proof.
  induction d as [|d IH]; intros c t off ptr Hw Hd Hptr Hlt Hrep Hf;
    (destruct t as [| |l r]; [apply rep_Free in Hrep as [_ Hq]|apply rep_Used in Hrep as [_ Hq]|]);
    try (apply free_stale; try done; rewrite state_used; apply andb_false_r);
    try (apply free_stale; try done; cbn [bt_free] in Hf; destruct (Z.eqb_spec off 0); [done|];
         rewrite state_used, andb_true_r; lia).
  - by destruct Hrep.
  - pose proof (bsize_S d) as HS. pose proof (bsize_pos d) as Hpos.
    cbn [bt_free] in Hf. pose proof (free_split m (ptr + off) c d ptr l r Hw Hd Hptr Hlt Hrep) as Hst.
    destruct Hrep as (_ & Hl & Hr). replace (ptr + off - ptr) with off in Hst by lia.
    destruct (bsize d <=? off); rewrite (iterate_next _ _ _ _ Hst).
    + replace (ptr + off) with (ptr + bsize d + (off - bsize d)) by lia.
      apply IH; try done; try (cbn [length]; lia).
      destruct (bt_free d (off - bsize d) r); done.
    + apply IH; try done; try (cbn [length]; lia). destruct (bt_free d off l); done.
Qed.

Lemma free_some m d : ∀ c t off ptr t',
  wf_mem m → (length c + d = 18)%nat → 0 ≤ ptr → ptr + bsize d < 2 ^ 64 →
  rep m (idx_of c) d t → ctx_rep m c d (full t) → bt_wf d t → bt_free d off t = Some t' →
  ∃ j e m', 1 ≤ j < 2 ^ 19 ∧
    iterate (free_step m (ptr + off)) (S d) (idx_of c, bsize d, ptr, state_of t) = Ok (inr (j, bsize e)) ∧
    coalesce_free_nodes (tset m j NODE_FREE) j = Ok m' ∧ wf_mem m' ∧ rep m' 1 TOP (plug c t') ∧
    bt_wf d t' ∧ free_bytes d t' = free_bytes d t + bsize e.
Proof.
  induction d as [|d IH]; intros c t off ptr t' Hw Hd Hptr Hlt Hrep Hctx Hwf Hf;
    pose proof (idx_bound c _ Hd) as Hir.
  all: destruct t as [| |l r]; [done| |].
  all: try (cbn [bt_free] in Hf; destruct (Z.eqb_spec off 0) as [->|]; [injection Hf as <-|done];
    match goal with |- context [bsize ?e] =>
      destruct (coalesce_free_iterate c (tset m (idx_of c) NODE_FREE) e true) as (m' & Hit & Hw' & Hr');
      [done|done|apply rep_Used in Hrep as [_ Hq]; apply rep_Free; split; [apply item_tset_eq; lia|];
        intros j Hj Hne; pose proof (under_le (idx_of c) j ltac:(lia) Hj); rewrite item_tset_ne by lia; by apply Hq
      |eapply ctx_frame; [|exact Hctx]; intros j Hj1 Hj; apply item_tset_ne; [lia|done|]; intros <-;
        apply Hj, under_refl|];
      exists (idx_of c), e, m'; split; [done|]; split; [|split;
        [apply (while_loop_done _ 7 _ _ _ Hit); change (2 ^ 7)%nat with 128%nat; lia|by split_and!]];
      apply iterate_stop; unfold free_step; rewrite Z.add_0_r, Z.eqb_refl; done end).
  - by destruct Hwf.
  - pose proof (bsize_S d) as HS. pose proof (bsize_pos d) as Hpos.
    cbn [bt_free] in Hf. pose proof (free_split m (ptr + off) c d ptr l r Hw Hd Hptr Hlt Hrep) as Hst.
    pose proof (rep_item _ _ _ _ Hrep) as Hi. destruct Hrep as (_ & Hl & Hr). destruct Hwf as (Hwl & Hwr & _).
    replace (ptr + off - ptr) with off in Hst by lia. cbn [full] in Hctx.
    destruct (bsize d <=? off).
    + destruct (bt_free d (off - bsize d) r) as [r'|] eqn:Hfr; [|done]. cbn in Hf. injection Hf as <-.
      destruct (IH (InR l :: c) r (off - bsize d) (ptr + bsize d) r') as (j & e & m' & Hj & Hit & Hco & Hw' & Hr' & Hwf' & Hb);
        try done; try (cbn [length]; lia).
      { cbn [ctx_rep sib bit]. rewrite (andb_comm (full r)). done. }
      exists j, e, m'. destruct (bt_mk_ok d l r' Hwl Hwf') as (Hm1 & Hm2 & _).
      split; [done|]. split; [|split_and!; try done; rewrite Hm2, Hb; cbn [free_bytes]; lia].
      rewrite (iterate_next _ _ _ _ Hst). by replace (ptr + off) with (ptr + bsize d + (off - bsize d)) by lia.
    + destruct (bt_free d off l) as [l'|] eqn:Hfl; [|done]. cbn in Hf. injection Hf as <-.
      destruct (IH (InL r :: c) l off ptr l') as (j & e & m' & Hj & Hit & Hco & Hw' & Hr' & Hwf' & Hb);
        try done; try (cbn [length]; lia).
      exists j, e, m'. destruct (bt_mk_ok d l' r Hwf' Hwr) as (Hm1 & Hm2 & _).
      split; [done|]. split; [|split_and!; try done; rewrite Hm2, Hb; cbn [free_bytes]; lia].
      by rewrite (iterate_next _ _ _ _ Hst).
Qed.
