(* ===== verification/IntAllocProps.v ===== *)
(** * IntAllocProps: what internal_alloc and internal_free promise

    [ia_rep] says that an allocator represents a tree of blocks.  The theorems state
    what the operations do to the blocks handed out: they are disjoint, aligned and
    inside the memory, a request gets the first free block that is large enough, and
    everything freed merges back. *)
From Stdlib Require Import ZArith Lia.
From stdpp Require Import base option numbers list sorting gmap.
From S2P Require Import Prelude.
From S2P Require Import CArray.
From S2P Require Import ContainerLL.
From S2P Require Import InternalAllocator.
From S2P Require Import IntAllocTree.

(** ** The allocator and its tree *)
Definition mem_base (addr : Z) : Z := addr + MEMORY_OFFSET.

Lemma CHUNK_TOP : INTERNAL_ALLOC_CHUNK_SIZE_BYTES = bsize TOP.
Proof. by rewrite bsize_TOP. Qed.
Lemma CHUNK_HALF : INTERNAL_ALLOC_CHUNK_SIZE_BYTES / 2 = bsize HALF.
Proof. by rewrite bsize_HALF. Qed.

Record ia_rep (addr : Z) (ia : int_alloc_t) (t : bt) : Prop := {
  iar_mem : wf_mem (ia_buddy_tree ia);
  iar_rep : rep (ia_buddy_tree ia) 1 TOP t;
  iar_wf : bt_wf TOP t;
  iar_free : ia_free_mem ia = free_bytes TOP t;
  iar_addr : 0 < addr ∧ addr + SIZEOF_INT_ALLOC < 2 ^ 64
}.

Lemma mem_base_range addr ia t :
  ia_rep addr ia t → 0 < mem_base addr ∧ mem_base addr + bsize TOP < 2 ^ 64.
Proof.
  intros [_ _ _ _ Ha]. rewrite bsize_TOP. unfold mem_base. revert Ha.
  change SIZEOF_INT_ALLOC with 8519712. change MEMORY_OFFSET with 131104. lia.
Qed.

(** A fresh mapping: internal_allocator_init turns it into one free block. *)
Lemma internal_allocator_init_ok addr :
  0 < addr → addr + SIZEOF_INT_ALLOC < 2 ^ 64 →
  ∃ ia, internal_allocator_init addr ia_zeroed = Ok ia ∧ ia_rep addr ia Free ∧
        ia_entry ia = LLEntry 0 0 addr.
Proof.
  intros Ha Hlt. unfold internal_allocator_init.
  assert (awrite (ia_buddy_tree ia_zeroed) 0 (enum_code NODE_FREE) =
          Ok (tset (ia_buddy_tree ia_zeroed) 1 NODE_FREE)) as Hw by reflexivity.
  ok_rw Hw. eexists. split; [reflexivity|]. split; [|done].
  assert (∀ j, 1 ≤ j → j ≠ 1 → item (tset (ia_buddy_tree ia_zeroed) 1 NODE_FREE) j = NODE_FULL) as Hrest.
  { intros j Hj Hne. rewrite item_tset_ne by lia. unfold eitem. cbn [ia_buddy_tree ia_zeroed].
    by rewrite pitem_amake_0. }
  split; cbn [ia_buddy_tree ia_free_mem]; try done; [|apply CHUNK_TOP].
  apply (rep_Free _ 1 TOP). split; [by apply item_tset_eq|]. intros j Hj Hne.
  apply under_le in Hj; [|lia]. by rewrite Hrest by lia.
Qed.

Lemma free_level_bytes d : ∀ t e, e ∈ free_levels d t → bsize e ≤ free_bytes d t.
Proof.
  induction d as [|d IH]; intros [| |l r] e; cbn [free_levels free_bytes];
    try (intros []%not_elem_of_nil); try (by intros ->%list_elem_of_singleton).
  pose proof (free_bytes_nonneg d l). pose proof (free_bytes_nonneg d r).
  intros [He|He]%elem_of_app; apply IH in He; lia.
Qed.

(** Requests over half of the memory only work on a tree that is not split. *)
Definition size_ok (size : Z) (ia : int_alloc_t) (t : bt) : Prop :=
  0 < size ∧ (size ≤ bsize HALF ∨ t = Free ∨ ia_free_mem ia < size).

Lemma bt_alloc_split_None d size l r :
  bt_alloc (S d) size (Split l r) = None → full (Split l r) = false → fits (S d) size = false →
  bt_alloc d size l = None ∧ bt_alloc d size r = None.
Proof.
  cbn [bt_alloc]. intros Hal Hf Hfit. rewrite Hf, Hfit in Hal. cbn [orb] in Hal.
  destruct (bt_alloc d size l) as [[[]]|]; [done|]. by destruct (bt_alloc d size r) as [[[]]|].
Qed.

Lemma internal_alloc_ok addr ia t size :
  ia_rep addr ia t → size_ok size ia t →
  (∃ t' off e ia', internal_alloc addr ia size = Ok (mem_base addr + off, ia') ∧
     ia_rep addr ia' t' ∧ ia_entry ia' = ia_entry ia ∧ alloc_effect TOP size t t' off e ∧
     bt_alloc TOP size t = Some (t', off, e)) ∨
  (internal_alloc addr ia size = Ok (0, ia) ∧ ∀ e, e ∈ free_levels TOP t → bsize e < size).
Proof.
  intros Hrep [Hpos Hsz]. pose proof Hrep as [Hw Hr Hwf Hfree Haddr].
  destruct (mem_base_range _ _ _ Hrep) as [Hb0 Hb].
  unfold internal_alloc. destruct (Z.ltb_spec (ia_free_mem ia) size) as [Hlt|Hge].
  { right. split; [done|]. intros e He. apply free_level_bytes in He. lia. }
  pose proof (free_bytes_nonneg TOP t) as Hfb.
  fold (mem_base addr). rewrite wrap_small by lia.
  rewrite CHUNK_TOP. change (AllocSt 1 (bsize TOP) (mem_base addr) DOWN ia)
    with (at_node [] TOP (mem_base addr) ia).
  destruct (bt_alloc TOP size t) as [[[t' off] e]|] eqn:Hal.
  - left. destruct (dfs_some size TOP [] t ia (mem_base addr) t' off e) as (k & m' & Hk & Hit & Hw' & Hr' & _);
      try done; try lia; [apply TOP_eq|].
    assert (alloc_effect TOP size t t' off e) as Heff by (apply bt_alloc_effect; [done..|lia]).
    pose proof (ae_free _ _ _ _ _ _ Heff) as Hf'. pose proof (free_bytes_nonneg TOP t').
    pose proof (bsize_pos e). rewrite bsize_TOP in Hfb.
    exists t', off, e. eexists. split; [|split; [|split; [|split; [exact Heff|done]]]].
    + apply (while_loop_done _ 47 _ _ _ Hit). apply Nat2Z.inj_le. rewrite Nat2Z.inj_pow.
      unfold steps_bound in Hk. change (Z.of_nat 2 ^ Z.of_nat 47) with (2 ^ 47).
      rewrite TOP_eq in Hk. change (4 * 2 ^ Z.of_nat 18) with 1048576 in Hk. lia.
    + split; cbn [ia_buddy_tree ia_free_mem]; try done; [apply Heff|].
      rewrite Hf', Hfree. apply wrap_small. lia.
    + done.
  - right. split; [|apply bt_alloc_None; [done..|lia]].
    destruct t as [| |l r]; [destruct (bt_alloc_Free TOP size) as [x Hx]; by rewrite Hx in Hal
                            |cbn [free_bytes] in Hfree; lia|].
    destruct (full (Split l r)) eqn:Hfull; [rewrite (full_free_bytes TOP _ Hfull) in Hfree; lia|].
    assert (size ≤ bsize HALF) as Hsz' by (destruct Hsz as [|[|]]; [done|done|lia]).
    assert (fits TOP size = false) as Hfits.
    { unfold fits. rewrite bsize_half. by rewrite (proj2 (Z.ltb_ge _ _) Hsz'). }
    destruct (bt_alloc_split_None HALF size l r Hal Hfull Hfits) as [Hl Hrn].
    destruct (split_none size HALF [] l r ia (mem_base addr)) as (k & Hk & Hit);
      try done; [apply dfs_none|apply TOP_eq|lia|].
    apply (while_loop_done _ 47 (k + 1)).
    + rewrite iterate_add, Hit. reflexivity.
    + apply Nat2Z.inj_le. rewrite Nat2Z.inj_pow. change (Z.of_nat 2 ^ Z.of_nat 47) with (2 ^ 47).
      rewrite HALF_eq in Hk. change (8 * 2 ^ Z.of_nat 17 - 4) with 1048572 in Hk. lia.
Qed.

Lemma internal_free_ok addr ia t ptr :
  ia_rep addr ia t →
  match bt_free TOP (ptr - mem_base addr) t with
  | Some t' => ∃ ia' e, internal_free addr ia ptr = Ok ia' ∧ ia_rep addr ia' t' ∧
                 ia_entry ia' = ia_entry ia ∧ free_effect TOP t t' (ptr - mem_base addr) e
  | None => internal_free addr ia ptr = Fail ErrorExit
  end.
Proof.
  intros Hrep. pose proof Hrep as [Hw Hr Hwf Hfree Haddr]. destruct (mem_base_range _ _ _ Hrep) as [Hb0 Hb].
  unfold internal_free. ok_rw (get_tree_ok _ 1 Hw ltac:(lia)). rewrite (rep_item _ _ _ _ Hr).
  fold (mem_base addr). rewrite wrap_small by (pose proof (bsize_pos TOP); lia).
  set (off := ptr - mem_base addr). replace ptr with (mem_base addr + off) by (unfold off; lia).
  rewrite CHUNK_TOP.
  assert ((S TOP ≤ 2 ^ 7)%nat) as H7 by (change (2 ^ 7)%nat with 128%nat; pose proof TOP_eq; lia).
  destruct (bt_free TOP off t) as [t'|] eqn:Hf.
  - destruct (bt_free_effect TOP t t' off Hwf Hf) as [e Heff].
    destruct (free_some (ia_buddy_tree ia) TOP [] t off (mem_base addr) t') as (j & e' & m' & Hj & Hit & Hco & Hw' & Hr' & Hwf' & Hby);
      try done; [apply TOP_eq|lia|].
    assert (while_loop (free_step (ia_buddy_tree ia) (mem_base addr + off)) 7
              (1, bsize TOP, mem_base addr, state_of t) = Ok (j, bsize e')) as Hloop
      by (eapply while_loop_done; [exact Hit|exact H7]).
    rewrite Hloop. cbn [mbind outcome_bind]. ok_rw (set_tree_ok _ _ NODE_FREE Hw Hj). ok_rw Hco.
    eexists _, e. split; [reflexivity|]. split; [|done].
    pose proof (free_bytes_nonneg TOP t). pose proof (free_bytes_nonneg TOP t') as Ht'.
    rewrite bsize_TOP in Ht'.
    split; cbn [ia_buddy_tree ia_free_mem]; try done. rewrite Hfree, Hby. apply wrap_small. lia.
  - pose proof (free_none (ia_buddy_tree ia) TOP [] t off (mem_base addr) Hw TOP_eq ltac:(lia) Hb Hr Hf) as Hit.
    assert (while_loop (free_step (ia_buddy_tree ia) (mem_base addr + off)) 7
              (1, bsize TOP, mem_base addr, state_of t) = Fail ErrorExit) as Hloop
      by (eapply while_loop_fail; [exact Hit|exact H7]).
    by rewrite Hloop.
Qed.

(** ** The blocks handed out

    A block is its first address and its length. *)
Definition abs_blocks (base : Z) (t : bt) : list (Z * Z) :=
  (λ x, (base + x.1, bsize x.2)) <$> blocks TOP 0 t.

Lemma sorted_apart (l : list (Z * nat)) l1 x l2 :
  StronglySorted before l → l = l1 ++ x :: l2 → Forall (λ y, before x y ∨ before y x) (l1 ++ l2).
Proof.
  intros Hs ->. apply StronglySorted_app in Hs as (H1 & _ & H2). apply Forall_app. split.
  - apply Forall_forall. intros y Hy. right. apply H1; [done|by left].
  - apply StronglySorted_inv in H2 as [_ H2]. eapply Forall_impl; [exact H2|]. by left.
Qed.

Lemma blocks_apart base t t' p n :
  abs_blocks base t' ≡ₚ (p, n) :: abs_blocks base t → Forall (apart (p, n)) (abs_blocks base t).
Proof.
  intros Hperm. assert ((p, n) ∈ abs_blocks base t') as Hin by (rewrite Hperm; by left).
  unfold abs_blocks in Hin. apply list_elem_of_fmap in Hin as (x & Hx & Hin).
  apply list_elem_of_split in Hin as (l1 & l2 & Hsplit).
  pose proof (sorted_apart _ l1 x l2 (blocks_sorted TOP 0 t') Hsplit) as Hap.
  unfold abs_blocks at 1 in Hperm. rewrite Hsplit, fmap_app, fmap_cons, <- Hx in Hperm.
  symmetry in Hperm. apply Permutation_cons_app_inv in Hperm. rewrite <- fmap_app in Hperm.
  rewrite Hperm. apply Forall_fmap. eapply Forall_impl; [exact Hap|].
  injection Hx as -> ->. intros [o e]. unfold before, apart. simpl. lia.
Qed.

Lemma no_blocks_free d : ∀ o t, bt_wf d t → blocks d o t = [] → t = Free.
Proof.
  induction d as [|d IH]; intros o [| |l r] Hwf Hb; cbn [blocks] in Hb; try done.
  destruct Hwf as (Hl & Hr & Hne). apply app_nil in Hb as [Hbl Hbr].
  destruct Hne. split; [by eapply IH|by eapply IH].
Qed.

Lemma blocks_bytes d : ∀ o t, bt_wf d t →
  free_bytes d t + sumZ ((λ x, bsize x.2) <$> blocks d o t) = bsize d.
Proof.
  induction d as [|d IH]; intros o [| |l r] Hwf; cbn [blocks free_bytes]; try (simpl; lia); [by destruct Hwf|].
  destruct Hwf as (Hl & Hr & _). rewrite fmap_app, sumZ_app, bsize_S.
  specialize (IH o l Hl) as H1. specialize (IH (o + bsize d) r Hr) as H2. lia.
Qed.

(** The least level that holds the request is below every other one that does. *)
Lemma tight_level e e0 size : (e = 0%nat ∨ bsize e / 2 < size) → size ≤ bsize e0 → (e ≤ e0)%nat.
Proof.
  intros [->|He] H0; [lia|]. destruct e as [|e]; [lia|]. rewrite bsize_half in He.
  destruct (le_lt_dec (S e) e0) as [|Hlt]; [done|]. pose proof (bsize_mono e0 e ltac:(lia)). lia.
Qed.

(** Client operations, and what they do to the live blocks. *)
Inductive ia_op : Type := IAlloc (size : Z) | IFree (ptr : Z).
Definition ia_exec (addr : Z) (ia : int_alloc_t) (op : ia_op) : outcome (Z * int_alloc_t) :=
  match op with
  | IAlloc size => internal_alloc addr ia size
  | IFree ptr => ia ← internal_free addr ia ptr; Ok (0, ia)
  end.
Fixpoint ia_exec_all (addr : Z) (ia : int_alloc_t) (ops : list ia_op) : outcome (list Z * int_alloc_t) :=
  match ops with
  | [] => Ok ([], ia)
  | op :: ops =>
      '(r, ia) ← ia_exec addr ia op; '(rs, ia) ← ia_exec_all addr ia ops; Ok (r :: rs, ia)
  end.

Inductive ia_step (base : Z) : list (Z * Z) → ia_op → Z → list (Z * Z) → Prop :=
  | ia_got live size p n :
      size ≤ n → n ≤ Z.max 32 (2 * size) → (n | p - base) →
      base ≤ p → p + n ≤ base + INTERNAL_ALLOC_CHUNK_SIZE_BYTES → Forall (apart (p, n)) live →
      ia_step base live (IAlloc size) p ((p, n) :: live)
  | ia_null live size : ia_step base live (IAlloc size) 0 live
  | ia_freed live p n live' : live ≡ₚ (p, n) :: live' → ia_step base live (IFree p) 0 live'.

Inductive ia_trace (base : Z) : list (Z * Z) → list ia_op → outcome (list Z * list (Z * Z)) → Prop :=
  | iat_nil live : ia_trace base live [] (Ok ([], live))
  | iat_cons live op r live1 ops res :
      ia_step base live op r live1 → ia_trace base live1 ops res →
      ia_trace base live (op :: ops) ('(rs, l) ← res; Ok (r :: rs, l))
  | iat_bad live p ops :
      (p ∉ live.*1) → ia_trace base live (IFree p :: ops) (Fail ErrorExit).

Definition op_ok (op : ia_op) : Prop :=
  match op with IAlloc size => 0 < size ≤ INTERNAL_ALLOC_CHUNK_SIZE_BYTES / 2 | IFree _ => True end.

Lemma abs_blocks_starts base t p : p ∈ (abs_blocks base t).*1 ↔ p - base ∈ (blocks TOP 0 t).*1.
Proof.
  unfold abs_blocks. rewrite <- list_fmap_compose, !list_elem_of_fmap. split.
  - intros (x & -> & Hx). exists x. split; [simpl; lia|done].
  - intros (x & Hp & Hx). exists x. split; [simpl; lia|done].
Qed.

Lemma ia_exec_step addr ia t live op :
  ia_rep addr ia t → live ≡ₚ abs_blocks (mem_base addr) t → op_ok op →
  (∃ r ia' t' live', ia_exec addr ia op = Ok (r, ia') ∧ ia_rep addr ia' t' ∧
     ia_step (mem_base addr) live op r live' ∧ live' ≡ₚ abs_blocks (mem_base addr) t') ∨
  (∃ p, op = IFree p ∧ ia_exec addr ia op = Fail ErrorExit ∧ p ∉ live.*1).
Proof.
  intros Hrep Hlive Hop. destruct op as [size|p]; simpl.
  - left. cbn [op_ok] in Hop. change (INTERNAL_ALLOC_CHUNK_SIZE_BYTES / 2) with 4194304 in Hop.
    destruct (internal_alloc_ok addr ia t size Hrep) as
      [(t' & off & e & ia' & Hal & Hrep' & _ & Heff & _)|[Hal _]].
    { split; [lia|]. left. rewrite bsize_HALF. lia. }
    + exists (mem_base addr + off), ia', t', ((mem_base addr + off, bsize e) :: live).
      assert (abs_blocks (mem_base addr) t' ≡ₚ (mem_base addr + off, bsize e) :: abs_blocks (mem_base addr) t) as Hperm.
      { unfold abs_blocks. rewrite (ae_blocks _ _ _ _ _ _ Heff 0), fmap_cons. cbn [fst snd]. by rewrite Z.add_0_l. }
      split; [done|]. split; [done|]. split; [|by rewrite Hlive, Hperm].
      destruct Heff as [He Hoff Hdiv Hsz Htight _ _ _ _ _]. constructor.
      * done.
      * destruct Htight as [->|Ht]; [change (bsize 0) with 32; lia|].
        destruct e as [|e]; [change (bsize 0) with 32; lia|]. rewrite bsize_half in Ht. rewrite bsize_S. lia.
      * by replace (mem_base addr + off - mem_base addr) with off by lia.
      * lia.
      * change INTERNAL_ALLOC_CHUNK_SIZE_BYTES with 8388608; rewrite bsize_TOP in Hoff. lia.
      * rewrite Hlive. by eapply blocks_apart.
    + exists 0, ia, t, live. split_and!; try done. constructor.
  - pose proof (internal_free_ok addr ia t p Hrep) as Hfree.
    destruct (bt_free TOP (p - mem_base addr) t) as [t'|] eqn:Hf.
    + left. destruct Hfree as (ia' & e & Hfr & Hrep' & _ & Heff).
      exists 0, ia', t', (abs_blocks (mem_base addr) t'). split; [by rewrite Hfr|]. split; [done|]. split; [|done].
      apply (ia_freed _ _ p (bsize e)). rewrite Hlive. unfold abs_blocks.
      rewrite (fe_blocks _ _ _ _ _ Heff 0), fmap_cons. cbn [fst snd].
      by replace (mem_base addr + (0 + (p - mem_base addr))) with p by lia.
    + right. exists p. split; [done|]. split; [by rewrite Hfree|].
      rewrite Hlive, abs_blocks_starts. apply bt_free_None; [apply Hrep|done].
Qed.

Lemma ia_exec_all_trace addr ops : ∀ ia t live,
  ia_rep addr ia t → live ≡ₚ abs_blocks (mem_base addr) t → Forall op_ok ops →
  ∃ res, ia_trace (mem_base addr) live ops res ∧
    match res with
    | Ok (rs, live') => ∃ ia' t', ia_exec_all addr ia ops = Ok (rs, ia') ∧ ia_rep addr ia' t' ∧
                          live' ≡ₚ abs_blocks (mem_base addr) t'
    | Fail e => ia_exec_all addr ia ops = Fail e
    end.
Proof.
  induction ops as [|op ops IH]; intros ia t live Hrep Hlive Hops.
  { exists (Ok ([], live)). split; [constructor|]. by exists ia, t. }
  apply Forall_cons in Hops as [Hop Hops].
  destruct (ia_exec_step addr ia t live op Hrep Hlive Hop) as
    [(r & ia1 & t1 & live1 & Hex & Hrep1 & Hst & Hlive1)|(p & -> & Hex & Hp)].
  - destruct (IH ia1 t1 live1 Hrep1 Hlive1 Hops) as (res & Htr & Hres).
    eexists. split; [by econstructor|]. cbn [ia_exec_all]. rewrite Hex. cbn [mbind outcome_bind].
    destruct res as [[rs live']|e]; cbn [mbind outcome_bind].
    + destruct Hres as (ia' & t' & -> & Hrep' & Hlive'). by exists ia', t'.
    + by rewrite Hres.
  - exists (Fail ErrorExit). split; [by constructor|]. cbn [ia_exec_all]. by rewrite Hex.
Qed.

(** ** Theorems *)

(** C19. From a fresh mapping, every sequence of internal_alloc (requests up to half the
    memory) and internal_free behaves like an allocator of disjoint blocks: an
    allocation returns NULL or a block of at least the requested and at most twice the
    requested size (at least 32), aligned to its size inside the memory and apart from
    every live block; a free releases a live block, and any other pointer ends the
    process.  [free_mem] counts the bytes outside the live blocks, and when no block
    is live the memory is one free block again. *)
Theorem internal_allocator_blocks addr ia ops :
  0 < addr → addr + SIZEOF_INT_ALLOC < 2 ^ 64 → internal_allocator_init addr ia_zeroed = Ok ia →
  Forall op_ok ops →
  ∃ res, ia_trace (mem_base addr) [] ops res ∧
    match res with
    | Ok (rs, live) => ∃ ia', ia_exec_all addr ia ops = Ok (rs, ia') ∧
        ia_free_mem ia' = INTERNAL_ALLOC_CHUNK_SIZE_BYTES - sumZ live.*2 ∧
        (live = [] → get_tree_item (ia_buddy_tree ia') 1 = Ok NODE_FREE)
    | Fail e => ia_exec_all addr ia ops = Fail e
    end.
Proof.
  intros Ha Hlt Hinit Hops. destruct (internal_allocator_init_ok addr Ha Hlt) as (ia0 & Hi0 & Hrep & _).
  rewrite Hinit in Hi0. injection Hi0 as ->.
  destruct (ia_exec_all_trace addr ops ia0 Free [] Hrep ltac:(done) Hops) as (res & Htr & Hres).
  exists res. split; [done|]. destruct res as [[rs live]|e]; [|done].
  destruct Hres as (ia' & t' & Hex & [Hw Hr Hwf Hfree _] & Hlive). exists ia'. split; [done|]. split.
  - rewrite Hfree. pose proof (blocks_bytes TOP 0 t' Hwf) as Hby. change INTERNAL_ALLOC_CHUNK_SIZE_BYTES with 8388608; rewrite bsize_TOP in Hby.
    assert (sumZ live.*2 = sumZ ((λ x, bsize x.2) <$> blocks TOP 0 t')) as ->; [|lia].
    assert (live.*2 ≡ₚ (abs_blocks (mem_base addr) t').*2) as -> by (by apply fmap_Permutation).
    unfold abs_blocks. by rewrite <- list_fmap_compose.
  - intros ->. apply Permutation_nil_l in Hlive. unfold abs_blocks in Hlive.
    symmetry in Hlive. apply fmap_nil_inv in Hlive. apply no_blocks_free in Hlive; [|done]. subst t'.
    rewrite get_tree_ok by (done || lia). by rewrite (rep_item _ _ _ _ Hr).
Qed.

(** C20. internal_alloc is a first fit, for requests of up to half of the memory.  Of the
    free blocks in the order of their addresses it takes the first one that is large
    enough: the pointer is the start of that block, and what is marked as used is its
    first part of the least sufficient power of two (at least 32 bytes); the other free
    and used blocks stay.  It returns NULL, and changes nothing, exactly when no free
    block is large enough. *)
Theorem internal_alloc_complete addr ia t size :
  ia_rep addr ia t → 0 < size ≤ INTERNAL_ALLOC_CHUNK_SIZE_BYTES / 2 →
  match list_find (λ b, size ≤ bsize b.2) (free_blocks TOP 0 t) with
  | None => internal_alloc addr ia size = Ok (0, ia)
  | Some (_, (off, e0)) =>
      ∃ e ia' t', internal_alloc addr ia size = Ok (mem_base addr + off, ia') ∧ ia_rep addr ia' t' ∧
        (e ≤ e0)%nat ∧ alloc_effect TOP size t t' off e
  end.
Proof.
  intros Hrep Hsz. change (INTERNAL_ALLOC_CHUNK_SIZE_BYTES / 2) with 4194304 in Hsz.
  destruct (internal_alloc_ok addr ia t size Hrep) as
    [(t' & off & e & ia' & Hal & Hrep' & _ & Heff & Hbt)|[Hal Hnone]].
  { split; [lia|]. left. rewrite bsize_HALF. lia. }
  - destruct (first_fit_find size (free_blocks TOP 0 t) off) as (i & e0 & Hf).
    { rewrite <- (Z.add_0_l off). eapply bt_alloc_first_fit; [apply Hrep|exact Hbt|rewrite bsize_TOP; lia]. }
    rewrite Hf. exists e, ia', t'. split; [done|]. split; [done|]. split; [|done].
    apply list_find_Some in Hf as (_ & Hbig & _). by eapply tight_level; [apply Heff..|].
  - assert (list_find (λ b, size ≤ bsize b.2) (free_blocks TOP 0 t) = None) as ->; [|done].
    apply list_find_None. eapply Forall_impl; [by apply small_free_blocks|]. intros b Hb. cbv beta in *. lia.
Qed.

(** *** A request over half of the memory on a split root

    The walk leaves the root upwards to index 0, comes back from there as if to a right
    child, and searches the tree again with all sizes doubled. *)
Section oversized.
Context (addr : Z) (ia : int_alloc_t) (size : Z).
Context (Hsz : 4194304 < size ≤ 8388608).
Context (Hbase : 0 < mem_base addr ∧ mem_base addr + 4 * 8388608 < 2 ^ 64) (Hbig : 8388608 ≤ mem_base addr).
Abbreviation base := (mem_base addr).

Lemma oversized_walk l r n :
  wf_mem (ia_buddy_tree ia) → rep (ia_buddy_tree ia) 1 TOP (Split l r) → full (Split l r) = false →
  iterate (alloc_step size) (S (S (S (S n)))) (AllocSt 1 8388608 base DOWN ia) =
  iterate (alloc_step size) n (AllocSt 2 (8388608) (base + 8388608) DOWN ia).
Proof.
  intros Hw (Hi & _ & _) Hfull. cbn [state_of] in Hi. cbn [full] in Hfull. rewrite Hfull in Hi.
  assert (get_tree_item (ia_buddy_tree ia) 1 = Ok NODE_SPLIT) as Hget by (rewrite get_tree_ok by (done || lia); by rewrite Hi).
  rewrite (iterate_next _ _ _ (AllocSt 0 16777216 (base - 8388608) UP_RIGHT ia)); cycle 1.
  { change (alloc_step size (AllocSt 1 8388608 base DOWN ia)) with (alloc_down size (AllocSt 1 8388608 base DOWN ia)).
    unfold alloc_down. rewrite Hget. cbn [mbind outcome_bind]. change (8388608 / 2) with 4194304.
    replace (4194304 <? size) with true by lia. replace (size <=? 8388608) with true by lia. cbn [andb].
    unfold go_up. cbn [st_idx st_cur_size st_ptr st_root]. change (IS_RIGHT_CHILD 1) with true. cbv iota zeta.
    rewrite (wrap_small 64 (base - 8388608)) by lia. done. }
  rewrite (iterate_next _ _ _ (AllocSt 0 33554432 (base - 8388608) UP_LEFT ia)) by reflexivity.
  rewrite (iterate_next _ _ _ (AllocSt 1 16777216 (base + 8388608) DOWN ia)); cycle 1.
  { unfold alloc_step. change (IS_LEAF 0) with false. cbn [andb]. cbv iota zeta.
    change (33554432 / 2) with 16777216. rewrite wrap_small by lia.
    change (RIGHT_CHILD 0) with 1. by replace (base - 8388608 + 16777216) with (base + 8388608) by lia. }
  rewrite (iterate_next _ _ _ (AllocSt 2 8388608 (base + 8388608) DOWN ia)); [done|].
  change (alloc_step size (AllocSt 1 16777216 (base + 8388608) DOWN ia))
    with (alloc_down size (AllocSt 1 16777216 (base + 8388608) DOWN ia)).
  unfold alloc_down. rewrite Hget. cbn [mbind outcome_bind]. change (16777216 / 2) with 8388608.
  replace (8388608 <? size) with false by lia. cbn [andb]. done.
Qed.

(** The right child, of twice its real size, is what the second search finds. *)
Lemma oversized_right l :
  wf_mem (ia_buddy_tree ia) → rep (ia_buddy_tree ia) 1 TOP (Split l Free) → l ≠ Free →
  ∃ mem', iterate (alloc_step size) 7 (AllocSt 1 8388608 base DOWN ia) =
    Ok (inr (base + 2 * 8388608, IntAlloc (ia_entry ia) (u64 (ia_free_mem ia - 8388608)) mem')).
Proof.
  intros Hw Hrep Hl. pose proof Hrep as (Hi & Hrl & Hrr).
  assert (full (Split l Free) = false) as Hfull by (cbn [full]; apply andb_false_r).
  rewrite (oversized_walk l Free 3 Hw Hrep Hfull).
  pose proof (rep_item _ _ _ _ Hrl) as Hil. pose proof (rep_item _ _ _ _ Hrr) as Hir.
  change (2 * 1 + 0) with 2 in *. change (2 * 1 + 1) with 3 in *.
  assert (get_tree_item (ia_buddy_tree ia) 2 = Ok (state_of l)) as Hgl by (rewrite get_tree_ok by (done || lia); by rewrite Hil).
  assert (get_tree_item (ia_buddy_tree ia) 3 = Ok NODE_FREE) as Hgr by (rewrite get_tree_ok by (done || lia); by rewrite Hir).
  rewrite (iterate_next _ _ _ (AllocSt 1 (2 * 8388608) (base + 8388608) UP_LEFT ia)); cycle 1.
  {
    change (alloc_step size (AllocSt 2 8388608 (base + 8388608) DOWN ia))
      with (alloc_down size (AllocSt 2 8388608 (base + 8388608) DOWN ia)).
    unfold alloc_down. rewrite Hgl. cbn [mbind outcome_bind]. change (8388608 / 2) with 4194304.
    replace (4194304 <? size) with true by lia. replace (size <=? 8388608) with true by lia. cbn [andb].
    destruct l as [| |l1 l2]; [done|done|]. cbn [state_of]. by destruct (full l1 && full l2). }
  rewrite (iterate_next _ _ _ (AllocSt 3 (8388608) (base + 2 * 8388608) DOWN ia)); cycle 1.
  { unfold alloc_step. change (IS_LEAF 1) with false.
    rewrite andb_false_r. cbv iota zeta. change (2 * 8388608 / 2) with 8388608. rewrite wrap_small by lia.
    change (RIGHT_CHILD 1) with 3. by replace (base + 8388608 + 8388608) with (base + 2 * 8388608) by lia. }
  assert (∃ m', coalesce_full_nodes (tset (ia_buddy_tree ia) 3 NODE_USED) 3 = Ok m') as [m' Hco].
  { destruct (coalesce_full_iterate [InR l] (tset (ia_buddy_tree ia) 3 NODE_USED) HALF) as (m' & Hit & _); [done|apply TOP_eq| |].
    - cbn [ctx_rep sib bit idx_of]. split; [|split; [|done]].
      + eapply rep_frame; [lia| |exact Hrl]. intros j Hj1 Hj. apply item_tset_ne; [lia|done|]. intros <-.
        apply (under_disjoint 1 3 ltac:(lia) Hj). apply under_refl.
      + rewrite item_tset_ne by lia. rewrite Hi. cbn [state_of full]. by rewrite andb_false_r.
    - exists m'. eapply while_loop_done; [exact Hit|]. change (2 ^ 7)%nat with 128%nat. simpl. lia. }
  exists m'. rewrite iterate_1.
  change (alloc_step size (AllocSt 3 8388608 (base + 2 * 8388608) DOWN ia))
    with (alloc_down size (AllocSt 3 8388608 (base + 2 * 8388608) DOWN ia)).
  unfold alloc_down. rewrite Hgr. cbn [mbind outcome_bind]. change (8388608 / 2) with 4194304.
  replace (4194304 <? size) with true by lia. replace (size <=? 8388608) with true by lia. cbn [andb].
  unfold take_node. cbn [st_root st_idx st_cur_size st_ptr].
  ok_rw (set_tree_ok _ 3 NODE_USED Hw ltac:(lia)). ok_rw Hco. done.
Qed.
End oversized.

(** C37. A request over half of the memory goes wrong on a tree whose root is split and whose
    right half is free: although no block is large enough, internal_alloc does not return
    NULL but an address 8MB behind the end of the memory, and [free_mem] wraps around
    below zero.  (No caller in the sources asks for that much metadata at once.) *)
Theorem internal_alloc_oversized addr ia l size :
  ia_rep addr ia (Split l Free) →
  INTERNAL_ALLOC_CHUNK_SIZE_BYTES / 2 < size ≤ ia_free_mem ia →
  INTERNAL_ALLOC_CHUNK_SIZE_BYTES ≤ addr → addr + 4 * SIZEOF_INT_ALLOC < 2 ^ 64 →
  Forall (λ e, bsize e < size) (free_levels TOP (Split l Free)) ∧
  ∃ ia', internal_alloc addr ia size =
           Ok (mem_base addr + 2 * INTERNAL_ALLOC_CHUNK_SIZE_BYTES, ia') ∧
         ia_free_mem ia' = ia_free_mem ia - INTERNAL_ALLOC_CHUNK_SIZE_BYTES + 2 ^ 64.
Proof.
  intros Hrep Hsz Hlo Hhi. pose proof Hrep as [Hw Hr Hwf Hfree Haddr].
  assert (l ≠ Free) as Hl by (intros ->; by destruct Hwf as (_ & _ & Hne); apply Hne).
  destruct (mem_base_range _ _ _ Hrep) as [Hb0 Hb].
  pose proof (free_bytes_lt TOP (Split l Free) Hwf ltac:(done)) as Hlt. rewrite <- Hfree, bsize_TOP in Hlt.
  rewrite CHUNK_HALF, bsize_HALF in Hsz. change INTERNAL_ALLOC_CHUNK_SIZE_BYTES with 8388608 in *.
  assert (mem_base addr + 4 * 8388608 < 2 ^ 64 ∧ 8388608 ≤ mem_base addr) as [Hb4 Hbl].
  { unfold mem_base. change MEMORY_OFFSET with 131104. change SIZEOF_INT_ALLOC with 8519712 in Hhi. lia. }
  split.
  { apply Forall_forall. intros e He. cbn [free_levels] in He.
    assert ((e ≤ HALF)%nat) as Hle by (apply elem_of_app in He as [He|He]; by apply free_levels_le in He).
    apply bsize_mono in Hle. rewrite bsize_HALF in Hle. lia. }
  destruct (oversized_right addr ia size ltac:(lia) ltac:(lia) Hbl l Hw Hr Hl) as (m' & Hit).
  eexists. split.
  - unfold internal_alloc. rewrite (proj2 (Z.ltb_ge _ _)) by lia. fold (mem_base addr).
    rewrite wrap_small by lia. eapply while_loop_done; [exact Hit|].
    apply Nat2Z.inj_le. rewrite Nat2Z.inj_pow. change (Z.of_nat 2 ^ Z.of_nat 47) with (2 ^ 47). lia.
  - cbn [ia_free_mem]. unfold wrap. symmetry. apply (Z.mod_unique _ _ (-1)); lia.
Qed.

(** A fresh mapping at 2^44, and a tree with one block of 32 bytes. *)
Definition sample_addr : Z := 17592186044416.
Definition sample_ia : int_alloc_t :=
  IntAlloc (LLEntry 0 0 sample_addr) 8388608 (aupd (amake INTERNAL_ALLOC_BUDDY_TREE_SIZE_BYTES 0) 0 3).

Lemma sample_init : internal_allocator_init sample_addr ia_zeroed = Ok sample_ia.
Proof. reflexivity. Qed.

Lemma sample_ia_rep : ia_rep sample_addr sample_ia Free.
Proof.
  destruct (internal_allocator_init_ok sample_addr) as (ia & Hi & Hrep & _); [done|done|].
  rewrite sample_init in Hi. by injection Hi as <-.
Qed.

Fixpoint spine (d : nat) : bt := match d with O => Used | S d => Split (spine d) Free end.
Lemma sample_ia1 : ∃ ia, ia_rep sample_addr ia (Split (spine HALF) Free) ∧ ia_free_mem ia = 8388576.
Proof.
  destruct (internal_alloc_ok sample_addr sample_ia Free 32 sample_ia_rep) as
    [(t' & off & e & ia' & _ & Hrep & _ & Heff & Hal)|[_ Hnone]].
  - split; [done|]. left. by rewrite bsize_HALF.
  - exists ia'. assert (bt_alloc TOP 32 Free = Some (Split (spine HALF) Free, 0, O)) as Heq
      by (rewrite HALF_eq; vm_compute; reflexivity).
    rewrite Heq in Hal. injection Hal as <- <- <-. split; [done|].
    rewrite (iar_free _ _ _ Hrep), (ae_free _ _ _ _ _ _ Heff). cbn [free_bytes]. by rewrite bsize_TOP.
  - specialize (Hnone TOP ltac:(by left)). by rewrite bsize_TOP in Hnone.
Qed.

Lemma internal_allocator_blocks_witness :
  0 < sample_addr ∧
  ∃ res, ia_trace (mem_base sample_addr) [] [IAlloc 100; IAlloc 5000; IFree 1] res.
Proof.
  split; [done|].
  destruct (internal_allocator_blocks sample_addr sample_ia [IAlloc 100; IAlloc 5000; IFree 1])
    as (res & Htr & _); [done|done|exact sample_init| |by exists res].
  repeat constructor; done.
Defined.

(** With the first 32 bytes in use, 4000 bytes come from the free block of 4096 bytes at
    offset 4096, behind the smaller ones. *)
Lemma internal_alloc_complete_witness :
  ∃ ia e ia' t', ia_free_mem ia = 8388576 ∧
    internal_alloc sample_addr ia 4000 = Ok (mem_base sample_addr + 4096, ia') ∧
    alloc_effect TOP 4000 (Split (spine HALF) Free) t' 4096 e.
Proof.
  destruct sample_ia1 as (ia & Hrep & Hfree). exists ia.
  pose proof (internal_alloc_complete sample_addr ia (Split (spine HALF) Free) 4000 Hrep) as H.
  assert (list_find (λ b, 4000 ≤ bsize b.2) (free_blocks TOP 0 (Split (spine HALF) Free)) = Some (7%nat, (4096, 7%nat))) as Hf
    by (rewrite HALF_eq; vm_compute; reflexivity).
  rewrite Hf in H. destruct H as (e & ia' & t' & Hal & _ & _ & Heff); [done|].
  exists e, ia', t'. split; [exact Hfree|]. split; [exact Hal|exact Heff].
Defined.

Lemma internal_alloc_oversized_witness :
  ∃ ia ia', ia_free_mem ia = 8388576 ∧
    internal_alloc sample_addr ia 5000000 = Ok (mem_base sample_addr + 2 * INTERNAL_ALLOC_CHUNK_SIZE_BYTES, ia').
Proof.
  destruct sample_ia1 as (ia & Hrep & Hfree).
  destruct (internal_alloc_oversized sample_addr ia (spine HALF) 5000000 Hrep) as (_ & ia' & Hal & _).
  - rewrite Hfree. by vm_compute.
  - by vm_compute.
  - by vm_compute.
  - exists ia, ia'. split; [exact Hfree|exact Hal].
Defined.
