(* ===== verification/Chunk.v ===== *)
(** * Chunk: chunk.c and chunk.h, the code

    A 32MB chunk is carved into runs along a binary tree of 12 levels.  Two trees
    describe it: the jump tree links, level by level, the nodes that can still be
    allocated, and the buddy tree says which nodes are in use or unmapped.  This
    file is the translation of the C functions; ChunkTree has the geometry of the tree,
    ChunkAlloc, ChunkRun and ChunkBuddy the two trees, ChunkSpec the invariant and
    ChunkProps the theorems.

    Expressions such as [idx - prev] are unsigned in C.  They are only used as array
    indices: where one of them would wrap, the wrapped index is outside the array
    and so is the negative one, and the access is [Fail UB] either way. *)
From Stdlib Require Import ZArith Lia.
From stdpp Require Import base option numbers list gmap.
From S2P Require Import Prelude.
From S2P Require Import CArray.
From S2P Require Import Utils.
From S2P Require Import SizeClass.
From S2P Require Import Random.
From S2P Require Import ContainerLL.
From S2P Require Import Platform.

Definition CHUNK_SIZE_BYTES : Z := 33554432.
Definition CHUNK_LEAST_REGION_SIZE_BYTES : Z := PAGE_SIZE * 4.
Definition CHUNK_NO_NODES_LAST_LAYER : Z := CHUNK_SIZE_BYTES / CHUNK_LEAST_REGION_SIZE_BYTES.
Definition CHUNK_NO_NODES : Z := CHUNK_NO_NODES_LAST_LAYER + (CHUNK_NO_NODES_LAST_LAYER - 1).
Definition NODE_STATE_BITS : Z := 2.
Definition CHUNK_BUDDY_TREE_SIZE_BITS : Z := CHUNK_NO_NODES * NODE_STATE_BITS.
Definition CHUNK_BUDDY_TREE_DEPTH : Z := 11.
Definition CHUNK_JUMP_NODE_SIZE_BYTES : Z := 4.
Definition CHUNK_JUMP_TREE_SIZE_BYTES : Z := CHUNK_JUMP_NODE_SIZE_BYTES * CHUNK_NO_NODES.
Definition CHUNK_BUDDY_TREE_SIZE_BYTES : Z := ALIGNUP_8 32 CHUNK_BUDDY_TREE_SIZE_BITS / 8.
Definition REG_MARK_BAD_VALUE : Z := 65535.
Definition RANDOM_LOOKUP_TRESHOLD_PERCENTAGE : Z := 25.
Definition RANDOM_LOOKUP_TRIES : nat := 4.

Definition RIGHT_CHILD (idx : Z) : Z := idx * 2 + 1.
Definition LEFT_CHILD (idx : Z) : Z := idx * 2.
Definition PARENT (idx : Z) : Z := idx / 2.
Definition IS_ROOT (idx : Z) : bool := idx =? 1.
Definition IS_LEAF (idx : Z) : bool := (CHUNK_NO_NODES + 1) / 2 <=? idx.
Definition IS_RIGHT_CHILD (idx : Z) : bool := Z.odd idx.

Inductive chunk_node_t : Type := NODE_FREE | NODE_USED | NODE_DEPLETED | NODE_UNMAPPED.

#[export] Instance chunk_node_eq_dec : EqDecision chunk_node_t.
Proof. solve_decision. Defined.

#[export] Program Instance chunk_node_packed : PackedEnum chunk_node_t := {
  enum_code s := match s with
    NODE_FREE => 0 | NODE_USED => 1 | NODE_DEPLETED => 2 | NODE_UNMAPPED => 3 end;
  enum_of z := if z =? 0 then NODE_FREE else if z =? 1 then NODE_USED
               else if z =? 2 then NODE_DEPLETED else NODE_UNMAPPED
}.
Next Obligation. intros []; simpl; lia. Qed.
Next Obligation. by intros []. Qed.
Next Obligation. intros z Hz. assert (0 ≤ z ≤ 3) by lia. clear Hz. zcases z; done. Qed.

Inductive search_state_t : Type := DOWN | UP_LEFT | UP_RIGHT.

Record jump_node_t : Type := JumpNode { prev : Z; next : Z }.

#[export] Instance jump_node_eq_dec : EqDecision jump_node_t.
Proof. solve_decision. Defined.

(** struct chunk_state *)
Record chunk_t : Type := Chunk {
  chunk_entry : ll_entry;
  avail_nodes_count : arr Z;
  reg_size_small_medium : arr Z;
  jump_tree_first_index : arr Z;
  jump_tree : arr jump_node_t;
  buddy_tree : arr Z
}.

#[export] Program Instance chunk_has_entry : HasEntry chunk_t := {
  get_entry c := chunk_entry c;
  put_entry e c := Chunk e (avail_nodes_count c) (reg_size_small_medium c)
                         (jump_tree_first_index c) (jump_tree c) (buddy_tree c)
}.
Solve Obligations with done.

(** Field updates. *)
Definition with_avail (c : chunk_t) (a : arr Z) : chunk_t :=
  Chunk (chunk_entry c) a (reg_size_small_medium c) (jump_tree_first_index c)
        (jump_tree c) (buddy_tree c).
Definition with_reg_size (c : chunk_t) (a : arr Z) : chunk_t :=
  Chunk (chunk_entry c) (avail_nodes_count c) a (jump_tree_first_index c)
        (jump_tree c) (buddy_tree c).
Definition with_first (c : chunk_t) (a : arr Z) : chunk_t :=
  Chunk (chunk_entry c) (avail_nodes_count c) (reg_size_small_medium c) a
        (jump_tree c) (buddy_tree c).
Definition with_jump (c : chunk_t) (a : arr jump_node_t) : chunk_t :=
  Chunk (chunk_entry c) (avail_nodes_count c) (reg_size_small_medium c)
        (jump_tree_first_index c) a (buddy_tree c).
Definition with_buddy (c : chunk_t) (a : arr Z) : chunk_t :=
  Chunk (chunk_entry c) (avail_nodes_count c) (reg_size_small_medium c)
        (jump_tree_first_index c) (jump_tree c) a.

Definition get_jt_item (mem : arr jump_node_t) (idx : Z) : outcome jump_node_t :=
  aread mem (idx - 1).
Definition set_jt_item_next (mem : arr jump_node_t) (idx val : Z) : outcome (arr jump_node_t) :=
  n ← aread mem (idx - 1); awrite mem (idx - 1) (JumpNode (prev n) (u16 val)).
Definition set_jt_item_prev (mem : arr jump_node_t) (idx val : Z) : outcome (arr jump_node_t) :=
  n ← aread mem (idx - 1); awrite mem (idx - 1) (JumpNode (u16 val) (next n)).
Definition incr_jt_item_next (mem : arr jump_node_t) (idx val : Z) : outcome (arr jump_node_t) :=
  n ← aread mem (idx - 1); awrite mem (idx - 1) (JumpNode (prev n) (u16 (next n + u16 val))).
Definition incr_jt_item_prev (mem : arr jump_node_t) (idx val : Z) : outcome (arr jump_node_t) :=
  n ← aread mem (idx - 1); awrite mem (idx - 1) (JumpNode (u16 (prev n + u16 val)) (next n)).

Definition get_buddy_tree_item (mem : arr Z) (idx : Z) : outcome chunk_node_t :=
  z ← packed_get mem (idx - 1); Ok (enum_of z).
Definition set_buddy_tree_item (mem : arr Z) (idx : Z) (s : chunk_node_t) : outcome (arr Z) :=
  packed_set mem (idx - 1) (enum_code s).

(** The last and the first leaf below a node. *)
Definition get_rightmost_idx (idx depth : Z) : Z := u32 (Z.shiftl idx depth + Z.shiftl 1 depth - 1).
Definition get_leftmost_idx (idx depth : Z) : Z := u32 (Z.shiftl idx depth).

(** Two helpers no function of chunk.c calls. *)
Definition get_mask (bits : Z) : Z := u32 (Z.shiftl 1 bits - 1).
Definition min (a b : Z) : Z := if b <? a then b else a.

(** void chunk_init(chunk_t *chunk, void *heap): every field is written, so the
    previous contents do not matter. *)
Fixpoint chunk_init_levels (n : nat) (i l : Z) (c : chunk_t) : outcome chunk_t :=
  match n with
  | O => Ok c
  | S n =>
      fi ← awrite (jump_tree_first_index c) i l;
      jt ← set_jt_item_prev (jump_tree c) l 0;
      jt ← set_jt_item_next jt (2 * l - 1) 0;
      av ← awrite (avail_nodes_count c) i l;
      chunk_init_levels n (i + 1) (u16 (l * 2)) (with_avail (with_jump (with_first c fi) jt) av)
  end.
Definition chunk_init_fields (heap : Z) : outcome chunk_t :=
  let c := Chunk (LLEntry 0 0 heap)
                 (amake (CHUNK_BUDDY_TREE_DEPTH + 1) 0)
                 (amake CHUNK_NO_NODES_LAST_LAYER REG_MARK_BAD_VALUE)
                 (amake (CHUNK_BUDDY_TREE_DEPTH + 1) 0)
                 (amake CHUNK_NO_NODES (JumpNode 1 1))
                 (amake CHUNK_BUDDY_TREE_SIZE_BYTES 0) in
  c ← chunk_init_levels (Z.to_nat (CHUNK_BUDDY_TREE_DEPTH + 1)) 0 1 c;
  av ← awrite (avail_nodes_count c) 0 0;
  fi ← awrite (jump_tree_first_index c) 0 0;
  Ok (with_first (with_avail c av) fi).
Definition chunk_init `{Build} (heap : Z) : outcome chunk_t :=
  _ ← c_assert (negb (heap =? 0));
  chunk_init_fields heap.

(** ** Allocation *)

Definition size2idx (run_size : Z) : outcome Z := ctz (run_size / CHUNK_LEAST_REGION_SIZE_BYTES).

(** The body of the first loop of chunk_allocate_with_node: the current node leaves
    the list of its level. *)
Definition relink_node (c : chunk_t) (node : jump_node_t) (idx level : Z) : outcome chunk_t :=
  if next node =? 0 then
    jt ← set_jt_item_next (jump_tree c) (idx - prev node) 0;
    Ok (with_jump c jt)
  else if prev node =? 0 then
    fi ← awrite (jump_tree_first_index c) level (idx + next node);
    jt ← set_jt_item_prev (jump_tree c) (idx + next node) 0;
    Ok (with_jump (with_first c fi) jt)
  else
    let next_node_global_idx := idx + next node in
    let prev_node_global_idx := idx - prev node in
    jt ← incr_jt_item_next (jump_tree c) prev_node_global_idx (next node);
    jt ← incr_jt_item_prev jt next_node_global_idx (prev node);
    Ok (with_jump c jt).
Definition unlink_node (c : chunk_t) (node : jump_node_t) (idx level : Z) : outcome chunk_t :=
  c ← relink_node c node idx level;
  jt ← set_jt_item_next (jump_tree c) idx 0;
  jt ← set_jt_item_prev jt idx 0;
  n ← aread (avail_nodes_count c) level;
  av ← awrite (avail_nodes_count c) level (u16 (n - 1));
  let c := with_avail (with_jump c jt) av in
  n ← aread (avail_nodes_count c) level;
  if n =? 0 then
    fi ← awrite (jump_tree_first_index c) level 0;
    Ok (with_first c fi)
  else Ok c.

Definition unlink_up_step (st : chunk_t * jump_node_t * Z * Z)
    : outcome ((chunk_t * jump_node_t * Z * Z) + chunk_t) :=
  let '(c, node, idx, level) := st in
  go ← (if negb (next node =? 0) || negb (prev node =? 0) then Ok true
        else first ← aread (jump_tree_first_index c) level; Ok (first =? idx));
  if (go : bool) then
    c ← unlink_node c node idx level;
    let idx := PARENT idx in
    node ← get_jt_item (jump_tree c) idx;
    Ok (inl (c, node, idx, level - 1))
  else Ok (inr c).

(** The body of the second loop: the nodes of one level below the allocated node,
    from [left_idx] to [right_idx], leave the list of that level. *)
Definition relink_span (c : chunk_t) (node_left node_right : jump_node_t)
    (left_idx right_idx span level : Z) : outcome chunk_t :=
  if (prev node_left =? 0) && (next node_right =? 0) then
    fi ← awrite (jump_tree_first_index c) level 0;
    Ok (with_first c fi)
  else if prev node_left =? 0 then
    fi ← awrite (jump_tree_first_index c) level (right_idx + next node_right);
    jt ← set_jt_item_prev (jump_tree c) (right_idx + next node_right) 0;
    Ok (with_jump (with_first c fi) jt)
  else if next node_right =? 0 then
    jt ← set_jt_item_next (jump_tree c) (left_idx - prev node_left) 0;
    Ok (with_jump c jt)
  else
    jt ← incr_jt_item_next (jump_tree c) (left_idx - prev node_left) (span - 1 + next node_right);
    jt ← incr_jt_item_prev jt (right_idx + next node_right) (span - 1 + prev node_left);
    Ok (with_jump c jt).
Definition unlink_span (c : chunk_t) (left_idx right_idx span level : Z) : outcome chunk_t :=
  node_left ← get_jt_item (jump_tree c) left_idx;
  node_right ← get_jt_item (jump_tree c) right_idx;
  c ← relink_span c node_left node_right left_idx right_idx span level;
  n ← aread (avail_nodes_count c) level;
  av ← awrite (avail_nodes_count c) level (u16 (n - span));
  Ok (with_avail c av).

(** The second loop, over the [n] levels from [level] down to the leaves. *)
Fixpoint unlink_down (n : nat) (c : chunk_t) (left_idx right_idx span level : Z)
    : outcome chunk_t :=
  match n with
  | O => Ok c
  | S n =>
      c ← unlink_span c left_idx right_idx span level;
      unlink_down n c (LEFT_CHILD left_idx) (RIGHT_CHILD right_idx) (span * 2) (level + 1)
  end.

(** The third loop: memset of the subtree, level by level. *)
Fixpoint purge_down (n : nat) (jt : arr jump_node_t) (start_clear_idx span : Z)
    : outcome (arr jump_node_t) :=
  match n with
  | O => Ok jt
  | S n =>
      jt ← afill jt (start_clear_idx - 1) span (JumpNode 0 0);
      purge_down n jt (LEFT_CHILD start_clear_idx) (span * 2)
  end.

(** void *chunk_allocate_with_node(...) *)
Definition chunk_allocate_with_node (c : chunk_t) (node : jump_node_t)
    (idx level reg_size : Z) : outcome (Z * chunk_t) :=
  let base_level_idx := Z.shiftl 1 level in
  c ← while_loop unlink_up_step 4 (c, node, idx, level);
  let heap := key (chunk_entry c) in
  if IS_LEAF idx then
    c ← (if negb (reg_size =? CHUNK_LEAST_REGION_SIZE_BYTES) then
           rs ← awrite (reg_size_small_medium c) (idx - base_level_idx) (u16 reg_size);
           Ok (with_reg_size c rs)
         else Ok c);
    bt ← set_buddy_tree_item (buddy_tree c) idx NODE_USED;
    Ok (u64 (heap + u32 ((idx - base_level_idx) * CHUNK_LEAST_REGION_SIZE_BYTES)),
        with_buddy c bt)
  else
    let below := Z.to_nat (CHUNK_BUDDY_TREE_DEPTH - level) in
    c ← unlink_down below c (LEFT_CHILD idx) (RIGHT_CHILD idx) 2 (level + 1);
    jt ← purge_down below (jump_tree c) (LEFT_CHILD idx) 2;
    let c := with_jump c jt in
    bt ← set_buddy_tree_item (buddy_tree c) idx NODE_USED;
    let offset := u32 (get_leftmost_idx idx (CHUNK_BUDDY_TREE_DEPTH - level)
                       - (CHUNK_NO_NODES + 1) / 2) in
    Ok (u64 (heap + u32 (offset * CHUNK_LEAST_REGION_SIZE_BYTES)), with_buddy c bt).

(** The random probes of chunk_allocate_run: a free node of the level, if one of
    [tries] draws hits one. *)
Fixpoint random_lookup (tries : nat) (c : chunk_t) (all_nodes : Z) (r : rng)
    : outcome (option (jump_node_t * Z) * rng) :=
  match tries with
  | O => Ok (None, r)
  | S tries =>
      let '(x, r) := splitmix32 r in
      rand_idx ← umod x all_nodes;
      node ← get_jt_item (jump_tree c) (all_nodes + rand_idx);
      if negb (prev node =? 0) || negb (next node =? 0)
      then Ok (Some (node, all_nodes + rand_idx), r)
      else random_lookup tries c all_nodes r
  end.

(** while (rand_idx > 0): follow the next links. *)
Fixpoint walk_next (rand_idx : nat) (jt : arr jump_node_t) (idx : Z) (node : jump_node_t)
    : outcome (jump_node_t * Z) :=
  match rand_idx with
  | O => Ok (node, idx)
  | S rand_idx =>
      let idx := idx + next node in
      node ← get_jt_item jt idx;
      walk_next rand_idx jt idx node
  end.

(** void *chunk_allocate_run(chunk_t *chunk, unsigned run_size, unsigned reg_size) *)
Definition chunk_allocate_run `{Build} (c : chunk_t) (run_size reg_size : Z) (r : rng)
    : outcome (Z * chunk_t * rng) :=
  _ ← c_assert (CHUNK_LEAST_REGION_SIZE_BYTES <=? run_size);
  _ ← c_assert (run_size <=? CHUNK_SIZE_BYTES);
  _ ← c_assert (is_size_aligned reg_size);
  sz ← size2idx run_size;
  let level := CHUNK_BUDDY_TREE_DEPTH - sz in
  avail_nodes ← aread (avail_nodes_count c) level;
  let all_nodes := Z.shiftl 1 level in
  if avail_nodes =? 0 then Ok (0, c, r)
  else
    '(hit, r) ←
      (if RANDOM_LOOKUP_TRESHOLD_PERCENTAGE <? avail_nodes * 100 / all_nodes
       then random_lookup RANDOM_LOOKUP_TRIES c all_nodes r else Ok (None, r));
    match hit with
    | Some (node, idx) =>
        '(p, c) ← chunk_allocate_with_node c node idx level reg_size;
        Ok (p, c, r)
    | None =>
        let '(x, r) := splitmix32 r in
        rand_idx ← umod x avail_nodes;
        current_idx ← aread (jump_tree_first_index c) level;
        node ← get_jt_item (jump_tree c) current_idx;
        '(node, idx) ← walk_next (Z.to_nat rand_idx) (jump_tree c) current_idx node;
        '(p, c) ← chunk_allocate_with_node c node idx level reg_size;
        Ok (p, c, r)
    end.

(** ** Deallocation *)

(** struct buddy_state *)
Record buddy_ctx_t : Type := BuddyCtx {
  ctx_idx : Z;
  ctx_cur_size : Z;
  ctx_depth_to_leaf : Z;
  ctx_ptr : Z;
  ctx_state : search_state_t
}.

Definition buddy_state_go_up (ctx : buddy_ctx_t) : buddy_ctx_t :=
  BuddyCtx (PARENT (ctx_idx ctx))
           (u32 (ctx_cur_size ctx * 2))
           (u32 (ctx_depth_to_leaf ctx + 1))
           (if IS_RIGHT_CHILD (ctx_idx ctx) then u64 (ctx_ptr ctx - ctx_cur_size ctx)
            else ctx_ptr ctx)
           (if IS_RIGHT_CHILD (ctx_idx ctx) then UP_RIGHT else UP_LEFT).

(** The steps down, which the search of an earlier version took. *)
Definition buddy_state_go_right (ctx : buddy_ctx_t) : buddy_ctx_t :=
  let cur_size := ctx_cur_size ctx / 2 in
  BuddyCtx (u32 (RIGHT_CHILD (ctx_idx ctx))) cur_size (u32 (ctx_depth_to_leaf ctx - 1))
           (u64 (ctx_ptr ctx + cur_size)) DOWN.
Definition buddy_state_go_left (ctx : buddy_ctx_t) : buddy_ctx_t :=
  BuddyCtx (u32 (LEFT_CHILD (ctx_idx ctx))) (ctx_cur_size ctx / 2) (u32 (ctx_depth_to_leaf ctx - 1))
           (ctx_ptr ctx) (ctx_state ctx).

(** The two coalescing loops differ in the state they merge. *)
Definition coalesce_step (s : chunk_node_t) (st : buddy_ctx_t * arr Z)
    : outcome ((buddy_ctx_t * arr Z) + (buddy_ctx_t * arr Z)) :=
  let '(ctx, bt) := st in
  if 1 <? ctx_idx ctx then
    let neigh_idx := if IS_RIGHT_CHILD (ctx_idx ctx) then ctx_idx ctx - 1 else ctx_idx ctx + 1 in
    node ← get_buddy_tree_item bt neigh_idx;
    if bool_decide (node = s) then
      bt ← set_buddy_tree_item bt (PARENT (ctx_idx ctx)) s;
      Ok (inl (buddy_state_go_up ctx, bt))
    else Ok (inr (ctx, bt))
  else Ok (inr (ctx, bt)).

(** static void coalesce_unmapped_nodes(buddy_ctx_t *ctx, chunk_t *chunk) *)
Definition coalesce_unmapped_nodes (ctx : buddy_ctx_t) (bt : arr Z)
    : outcome (buddy_ctx_t * arr Z) :=
  while_loop (coalesce_step NODE_UNMAPPED) 5 (ctx, bt).

Section deallocate.
Context `{Build} `{Kernel OS}.

(** static void coalesce_depleted_nodes(buddy_ctx_t *ctx, chunk_t *chunk) *)
Definition coalesce_depleted_nodes (os : OS) (ctx : buddy_ctx_t) (bt : arr Z)
    : outcome (buddy_ctx_t * arr Z * OS) :=
  '(ctx, bt) ← while_loop (coalesce_step NODE_DEPLETED) 5 (ctx, bt);
  '(code, os) ← platform_unmap os (ctx_ptr ctx) (ctx_cur_size ctx);
  if negb (bool_decide (code = PLATFORM_STATUS_OK)) then Fail ErrorExit
  else
    bt ← set_buddy_tree_item bt (ctx_idx ctx) NODE_UNMAPPED;
    '(ctx, bt) ← coalesce_unmapped_nodes ctx bt;
    Ok (ctx, bt, os).

(** while (node != NODE_USED): climb from a leaf to the node in use. *)
Definition find_used_step (bt : arr Z) (st : Z * Z * chunk_node_t)
    : outcome ((Z * Z * chunk_node_t) + (Z * Z)) :=
  let '(idx, depth_to_leaf, node) := st in
  if bool_decide (node = NODE_USED) then Ok (inr (idx, depth_to_leaf))
  else if IS_ROOT idx || IS_RIGHT_CHILD idx then Fail ErrorExit
  else if bool_decide (node = NODE_DEPLETED) || bool_decide (node = NODE_UNMAPPED) then
    Fail ErrorExit
  else
    let idx := PARENT idx in
    node ← get_buddy_tree_item bt idx;
    Ok (inl (idx, u32 (depth_to_leaf + 1), node)).

(** bool chunk_deallocate_run(chunk_t *chunk, void *run_ptr) *)
Definition chunk_deallocate_run (os : OS) (c : chunk_t) (run_ptr : Z)
    : outcome (bool * chunk_t * OS) :=
  let first_leaf_idx := (CHUNK_NO_NODES + 1) / 2 in
  let ptr_offset :=
    u32 (u64 (run_ptr - key (chunk_entry c)) / CHUNK_LEAST_REGION_SIZE_BYTES) in
  let idx := u32 (first_leaf_idx + ptr_offset) in
  node ← get_buddy_tree_item (buddy_tree c) idx;
  '(idx, depth_to_leaf) ← while_loop (find_used_step (buddy_tree c)) 5 (idx, 0, node);
  bt ← set_buddy_tree_item (buddy_tree c) idx NODE_DEPLETED;
  let ctx := BuddyCtx idx (u32 (Z.shiftl CHUNK_LEAST_REGION_SIZE_BYTES depth_to_leaf))
                      depth_to_leaf run_ptr DOWN in
  '(ctx, bt, os) ← coalesce_depleted_nodes os ctx bt;
  Ok (ctx_idx ctx =? 1, with_buddy c bt, os).
End deallocate.

(** ** Lookup of the run behind a pointer *)

(** The same climb in chunk_get_run_ptr, which gives up instead of exiting. *)
Definition find_run_step (bt : arr Z) (st : Z * Z * chunk_node_t)
    : outcome ((Z * Z * chunk_node_t) + option Z) :=
  let '(idx, cur_size, node) := st in
  if bool_decide (node = NODE_USED) then Ok (inr (Some cur_size))
  else if IS_ROOT idx || IS_RIGHT_CHILD idx then Ok (inr None)
  else if bool_decide (node = NODE_DEPLETED) || bool_decide (node = NODE_UNMAPPED) then
    Ok (inr None)
  else
    let idx := PARENT idx in
    node ← get_buddy_tree_item bt idx;
    Ok (inl (idx, u32 (cur_size * 2), node)).

(** void chunk_get_run_ptr(...): run_ptr, run_size and reg_size, which are all 0 on
    entry (the assertions) and stay 0 when the pointer is in no run. *)
Definition chunk_get_run_ptr (c : chunk_t) (ptr : Z) : outcome (Z * Z * Z) :=
  let chunk_ptr := key (chunk_entry c) in
  if (ptr <? chunk_ptr) || (u64 (chunk_ptr + CHUNK_SIZE_BYTES) <=? ptr) then Ok (0, 0, 0)
  else
    let rel_ptr := u64 (ptr - chunk_ptr) in
    let block_offset := rel_ptr / CHUNK_LEAST_REGION_SIZE_BYTES in
    let first_leaf_idx := (CHUNK_NO_NODES + 1) / 2 in
    let target_run_ptr := u64 (chunk_ptr + u64 (block_offset * CHUNK_LEAST_REGION_SIZE_BYTES)) in
    let idx := u32 (first_leaf_idx + block_offset) in
    node ← get_buddy_tree_item (buddy_tree c) idx;
    if negb (bool_decide (node = NODE_USED)) then
      found ← while_loop (find_run_step (buddy_tree c)) 5
                (idx, CHUNK_LEAST_REGION_SIZE_BYTES, node);
      match found with
      | Some cur_size => Ok (target_run_ptr, cur_size, 0)
      | None => Ok (0, 0, 0)
      end
    else
      rs ← aread (reg_size_small_medium c) block_offset;
      Ok (target_run_ptr, CHUNK_LEAST_REGION_SIZE_BYTES,
          if negb (rs =? REG_MARK_BAD_VALUE) then rs else 0).

Definition chunk_is_unmapped (c : chunk_t) : outcome bool :=
  n ← get_buddy_tree_item (buddy_tree c) 1; Ok (bool_decide (n = NODE_UNMAPPED)).
Definition chunk_is_full (c : chunk_t) : outcome bool :=
  n ← aread (avail_nodes_count c) CHUNK_BUDDY_TREE_DEPTH; Ok (n =? 0).

(** ** The helpers *)

(** The leaves below a node are consecutive, and end where those of its right neighbour
    begin. *)
Lemma rightmost_idx_eq idx depth :
  0 ≤ idx → 0 ≤ depth < 32 → (idx + 1) * 2 ^ depth < 2 ^ 32 →
  get_rightmost_idx idx depth = get_leftmost_idx idx depth + 2 ^ depth - 1 ∧
  get_rightmost_idx idx depth = get_leftmost_idx (idx + 1) depth - 1.
Proof.
  intros Hi Hd Hlt. unfold get_rightmost_idx, get_leftmost_idx. rewrite !Z.shiftl_mul_pow2 by lia.
  pose proof (Z.pow_pos_nonneg 2 depth ltac:(lia) ltac:(lia)). rewrite !wrap_small by nia. lia.
Qed.

(** A step up undoes a step down. *)
Lemma go_up_go_left ctx k :
  1 ≤ ctx_idx ctx < 2 ^ 31 → ctx_cur_size ctx = 2 * k → 0 ≤ k < 2 ^ 31 → 1 ≤ ctx_depth_to_leaf ctx < 2 ^ 32 →
  buddy_state_go_up (buddy_state_go_left ctx) =
  BuddyCtx (ctx_idx ctx) (ctx_cur_size ctx) (ctx_depth_to_leaf ctx) (ctx_ptr ctx) UP_LEFT.
Proof.
  intros Hi Hs Hk Hd. unfold buddy_state_go_up, buddy_state_go_left, LEFT_CHILD, PARENT, IS_RIGHT_CHILD.
  cbn [ctx_idx ctx_cur_size ctx_depth_to_leaf ctx_ptr]. rewrite (wrap_small 32 (_ * 2)) by lia.
  rewrite Z.div_mul, Z.odd_mul, andb_false_r, Hs by lia. rewrite (Z.mul_comm 2 k), Z.div_mul by lia.
  rewrite !wrap_small by (rewrite ?wrap_small by lia; lia). f_equal. lia.
Qed.

Lemma go_up_go_right ctx k :
  1 ≤ ctx_idx ctx < 2 ^ 31 - 1 → ctx_cur_size ctx = 2 * k → 0 ≤ k < 2 ^ 31 → 1 ≤ ctx_depth_to_leaf ctx < 2 ^ 32 →
  0 ≤ ctx_ptr ctx → ctx_ptr ctx + k < 2 ^ 64 →
  buddy_state_go_up (buddy_state_go_right ctx) =
  BuddyCtx (ctx_idx ctx) (ctx_cur_size ctx) (ctx_depth_to_leaf ctx) (ctx_ptr ctx) UP_RIGHT.
Proof.
  intros Hi Hs Hk Hd Hp Hpk. unfold buddy_state_go_up, buddy_state_go_right, RIGHT_CHILD, PARENT, IS_RIGHT_CHILD.
  cbn [ctx_idx ctx_cur_size ctx_depth_to_leaf ctx_ptr]. rewrite (wrap_small 32 (_ * 2 + 1)) by lia.
  rewrite Z.odd_add, Z.odd_mul, andb_false_r. cbn [xorb Z.odd].
  rewrite Z.div_add_l by lia. rewrite Hs, (Z.mul_comm 2 k), Z.div_mul by lia.
  rewrite !wrap_small by (rewrite ?wrap_small by lia; lia). f_equal; [change (1 / 2) with 0; lia|lia..].
Qed.
