(* ===== verification/ChunkTree.v ===== *)
(** * ChunkTree: the geometry of a chunk and the free lists of its levels

    A node [i] of level [l] covers the leaves [node_lo i, node_hi i); two nodes
    conflict when they share a leaf.  [avail T i] says that node [i] conflicts with
    none of the nodes [T] allocated so far: this is the abstract set the jump tree
    represents, one sorted list [avail_list T l] per level.  [level_ok] relates a
    level of the jump tree to its list, and the unlinking steps of
    chunk_allocate_with_node are shown to remove a node (or the nodes of a subtree)
    from it. *)
From Stdlib Require Import ZArith Lia.
From stdpp Require Import base option numbers list gmap sorting.
From S2P Require Import Prelude.
From S2P Require Import CArray.
From S2P Require Import Chunk.

(** ** Nodes as intervals of leaves *)
Definition node_span (i : Z) : Z := 2 ^ (11 - Z.log2 i).
Definition node_lo (i : Z) : Z := i * node_span i.
Definition node_hi (i : Z) : Z := (i + 1) * node_span i.
Definition overlapb (i j : Z) : bool := (node_lo i <? node_hi j) && (node_lo j <? node_hi i).

Definition on_level (l i : Z) : Prop := 2 ^ l ≤ i < 2 ^ (l + 1).

Lemma on_level_log2 l i : 0 ≤ l → on_level l i → Z.log2 i = l.
Proof. intros Hl Hi. apply Z.log2_unique; [done|]. by rewrite <- Z.add_1_r. Qed.

Lemma on_level_pos l i : 0 ≤ l → on_level l i → 1 ≤ i.
Proof. intros Hl [Hi _]. pose proof (Z.pow_pos_nonneg 2 l). lia. Qed.

Lemma on_level_double l : 0 ≤ l → 2 ^ (l + 1) = 2 * 2 ^ l.
Proof. intros. rewrite Z.pow_add_r by lia. lia. Qed.

Lemma on_level_parent l i : 0 ≤ l → on_level (l + 1) i → on_level l (i / 2).
Proof.
  unfold on_level. intros Hl Hi. rewrite (on_level_double (l + 1)), on_level_double in Hi by lia.
  rewrite on_level_double by lia.
  split; [apply Z.div_le_lower_bound|apply Z.div_lt_upper_bound]; lia.
Qed.

Lemma on_level_le l i : 0 ≤ l ≤ 11 → on_level l i → 1 ≤ i ≤ 4095.
Proof.
  intros Hl Hi. pose proof (on_level_pos l i ltac:(lia) Hi). destruct Hi as [_ Hi].
  assert (2 ^ (l + 1) ≤ 2 ^ 12) by (apply Z.pow_le_mono_r; lia). lia.
Qed.

Lemma on_level_unique l l' i : 0 ≤ l → 0 ≤ l' → on_level l i → on_level l' i → l = l'.
Proof. intros ?? H1 H2. apply on_level_log2 in H1, H2; lia. Qed.

Lemma node_span_level l i : 0 ≤ l → on_level l i → node_span i = 2 ^ (11 - l).
Proof. intros Hl Hi. unfold node_span. by rewrite (on_level_log2 l). Qed.

Lemma overlapb_sym i j : overlapb i j = overlapb j i.
Proof. unfold overlapb. apply andb_comm. Qed.

Lemma overlapb_self l i : 0 ≤ l ≤ 11 → on_level l i → overlapb i i = true.
Proof.
  intros Hl Hi. unfold overlapb, node_lo, node_hi. rewrite (node_span_level l) by (lia || done).
  pose proof (Z.pow_pos_nonneg 2 (11 - l) ltac:(lia) ltac:(lia)). lia.
Qed.

(** The nodes of level [L + k] that conflict with node [n] of level [L] are its
    descendants. *)
Lemma overlapb_below L k n i :
  0 ≤ L → 0 ≤ k → L + k ≤ 11 → on_level L n → on_level (L + k) i →
  overlapb n i = true ↔ n * 2 ^ k ≤ i < (n + 1) * 2 ^ k.
Proof.
  intros HL Hk HLk Hn Hi. unfold overlapb, node_lo, node_hi.
  rewrite (node_span_level L n), (node_span_level (L + k) i) by (lia || done).
  replace (11 - L) with (k + (11 - (L + k))) by lia. rewrite Z.pow_add_r by lia.
  set (s := 2 ^ (11 - (L + k))). assert (0 < s) by (apply Z.pow_pos_nonneg; lia).
  set (p := 2 ^ k). assert (0 < p) by (apply Z.pow_pos_nonneg; lia).
  rewrite andb_true_iff, !Z.ltb_lt.
  replace (n * (p * s)) with ((n * p) * s) by lia.
  replace ((n + 1) * (p * s)) with (((n + 1) * p) * s) by lia.
  rewrite <- !Z.mul_lt_mono_pos_r by done. lia.
Qed.

(** The node of level [L - k] that conflicts with node [n] of level [L] is its
    ancestor. *)
Lemma overlapb_above L k n i :
  0 ≤ k ≤ L → L ≤ 11 → on_level L n → on_level (L - k) i →
  overlapb n i = true ↔ i = n / 2 ^ k.
Proof.
  intros Hk HL Hn Hi. rewrite overlapb_sym, (overlapb_below (L - k) k i n); [|lia..|done|].
  2: { by replace (L - k + k) with L by lia. }
  assert (0 < 2 ^ k) by (apply Z.pow_pos_nonneg; lia). split.
  - intros Hb. apply Z.div_unique with (r := n - i * 2 ^ k); [left|]; lia.
  - intros ->. pose proof (Z.div_mod n (2 ^ k) ltac:(lia)).
    pose proof (Z.mod_pos_bound n (2 ^ k) ltac:(lia)). lia.
Qed.

(** ** Available nodes *)
Definition avail (T : list Z) (i : Z) : bool :=
  (2 <=? i) && forallb (λ t, negb (overlapb t i)) T.

Definition avail_list (T : list Z) (l : Z) : list Z :=
  filter (λ i, avail T i = true) (seqZ (2 ^ l) (2 ^ l)).

Lemma avail_list_elem T l i :
  0 ≤ l → i ∈ avail_list T l ↔ on_level l i ∧ avail T i = true.
Proof.
  intros Hl. unfold avail_list. rewrite list_elem_of_filter, elem_of_seqZ.
  unfold on_level. rewrite on_level_double by done. split; intros [? ?]; split; lia || done.
Qed.

Lemma avail_cons T n i : avail (n :: T) i = negb (overlapb n i) && avail T i.
Proof. unfold avail. simpl. by destruct (2 <=? i), (overlapb n i). Qed.

(** A child is available when its parent is. *)
Lemma avail_child T l i :
  0 ≤ l < 11 → on_level (l + 1) i → avail T (i / 2) = true → avail T i = true.
Proof.
  intros Hl Hi. unfold avail. rewrite !andb_true_iff, !forallb_forall.
  pose proof (on_level_parent l i ltac:(lia) Hi) as Hp.
  pose proof (on_level_pos l (i / 2) ltac:(lia) Hp).
  intros [H2 Hall]. split.
  { apply Z.leb_le in H2. apply Z.leb_le. pose proof (Z.div_mod i 2 ltac:(lia)).
    pose proof (Z.mod_pos_bound i 2 ltac:(lia)). lia. }
  intros t Ht. specialize (Hall t Ht). rewrite negb_true_iff in *.
  apply not_true_is_false. apply not_true_iff_false in Hall. contradict Hall.
  revert Hall. unfold overlapb. rewrite !andb_true_iff, !Z.ltb_lt. unfold node_lo, node_hi.
  rewrite (node_span_level (l + 1) i), (node_span_level l (i / 2))
    by (lia || done).
  replace (11 - l) with (1 + (11 - (l + 1))) by lia. rewrite Z.pow_add_r by lia.
  set (s := 2 ^ (11 - (l + 1))). assert (0 < s) by (apply Z.pow_pos_nonneg; lia).
  pose proof (Z.div_mod i 2 ltac:(lia)). pose proof (Z.mod_pos_bound i 2 ltac:(lia)).
  change (2 ^ 1) with 2. nia.
Qed.

(** Splitting the available nodes of a level around an interval of them. *)
Definition avail_before T l a := filter (λ i, avail T i = true) (seqZ (2 ^ l) (a - 2 ^ l)).
Definition avail_after T l b := filter (λ i, avail T i = true) (seqZ b (2 ^ (l + 1) - b)).

Lemma level_split l a m :
  0 ≤ l → 2 ^ l ≤ a → 0 ≤ m → a + m ≤ 2 ^ (l + 1) →
  seqZ (2 ^ l) (2 ^ l) =
  seqZ (2 ^ l) (a - 2 ^ l) ++ seqZ a m ++ seqZ (a + m) (2 ^ (l + 1) - (a + m)).
Proof.
  intros Hl Ha Hm Hb. rewrite on_level_double in * by done.
  replace (seqZ (2 ^ l) (2 ^ l)) with
    (seqZ (2 ^ l) ((a - 2 ^ l) + (m + (2 * 2 ^ l - (a + m))))) by (f_equal; lia).
  rewrite (seqZ_app (2 ^ l)) by lia. f_equal.
  rewrite seqZ_app by lia. f_equal; f_equal; lia.
Qed.

Lemma avail_list_split T l a m :
  0 ≤ l → 2 ^ l ≤ a → 0 ≤ m → a + m ≤ 2 ^ (l + 1) →
  (∀ i, a ≤ i < a + m → avail T i = true) →
  avail_list T l = avail_before T l a ++ seqZ a m ++ avail_after T l (a + m).
Proof.
  intros Hl Ha Hm Hb Hall. unfold avail_list, avail_before, avail_after.
  rewrite (level_split l a m) by done.
  rewrite !filter_app. do 2 f_equal. apply filter_all.
  apply Forall_forall. intros i Hi%elem_of_seqZ. apply Hall. lia.
Qed.

(** ** Lists linked by relative distances

    [dchain J p s q]: the nodes [s] are linked in this order, the first one behind
    [p] and the last one before [q]; a missing neighbour is distance 0. *)
Definition gap_prev (p : option Z) (x : Z) : Z := match p with None => 0 | Some y => x - y end.
Definition gap_next (x : Z) (q : option Z) : Z := match q with None => 0 | Some y => y - x end.
Definition hd_or (s : list Z) (q : option Z) : option Z := match s with [] => q | x :: _ => Some x end.
Fixpoint lst_or (p : option Z) (s : list Z) : option Z :=
  match s with [] => p | x :: s => lst_or (Some x) s end.

Fixpoint dchain (J : Z → jump_node_t) (p : option Z) (s : list Z) (q : option Z) : Prop :=
  match s with
  | [] => True
  | x :: s => J x = JumpNode (gap_prev p x) (gap_next x (hd_or s q)) ∧ dchain J (Some x) s q
  end.

Lemma dchain_app J p s1 s2 q :
  dchain J p (s1 ++ s2) q ↔ dchain J p s1 (hd_or s2 q) ∧ dchain J (lst_or p s1) s2 q.
Proof.
  revert p. induction s1 as [|x s1 IH]; intros p; simpl; [tauto|]. rewrite IH.
  replace (hd_or (s1 ++ s2) q) with (hd_or s1 (hd_or s2 q)) by (by destruct s1). tauto.
Qed.

Lemma lst_or_snoc p s x : lst_or p (s ++ [x]) = Some x.
Proof. revert p. induction s as [|y s IH]; intros p; simpl; auto. Qed.

Lemma lst_or_elem p s : s ≠ [] → ∃ x, lst_or p s = Some x ∧ x ∈ s.
Proof.
  destruct s as [|y s _] using rev_ind; [done|]. intros _. exists y.
  rewrite lst_or_snoc. split; [done|set_solver].
Qed.

Lemma dchain_ext J J' p s q : (∀ x, x ∈ s → J' x = J x) → dchain J p s q → dchain J' p s q.
Proof.
  revert p. induction s as [|x s IH]; intros p Hext; simpl; [done|]. intros [Hx Hs]. split.
  - rewrite Hext by set_solver. done.
  - apply IH; [|done]. intros y Hy. apply Hext. set_solver.
Qed.

(** Redirecting the two ends of a segment. *)
Lemma dchain_set_next J J' p s q q' :
  dchain J p s q → NoDup s →
  (∀ x, x ∈ s → J' x = if decide (lst_or None s = Some x)
                       then JumpNode (prev (J x)) (gap_next x q') else J x) →
  dchain J' p s q'.
Proof.
  destruct s as [|y s _] using rev_ind; [done|]. intros Hch Hnd Hext.
  apply dchain_app in Hch as [Hch1 Hch2]. apply dchain_app. simpl in Hch2 |- *.
  destruct Hch2 as [Hy _]. rewrite lst_or_snoc in Hext.
  apply NoDup_app in Hnd as (Hnd & Hdis & _). split.
  - apply (dchain_ext J); [|done]. intros x Hx. rewrite Hext by set_solver.
    rewrite decide_False; [done|]. intros [= ->]. apply (Hdis x Hx). set_solver.
  - split; [|done]. rewrite Hext by set_solver. rewrite decide_True by done. by rewrite Hy.
Qed.

Lemma dchain_set_prev J J' p p' s q :
  dchain J p s q → NoDup s →
  (∀ x, x ∈ s → J' x = if decide (hd_or s None = Some x)
                       then JumpNode (gap_prev p' x) (next (J x)) else J x) →
  dchain J' p' s q.
Proof.
  destruct s as [|y s]; [done|]. simpl. intros [Hy Hch] [Hys Hnd]%NoDup_cons Hext. split.
  - rewrite Hext by set_solver. rewrite decide_True by done. by rewrite Hy.
  - apply (dchain_ext J); [|done]. intros x Hx. rewrite Hext by set_solver.
    rewrite decide_False; [done|]. intros [= ->]. done.
Qed.

(** Taking a middle segment out. *)
Lemma dchain_skip J J' A B C :
  dchain J None (A ++ B ++ C) None → NoDup (A ++ B ++ C) →
  (∀ x, x ∈ A ++ C → J' x =
     if decide (lst_or None A = Some x) then JumpNode (prev (J x)) (gap_next x (hd_or C None))
     else if decide (hd_or C None = Some x) then JumpNode (gap_prev (lst_or None A) x) (next (J x))
     else J x) →
  dchain J' None (A ++ C) None.
Proof.
  intros Hch Hnd Hext.
  apply dchain_app in Hch as [HA HBC]. apply dchain_app in HBC as [_ HC].
  apply NoDup_app in Hnd as (HndA & Hdis & HndBC). apply NoDup_app in HndBC as (_ & _ & HndC).
  apply dchain_app. split.
  - eapply dchain_set_next; [done..|]. intros x Hx. rewrite Hext by set_solver.
    case_decide; [done|]. rewrite decide_False; [done|].
    intros Heq. apply (Hdis x Hx). destruct C as [|y C]; [done|]. simpl in Heq. set_solver.
  - eapply dchain_set_prev; [done..|]. intros x Hx. rewrite Hext by set_solver.
    rewrite decide_False; [done|]. intros Heq. destruct A as [|y A]; [done|].
    destruct (lst_or_elem None (y :: A)) as (z & Hz & HzA); [done|].
    rewrite Hz in Heq. injection Heq as ->. apply (Hdis x HzA). set_solver.
Qed.

(** ** A level of the jump tree *)
Definition jn (c : chunk_t) (i : Z) : jump_node_t := acell (jump_tree c) (i - 1).

(** Level [l] represents the list [S]; the cells of [B] have left the list but are
    not cleared yet. *)
Record level_but (c : chunk_t) (l : Z) (S B : list Z) : Prop := {
  lo_chain : dchain (jn c) None S None;
  lo_out : ∀ i, on_level l i → i ∉ S → i ∉ B → jn c i = JumpNode 0 0;
  lo_first : acell (jump_tree_first_index c) l = default 0 (hd_or S None);
  lo_count : acell (avail_nodes_count c) l = Z.of_nat (length S);
  lo_sorted : StronglySorted Z.lt S;
  lo_level : Forall (on_level l) S
}.

Definition level_ok (c : chunk_t) (l : Z) (S : list Z) : Prop := level_but c l S [].

Record chunk_arrays (c : chunk_t) : Prop := {
  ca_avail : alen (avail_nodes_count c) = 12;
  ca_reg : alen (reg_size_small_medium c) = 2048;
  ca_first : alen (jump_tree_first_index c) = 12;
  ca_jump : alen (jump_tree c) = 4095;
  ca_buddy : alen (buddy_tree c) = 1024
}.

(** [c'] differs from [c] at most in the jump tree data of level [l]. *)
Record level_frame (l : Z) (c c' : chunk_t) : Prop := {
  lf_jn : ∀ i, ¬ on_level l i → jn c' i = jn c i;
  lf_first : ∀ l', l' ≠ l → acell (jump_tree_first_index c') l' = acell (jump_tree_first_index c) l';
  lf_avail : ∀ l', l' ≠ l → acell (avail_nodes_count c') l' = acell (avail_nodes_count c) l';
  lf_entry : chunk_entry c' = chunk_entry c;
  lf_reg : reg_size_small_medium c' = reg_size_small_medium c;
  lf_buddy : buddy_tree c' = buddy_tree c;
  lf_arrays : chunk_arrays c → chunk_arrays c'
}.

Lemma sorted_NoDup (S : list Z) : StronglySorted Z.lt S → NoDup S.
Proof.
  induction 1 as [|x S _ IH Hall]; [constructor|]. apply NoDup_cons. split; [|done].
  intros Hx. rewrite Forall_forall in Hall. specialize (Hall x Hx). lia.
Qed.

Lemma level_but_frame l l' c c' S B :
  0 ≤ l → 0 ≤ l' → l ≠ l' → level_frame l' c c' → level_but c l S B → level_but c' l S B.
Proof.
  intros Hl Hl' Hne [Hjn Hfi Hav _ _ _ _] [Hch Hout Hfirst Hcount Hsort Hlev].
  assert (∀ i, on_level l i → jn c' i = jn c i) as Heq.
  { intros i Hi. apply Hjn. intros Hi'. apply Hne. by eapply on_level_unique. }
  split; [|intros i Hi Hn Hb; rewrite Heq by done; auto|by rewrite Hfi|by rewrite Hav|done|done].
  apply (dchain_ext (jn c)); [|done]. intros x Hx. rewrite Forall_forall in Hlev. auto.
Qed.

(** ** Unlinking *)
Definition skip (J : Z → jump_node_t) (p q : option Z) (x : Z) : jump_node_t :=
  if decide (p = Some x) then JumpNode (prev (J x)) (gap_next x q)
  else if decide (q = Some x) then JumpNode (gap_prev p x) (next (J x))
  else J x.

(** The neighbours of [B] are linked past it; the count is not updated yet. *)
Record relinked (c c1 : chunk_t) (l : Z) (A B C : list Z) : Prop := {
  rk_jn : ∀ x, x ∉ B → jn c1 x = skip (jn c) (lst_or None A) (hd_or C None) x;
  rk_first : A ++ C ≠ [] → acell (jump_tree_first_index c1) l = default 0 (hd_or (A ++ C) None);
  rk_first_ne : ∀ l', l' ≠ l →
    acell (jump_tree_first_index c1) l' = acell (jump_tree_first_index c) l';
  rk_avail : avail_nodes_count c1 = avail_nodes_count c;
  rk_entry : chunk_entry c1 = chunk_entry c;
  rk_reg : reg_size_small_medium c1 = reg_size_small_medium c;
  rk_buddy : buddy_tree c1 = buddy_tree c;
  rk_arrays : chunk_arrays c → chunk_arrays c1
}.

Lemma relinked_level c c1 c2 l A B C :
  level_ok c l (A ++ B ++ C) → relinked c c1 l A B C →
  (∀ x, x ∉ B → jn c2 x = jn c1 x) →
  acell (jump_tree_first_index c2) l = default 0 (hd_or (A ++ C) None) →
  acell (avail_nodes_count c2) l = Z.of_nat (length (A ++ C)) →
  level_but c2 l (A ++ C) B.
Proof.
  intros [Hch Hout _ _ Hsort Hlev] Hrk Hjn Hfirst Hcount.
  pose proof (sorted_NoDup _ Hsort) as Hnd.
  assert (∀ x, x ∈ A ++ C → x ∉ B) as HB.
  { intros x Hx HxB. apply NoDup_app in Hnd as (_ & H1 & Hnd).
    apply NoDup_app in Hnd as (_ & H2 & _). apply elem_of_app in Hx as [Hx|Hx];
      [apply (H1 x Hx); set_solver|by apply (H2 x HxB)]. }
  split; try done.
  - apply (dchain_skip (jn c) _ A B C); [done..|]. intros x Hx.
    rewrite Hjn, (rk_jn _ _ _ _ _ _ Hrk) by auto. done.
  - intros i Hi HS Hi2. rewrite Hjn, (rk_jn _ _ _ _ _ _ Hrk) by done. unfold skip.
    rewrite !decide_False.
    + apply Hout; [done|set_solver|set_solver].
    + intros Hq. destruct C as [|z C]; [done|]. simpl in Hq. set_solver.
    + intros Hp. destruct A as [|y A]; [done|].
      destruct (lst_or_elem None (y :: A)) as (z & Hz & HzA); [done|].
      rewrite Hz in Hp. injection Hp as ->. set_solver.
  - apply StronglySorted_app in Hsort as (Hlt & HA & HBC).
    apply StronglySorted_app_2; [|done|by eapply StronglySorted_app_1_r].
    intros x y Hx Hy. apply Hlt; [done|set_solver].
  - rewrite !Forall_app in *. tauto.
Qed.

(** ** Jump tree cells *)
Definition jc (jt : arr jump_node_t) (i : Z) : jump_node_t := acell jt (i - 1).
Definition jset (jt : arr jump_node_t) (i : Z) (n : jump_node_t) : arr jump_node_t :=
  aupd jt (i - 1) n.

Lemma jc_jset jt i n j : jc (jset jt i n) j = if decide (i = j) then n else jc jt j.
Proof. unfold jc, jset. rewrite acell_aupd. repeat case_decide; try done; lia. Qed.

Lemma alen_jset jt i n : alen (jset jt i n) = alen jt.
Proof. done. Qed.

Section jump_ops.
Context (jt : arr jump_node_t) (i v : Z) (Hlen : alen jt = 4095) (Hi : 1 ≤ i ≤ 4095).

Lemma get_jt_ok : get_jt_item jt i = Ok (jc jt i).
Proof. apply aread_in. lia. Qed.
Lemma set_next_ok : set_jt_item_next jt i v = Ok (jset jt i (JumpNode (prev (jc jt i)) (u16 v))).
Proof.
  unfold set_jt_item_next. rewrite aread_in by lia. cbn [mbind outcome_bind].
  by rewrite awrite_in by lia.
Qed.
Lemma set_prev_ok : set_jt_item_prev jt i v = Ok (jset jt i (JumpNode (u16 v) (next (jc jt i)))).
Proof.
  unfold set_jt_item_prev. rewrite aread_in by lia. cbn [mbind outcome_bind].
  by rewrite awrite_in by lia.
Qed.
Lemma incr_next_ok : 0 ≤ v < 65536 → 0 ≤ next (jc jt i) + v < 65536 →
  incr_jt_item_next jt i v = Ok (jset jt i (JumpNode (prev (jc jt i)) (next (jc jt i) + v))).
Proof.
  intros. unfold incr_jt_item_next. rewrite aread_in by lia. cbn [mbind outcome_bind].
  rewrite awrite_in by lia. unfold jc in *.
  by rewrite (wrap_small 16 v), wrap_small by lia.
Qed.
Lemma incr_prev_ok : 0 ≤ v < 65536 → 0 ≤ prev (jc jt i) + v < 65536 →
  incr_jt_item_prev jt i v = Ok (jset jt i (JumpNode (prev (jc jt i) + v) (next (jc jt i)))).
Proof.
  intros. unfold incr_jt_item_prev. rewrite aread_in by lia. cbn [mbind outcome_bind].
  rewrite awrite_in by lia. unfold jc in *.
  by rewrite (wrap_small 16 v), wrap_small by lia.
Qed.
End jump_ops.

(** The two ends of an interval of a level's list, and its neighbours. *)
Record interval_ends (c : chunk_t) (l a m : Z) (p q : option Z) : Prop := {
  ie_prev : prev (jn c a) = gap_prev p a;
  ie_next : next (jn c (a + m - 1)) = gap_next (a + m - 1) q;
  ie_a : 1 ≤ a ∧ a + m - 1 ≤ 4095;
  ie_p : match p with None => True
         | Some y => 1 ≤ y < a ∧ next (jn c y) = a - y end;
  ie_q : match q with None => True
         | Some z => a + m - 1 < z ≤ 4095 ∧ prev (jn c z) = z - (a + m - 1) end
}.

Lemma interval_ends_ok c l A a m C :
  0 ≤ l ≤ 11 → 1 ≤ m → level_ok c l (A ++ seqZ a m ++ C) →
  interval_ends c l a m (lst_or None A) (hd_or C None).
Proof.
  intros Hl Hm [Hch _ _ _ Hsort Hlev].
  assert (Forall (λ x, 1 ≤ x ≤ 4095) (A ++ seqZ a m ++ C)) as Hall.
  { eapply Forall_impl; [exact Hlev|]. intros x Hx. by apply (on_level_le l). }
  assert (seqZ a m = a :: seqZ (a + 1) (m - 1)) as Hfst.
  { rewrite seqZ_cons by lia. f_equal; f_equal; lia. }
  assert (seqZ a m = seqZ a (m - 1) ++ [a + m - 1]) as Hlst.
  { replace m with ((m - 1) + 1) at 1 by lia. rewrite seqZ_app by lia. f_equal.
    rewrite seqZ_cons by lia. f_equal. lia. }
  pose proof Hch as Hch1. rewrite Hfst in Hch1. pose proof Hch as Hch2. rewrite Hlst in Hch2.
  apply dchain_app in Hch1 as [HA1 Hch1]. simpl in Hch1. destruct Hch1 as [Ha _].
  apply dchain_app in Hch2 as [_ Hch2]. rewrite <- app_assoc in Hch2.
  apply dchain_app in Hch2 as [_ Hch2]. simpl in Hch2. destruct Hch2 as [Hb HC].
  rewrite Forall_app, Forall_app, !Forall_forall in Hall. destruct Hall as (HallA & HallB & HallC).
  split.
  - by rewrite Ha.
  - by rewrite Hb.
  - split; [apply HallB|apply HallB]; apply elem_of_seqZ; lia.
  - destruct A as [|y A _] using rev_ind; [done|]. rewrite lst_or_snoc.
    apply dchain_app in HA1 as [_ [Hy _]]. rewrite Hy. simpl. split; [|done].
    split; [apply HallA; set_solver|].
    eapply (StronglySorted_app_1_elem_of Z.lt); [exact Hsort|set_solver|].
    rewrite Hfst. set_solver.
  - destruct C as [|z C]; [done|]. simpl in HC |- *. destruct HC as [Hz _]. rewrite Hz. simpl.
    split; [|lia]. split; [|apply HallC; set_solver].
    rewrite app_assoc in Hsort.
    eapply (StronglySorted_app_1_elem_of Z.lt); [exact Hsort| |set_solver].
    rewrite Hlst. set_solver.
Qed.

Lemma level_length c l S B : 0 ≤ l ≤ 11 → level_but c l S B → Z.of_nat (length S) ≤ 4095.
Proof.
  intros Hl [_ _ _ _ Hsort Hlev]. apply sorted_NoDup in Hsort.
  assert (length S ≤ length (seqZ 1 4095))%nat as Hle; [|rewrite length_seqZ in Hle; lia].
  apply submseteq_length, NoDup_submseteq; [done|]. intros x Hx.
  rewrite Forall_forall in Hlev. specialize (Hlev x Hx). apply on_level_le in Hlev; [|done].
  apply elem_of_seqZ. lia.
Qed.

Lemma hd_or_app_l (A : list Z) y C : lst_or None A = Some y → hd_or (A ++ C) None = hd_or A None.
Proof. by destruct A. Qed.

Lemma lst_or_None A : lst_or None A = None → A = [].
Proof.
  destruct A as [|x A _] using rev_ind; [done|]. by rewrite lst_or_snoc.
Qed.

Lemma hd_or_None C : hd_or C None = None → C = [].
Proof. by destruct C. Qed.

Section relink.
Context (c : chunk_t) (l a m : Z) (A C : list Z).
Context (Hl : 0 ≤ l ≤ 11) (Hm : 1 ≤ m) (Harr : chunk_arrays c).
Context (Hlev : level_ok c l (A ++ seqZ a m ++ C)).


(** The four cases of the neighbours, and what each has to do. *)
Lemma relinked_case (jt : arr jump_node_t) (fi : arr Z) :
  alen jt = 4095 → alen fi = 12 →
  (∀ x, x ∉ seqZ a m → jc jt x = skip (jn c) (lst_or None A) (hd_or C None) x) →
  (lst_or None A = None → ∀ z, hd_or C None = Some z → acell fi l = z) →
  (lst_or None A ≠ None → acell fi l = acell (jump_tree_first_index c) l) →
  (∀ l', l' ≠ l → acell fi l' = acell (jump_tree_first_index c) l') →
  relinked c (with_jump (with_first c fi) jt) l A (seqZ a m) C.
Proof.
  intros Hjl Hfl Hjt Hf1 Hf2 Hf3. split; try done.
  - intros Hne. destruct (lst_or None A) as [y|] eqn:Ep.
    + rewrite (hd_or_app_l A y C) by done. rewrite <- (hd_or_app_l A y (seqZ a m ++ C)) by done.
      rewrite <- (lo_first _ _ _ _ Hlev). by apply Hf2.
    + apply lst_or_None in Ep. subst A. simpl in Hne |- *. destruct C as [|z C']; [done|].
      simpl. by apply Hf1.
  - intros [Ha Hr Hf Hj Hb]. by split.
Qed.

Lemma relink_span_ok :
  ∃ c1, relink_span c (jn c a) (jn c (a + m - 1)) a (a + m - 1) m l = Ok c1 ∧
        relinked c c1 l A (seqZ a m) C.
Proof.
  destruct (interval_ends_ok c l A a m C Hl Hm Hlev) as [Hprev Hnext Ha Hp Hq].
  pose proof (ca_jump _ Harr) as Hjl. pose proof (ca_first _ Harr) as Hfl.
  unfold relink_span. rewrite Hprev, Hnext.
  assert (with_first c (jump_tree_first_index c) = c) as Hid by by destruct c.
  revert Hp Hq. destruct (lst_or None A) as [y|] eqn:Ep, (hd_or C None) as [z|] eqn:Eq;
    intros Hp Hq; cbn [gap_prev gap_next].
  - destruct Hp as [Hy Hyn], Hq as [Hz Hzp].
    replace (a - y =? 0) with false by lia. replace (z - _ =? 0) with false by lia.
    cbn [andb]. replace (a - (a - y)) with y by lia.
    replace (a + m - 1 + (z - (a + m - 1))) with z by lia. unfold jn in Hyn, Hzp.
    rewrite incr_next_ok by (try done; unfold jc; rewrite ?Hyn; lia). cbn [mbind outcome_bind].
    rewrite incr_prev_ok by (try done; rewrite ?jc_jset, ?decide_False by lia; unfold jc;
      rewrite ?Hzp; lia).
    cbn [mbind outcome_bind]. eexists. split; [reflexivity|]. rewrite <- Hid at 2.
    apply relinked_case; rewrite ?Ep, ?Eq; [done|done| |done|done|done].
    intros x Hx. rewrite !jc_jset. unfold skip. rewrite (decide_False (P := y = z)) by lia.
    fold (jc (jump_tree c) z). fold (jc (jump_tree c) y).
    destruct (decide (z = x)) as [<-|Hzx].
    { rewrite decide_False by (intros [= ?]; lia). rewrite decide_True by done.
      unfold gap_prev, jn, jc. f_equal. rewrite Hzp. lia. }
    destruct (decide (y = x)) as [<-|Hyx].
    { rewrite decide_True by done. unfold gap_next, jn, jc. f_equal. rewrite Hyn. lia. }
    rewrite !decide_False by congruence. done.
  - destruct Hp as [Hy Hyn]. replace (a - y =? 0) with false by lia. cbn [andb Z.eqb].
    replace (a - (a - y)) with y by lia. rewrite set_next_ok by (done || lia).
    cbn [mbind outcome_bind]. eexists. split; [reflexivity|]. rewrite <- Hid at 2.
    apply relinked_case; rewrite ?Ep, ?Eq; [done|done| |done|done|done].
    intros x Hx. rewrite jc_jset. unfold skip.
    destruct (decide (y = x)) as [<-|Hyx]; [by rewrite decide_True by done|].
    rewrite !decide_False by congruence. done.
  - destruct Hq as [Hz Hzp]. replace (z - _ =? 0) with false by lia. cbn [andb Z.eqb].
    replace (a + m - 1 + (z - (a + m - 1))) with z by lia.
    rewrite awrite_in by lia. cbn [mbind outcome_bind]. rewrite set_prev_ok by (done || lia).
    cbn [mbind outcome_bind]. eexists. split; [reflexivity|].
    apply relinked_case; rewrite ?Ep, ?Eq; [done|done| |by intros _ ? [= <-]; rewrite acell_aupd_eq|done|].
    2: { intros l' Hl'. by rewrite acell_aupd_ne by lia. }
    intros x Hx. rewrite jc_jset. unfold skip. rewrite (decide_False (P := None = _)) by done.
    destruct (decide (z = x)) as [<-|Hzx]; [by rewrite decide_True by done|].
    rewrite !decide_False by congruence. done.
  - cbn [andb Z.eqb]. rewrite awrite_in by lia. cbn [mbind outcome_bind].
    eexists. split; [reflexivity|].
    assert (with_jump c (jump_tree c) = c) as Hidj by by destruct c.
    change (with_first c (aupd (jump_tree_first_index c) l 0)) with
      (with_jump (with_first c (aupd (jump_tree_first_index c) l 0)) (jump_tree c)).
    apply relinked_case; rewrite ?Ep, ?Eq; [done|done| |by intros _ ? [=]|done|].
    2: { intros l' Hl'. by rewrite acell_aupd_ne by lia. }
    intros x Hx. unfold skip. rewrite !decide_False by done. done.
Qed.
End relink.

Section relink_one.
Context (c : chunk_t) (l a : Z) (A C : list Z).
Context (Hl : 0 ≤ l ≤ 11) (Harr : chunk_arrays c).
Context (Hlev : level_ok c l (A ++ seqZ a 1 ++ C)).

Lemma relink_node_ok :
  ∃ c1, relink_node c (jn c a) a l = Ok c1 ∧ relinked c c1 l A (seqZ a 1) C.
Proof.
  destruct (interval_ends_ok c l A a 1 C Hl ltac:(lia) Hlev) as [Hprev Hnext Ha Hp Hq].
  replace (a + 1 - 1) with a in * by lia.
  pose proof (ca_jump _ Harr) as Hjl. pose proof (ca_first _ Harr) as Hfl.
  unfold relink_node. rewrite Hprev, Hnext.
  assert (with_first c (jump_tree_first_index c) = c) as Hid by by destruct c.
  revert Hp Hq. destruct (lst_or None A) as [y|] eqn:Ep, (hd_or C None) as [z|] eqn:Eq;
    intros Hp Hq; cbn [gap_prev gap_next].
  - destruct Hp as [Hy Hyn], Hq as [Hz Hzp].
    replace (a - y =? 0) with false by lia. replace (z - _ =? 0) with false by lia.
    replace (a - (a - y)) with y by lia. replace (a + (z - a)) with z by lia.
    unfold jn in Hyn, Hzp.
    rewrite incr_next_ok by (try done; unfold jc; rewrite ?Hyn; lia). cbn [mbind outcome_bind].
    rewrite incr_prev_ok by (try done; rewrite ?jc_jset, ?decide_False by lia; unfold jc;
      rewrite ?Hzp; lia).
    cbn [mbind outcome_bind]. eexists. split; [reflexivity|]. rewrite <- Hid at 2.
    apply (relinked_case c l a 1 A C Hlev); rewrite ?Ep, ?Eq; [done|done| |done|done|done].
    intros x Hx. rewrite !jc_jset. unfold skip. rewrite (decide_False (P := y = z)) by lia.
    fold (jc (jump_tree c) z). fold (jc (jump_tree c) y).
    destruct (decide (z = x)) as [<-|Hzx].
    { rewrite decide_False by (intros [= ?]; lia). rewrite decide_True by done.
      unfold gap_prev, jn, jc. f_equal. rewrite Hzp. lia. }
    destruct (decide (y = x)) as [<-|Hyx].
    { rewrite decide_True by done. unfold gap_next, jn, jc. f_equal. rewrite Hyn. lia. }
    rewrite !decide_False by congruence. done.
  - destruct Hp as [Hy Hyn]. cbn [Z.eqb].
    replace (a - (a - y)) with y by lia. rewrite set_next_ok by (done || lia).
    cbn [mbind outcome_bind]. eexists. split; [reflexivity|]. rewrite <- Hid at 2.
    apply (relinked_case c l a 1 A C Hlev); rewrite ?Ep, ?Eq; [done|done| |done|done|done].
    intros x Hx. rewrite jc_jset. unfold skip.
    destruct (decide (y = x)) as [<-|Hyx]; [by rewrite decide_True by done|].
    rewrite !decide_False by congruence. done.
  - destruct Hq as [Hz Hzp]. replace (z - _ =? 0) with false by lia. cbn [Z.eqb].
    replace (a + (z - a)) with z by lia.
    rewrite awrite_in by lia. cbn [mbind outcome_bind]. rewrite set_prev_ok by (done || lia).
    cbn [mbind outcome_bind]. eexists. split; [reflexivity|].
    apply (relinked_case c l a 1 A C Hlev); rewrite ?Ep, ?Eq;
      [done|done| |by intros _ ? [= <-]; rewrite acell_aupd_eq|done|].
    2: { intros l' Hl'. by rewrite acell_aupd_ne by lia. }
    intros x Hx. rewrite jc_jset. unfold skip. rewrite (decide_False (P := None = _)) by done.
    destruct (decide (z = x)) as [<-|Hzx]; [by rewrite decide_True by done|].
    rewrite !decide_False by congruence. done.
  - cbn [Z.eqb]. rewrite set_next_ok by (done || lia). cbn [mbind outcome_bind].
    eexists. split; [reflexivity|]. rewrite <- Hid at 2.
    apply (relinked_case c l a 1 A C Hlev); rewrite ?Ep, ?Eq; [done|done| |by intros _ ? [=]|done|done].
    intros x Hx. rewrite jc_jset, decide_False.
    2: { intros <-. apply Hx. apply elem_of_seqZ. lia. }
    unfold skip. by rewrite !decide_False by done.
Qed.
End relink_one.

Lemma relinked_off_level c c1 l A B C i :
  level_ok c l (A ++ B ++ C) → relinked c c1 l A B C → ¬ on_level l i → jn c1 i = jn c i.
Proof.
  intros [_ _ _ _ _ Hlev] Hrk Hi. rewrite Forall_forall in Hlev.
  rewrite (rk_jn _ _ _ _ _ _ Hrk) by (intros HB; apply Hi, Hlev; set_solver).
  unfold skip. rewrite !decide_False; [done| |].
  - intros Hq. destruct C as [|z C]; [done|]. simpl in Hq. injection Hq as ->.
    apply Hi, Hlev. set_solver.
  - intros Hp. destruct A as [|y A]; [done|].
    destruct (lst_or_elem None (y :: A)) as (z & Hz & HzA); [done|].
    rewrite Hz in Hp. injection Hp as ->. apply Hi, Hlev. set_solver.
Qed.

(** The first loop body removes one node from its level. *)
Lemma unlink_node_ok c l a A C :
  0 ≤ l ≤ 11 → chunk_arrays c → on_level l a → level_ok c l (A ++ seqZ a 1 ++ C) →
  ∃ c', unlink_node c (jn c a) a l = Ok c' ∧ level_ok c' l (A ++ C) ∧ level_frame l c c'.
Proof.
  intros Hl Harr Ha Hlev.
  destruct (relink_node_ok c l a A C Hl Harr Hlev) as (c1 & Hre & Hrk).
  pose proof (level_length _ _ _ _ Hl Hlev) as Hlen. pose proof (lo_count _ _ _ _ Hlev) as Hcount.
  rewrite !length_app, length_seqZ in Hlen, Hcount.
  pose proof (on_level_le l a Hl Ha) as Hab.
  pose proof (rk_arrays _ _ _ _ _ _ Hrk Harr) as Harr1.
  pose proof (ca_jump _ Harr1) as Hj1. pose proof (ca_avail _ Harr1) as Ha1.
  pose proof (ca_first _ Harr1) as Hf1.
  unfold unlink_node. rewrite Hre. cbn [mbind outcome_bind].
  rewrite set_next_ok by done. cbn [mbind outcome_bind].
  rewrite set_prev_ok by done. cbn [mbind outcome_bind].
  rewrite jc_jset, decide_True by done. change (u16 0) with 0. cbn [next].
  cbn [with_jump avail_nodes_count]. rewrite aread_in by lia. cbn [mbind outcome_bind].
  rewrite awrite_in by lia. cbn [mbind outcome_bind with_avail avail_nodes_count].
  rewrite aread_in by (autorewrite with carray; lia). cbn [mbind outcome_bind].
  rewrite acell_aupd_eq, (rk_avail _ _ _ _ _ _ Hrk), Hcount.
  set (jt' := jset _ _ _). set (av' := aupd _ _ _).
  assert (u16 (Z.of_nat (length A + (Z.to_nat 1 + length C)) - 1) = Z.of_nat (length (A ++ C)))
    as Hcnt by (rewrite length_app, wrap_small; lia).
  rewrite Hcnt.
  assert (∀ x, jc jt' x = if decide (a = x) then JumpNode 0 0 else jn c1 x) as Hjt'.
  { intros x. unfold jt'. rewrite !jc_jset. by case_decide. }
  assert (∀ fi, alen fi = 12 → acell fi l = default 0 (hd_or (A ++ C) None) →
    (∀ l', l' ≠ l → acell fi l' = acell (jump_tree_first_index c) l') →
    let c' := with_avail (with_jump (with_first c1 fi) jt') av' in
    level_ok c' l (A ++ C) ∧ level_frame l c c') as Hfin.
  { intros fi Hfl Hfi Hfne c'.
    assert (level_but c' l (A ++ C) (seqZ a 1)) as Hbut.
    { apply (relinked_level c c1); try done.
      - intros x Hx. unfold jn at 1. simpl. fold (jc jt' x). rewrite Hjt', decide_False; [done|].
        intros <-. apply Hx. apply elem_of_seqZ. lia.
      - simpl. unfold av'. by rewrite acell_aupd_eq, Hcnt. }
    split.
    - destruct Hbut as [? Hout ? ? ? ?]. split; try done. intros i Hi HS _.
      destruct (decide (a = i)) as [<-|Hne].
      + unfold jn. simpl. fold (jc jt' a). by rewrite Hjt', decide_True.
      + apply Hout; [done|done|]. rewrite elem_of_seqZ. lia.
    - split; simpl; try apply Hrk; try done.
      + intros i Hi. unfold jn at 1. simpl. fold (jc jt' i). rewrite Hjt', decide_False.
        * by eapply relinked_off_level.
        * by intros <-.
      + intros l' Hl'. unfold av'. by rewrite acell_aupd_ne by lia.
      + intros _. destruct Harr1, Harr. by split. }
  destruct (Z.eqb_spec (Z.of_nat (length (A ++ C))) 0) as [H0|H0].
  - cbn [with_jump with_avail jump_tree_first_index]. rewrite awrite_in by lia.
    cbn [mbind outcome_bind]. eexists. split; [reflexivity|].
    apply (Hfin (aupd (jump_tree_first_index c1) l 0)); [done| |].
    + rewrite acell_aupd_eq. destruct (A ++ C); [done|simpl in H0; lia].
    + intros l' Hl'. rewrite acell_aupd_ne by lia. by apply Hrk.
  - eexists. split; [reflexivity|].
    assert (with_first c1 (jump_tree_first_index c1) = c1) as Hid by by destruct c1.
    rewrite <- Hid. apply Hfin; [done| |apply Hrk].
    apply Hrk. intros Hnil. by rewrite Hnil in H0.
Qed.

(** The second loop body takes an interval of nodes out of its level; their cells
    are cleared later. *)
Lemma unlink_span_ok c l a m A C :
  0 ≤ l ≤ 11 → 1 ≤ m → chunk_arrays c → level_ok c l (A ++ seqZ a m ++ C) →
  ∃ c', unlink_span c a (a + m - 1) m l = Ok c' ∧
        level_but c' l (A ++ C) (seqZ a m) ∧ level_frame l c c'.
Proof.
  intros Hl Hm Harr Hlev.
  destruct (relink_span_ok c l a m A C Hl Hm Harr Hlev) as (c1 & Hre & Hrk).
  destruct (interval_ends_ok c l A a m C Hl Hm Hlev) as [_ _ Ha _ _].
  pose proof (level_length _ _ _ _ Hl Hlev) as Hlen. pose proof (lo_count _ _ _ _ Hlev) as Hcount.
  rewrite !length_app, length_seqZ in Hlen, Hcount.
  pose proof (rk_arrays _ _ _ _ _ _ Hrk Harr) as Harr1.
  pose proof (ca_avail _ Harr1) as Ha1. pose proof (ca_jump _ Harr) as Hj.
  unfold unlink_span. rewrite !get_jt_ok by lia. cbn [mbind outcome_bind].
  change (jc (jump_tree c) a) with (jn c a).
  change (jc (jump_tree c) (a + m - 1)) with (jn c (a + m - 1)). rewrite Hre. cbn [mbind outcome_bind].
  rewrite aread_in by lia. cbn [mbind outcome_bind]. rewrite awrite_in by lia.
  cbn [mbind outcome_bind]. eexists. split; [reflexivity|].
  rewrite (rk_avail _ _ _ _ _ _ Hrk), Hcount.
  assert (u16 (Z.of_nat (length A + (Z.to_nat m + length C)) - m) = Z.of_nat (length (A ++ C)))
    as Hcnt by (rewrite length_app, wrap_small; lia).
  rewrite Hcnt. split.
  - apply (relinked_level c c1); [done|done|done| |by simpl; rewrite acell_aupd_eq].
    destruct (decide (A ++ C = [])) as [Hnil|Hne]; [|by apply Hrk].
    apply app_eq_nil in Hnil as [-> ->]. simpl. revert Hre. unfold relink_span.
    destruct (interval_ends_ok c l [] a m [] Hl Hm Hlev) as [-> -> _ _ _]. simpl.
    rewrite awrite_in by (rewrite (ca_first _ Harr); lia). cbn [mbind outcome_bind].
    intros [= <-]. simpl. by rewrite acell_aupd_eq.
  - split; simpl; try apply Hrk; try done.
    + intros i Hi. by eapply (relinked_off_level c c1).
    + intros l' Hl'. by rewrite acell_aupd_ne by lia.
    + intros _. destruct Harr1, Harr. by split.
Qed.

(** ** The whole jump tree *)

(** Every level represents the nodes available after the allocations [T]. *)
Definition jump_ok (c : chunk_t) (T : list Z) : Prop :=
  ∀ l, 0 ≤ l ≤ 11 → level_ok c l (avail_list T l).

(** [jump_tree] cell of a node: linked or first exactly when it is available. *)
Lemma level_linked c l T i :
  0 ≤ l ≤ 11 → on_level l i → level_ok c l (avail_list T l) →
  (negb (next (jn c i) =? 0) || negb (prev (jn c i) =? 0) ||
   (acell (jump_tree_first_index c) l =? i)) = avail T i.
Proof.
  intros Hl Hi Hlev. destruct (avail T i) eqn:Hav.
  - assert (avail_list T l = avail_before T l i ++ seqZ i 1 ++ avail_after T l (i + 1)) as Hsp.
    { destruct Hi. apply avail_list_split; [lia..|]. intros j Hj. by replace j with i by lia. }
    rewrite Hsp in Hlev.
    destruct (interval_ends_ok c l _ i 1 _ Hl ltac:(lia) Hlev) as [Hp Hn _ Hpp Hqq].
    replace (i + 1 - 1) with i in * by lia. rewrite Hp, Hn.
    destruct (lst_or None (avail_before T l i)) as [y|] eqn:Ey; simpl.
    + replace (i - y =? 0) with false by lia. simpl. by rewrite orb_true_r.
    + apply lst_or_None in Ey. rewrite (lo_first _ _ _ _ Hlev), Ey, seqZ_cons by lia.
      simpl. by rewrite Z.eqb_refl, orb_true_r.
  - assert (i ∉ avail_list T l) as Hnin.
    { rewrite avail_list_elem by lia. intros [_ H]. congruence. }
    rewrite (lo_out _ _ _ _ Hlev i) by (done || set_solver). simpl.
    rewrite (lo_first _ _ _ _ Hlev). apply Z.eqb_neq.
    pose proof (on_level_pos l i ltac:(lia) Hi).
    destruct (avail_list T l) as [|x s]; simpl; [lia|]. intros ->. apply Hnin. set_solver.
Qed.

(** The list of a level without an interval of its nodes. *)
Lemma avail_list_remove T n l a m :
  0 ≤ l → 2 ^ l ≤ a → 0 ≤ m → a + m ≤ 2 ^ (l + 1) →
  (∀ i, on_level l i → overlapb n i = true ↔ a ≤ i < a + m) →
  avail_list (n :: T) l = avail_before T l a ++ avail_after T l (a + m).
Proof.
  intros Hl Ha Hm Hb Hov. unfold avail_list, avail_before, avail_after.
  rewrite (level_split l a m), !filter_app by done.
  assert (∀ i, i ∈ seqZ (2 ^ l) (a - 2 ^ l) ++ seqZ (a + m) (2 ^ (l + 1) - (a + m)) →
          avail (n :: T) i = avail T i) as Hout.
  { intros i Hi. rewrite avail_cons.
    assert (on_level l i ∧ ¬ (a ≤ i < a + m)) as [Hlv Hno].
    { unfold on_level. rewrite elem_of_app, !elem_of_seqZ in Hi. lia. }
    destruct (overlapb n i) eqn:Ho; [|done]. apply Hov in Ho; [done|done]. }
  rewrite (filter_none _ (seqZ a m)).
  - f_equal; apply filter_ext_elem; intros i Hi; rewrite Hout by set_solver; done.
  - intros i Hi%elem_of_seqZ. rewrite avail_cons.
    assert (overlapb n i = true) as -> by (apply Hov; [split; lia|lia]). done.
Qed.
