(* ===== verification/ChunkAlloc.v ===== *)
(** * ChunkAlloc: chunk_allocate_with_node against the set of available nodes

    The three loops of chunk_allocate_with_node (up to the first ancestor that is
    already unavailable, down to the leaves, and the purge) turn a jump tree that
    represents [avail T] into one that represents [avail (n :: T)]. *)
From Stdlib Require Import ZArith Lia.
From stdpp Require Import base option numbers list gmap sorting.
From S2P Require Import Prelude.
From S2P Require Import CArray.
From S2P Require Import Random.
From S2P Require Import ContainerLL.
From S2P Require Import Chunk.
From S2P Require Import ChunkTree.

(** The fields the loops do not touch. *)
Record same_data (c c' : chunk_t) : Prop := {
  sd_entry : chunk_entry c' = chunk_entry c;
  sd_reg : reg_size_small_medium c' = reg_size_small_medium c;
  sd_buddy : buddy_tree c' = buddy_tree c
}.

#[export] Instance same_data_preorder : PreOrder same_data.
Proof.
  split; [by intros c|]. intros c1 c2 c3 [H1 H2 H3] [H4 H5 H6]. split; congruence.
Qed.

Lemma level_frame_same l c c' : level_frame l c c' → same_data c c'.
Proof. intros []. by split. Qed.

Section allocate.
Context (T : list Z) (n L : Z).
Context (HL : 0 ≤ L ≤ 11) (Hn : on_level L n) (Hav : avail T n = true).

Lemma pow2_pos k : 0 ≤ k → 0 < 2 ^ k.
Proof. intros. apply Z.pow_pos_nonneg; lia. Qed.

(** The ancestor of [n] on level [j]. *)
Definition ancestor (j : Z) : Z := n / 2 ^ (L - j).

Lemma ancestor_L : ancestor L = n.
Proof. unfold ancestor. rewrite Z.sub_diag. apply Z.div_1_r. Qed.

Lemma ancestor_parent j : j ≤ L → ancestor j / 2 = ancestor (j - 1).
Proof.
  intros Hj. unfold ancestor. replace (L - (j - 1)) with ((L - j) + 1) by lia.
  rewrite Z.pow_add_r by lia. pose proof (pow2_pos (L - j) ltac:(lia)).
  by rewrite Z.div_div by lia.
Qed.

Lemma ancestor_level j : 0 ≤ j ≤ L → on_level j (ancestor j).
Proof.
  intros Hj. unfold ancestor. destruct Hn as [Hn1 Hn2].
  pose proof (pow2_pos (L - j) ltac:(lia)).
  replace L with (j + (L - j)) in Hn1 at 1 by lia.
  replace (L + 1) with ((j + 1) + (L - j)) in Hn2 by lia.
  rewrite Z.pow_add_r in Hn1, Hn2 by lia.
  split; [apply Z.div_le_lower_bound|apply Z.div_lt_upper_bound]; lia.
Qed.

Lemma ancestor_overlap j i :
  0 ≤ j ≤ L → on_level j i → overlapb n i = true ↔ i = ancestor j.
Proof.
  intros Hj Hi. unfold ancestor. apply (overlapb_above L (L - j)); [lia|lia|done|].
  by replace (L - (L - j)) with j by lia.
Qed.

(** Above an unavailable ancestor every ancestor is unavailable. *)
Lemma ancestor_unavail j (d : nat) :
  0 ≤ j - Z.of_nat d → j ≤ L → avail T (ancestor j) = false →
  avail T (ancestor (j - Z.of_nat d)) = false.
Proof.
  induction d as [|d IH]; intros Hd Hj Hun; [by replace (j - Z.of_nat 0) with j by lia|].
  specialize (IH ltac:(lia) Hj Hun).
  apply not_true_iff_false. apply not_true_iff_false in IH. contradict IH.
  set (x := ancestor (j - Z.of_nat d)).
  apply (avail_child T (j - Z.of_nat (S d)) x); [lia| |].
  - replace (j - Z.of_nat (S d) + 1) with (j - Z.of_nat d) by lia. apply ancestor_level. lia.
  - unfold x. rewrite ancestor_parent by lia.
    by replace (j - Z.of_nat d - 1) with (j - Z.of_nat (S d)) by lia.
Qed.

Lemma avail_list_same j l :
  0 ≤ l ≤ j → j ≤ L → avail T (ancestor j) = false →
  avail_list (n :: T) l = avail_list T l.
Proof.
  intros Hl Hj Hun. apply filter_ext_elem. intros i Hi%elem_of_seqZ.
  assert (on_level l i) as Hlv by (unfold on_level; rewrite on_level_double by lia; lia).
  rewrite avail_cons. destruct (overlapb n i) eqn:Ho; [|done].
  apply (ancestor_overlap l) in Ho; [|lia|done]. subst i.
  pose proof (ancestor_unavail j (Z.to_nat (j - l)) ltac:(lia) Hj Hun) as Hul.
  replace (j - Z.of_nat (Z.to_nat (j - l))) with l in Hul by lia. by rewrite Hul.
Qed.

(** ** The first loop *)
Record up_state (c : chunk_t) (j : Z) : Prop := {
  us_arrays : chunk_arrays c;
  us_done : ∀ l, j < l ≤ L → level_ok c l (avail_list (n :: T) l);
  us_todo : ∀ l, 0 ≤ l ≤ j ∨ L < l ≤ 11 → level_ok c l (avail_list T l)
}.

Lemma unlink_up_step_stop c j :
  0 ≤ j ≤ L → up_state c j → avail T (ancestor j) = false →
  unlink_up_step (c, jn c (ancestor j), ancestor j, j) = Ok (inr c).
Proof.
  intros Hj [Harr _ Htodo] Hun.
  pose proof (level_linked c j T (ancestor j) ltac:(lia) (ancestor_level j Hj)
    (Htodo j ltac:(lia))) as Hlink. rewrite Hun in Hlink.
  unfold unlink_up_step. apply orb_false_iff in Hlink as [Hlink Hf]. rewrite Hlink.
  rewrite aread_in by (rewrite (ca_first _ Harr); lia). cbn [mbind outcome_bind].
  by rewrite Hf.
Qed.

Lemma unlink_up_step_go c j :
  1 ≤ j ≤ L → up_state c j → avail T (ancestor j) = true →
  ∃ c', unlink_up_step (c, jn c (ancestor j), ancestor j, j) =
          Ok (inl (c', jn c' (ancestor (j - 1)), ancestor (j - 1), j - 1)) ∧
        up_state c' (j - 1) ∧ same_data c c'.
Proof.
  intros Hj [Harr Hdone Htodo] Hgo.
  pose proof (ancestor_level j ltac:(lia)) as Hlv.
  pose proof (Htodo j ltac:(lia)) as Hlev.
  pose proof (level_linked c j T (ancestor j) ltac:(lia) Hlv Hlev) as Hlink.
  rewrite Hgo in Hlink.
  assert (avail_list T j =
          avail_before T j (ancestor j) ++ seqZ (ancestor j) 1 ++ avail_after T j (ancestor j + 1))
    as Hsp.
  { destruct Hlv. apply avail_list_split; [lia..|]. intros i Hi.
    by replace i with (ancestor j) by lia. }
  rewrite Hsp in Hlev.
  destruct (unlink_node_ok c j (ancestor j) _ _ ltac:(lia) Harr Hlv Hlev)
    as (c' & Hun & Hlev' & Hframe).
  exists c'. split; [|split; [|by eapply level_frame_same]].
  - unfold unlink_up_step.
    assert ((if negb (next (jn c (ancestor j)) =? 0) || negb (prev (jn c (ancestor j)) =? 0)
      then Ok true
      else first ← aread (jump_tree_first_index c) j; Ok (first =? ancestor j)) = Ok true) as ->.
    { destruct (negb _ || negb _); [done|]. simpl in Hlink.
      rewrite aread_in by (rewrite (ca_first _ Harr); lia). cbn [mbind outcome_bind].
      by rewrite Hlink. }
    cbn [mbind outcome_bind]. rewrite Hun. cbn [mbind outcome_bind].
    unfold PARENT. rewrite ancestor_parent by lia.
    pose proof (on_level_le (j - 1) _ ltac:(lia) (ancestor_level (j - 1) ltac:(lia))).
    rewrite get_jt_ok by (lia || by apply (lf_arrays _ _ _ Hframe) in Harr as []).
    done.
  - assert (avail_list (n :: T) j =
            avail_before T j (ancestor j) ++ avail_after T j (ancestor j + 1)) as Hrem.
    { apply avail_list_remove; try (destruct Hlv; lia).
      intros i Hi. rewrite (ancestor_overlap j) by (lia || done). lia. }
    split.
    + by apply Hframe.
    + intros l Hl. destruct (decide (l = j)) as [->|Hne]; [by rewrite Hrem|].
      eapply (level_but_frame l j); [lia|lia|done|done|]. apply Hdone. lia.
    + intros l Hl. eapply (level_but_frame l j); [lia|lia|lia|done|]. apply Htodo. lia.
Qed.

Lemma root_unavail : avail T (ancestor 0) = false.
Proof.
  unfold avail. pose proof (ancestor_level 0 ltac:(lia)) as [_ Hlt]. simpl in Hlt.
  by replace (2 <=? ancestor 0) with false by lia.
Qed.

Lemma up_state_done c j :
  0 ≤ j ≤ L → up_state c j → avail T (ancestor j) = false → up_state c (-1).
Proof.
  intros Hj [Harr Hdone Htodo] Ha. split; [done| |intros l Hl; apply Htodo; lia].
  intros l Hl. destruct (decide (j < l)); [apply Hdone; lia|].
  rewrite (avail_list_same j) by (done || lia). apply Htodo. lia.
Qed.

Lemma unlink_up_ok (m : nat) c :
  Z.of_nat m ≤ L → up_state c (Z.of_nat m) →
  ∃ k c', (k ≤ S m)%nat ∧
    iterate unlink_up_step k (c, jn c (ancestor (Z.of_nat m)), ancestor (Z.of_nat m), Z.of_nat m)
      = Ok (inr c') ∧
    up_state c' (-1) ∧ same_data c c'.
Proof.
  revert c. induction m as [|m IH]; intros c Hm Hst.
  - exists 1%nat, c. rewrite iterate_1. split; [lia|]. split; [|split; [|done]].
    + apply unlink_up_step_stop; [lia|done|apply root_unavail].
    + apply (up_state_done c 0); [lia|done|apply root_unavail].
  - destruct (avail T (ancestor (Z.of_nat (S m)))) eqn:Ha.
    + destruct (unlink_up_step_go c (Z.of_nat (S m))) as (c1 & Hstep & Hst1 & Hs1); [lia|done|done|].
      replace (Z.of_nat (S m) - 1) with (Z.of_nat m) in * by lia.
      destruct (IH c1) as (k & c2 & Hk & Hit & Hst2 & Hs2); [lia|done|].
      exists (S k), c2. split; [lia|]. split; [|split; [done|by etrans]].
      by rewrite (iterate_next _ _ _ _ Hstep).
    + exists 1%nat, c. rewrite iterate_1. split; [lia|]. split; [|split; [|done]].
      * by apply unlink_up_step_stop; [lia| |].
      * by apply (up_state_done c (Z.of_nat (S m))); [lia| |].
Qed.

(** ** The second loop *)

(** The descendants of [n] on level [l]: they start at [first_below l]. *)
Definition first_below (l : Z) : Z := n * 2 ^ (l - L).
Definition below (l : Z) : list Z := seqZ (first_below l) (2 ^ (l - L)).

Lemma below_avail (k : nat) i :
  L + Z.of_nat k ≤ 11 → n * 2 ^ Z.of_nat k ≤ i < (n + 1) * 2 ^ Z.of_nat k → avail T i = true.
Proof.
  revert i. induction k as [|k IH]; intros i Hk Hi.
  - change (Z.of_nat 0) with 0 in Hi. rewrite Z.pow_0_r in Hi. by replace i with n by lia.
  - rewrite Nat2Z.inj_succ, Z.pow_succ_r in Hi by lia.
    pose proof (Z.div_mod i 2 ltac:(lia)). pose proof (Z.mod_pos_bound i 2 ltac:(lia)).
    apply (avail_child T (L + Z.of_nat k)); [lia| |apply IH; lia].
    replace (L + Z.of_nat k + 1) with (L + Z.of_nat (S k)) by lia.
    destruct Hn as [Hn1 Hn2]. unfold on_level.
    replace (L + Z.of_nat (S k) + 1) with ((L + 1) + Z.of_nat (S k)) by lia.
    rewrite (Z.pow_add_r 2 (L + 1)), (Z.pow_add_r 2 L) by lia.
    rewrite Nat2Z.inj_succ, Z.pow_succ_r by lia.
    pose proof (pow2_pos (Z.of_nat k) ltac:(lia)). nia.
Qed.

Lemma first_below_bounds l :
  L ≤ l → 2 ^ l ≤ first_below l ∧ first_below l + 2 ^ (l - L) ≤ 2 ^ (l + 1).
Proof.
  intros Hl. unfold first_below. destruct Hn as [Hn1 Hn2].
  replace (l + 1) with ((L + 1) + (l - L)) by lia. rewrite (Z.pow_add_r 2 (L + 1)) by lia.
  replace (2 ^ l) with (2 ^ L * 2 ^ (l - L)) by (rewrite <- Z.pow_add_r by lia; f_equal; lia).
  pose proof (pow2_pos (l - L) ltac:(lia)). nia.
Qed.

Lemma below_split l :
  L ≤ l ≤ 11 →
  avail_list T l = avail_before T l (first_below l) ++ below l ++
                   avail_after T l (first_below l + 2 ^ (l - L)).
Proof.
  intros Hl. pose proof (first_below_bounds l ltac:(lia)) as [Hb1 Hb2].
  apply avail_list_split; [lia|lia|pose proof (pow2_pos (l - L)); lia|done|].
  intros i Hi. apply (below_avail (Z.to_nat (l - L))); [lia|].
  rewrite Z2Nat.id by lia. unfold first_below in Hi. lia.
Qed.

Lemma below_remove l :
  L ≤ l ≤ 11 →
  avail_list (n :: T) l = avail_before T l (first_below l) ++
                          avail_after T l (first_below l + 2 ^ (l - L)).
Proof.
  intros Hl. pose proof (first_below_bounds l ltac:(lia)) as [Hb1 Hb2].
  pose proof (pow2_pos (l - L) ltac:(lia)).
  apply avail_list_remove; [lia|lia|lia|done|]. intros i Hi.
  replace l with (L + (l - L)) in Hi by lia.
  rewrite (overlapb_below L (l - L)) by (lia || done). unfold first_below. lia.
Qed.

Lemma below_level l i : L ≤ l → i ∈ below l → on_level l i.
Proof.
  intros Hl Hi%elem_of_seqZ. pose proof (first_below_bounds l Hl). split; lia.
Qed.

(** Levels below [L] and above [l] have lost the subtree of [n], those above [p]
    are cleared as well; the levels from [l] on are untouched. *)
Record down_state (c : chunk_t) (p l : Z) : Prop := {
  dn_arrays : chunk_arrays c;
  dn_done : ∀ l', 0 ≤ l' < p → level_ok c l' (avail_list (n :: T) l');
  dn_dirty : ∀ l', p ≤ l' < l → level_but c l' (avail_list (n :: T) l') (below l');
  dn_todo : ∀ l', l ≤ l' ≤ 11 → level_ok c l' (avail_list T l')
}.

Lemma unlink_down_ok (k : nat) c l :
  l = 12 - Z.of_nat k → L < l → down_state c (L + 1) l →
  ∃ c', unlink_down k c (first_below l) (first_below l + 2 ^ (l - L) - 1) (2 ^ (l - L)) l = Ok c' ∧
        down_state c' (L + 1) 12 ∧ same_data c c'.
Proof.
  revert c l. induction k as [|k IH]; intros c l Hl HLl Hst; simpl.
  - exists c. by replace 12 with l by lia.
  - destruct Hst as [Harr Hdone Hdirty Htodo].
    pose proof (Htodo l ltac:(lia)) as Hlev. rewrite below_split in Hlev by lia.
    pose proof (pow2_pos (l - L) ltac:(lia)).
    destruct (unlink_span_ok c l (first_below l) (2 ^ (l - L)) _ _ ltac:(lia) ltac:(lia) Harr Hlev)
      as (c1 & Hun & Hlev1 & Hframe).
    rewrite Hun. cbn [mbind outcome_bind]. unfold LEFT_CHILD, RIGHT_CHILD.
    assert (2 ^ (l + 1 - L) = 2 ^ (l - L) * 2) as Hpow.
    { replace (l + 1 - L) with ((l - L) + 1) by lia. rewrite on_level_double; lia. }
    assert (first_below (l + 1) = first_below l * 2) as Hfst
      by (unfold first_below; rewrite Hpow; lia).
    destruct (IH c1 (l + 1)) as (c2 & Hd & Hst2 & Hsd); [lia|lia| |].
    + split; [by apply Hframe|..].
      * intros l' Hl'. apply (level_but_frame l' l c); [lia..|done|]. apply Hdone. lia.
      * intros l' Hl'. destruct (decide (l' = l)) as [->|]; [by rewrite below_remove by lia|].
        apply (level_but_frame l' l c); [lia..|done|]. apply Hdirty. lia.
      * intros l' Hl'. apply (level_but_frame l' l c); [lia..|done|]. apply Htodo. lia.
    + exists c2. split; [|split; [done|]].
      * rewrite <- Hd, Hfst, Hpow. f_equal; lia.
      * etrans; [by eapply level_frame_same|done].
Qed.

(** ** The third loop *)
Lemma purge_level c l jt :
  L < l ≤ 11 → down_state c l 12 →
  jt = afill_upd (jump_tree c) (first_below l - 1) (Z.to_nat (2 ^ (l - L))) (JumpNode 0 0) →
  down_state (with_jump c jt) (l + 1) 12.
Proof.
  intros Hl [Harr Hdone Hdirty Htodo] Hjt. pose proof (pow2_pos (l - L) ltac:(lia)).
  assert (∀ i, jn (with_jump c jt) i = if decide (i ∈ below l) then JumpNode 0 0 else jn c i) as Hjn.
  { intros i. unfold jn at 1. simpl. rewrite Hjt, acell_afill_upd.
    assert (i ∈ below l ↔ first_below l ≤ i < first_below l + 2 ^ (l - L)) as Hb
      by (unfold below; by rewrite elem_of_seqZ).
    case_decide; [rewrite decide_True by (rewrite Hb; lia)|rewrite decide_False by (rewrite Hb; lia)];
      done. }
  assert (∀ l' S B, 0 ≤ l' → l' ≠ l → level_but c l' S B → level_but (with_jump c jt) l' S B) as Hoff.
  { intros l' S B Hl' Hne. apply (level_but_frame l' l); [lia..|]. split; try done.
    - intros i Hi. rewrite Hjn, decide_False; [done|]. intros Hin. apply Hi.
      apply below_level; [lia|done].
    - intros []. split; try done. simpl. by rewrite Hjt, alen_afill_upd. }
  split.
  - destruct Harr. split; try done. simpl. by rewrite Hjt, alen_afill_upd.
  - intros l' Hl'. destruct (decide (l' = l)) as [->|]; [|apply Hoff; [lia|lia|apply Hdone; lia]].
    destruct (Hdirty l ltac:(lia)) as [Hch Hout ? ? ? ?]. split; try done.
    + apply (dchain_ext (jn c)); [|done]. intros x Hx. rewrite Hjn, decide_False; [done|].
      intros Hb. rewrite avail_list_elem in Hx by lia. destruct Hx as [Hxl Hx].
      rewrite avail_cons in Hx. apply andb_true_iff in Hx as [Hx _].
      apply negb_true_iff, not_true_iff_false in Hx. apply Hx.
      replace l with (L + (l - L)) in Hxl by lia. apply (overlapb_below L (l - L)); [lia..|done|done|].
      unfold below in Hb. rewrite elem_of_seqZ in Hb. unfold first_below in Hb. lia.
    + intros i Hi HS _. rewrite Hjn. case_decide; [done|]. by apply Hout.
  - intros l' Hl'. apply Hoff; [lia|lia|]. apply Hdirty. lia.
  - intros l' Hl'. lia.
Qed.

Lemma purge_down_ok (k : nat) c l :
  l = 12 - Z.of_nat k → L < l → down_state c l 12 →
  ∃ jt, purge_down k (jump_tree c) (first_below l) (2 ^ (l - L)) = Ok jt ∧
        down_state (with_jump c jt) 12 12.
Proof.
  revert c l. induction k as [|k IH]; intros c l Hl HLl Hst; simpl.
  - exists (jump_tree c). split; [done|]. replace (with_jump c (jump_tree c)) with c by by destruct c.
    by replace l with 12 in Hst by lia.
  - pose proof (first_below_bounds l ltac:(lia)) as [Hb1 Hb2].
    pose proof (ca_jump _ (dn_arrays _ _ _ Hst)) as Hj. pose proof (pow2_pos l ltac:(lia)).
    assert (2 ^ (l + 1) ≤ 2 ^ 12) by (apply Z.pow_le_mono_r; lia).
    rewrite afill_in by lia. cbn [mbind outcome_bind].
    set (jt := afill_upd _ _ _ _).
    assert (2 ^ (l + 1 - L) = 2 ^ (l - L) * 2) as Hpow.
    { replace (l + 1 - L) with ((l - L) + 1) by lia. rewrite on_level_double; lia. }
    assert (first_below (l + 1) = LEFT_CHILD (first_below l)) as <-
      by (unfold first_below, LEFT_CHILD; rewrite Hpow; lia).
    rewrite <- Hpow. destruct (IH (with_jump c jt) (l + 1)) as (jt' & Hd & Hst'); [lia|lia| |].
    + apply purge_level; [lia|done|done].
    + exists jt'. done.
Qed.
End allocate.

(** ** chunk_allocate_with_node *)

(** The address of the run at node [n] of a chunk whose memory starts at [base]. *)
Definition run_addr (base n : Z) : Z :=
  u64 (base + (node_lo n - 2048) * CHUNK_LEAST_REGION_SIZE_BYTES).

(** What the allocation of node [n] does to the fields besides the jump tree. *)
Definition reg_recorded (c : chunk_t) (n reg_size : Z) : arr Z :=
  if IS_LEAF n && negb (reg_size =? CHUNK_LEAST_REGION_SIZE_BYTES)
  then aupd (reg_size_small_medium c) (n - 2048) (u16 reg_size)
  else reg_size_small_medium c.

Record node_taken (T : list Z) (n reg_size : Z) (c c' : chunk_t) : Prop := {
  nt_arrays : chunk_arrays c';
  nt_jump : jump_ok c' (n :: T);
  nt_entry : chunk_entry c' = chunk_entry c;
  nt_buddy : buddy_tree c' = eupd (buddy_tree c) (n - 1) NODE_USED;
  nt_reg : reg_size_small_medium c' = reg_recorded c n reg_size
}.

Lemma level_ok_jump c c' l S :
  jump_tree c' = jump_tree c → jump_tree_first_index c' = jump_tree_first_index c →
  avail_nodes_count c' = avail_nodes_count c → level_ok c l S → level_ok c' l S.
Proof.
  intros Hj Hf Ha [? Hout ? ? ? ?]. split; rewrite ?Hf, ?Ha; try done.
  - apply (dchain_ext (jn c)); [|done]. intros x _. unfold jn. by rewrite Hj.
  - intros i Hi HS HB. unfold jn. rewrite Hj. by apply Hout.
Qed.

Lemma set_buddy_ok mem n s :
  alen mem = 1024 → 1 ≤ n ≤ 4095 → set_buddy_tree_item mem n s = Ok (eupd mem (n - 1) s).
Proof. intros. unfold set_buddy_tree_item. by rewrite packed_set_in by lia. Qed.

Lemma get_buddy_ok mem n :
  alen mem = 1024 → 1 ≤ n ≤ 4095 → get_buddy_tree_item mem n = Ok (eitem mem (n - 1)).
Proof. intros. unfold get_buddy_tree_item. by rewrite packed_get_in by lia. Qed.

Lemma jump_ok_up T n L c :
  0 ≤ L ≤ 11 → on_level L n → chunk_arrays c → jump_ok c T → up_state T n L c L.
Proof. intros HL Hn Harr Hj. split; [done|lia|]. intros l Hl. apply Hj. lia. Qed.

Lemma unlink_up_loop T n L c :
  0 ≤ L ≤ 11 → on_level L n → avail T n = true → chunk_arrays c → jump_ok c T →
  ∃ c', while_loop unlink_up_step 4 (c, jn c n, n, L) = Ok c' ∧
        up_state T n L c' (-1) ∧ same_data c c'.
Proof.
  intros HL Hn Hav Harr Hj.
  destruct (unlink_up_ok T n L HL Hn (Z.to_nat L) c) as (k & c' & Hk & Hit & Hst & Hsd);
    rewrite ?Z2Nat.id by lia; [lia|by apply jump_ok_up|].
  rewrite Z2Nat.id, ancestor_L in Hit by lia.
  exists c'. split; [|done]. apply (while_loop_done _ 4 k); [done|]. simpl. lia.
Qed.

Lemma chunk_allocate_with_node_ok T n L c reg_size :
  0 ≤ L ≤ 11 → on_level L n → avail T n = true → chunk_arrays c → jump_ok c T →
  ∃ c', chunk_allocate_with_node c (jn c n) n L reg_size =
          Ok (run_addr (key (chunk_entry c)) n, c') ∧ node_taken T n reg_size c c'.
Proof.
  intros HL Hn Hav Harr Hj. pose proof (on_level_le L n HL Hn) as Hnb.
  destruct (unlink_up_loop T n L c HL Hn Hav Harr Hj) as (c1 & Hup & Hst & Hsd).
  pose proof (us_arrays _ _ _ _ _ Hst) as Harr1. destruct Hsd as [He Hr Hb].
  unfold chunk_allocate_with_node. rewrite Hup. cbn [mbind outcome_bind].
  rewrite Z.shiftl_1_l. unfold run_addr, node_lo.
  rewrite (node_span_level L) by (done || lia).
  assert (IS_LEAF n = bool_decide (L = 11)) as Hleaf.
  { unfold IS_LEAF. change ((CHUNK_NO_NODES + 1) / 2) with 2048. destruct Hn as [Hn1 Hn2].
    case_bool_decide as HL11; [subst; change (2 ^ 11) with 2048 in *; lia|].
    assert (2 ^ (L + 1) ≤ 2 ^ 11) by (apply Z.pow_le_mono_r; lia). lia. }
  rewrite Hleaf. case_bool_decide as HL11.
  - subst L. change (2 ^ 11) with 2048. replace (n * 2 ^ (11 - 11)) with n by lia.
    destruct Hn as [Hn1 Hn2]. change (2 ^ 11) with 2048 in Hn1. change (2 ^ (11 + 1)) with 4096 in Hn2.
    simpl andb. change CHUNK_LEAST_REGION_SIZE_BYTES with 16384.
    assert ((if negb (reg_size =? 16384)
             then rs ← awrite (reg_size_small_medium c1) (n - 2048) (u16 reg_size); Ok (with_reg_size c1 rs)
             else Ok c1) =
            Ok (with_reg_size c1 (if negb (reg_size =? 16384)
                                  then aupd (reg_size_small_medium c1) (n - 2048) (u16 reg_size)
                                  else reg_size_small_medium c1))) as ->.
    { destruct (negb _); [|by destruct c1].
      rewrite awrite_in by (rewrite (ca_reg _ Harr1); lia). done. }
    cbn [mbind outcome_bind with_reg_size buddy_tree].
    rewrite set_buddy_ok by (lia || apply Harr1). cbn [mbind outcome_bind].
    eexists. split; [rewrite He, (wrap_small 32) by lia; reflexivity|].
    split; simpl; [|..|congruence|by rewrite Hb|by unfold reg_recorded; rewrite Hleaf, Hr].
    + destruct Harr1. split; simpl; try done. by destruct (reg_size =? 16384).
    + intros l Hl. apply (level_ok_jump c1); [done..|]. apply Hst. lia.
  - destruct (unlink_down_ok T n L HL Hn Hav (Z.to_nat (11 - L)) c1 (L + 1))
      as (c2 & Hdn & Hst2 & Hsd2); [lia|lia| |].
    { split; [done|..]; intros l Hl; [apply Hst; lia|lia|apply Hst; lia]. }
    destruct (purge_down_ok T n L HL Hn (Z.to_nat (11 - L)) c2 (L + 1))
      as (jt & Hpu & Hst3); [lia|lia|done|].
    unfold first_below in Hdn, Hpu. replace (L + 1 - L) with 1 in * by lia. change (2 ^ 1) with 2 in *.
    change CHUNK_BUDDY_TREE_DEPTH with 11. unfold LEFT_CHILD, RIGHT_CHILD.
    replace (n * 2 + 2 - 1) with (n * 2 + 1) in Hdn by lia.
    rewrite Hdn. cbn [mbind outcome_bind]. rewrite Hpu. cbn [mbind outcome_bind].
    pose proof (dn_arrays _ _ _ _ _ _ Hst3) as Harr3.
    change (buddy_tree (with_jump c2 jt)) with (buddy_tree c2).
    rewrite set_buddy_ok by (lia || apply Harr3). cbn [mbind outcome_bind].
    destruct Hsd2 as [He2 Hr2 Hb2]. simpl. eexists. split; [|split; simpl].
    + rewrite He. do 3 f_equal. unfold get_leftmost_idx. rewrite Z.shiftl_mul_pow2 by lia.
      destruct Hn as [Hn1 Hn2].
      assert (2 ^ L * 2 ^ (11 - L) = 2048) by (rewrite <- Z.pow_add_r by lia; by replace (L + (11 - L)) with 11 by lia).
      assert (2 ^ (L + 1) * 2 ^ (11 - L) = 4096)
        by (rewrite <- Z.pow_add_r by lia; by replace (L + 1 + (11 - L)) with 12 by lia).
      pose proof (pow2_pos (11 - L) ltac:(lia)).
      assert (2048 ≤ n * 2 ^ (11 - L) < 4096) by nia.
      rewrite (wrap_small 32 (n * _)) by lia. change ((CHUNK_NO_NODES + 1) / 2) with 2048.
      change CHUNK_LEAST_REGION_SIZE_BYTES with 16384.
      rewrite (wrap_small 32 (_ - _)) by lia. rewrite (wrap_small 32) by lia. done.
    + destruct Harr3. by split.
    + intros l Hl. apply (level_ok_jump (with_jump c2 jt)); [done..|]. apply Hst3. lia.
    + simpl. by rewrite He2, He.
    + simpl. by rewrite Hb2, Hb.
    + unfold reg_recorded. rewrite Hleaf. simpl. by rewrite Hr2, Hr.
Qed.
