(* ===== verification/ChunkRun.v ===== *)
(** * ChunkRun: chunk_init and chunk_allocate_run

    chunk_init produces a chunk on which every node but the root is available, and
    chunk_allocate_run takes a node of the requested level, chosen at random, or
    returns NULL when the level has none.  [random_lookup_ok] and [walk_next_ok] are
    the two ways of choosing one. *)
From Stdlib Require Import ZArith Lia.
From stdpp Require Import base option numbers list gmap sorting.
From S2P Require Import Prelude.
From S2P Require Import CArray.
From S2P Require Import Utils.
From S2P Require Import SizeClass.
From S2P Require Import Random.
From S2P Require Import ContainerLL.
From S2P Require Import Platform.
From S2P Require Import Chunk.
From S2P Require Import ChunkTree.
From S2P Require Import ChunkAlloc.

(** ** Choosing a node *)

Lemma random_lookup_ok T c L (tries : nat) r :
  0 ≤ L ≤ 11 → chunk_arrays c → jump_ok c T →
  ∃ hit r', random_lookup tries c (2 ^ L) r = Ok (hit, r') ∧
    match hit with
    | None => True
    | Some (node, i) => i ∈ avail_list T L ∧ node = jn c i
    end.
Proof.
  intros HL Harr Hj. revert r. induction tries as [|tries IH]; intros r.
  { exists None, r. done. }
  cbn [random_lookup]. destruct (splitmix32 r) as [x r1].
  pose proof (pow2_pos L ltac:(lia)) as Hpos.
  rewrite umod_ok by done. cbn [mbind outcome_bind].
  pose proof (Z.mod_pos_bound x (2 ^ L) Hpos) as Hx.
  set (i := 2 ^ L + x mod 2 ^ L).
  assert (on_level L i) as Hi by (unfold on_level; rewrite on_level_double by lia; unfold i; lia).
  pose proof (on_level_le L i HL Hi) as Hib.
  rewrite get_jt_ok by (lia || apply Harr). cbn [mbind outcome_bind].
  destruct (negb _ || negb _) eqn:Hlink; [|apply IH].
  eexists _, _. split; [reflexivity|]. split; [|done].
  apply avail_list_elem; [lia|]. split; [done|].
  rewrite <- (level_linked c L T i) by (done || apply Hj; lia).
  change (jc (jump_tree c) i) with (jn c i) in Hlink. rewrite orb_comm in Hlink. by rewrite Hlink.
Qed.

Lemma walk_next_ok c p S (k : nat) x y :
  alen (jump_tree c) = 4095 → Forall (λ i, 1 ≤ i ≤ 4095) S →
  dchain (jn c) p S None → hd_or S None = Some x → S !! k = Some y →
  walk_next k (jump_tree c) x (jn c x) = Ok (jn c y, y).
Proof.
  intros Hlen. revert p S x. induction k as [|k IH]; intros p S x Hb Hch Hx Hy.
  - destruct S; simplify_eq/=. done.
  - destruct S as [|x' [|z S]]; simplify_eq/=. destruct Hch as [Hjx Hch].
    rewrite Hjx at 1. cbn [next gap_next]. replace (x + (z - x)) with z by lia.
    apply Forall_cons in Hb as [_ Hb]. pose proof Hb as [Hz _]%Forall_cons.
    rewrite get_jt_ok by done. cbn [mbind outcome_bind].
    rewrite Hjx. cbn [next gap_next]. replace (x + (z - x)) with z by lia.
    by apply (IH (Some x) (z :: S)).
Qed.

(** ** chunk_allocate_run *)

Lemma level_of_size k :
  0 ≤ k ≤ 11 → size2idx (CHUNK_LEAST_REGION_SIZE_BYTES * 2 ^ k) = Ok k.
Proof.
  intros Hk. unfold size2idx. rewrite Z.mul_comm, Z.div_mul by done.
  pose proof (pow2_pos k ltac:(lia)). assert (2 ^ k ≤ 2 ^ 11) by (apply Z.pow_le_mono_r; lia).
  rewrite ctz_ok by lia. by rewrite Z.log2_pow2 by lia.
Qed.

Lemma run_size_range k :
  0 ≤ k ≤ 11 → CHUNK_LEAST_REGION_SIZE_BYTES ≤ CHUNK_LEAST_REGION_SIZE_BYTES * 2 ^ k ≤ CHUNK_SIZE_BYTES.
Proof.
  intros Hk. change CHUNK_LEAST_REGION_SIZE_BYTES with 16384.
  change CHUNK_SIZE_BYTES with (16384 * 2048).
  assert (2 ^ 0 ≤ 2 ^ k ≤ 2 ^ 11) by (split; apply Z.pow_le_mono_r; lia).
  change (2 ^ 0) with 1 in *. change (2 ^ 11) with 2048 in *. lia.
Qed.

Lemma avail_list_bounds T l : 0 ≤ l ≤ 11 → Forall (λ i, 1 ≤ i ≤ 4095) (avail_list T l).
Proof.
  intros Hl. apply Forall_forall. intros i Hi. apply avail_list_elem in Hi as [Hi _]; [|lia].
  by apply (on_level_le l).
Qed.

Lemma chunk_allocate_run_ok `{Build} T c k reg_size r :
  0 ≤ k ≤ 11 → is_size_aligned reg_size = true → chunk_arrays c → jump_ok c T →
  let run_size := CHUNK_LEAST_REGION_SIZE_BYTES * 2 ^ k in
  (avail_list T (11 - k) = [] ∧ chunk_allocate_run c run_size reg_size r = Ok (0, c, r)) ∨
  (∃ n c' r', n ∈ avail_list T (11 - k) ∧ node_taken T n reg_size c c' ∧
    chunk_allocate_run c run_size reg_size r = Ok (run_addr (key (chunk_entry c)) n, c', r')).
Proof.
  intros Hk Hreg Harr Hj run_size. pose proof (run_size_range k Hk).
  unfold chunk_allocate_run.
  rewrite !c_assert_true by (done || unfold run_size; lia). cbn [mbind outcome_bind].
  unfold run_size. rewrite level_of_size by done. cbn [mbind outcome_bind].
  change CHUNK_BUDDY_TREE_DEPTH with 11. set (L := 11 - k). assert (0 ≤ L ≤ 11) as HL by lia.
  pose proof (Hj L HL) as Hlev. rewrite (aread_in (avail_nodes_count c)) by (rewrite (ca_avail _ Harr); lia).
  cbn [mbind outcome_bind]. rewrite (lo_count _ _ _ _ Hlev), Z.shiftl_1_l.
  destruct (avail_list T L) as [|x S] eqn:HS; [by left|right].
  assert (∀ i (r' : rng), i ∈ avail_list T L → ∃ n c' r'', n ∈ avail_list T L ∧ node_taken T n reg_size c c' ∧
    ('(p, c') ← chunk_allocate_with_node c (jn c i) i L reg_size; Ok (p, c', r')) =
    Ok (run_addr (key (chunk_entry c)) n, c', r'')) as Htake.
  { intros i r' Hin. pose proof Hin as [Hi Ha]%avail_list_elem; [|lia].
    destruct (chunk_allocate_with_node_ok T i L c reg_size HL Hi Ha Harr Hj) as (c' & Hall & Hnt).
    exists i, c', r'. split; [done|]. split; [done|]. by rewrite Hall. }
  assert (0 < Z.of_nat (length (x :: S))) as Hpos by (rewrite length_cons; lia).
  rewrite (proj2 (Z.eqb_neq _ 0)) by lia.
  assert (∃ hit r1, (if RANDOM_LOOKUP_TRESHOLD_PERCENTAGE <? Z.of_nat (length (x :: S)) * 100 / 2 ^ L
            then random_lookup RANDOM_LOOKUP_TRIES c (2 ^ L) r else Ok (None, r)) = Ok (hit, r1) ∧
    match hit with None => True | Some (node, i) => i ∈ avail_list T L ∧ node = jn c i end)
    as (hit & r1 & -> & Hhit).
  { destruct (_ <? _); [by apply random_lookup_ok|by exists None, r]. }
  cbn [mbind outcome_bind]. rewrite <- HS. destruct hit as [[node i]|].
  - destruct Hhit as [Hi ->]. by apply Htake.
  - destruct (splitmix32 r1) as [z r2].
    rewrite HS, umod_ok, <- HS by done. cbn [mbind outcome_bind].
    rewrite (aread_in (jump_tree_first_index c)) by (rewrite (ca_first _ Harr); lia). cbn [mbind outcome_bind].
    pose proof (avail_list_bounds T L HL) as Hb.
    rewrite (lo_first _ _ _ _ Hlev). simpl hd_or. cbn [default].
    rewrite HS in Hb. pose proof Hb as [Hx _]%Forall_cons.
    rewrite get_jt_ok by (done || apply Harr). cbn [mbind outcome_bind].
    pose proof (Z.mod_pos_bound z _ Hpos) as Hz.
    destruct ((x :: S) !! Z.to_nat (z mod Z.of_nat (length (x :: S)))) as [y|] eqn:Hy.
    2: { apply lookup_ge_None in Hy. lia. }
    rewrite HS. change (jc (jump_tree c) x) with (jn c x).
    rewrite (walk_next_ok c None (x :: S) _ x y);
      [|apply Harr|done|apply Hlev|done|done].
    cbn [mbind outcome_bind]. rewrite <- HS. apply Htake. rewrite HS.
    by eapply list_elem_of_lookup_2.
Qed.

(** ** chunk_init *)

Lemma dchain_seqZ J (m : nat) : ∀ p a,
  (∀ i, a ≤ i < a + Z.of_nat m →
     J i = JumpNode (if decide (i = a) then gap_prev p a else 1)
                    (if decide (i = a + Z.of_nat m - 1) then 0 else 1)) →
  dchain J p (seqZ a (Z.of_nat m)) None.
Proof.
  induction m as [|m IH]; intros p a HJ; [done|].
  rewrite seqZ_cons by lia. simpl. split.
  - rewrite HJ by lia. rewrite decide_True by done.
    replace (Z.pred (Z.of_nat (S m))) with (Z.of_nat m) by lia.
    case_decide as Hm.
    + by replace (Z.of_nat m) with 0 by lia.
    + rewrite (seqZ_cons (Z.succ a)) by lia. simpl. f_equal. lia.
  - replace (Z.pred (Z.of_nat (S m))) with (Z.of_nat m) by lia. apply IH.
    intros i Hi. rewrite HJ by lia. rewrite (decide_False (P := i = a)) by lia. f_equal.
    + case_decide; simpl; lia.
    + case_decide as H1; case_decide as H2; done || lia.
Qed.

Lemma seqZ_sorted a (m : nat) : StronglySorted Z.lt (seqZ a (Z.of_nat m)).
Proof.
  revert a. induction m as [|m IH]; intros a; [constructor|].
  rewrite seqZ_cons by lia. replace (Z.pred (Z.of_nat (S m))) with (Z.of_nat m) by lia.
  constructor; [apply IH|]. apply Forall_forall. intros i Hi%elem_of_seqZ. lia.
Qed.

(** The jump tree cell of node [i] of a fresh chunk. *)
Definition fresh_node (i : Z) : jump_node_t :=
  JumpNode (if i =? 2 ^ Z.log2 i then 0 else 1) (if i =? 2 ^ (Z.log2 i + 1) - 1 then 0 else 1).

Definition fresh_chunk (c : chunk_t) : bool :=
  forallb (λ i, bool_decide (jn c i = fresh_node i)) (seqZ 1 4095) &&
  forallb (λ l, (acell (jump_tree_first_index c) l =? (if l =? 0 then 0 else 2 ^ l)) &&
                (acell (avail_nodes_count c) l =? (if l =? 0 then 0 else 2 ^ l))) (seqZ 0 12).

Lemma fresh_chunk_jump c : fresh_chunk c = true → jump_ok c [].
Proof.
  unfold fresh_chunk. rewrite andb_true_iff, !forallb_forall. intros [Hjn Hlev] l Hl.
  specialize (Hlev l). rewrite <- list_elem_of_In, elem_of_seqZ, andb_true_iff, !Z.eqb_eq in Hlev.
  destruct Hlev as [Hfirst Hcount]; [lia|].
  assert (∀ i, on_level l i → jn c i = fresh_node i) as Hfresh.
  { intros i Hi. pose proof (on_level_le l i Hl Hi). eapply bool_decide_eq_true_1. apply Hjn.
    apply list_elem_of_In, elem_of_seqZ. lia. }
  destruct (decide (l = 0)) as [->|Hl0].
  - change (avail_list [] 0) with (@nil Z). split; try done; [|apply SSorted_nil].
    intros i Hi _ _. rewrite Hfresh by done. destruct Hi as [H1 H2].
    change (2 ^ (0 + 1)) with 2 in H2. change (2 ^ 0) with 1 in H1. by replace i with 1 by lia.
  - rewrite (proj2 (Z.eqb_neq l 0)) in Hfirst, Hcount by lia.
    pose proof (pow2_pos l ltac:(lia)) as Hpos.
    assert (2 ^ 1 ≤ 2 ^ l) as H2 by (apply Z.pow_le_mono_r; lia). change (2 ^ 1) with 2 in H2.
    assert (avail_list [] l = seqZ (2 ^ l) (Z.of_nat (Z.to_nat (2 ^ l)))) as ->.
    { rewrite Z2Nat.id by lia. apply filter_all, Forall_forall. intros i Hi%elem_of_seqZ.
      unfold avail. simpl. by replace (2 <=? i) with true by lia. }
    split.
    + apply dchain_seqZ. intros i Hi. rewrite Z2Nat.id in * by lia.
      assert (on_level l i) as Hil by (unfold on_level; rewrite on_level_double by lia; lia).
      rewrite Hfresh by done. unfold fresh_node.
      rewrite (on_level_log2 l i), on_level_double by (lia || done). simpl. f_equal.
      * case_decide; [rewrite (proj2 (Z.eqb_eq _ _))|rewrite (proj2 (Z.eqb_neq _ _))]; done.
      * case_decide; [rewrite (proj2 (Z.eqb_eq _ _))|rewrite (proj2 (Z.eqb_neq _ _))]; done || lia.
    + intros i Hi Hni. exfalso. apply Hni, elem_of_seqZ. unfold on_level in Hi.
      rewrite on_level_double in Hi by lia. lia.
    + rewrite seqZ_cons by lia. done.
    + rewrite length_seqZ. lia.
    + apply seqZ_sorted.
    + apply Forall_forall. intros i Hi%elem_of_seqZ. unfold on_level.
      rewrite on_level_double by lia. lia.
Qed.

Record chunk_fresh (heap : Z) (c : chunk_t) : Prop := {
  cf_arrays : chunk_arrays c;
  cf_jump : jump_ok c [];
  cf_entry : chunk_entry c = LLEntry 0 0 heap;
  cf_buddy : ∀ i, eitem (buddy_tree c) i = NODE_FREE;
  cf_reg : ∀ i, acell (reg_size_small_medium c) i = REG_MARK_BAD_VALUE
}.

Lemma chunk_init_computed heap :
  match chunk_init_fields heap with
  | Ok c => (fresh_chunk c, chunk_entry c, buddy_tree c, reg_size_small_medium c,
             (alen (avail_nodes_count c), alen (jump_tree_first_index c), alen (jump_tree c))) =
            (true, LLEntry 0 0 heap, amake 1024 0, amake 2048 65535, (12, 12, 4095))
  | Fail _ => False
  end.
Proof. vm_compute. reflexivity. Qed.

Lemma chunk_init_eq `{Build} heap : heap ≠ 0 → chunk_init heap = chunk_init_fields heap.
Proof. intros Hh. unfold chunk_init. by rewrite c_assert_true by lia. Qed.

Lemma chunk_init_ok `{Build} heap :
  heap ≠ 0 → ∃ c, chunk_init heap = Ok c ∧ chunk_fresh heap c.
Proof.
  intros Hh. rewrite chunk_init_eq by done. pose proof (chunk_init_computed heap) as Hc.
  destruct (chunk_init_fields heap) as [c|]; [|done]. injection Hc as Hfr He Hb Hr Ha Hf Hj.
  exists c. split; [done|]. split; [|by apply fresh_chunk_jump|done|..].
  - split; rewrite ?Hb, ?Hr; done.
  - intros i. rewrite Hb. unfold eitem. by rewrite pitem_amake_0.
  - intros i. rewrite Hr. by rewrite acell_amake.
Qed.
