(* ===== verification/ChunkBuddy.v ===== *)
(** * ChunkBuddy: the buddy tree of a chunk

    [unmapped_in D i]: node [i] is one of the returned runs [D] or both its children
    are unmapped; this is the set of nodes the buddy tree marks NODE_UNMAPPED.
    [chunk_inv] is the invariant of a chunk with its live and its returned runs. *)
From Stdlib Require Import ZArith Lia.
From stdpp Require Import base option numbers list gmap sorting.
From S2P Require Import Prelude.
From S2P Require Import CArray.
From S2P Require Import ContainerLL.
From S2P Require Import Chunk.
From S2P Require Import ChunkTree.
From S2P Require Import ChunkAlloc.
From S2P Require Import ChunkRun.

(** ** Subtrees *)
Definition is_node (i : Z) : Prop := 1 ≤ i ≤ 4095.
Definition inside (j i : Z) : Prop := node_lo i ≤ node_lo j ∧ node_hi j ≤ node_hi i.

Lemma node_level i : is_node i → 0 ≤ Z.log2 i ≤ 11 ∧ on_level (Z.log2 i) i.
Proof.
  intros Hi. unfold is_node in Hi. split.
  - split; [apply Z.log2_nonneg|]. assert (Z.log2 i < 12) by (apply Z.log2_lt_pow2; lia). lia.
  - unfold on_level. rewrite Z.add_1_r. apply Z.log2_spec. lia.
Qed.

Lemma node_bounds i : is_node i → 2048 ≤ node_lo i < node_hi i ∧ node_hi i ≤ 4096.
Proof.
  intros Hi. destruct (node_level i Hi) as [Hl [H1 H2]]. unfold node_lo, node_hi, node_span.
  set (l := Z.log2 i) in *. pose proof (pow2_pos (11 - l) ltac:(lia)).
  assert (2 ^ l * 2 ^ (11 - l) = 2048)
    by (rewrite <- Z.pow_add_r by lia; by replace (l + (11 - l)) with 11 by lia).
  assert (2 ^ (l + 1) * 2 ^ (11 - l) = 4096)
    by (rewrite <- Z.pow_add_r by lia; by replace (l + 1 + (11 - l)) with 12 by lia).
  nia.
Qed.

Lemma children_bounds i :
  1 ≤ i ≤ 2047 →
  node_lo (2 * i) = node_lo i ∧ node_hi (2 * i) = node_lo (2 * i + 1) ∧
  node_hi (2 * i + 1) = node_hi i ∧ is_node (2 * i) ∧ is_node (2 * i + 1).
Proof.
  intros Hi. unfold node_lo, node_hi, node_span, is_node.
  rewrite Z.log2_double, Z.log2_succ_double by lia.
  assert (Z.log2 i < 11) by (apply Z.log2_lt_pow2; lia).
  replace (11 - Z.log2 i) with (1 + (11 - Z.succ (Z.log2 i))) by lia.
  pose proof (Z.log2_nonneg i). rewrite Z.pow_add_r by lia. change (2 ^ 1) with 2. lia.
Qed.

Lemma node_leaf i : 2048 ≤ i ≤ 4095 → node_lo i = i ∧ node_hi i = i + 1.
Proof.
  intros Hi. assert (Z.log2 i = 11) as Hl by (apply Z.log2_unique; lia).
  unfold node_lo, node_hi, node_span. rewrite Hl. change (2 ^ (11 - 11)) with 1. lia.
Qed.

Lemma overlapb_spec i j : overlapb i j = true ↔ node_lo i < node_hi j ∧ node_lo j < node_hi i.
Proof. unfold overlapb. rewrite andb_true_iff, !Z.ltb_lt. done. Qed.

Lemma overlapb_false i j : overlapb i j = false ↔ node_hi j ≤ node_lo i ∨ node_hi i ≤ node_lo j.
Proof. unfold overlapb. rewrite andb_false_iff, !Z.ltb_ge. done. Qed.

(** Two nodes are disjoint or one is in the subtree of the other. *)
Lemma nodes_laminar i j :
  is_node i → is_node j → overlapb i j = true →
  (Z.log2 i ≤ Z.log2 j ∧ inside j i) ∨ (Z.log2 j ≤ Z.log2 i ∧ inside i j).
Proof.
  assert (∀ i j, is_node i → is_node j → Z.log2 i ≤ Z.log2 j → overlapb i j = true → inside j i) as Hle.
  { clear i j. intros i j Hi Hj Hle Ho.
    destruct (node_level i Hi) as [Hli Hoi], (node_level j Hj) as [Hlj Hoj].
    pose proof Ho as Ho'.
    replace (Z.log2 j) with (Z.log2 i + (Z.log2 j - Z.log2 i)) in Hoj by lia.
    apply (overlapb_below (Z.log2 i) (Z.log2 j - Z.log2 i)) in Ho; [|lia..|done|done].
    unfold inside, node_lo, node_hi, node_span.
    replace (11 - Z.log2 i) with ((Z.log2 j - Z.log2 i) + (11 - Z.log2 j)) by lia.
    rewrite Z.pow_add_r by lia. pose proof (pow2_pos (11 - Z.log2 j) ltac:(lia)). nia. }
  intros Hi Hj Ho. destruct (decide (Z.log2 i ≤ Z.log2 j)); [left|right].
  - split; [done|by apply Hle].
  - split; [lia|]. apply Hle; [done|done|lia|by rewrite overlapb_sym].
Qed.

Lemma inside_eq i j : is_node i → is_node j → inside i j → Z.log2 i ≤ Z.log2 j → i = j.
Proof.
  intros Hi Hj [H1 H2] Hle. destruct (node_level i Hi) as [Hli _], (node_level j Hj) as [Hlj _].
  unfold node_lo, node_hi, node_span in *.
  pose proof (pow2_pos (11 - Z.log2 j) ltac:(lia)).
  replace (11 - Z.log2 i) with ((Z.log2 j - Z.log2 i) + (11 - Z.log2 j)) in * by lia.
  rewrite Z.pow_add_r in * by lia. set (s := 2 ^ (11 - Z.log2 j)) in *.
  set (p := 2 ^ (Z.log2 j - Z.log2 i)) in *.
  assert (1 ≤ p) by (pose proof (pow2_pos (Z.log2 j - Z.log2 i) ltac:(lia)); lia).
  assert (j ≤ i * p) by nia. assert ((i + 1) * p ≤ j + 1) by nia.
  assert (p = 1) by nia. nia.
Qed.

Lemma inside_antisym i j : is_node i → is_node j → inside i j → inside j i → i = j.
Proof.
  intros Hi Hj H1 H2. destruct (decide (Z.log2 i ≤ Z.log2 j)); [by apply inside_eq|].
  symmetry. apply inside_eq; [done|done|done|lia].
Qed.

Lemma inside_trans i j k : inside i j → inside j k → inside i k.
Proof. unfold inside. lia. Qed.

Lemma inside_overlap i j : is_node i → inside i j → overlapb i j = true.
Proof. intros Hi [H1 H2]. pose proof (node_bounds i Hi). apply overlapb_spec. lia. Qed.

(** A strict descendant of [i] is in the subtree of one of its children. *)
Lemma inside_children i j :
  is_node i → is_node j → inside j i → j ≠ i →
  i ≤ 2047 ∧ (inside j (2 * i) ∨ inside j (2 * i + 1)).
Proof.
  intros Hi Hj Hin Hne. pose proof (node_bounds j Hj). pose proof (node_bounds i Hi).
  assert (i ≤ 2047) as Hi'.
  { destruct (decide (i ≤ 2047)); [done|]. exfalso. apply Hne. unfold is_node in *.
    apply inside_eq; [done|done|done|].
    destruct (node_leaf i) as [Hlo Hhi]; [lia|]. destruct (node_level j Hj) as [? _].
    assert (Z.log2 i = 11) as -> by (apply Z.log2_unique; lia). lia. }
  split; [done|]. destruct (children_bounds i) as (H1 & H2 & H3 & Hl & Hr); [unfold is_node in *; lia|].
  destruct Hin as [Ha Hb].
  destruct (decide (overlapb j (2 * i) = true)) as [Ho|Ho].
  - apply nodes_laminar in Ho as [[Hlg Hin]|[Hlg Hin]]; [|by left|done..].
    left. destruct (decide (Z.log2 j = Z.log2 (2 * i))) as [Heq|Hlt].
    + rewrite (inside_eq (2 * i) j) by (done || lia). unfold inside. lia.
    + exfalso. apply Hne. apply inside_eq; [done..|].
      rewrite Z.log2_double in * by (unfold is_node in *; lia). lia.
  - right. apply not_true_is_false, overlapb_false in Ho. unfold inside. lia.
Qed.

(** ** Unmapped nodes *)
Inductive unmapped_in (D : list Z) : Z → Prop :=
  | um_run i : is_node i → i ∈ D → unmapped_in D i
  | um_pair i : 1 ≤ i ≤ 2047 → unmapped_in D (2 * i) → unmapped_in D (2 * i + 1) →
                unmapped_in D i.

Lemma um_node D i : unmapped_in D i → is_node i.
Proof. destruct 1; [done|]. unfold is_node. lia. Qed.

Lemma um_mono D D' i : D ⊆ D' → unmapped_in D i → unmapped_in D' i.
Proof.
  intros Hsub. induction 1; [apply um_run; [done|by apply Hsub]|by apply um_pair].
Qed.

(** Every leaf of an unmapped node is in a returned run inside the node. *)
Lemma um_covered D i :
  unmapped_in D i → ∀ x, node_lo i ≤ x < node_hi i →
  ∃ d, d ∈ D ∧ is_node d ∧ inside d i ∧ node_lo d ≤ x < node_hi d.
Proof.
  induction 1 as [i Hi Hin|i Hi H1 IH1 H2 IH2]; intros x Hx.
  - exists i. unfold inside. auto with lia.
  - destruct (children_bounds i Hi) as (E1 & E2 & E3 & Hn1 & Hn2).
    pose proof (node_bounds _ Hn1). pose proof (node_bounds _ Hn2).
    destruct (decide (x < node_hi (2 * i))).
    + destruct (IH1 x) as (d & ? & ? & [? ?] & ?); [lia|]. exists d. unfold inside. auto with lia.
    + destruct (IH2 x) as (d & ? & ? & [? ?] & ?); [lia|]. exists d. unfold inside. auto with lia.
Qed.

Lemma um_disjoint D i n :
  is_node n → (∀ d, d ∈ D → overlapb n d = false) → unmapped_in D i → overlapb n i = false.
Proof.
  intros Hn Hdis Hum. apply not_true_is_false. rewrite overlapb_spec. intros [H1 H2].
  pose proof (um_node _ _ Hum) as Hi. pose proof (node_bounds i Hi). pose proof (node_bounds n Hn).
  destruct (um_covered D i Hum (Z.max (node_lo i) (node_lo n))) as (d & Hd & _ & _ & Hx); [lia|].
  specialize (Hdis d Hd). apply overlapb_false in Hdis. lia.
Qed.

(** Returning [n] changes the status only of the nodes that contain it. *)
Lemma um_cons_out D n j : overlapb n j = false → unmapped_in (n :: D) j → unmapped_in D j.
Proof.
  intros Ho Hum. revert Ho. induction Hum as [i Hi Hin|i Hi H1 IH1 H2 IH2]; intros Ho.
  - apply elem_of_cons in Hin as [->|Hin]; [|by apply um_run].
    exfalso. destruct (node_level n Hi). rewrite (overlapb_self (Z.log2 n)) in Ho; done.
  - destruct (children_bounds i Hi) as (E1 & E2 & E3 & Hn1 & Hn2).
    pose proof (node_bounds _ Hn1). pose proof (node_bounds _ Hn2).
    apply overlapb_false in Ho.
    apply um_pair; [done|apply IH1|apply IH2]; apply overlapb_false; lia.
Qed.

(** Leaves covered by returned runs make an unmapped node, unless the node is inside
    one of them. *)
Lemma covered_um D i :
  is_node i →
  (∀ d, d ∈ D → is_node d) →
  (∀ d, d ∈ D → inside i d → d = i) →
  (∀ x, node_lo i ≤ x < node_hi i → ∃ d, d ∈ D ∧ node_lo d ≤ x < node_hi d) →
  unmapped_in D i.
Proof.
  intros Hi HD. remember (Z.to_nat (11 - Z.log2 i)) as h eqn:Hh. revert i Hi Hh.
  induction h as [|h IH]; intros i Hi Hh Hanc Hcov.
  - destruct (node_level i Hi) as [Hl [Hlv _]]. unfold is_node in Hi.
    assert (Z.log2 i = 11) as Hl11 by lia. rewrite Hl11 in Hlv. change (2 ^ 11) with 2048 in Hlv.
    destruct (node_leaf i) as [Hlo Hhi]; [lia|].
    destruct (Hcov i) as (d & Hd & Hx); [lia|].
    assert (d = i) as -> by (apply Hanc; [done|unfold inside; lia]). by apply um_run.
  - destruct (decide (i ∈ D)) as [Hin|Hnin]; [by apply um_run|].
    destruct (node_level i Hi) as [Hl [_ Hlt]]. unfold is_node in Hi.
    assert (2 ^ (Z.log2 i + 1) ≤ 2 ^ 11) as H11 by (apply Z.pow_le_mono_r; lia).
    change (2 ^ 11) with 2048 in H11.
    destruct (children_bounds i) as (E1 & E2 & E3 & Hn1 & Hn2); [lia|].
    pose proof (node_bounds _ Hn1). pose proof (node_bounds _ Hn2).
    assert (∀ c, is_node c → inside c i → c ≠ i → Z.log2 c = Z.log2 i + 1 →
      ∀ d, d ∈ D → inside c d → d = c) as Hchild.
    { intros c Hc Hci Hne Hlc d Hd Hcd. destruct (decide (d = c)) as [|Hdc]; [done|].
      pose proof (HD d Hd) as Hdn. pose proof (node_bounds c Hc) as Hcb.
      assert (overlapb d i = true) as Ho by (apply overlapb_spec; unfold inside in *; lia).
      apply nodes_laminar in Ho as [[_ Hid]|[Hlg Hdi]]; [| |done|unfold is_node; lia].
      - rewrite (Hanc d Hd Hid) in Hd. done.
      - exfalso. destruct (decide (Z.log2 d = Z.log2 i)) as [Heq|].
        + apply Hnin. rewrite <- (inside_eq d i); [done|done|unfold is_node; lia|done|lia].
        + apply Hdc. symmetry. apply inside_eq; [done|done|done|lia]. }
    pose proof (Z.log2_double i ltac:(lia)) as Hd1.
    pose proof (Z.log2_succ_double i ltac:(lia)) as Hd2.
    apply um_pair; [lia|apply IH|apply IH]; try done; try lia;
      try (apply Hchild; [done|unfold inside; lia|lia|lia]);
      intros x Hx; apply Hcov; lia.
Qed.

(** ** The buddy tree *)
Definition bnode (bt : arr Z) (i : Z) : chunk_node_t := eitem bt (i - 1).

Lemma bnode_eupd bt i j s :
  1 ≤ i → 1 ≤ j → bnode (eupd bt (i - 1) s) j = if decide (i = j) then s else bnode bt j.
Proof.
  intros. unfold bnode. rewrite eitem_eupd by lia. repeat case_decide; done || lia.
Qed.

(** Pairwise disjoint runs. *)
Record no_overlap (T : list Z) : Prop := {
  no_dup : NoDup T;
  no_node : ∀ x, x ∈ T → is_node x;
  no_over : ∀ x y, x ∈ T → y ∈ T → x ≠ y → overlapb x y = false
}.

Record buddy_ok (bt : arr Z) (live D : list Z) : Prop := {
  bo_used : ∀ i, is_node i → bnode bt i = NODE_USED ↔ i ∈ live;
  bo_unmapped : ∀ i, is_node i → bnode bt i = NODE_UNMAPPED ↔ unmapped_in D i;
  bo_depleted : ∀ i, is_node i → bnode bt i ≠ NODE_DEPLETED
}.

Section coalesce.
Context (n : Z) (live D : list Z) (Hno : no_overlap (n :: live ++ D)).

Lemma n_node : is_node n.
Proof. apply Hno. left. Qed.

(** The state of the coalescing loop at node [i]: the nodes above [i] are not
    marked yet. *)
Record coalesced (bt : arr Z) (i : Z) : Prop := {
  co_um : unmapped_in (n :: D) i;
  co_in : inside n i;
  co_used : ∀ j, is_node j → bnode bt j = NODE_USED ↔ j ∈ live;
  co_unmapped : ∀ j, is_node j →
    bnode bt j = NODE_UNMAPPED ↔ unmapped_in (n :: D) j ∧ ¬ (inside i j ∧ j ≠ i);
  co_depleted : ∀ j, is_node j → bnode bt j ≠ NODE_DEPLETED
}.

Definition sibling (i : Z) : Z := if IS_RIGHT_CHILD i then i - 1 else i + 1.

Lemma parent_cases i :
  is_node i → 1 < i →
  1 ≤ i / 2 ≤ 2047 ∧ ((i = 2 * (i / 2) ∧ sibling i = 2 * (i / 2) + 1) ∨
                     (i = 2 * (i / 2) + 1 ∧ sibling i = 2 * (i / 2))).
Proof.
  intros Hi Hi1. unfold sibling, IS_RIGHT_CHILD, is_node in *.
  pose proof (Zmod_odd i). pose proof (Z.div_mod i 2 ltac:(lia)). destruct (Z.odd i); lia.
Qed.

Lemma sibling_disjoint i : is_node i → 1 < i → overlapb i (sibling i) = false.
Proof.
  intros Hi Hi1. destruct (parent_cases i Hi Hi1) as [Hp Hcase].
  remember (i / 2) as p eqn:Hpe. clear Hpe. apply overlapb_false.
  destruct (children_bounds p Hp) as (E1 & E2 & E3 & _ & _).
  destruct Hcase as [[-> ->]|[-> ->]]; lia.
Qed.

Lemma live_not_um j : unmapped_in (n :: D) j → j ∉ live.
Proof.
  intros Hum Hl. pose proof (um_node _ _ Hum) as Hj.
  assert (overlapb j j = false) as Ho.
  { apply (um_disjoint (n :: D)); [done| |done]. intros d Hd.
    destruct Hno as [Hnd _ Hov]. apply Hov; [set_solver|set_solver|].
    intros ->. apply NoDup_cons in Hnd as [Hn Hnd].
    apply NoDup_app in Hnd as (_ & Hdis & _).
    apply elem_of_cons in Hd as [->|Hd]; [set_solver|by apply (Hdis d)]. }
  rewrite (overlapb_self (Z.log2 j)) in Ho; [done|..]; apply node_level; done.
Qed.

(** A node strictly above [n] is not a returned run. *)
Lemma above_not_run j : inside n j → j ≠ n → is_node j → j ∉ n :: D.
Proof.
  intros Hin Hne Hj Hd. apply elem_of_cons in Hd as [|Hd]; [done|].
  pose proof (inside_overlap n j n_node Hin) as Ho.
  rewrite (no_over _ Hno n j) in Ho; [done|set_solver|set_solver|done].
Qed.

Lemma coalesced_up bt i :
  coalesced bt i → 1 < i → unmapped_in (n :: D) (sibling i) →
  coalesced (eupd bt (i / 2 - 1) NODE_UNMAPPED) (i / 2).
Proof.
  intros [Hum Hin Hused Hunm Hdep] Hi1 Hsib. pose proof (um_node _ _ Hum) as Hi.
  destruct (parent_cases i Hi Hi1) as [Hp Hcase]. remember (i / 2) as p eqn:Hpe.
  destruct (children_bounds p Hp) as (E1 & E2 & E3 & Hn1 & Hn2).
  pose proof (node_bounds _ Hn1). pose proof (node_bounds _ Hn2).
  assert (unmapped_in (n :: D) p) as Hump.
  { apply um_pair; [done|..]; destruct Hcase as [[E Es]|[E Es]]; rewrite Es in Hsib;
      try done; by rewrite <- E. }
  assert (inside i p) as Hip.
  { unfold inside. destruct Hcase as [[E _]|[E _]]; rewrite E; lia. }
  assert (is_node p) as Hpn by by eapply um_node.
  split; [done|by eapply inside_trans|..]; intros j Hj;
    unfold is_node in Hj, Hpn; rewrite bnode_eupd by lia; case_decide as Hpj.
  - subst j. split; [done|]. intros Hl. exfalso. by apply (live_not_um p).
  - by apply Hused.
  - subst j. split; [|done]. intros _. split; [done|]. intros [_ ?]. done.
  - rewrite Hunm by done. split; intros [Hu Hn]; (split; [done|]); intros [Ha Hb]; apply Hn.
    + split; [by eapply inside_trans|]. intros ->.
      assert (i = p) by (apply inside_antisym; done). lia.
    + split; [|done].
      destruct (inside_children j i) as [Hj' Hch]; [done|done|done|congruence|].
      destruct (children_bounds j) as (F1 & F2 & F3 & Hm1 & Hm2); [lia|].
      assert (inside i p) by done.
      destruct (decide (overlapb p j = true)) as [Ho|Ho].
      2: { apply not_true_is_false, overlapb_false in Ho. unfold inside in *.
           pose proof (node_bounds i Hi). lia. }
      apply nodes_laminar in Ho as [[Hlg Hjp]|[Hlg Hjp]]; [|done|done|done].
      exfalso. destruct (inside_children p j) as [_ [Hc|Hc]]; [done..| |].
      * destruct Hcase as [[E _]|[E _]]; [|unfold inside in *; rewrite E in Ha; lia].
        apply Hb. apply inside_antisym; [done|done|rewrite E; done|done].
      * destruct Hcase as [[E _]|[E _]]; [unfold inside in *; rewrite E in Ha; lia|].
        apply Hb. apply inside_antisym; [done|done|rewrite E; done|done].
  - done.
  - by apply Hdep.
Qed.

(** No node above a stopped loop is unmapped. *)
Lemma above_stopped i j :
  is_node i → inside n i → 1 < i → ¬ unmapped_in (n :: D) (sibling i) →
  unmapped_in (n :: D) j → inside i j → j ≠ i → False.
Proof.
  intros Hi Hin Hi1 Hsib. induction 1 as [j Hj Hjd|j Hj H1 IH1 H2 IH2]; intros Hij Hne.
  - revert Hjd. apply above_not_run; [by eapply inside_trans| |done].
    intros ->. apply Hne. apply inside_antisym; [apply n_node|done|done|done].
  - destruct (children_bounds j Hj) as (E1 & E2 & E3 & Hn1 & Hn2).
    destruct (inside_children j i) as [_ [Hc|Hc]]; [unfold is_node; lia|done|done|congruence|..].
    + destruct (decide (2 * j = i)) as [<-|]; [|by apply IH1].
      apply Hsib. unfold sibling, IS_RIGHT_CHILD. by rewrite Z.odd_mul.
    + destruct (decide (2 * j + 1 = i)) as [<-|]; [|by apply IH2].
      apply Hsib. unfold sibling, IS_RIGHT_CHILD. rewrite Z.odd_add, Z.odd_mul. simpl.
      by replace (2 * j + 1 - 1) with (2 * j) by lia.
Qed.

Lemma root_above i : is_node i → inside i 1.
Proof.
  intros Hi. pose proof (node_bounds i Hi). unfold inside.
  change (node_lo 1) with 2048. change (node_hi 1) with 4096. lia.
Qed.

Lemma coalesced_stop bt i :
  coalesced bt i → i = 1 ∨ ¬ unmapped_in (n :: D) (sibling i) →
  buddy_ok bt live (n :: D) ∧ (i = 1 ↔ unmapped_in (n :: D) 1).
Proof.
  intros [Hum Hin Hused Hunm Hdep] Hstop. pose proof (um_node _ _ Hum) as Hi.
  assert (∀ j, is_node j → unmapped_in (n :: D) j → ¬ (inside i j ∧ j ≠ i)) as Habove.
  { intros j Hj Hu [Hij Hne]. destruct Hstop as [->|Hsib].
    - apply Hne. apply inside_antisym; [done|done|by apply root_above|done].
    - apply (above_stopped i j); try done. destruct (decide (1 < i)); [done|].
      exfalso. apply Hne. assert (i = 1) as -> by (unfold is_node in Hi; lia).
      apply inside_antisym; [done|done|by apply root_above|done]. }
  split; [split; [done| |done]|].
  - intros j Hj. rewrite Hunm by done. naive_solver.
  - split; [by intros ->|]. intros Hu. destruct (decide (i = 1)) as [|Hne]; [done|].
    exfalso. apply (Habove 1); [unfold is_node; lia|done|]. split; [by apply root_above|congruence].
Qed.

Lemma coalesce_unmapped_iterate (m : nat) : ∀ ctx bt,
  ctx_idx ctx < 2 ^ (Z.of_nat m + 1) → alen bt = 1024 → coalesced bt (ctx_idx ctx) →
  ∃ ctx' bt', iterate (coalesce_step NODE_UNMAPPED) (S m) (ctx, bt) = Ok (inr (ctx', bt')) ∧
    alen bt' = 1024 ∧ buddy_ok bt' live (n :: D) ∧ (ctx_idx ctx' = 1 ↔ unmapped_in (n :: D) 1).
Proof.
  induction m as [|m IH]; intros ctx bt Hm Hlen Hco; pose proof (um_node _ _ (co_um _ _ Hco)) as Hi.
  - exists ctx, bt. rewrite iterate_1. simpl in Hm.
    assert (ctx_idx ctx = 1) as H1 by (unfold is_node in Hi; lia).
    unfold coalesce_step. rewrite H1. split; [done|]. split; [done|].
    rewrite H1 in Hco. apply coalesced_stop; [done|by left].
  - destruct (decide (1 < ctx_idx ctx)) as [Hi1|Hi1].
    2: { exists ctx, bt. assert (ctx_idx ctx = 1) as H1 by (unfold is_node in Hi; lia).
         rewrite (iterate_stop _ _ _ (ctx, bt)) by (unfold coalesce_step; by rewrite H1).
         split; [done|]. split; [done|]. apply coalesced_stop; [done|by left]. }
    destruct (parent_cases _ Hi Hi1) as [Hp Hcase].
    assert (is_node (sibling (ctx_idx ctx))) as Hsn by (unfold is_node in *; lia).
    assert (coalesce_step NODE_UNMAPPED (ctx, bt) =
      if bool_decide (bnode bt (sibling (ctx_idx ctx)) = NODE_UNMAPPED)
      then Ok (inl (buddy_state_go_up ctx, eupd bt (ctx_idx ctx / 2 - 1) NODE_UNMAPPED))
      else Ok (inr (ctx, bt))) as Hstep.
    { unfold coalesce_step. rewrite (proj2 (Z.ltb_lt _ _) Hi1). fold (sibling (ctx_idx ctx)).
      rewrite get_buddy_ok by done. cbn [mbind outcome_bind].
      change (eitem bt (sibling (ctx_idx ctx) - 1)) with (bnode bt (sibling (ctx_idx ctx))).
      case_bool_decide; [|done]. unfold PARENT.
      rewrite set_buddy_ok by (done || lia). done. }
    assert (bnode bt (sibling (ctx_idx ctx)) = NODE_UNMAPPED ↔
            unmapped_in (n :: D) (sibling (ctx_idx ctx))) as Htest.
    { rewrite (co_unmapped _ _ Hco) by done. split; [by intros [? _]|]. intros Hu. split; [done|].
      intros [Hin _]. pose proof (inside_overlap _ _ Hi Hin) as Ho.
      by rewrite sibling_disjoint in Ho. }
    case_bool_decide as Hb.
    + destruct (IH (buddy_state_go_up ctx) (eupd bt (ctx_idx ctx / 2 - 1) NODE_UNMAPPED))
        as (ctx' & bt' & Hit & Hrest); [|done|apply coalesced_up; tauto|].
      { simpl. unfold PARENT. apply Z.div_lt_upper_bound; [lia|].
        rewrite <- on_level_double by lia. by replace (Z.of_nat m + 1 + 1) with (Z.of_nat (S m) + 1) by lia. }
      exists ctx', bt'. by rewrite (iterate_next _ _ _ _ Hstep).
    + exists ctx, bt. rewrite (iterate_stop _ _ _ _ Hstep). split; [done|]. split; [done|].
      apply coalesced_stop; [done|]. right. tauto.
Qed.

(** Marking [n] itself. *)
Lemma coalesced_start bt :
  buddy_ok bt (n :: live) D → coalesced (eupd bt (n - 1) NODE_UNMAPPED) n.
Proof.
  intros [Hused Hunm Hdep]. pose proof n_node as Hn. pose proof Hno as [Hnd Hnode Hov].
  apply NoDup_cons in Hnd as [Hnn Hnd].
  assert (∀ d, d ∈ D → overlapb n d = false) as HD.
  { intros d Hd. apply Hov; [set_solver|set_solver|]. intros ->. set_solver. }
  split; [apply um_run; [done|left]|unfold inside; lia|..]; intros j Hj;
    unfold is_node in Hn, Hj; rewrite bnode_eupd by lia; case_decide as Hnj; try done.
  - subst j. split; [done|]. intros Hl. set_solver.
  - rewrite Hused by done. set_solver.
  - subst j. split; [|done]. intros _. split; [apply um_run; [done|left]|]. tauto.
  - rewrite Hunm by done. split.
    + intros Hu. split; [eapply um_mono, Hu; set_solver|]. intros [Hin _].
      pose proof (um_disjoint D j n Hn HD Hu) as Ho.
      by rewrite (inside_overlap n j) in Ho.
    + intros [Hu Hna]. destruct (overlapb n j) eqn:Ho; [|by eapply um_cons_out].
      exfalso. apply nodes_laminar in Ho as [[_ Hjn]|[_ Hnj']]; [|apply Hna; auto|done|done].
      destruct (um_covered _ _ Hu (node_lo j)) as (d & Hd & Hdn & Hdj & _).
      { pose proof (node_bounds j Hj). lia. }
      assert (inside d n) as Hdn' by by eapply inside_trans.
      apply elem_of_cons in Hd as [->|Hd]; [apply Hnj, inside_antisym; done|].
      specialize (HD d Hd). rewrite overlapb_sym in HD.
      by rewrite (inside_overlap d n) in HD.
  - by apply Hdep.
Qed.
End coalesce.
