(* ===== verification/ChunkSpec.v ===== *)
(** * ChunkSpec: what a chunk promises

    [chunk_inv base live dead c]: chunk [c], whose memory starts at [base], has handed
    out the runs at the nodes of [live] (with the region size recorded for each), and
    the runs of [dead] were returned and unmapped.  chunk_init establishes it,
    chunk_allocate_run and chunk_deallocate_run preserve it, and chunk_get_run_ptr
    reads [live]. *)
From Stdlib Require Import ZArith Lia.
From stdpp Require Import base option numbers list gmap sorting.
From S2P Require Import Prelude.
From S2P Require Import CArray.
From S2P Require Import Utils.
From S2P Require Import SizeClass.
From S2P Require Import Random.
From S2P Require Import ContainerLL.
From S2P Require Import Platform.
From S2P Require Import Chunk.
From S2P Require Import ChunkTree.
From S2P Require Import ChunkAlloc.
From S2P Require Import ChunkRun.
From S2P Require Import ChunkBuddy.

Definition recorded (rs : Z) : Z :=
  if rs =? CHUNK_LEAST_REGION_SIZE_BYTES then REG_MARK_BAD_VALUE else rs.

Record chunk_inv (base : Z) (live : list (Z * Z)) (dead : list Z) (c : chunk_t) : Prop := {
  ci_arrays : chunk_arrays c;
  ci_jump : jump_ok c (live.*1 ++ dead);
  ci_no : no_overlap (live.*1 ++ dead);
  ci_above : ∀ t, t ∈ live.*1 ++ dead → 2 ≤ t;
  ci_buddy : buddy_ok (buddy_tree c) (live.*1) dead;
  ci_key : key (chunk_entry c) = base;
  ci_base : 0 < base ∧ base + CHUNK_SIZE_BYTES < 2 ^ 64;
  ci_reg_live : ∀ n rs, (n, rs) ∈ live → 2048 ≤ n →
    acell (reg_size_small_medium c) (n - 2048) = recorded rs ∧ 0 ≤ rs ≤ CHUNK_LEAST_REGION_SIZE_BYTES;
  ci_reg_free : ∀ n, 2048 ≤ n ≤ 4095 → avail (live.*1 ++ dead) n = true →
    acell (reg_size_small_medium c) (n - 2048) = REG_MARK_BAD_VALUE
}.

(** The size in bytes of the run at node [n]. *)
Definition run_bytes (n : Z) : Z := CHUNK_LEAST_REGION_SIZE_BYTES * node_span n.

(** ** Addresses *)
Lemma run_addr_eq base n :
  0 < base → base + CHUNK_SIZE_BYTES < 2 ^ 64 → is_node n →
  run_addr base n = base + (node_lo n - 2048) * 16384 ∧
  run_bytes n = (node_hi n - node_lo n) * 16384.
Proof.
  intros Hb Hb' Hn. pose proof (node_bounds n Hn).
  unfold run_addr, run_bytes. change CHUNK_LEAST_REGION_SIZE_BYTES with 16384.
  change CHUNK_SIZE_BYTES with 33554432 in *. split; [rewrite wrap_small; lia|].
  unfold node_lo, node_hi. lia.
Qed.

(** ** The order of the allocations does not matter *)
Lemma avail_perm T T' i : T ≡ₚ T' → avail T i = avail T' i.
Proof.
  intros HT. unfold avail. f_equal. apply eq_true_iff_eq. rewrite !forallb_forall.
  split; intros H x Hx; apply H; revert Hx; rewrite <- !list_elem_of_In; by rewrite HT.
Qed.

Lemma avail_list_perm T T' l : T ≡ₚ T' → avail_list T l = avail_list T' l.
Proof.
  intros HT. apply filter_ext_elem. intros i _. by rewrite (avail_perm T T').
Qed.

Lemma jump_ok_perm c T T' : T ≡ₚ T' → jump_ok c T → jump_ok c T'.
Proof. intros HT Hj l Hl. rewrite <- (avail_list_perm T T') by done. by apply Hj. Qed.

#[export] Instance no_overlap_perm : Proper ((≡ₚ) ==> impl) no_overlap.
Proof.
  intros T T' HT [Hnd Hn Ho]. split; [by rewrite <- HT|..].
  - intros x. rewrite <- HT. apply Hn.
  - intros x y. rewrite <- HT. apply Ho.
Qed.

(** ** chunk_init *)
Lemma chunk_fresh_inv base c :
  0 < base → base + CHUNK_SIZE_BYTES < 2 ^ 64 → chunk_fresh base c → chunk_inv base [] [] c.
Proof.
  intros Hb Hb' [Harr Hj He Hbt Hr]. split; try done.
  - split; [constructor|..]; simpl; intros ?; set_solver.
  - simpl. intros t. set_solver.
  - split; intros i Hi; unfold bnode; rewrite Hbt; [split; [done|set_solver]|split; [done|]|done].
    intros Hu. exfalso. induction Hu; [set_solver|]. apply IHHu1. unfold is_node in *. lia.
  - by rewrite He.
  - intros n rs. set_solver.
Qed.

(** ** chunk_allocate_run *)
Lemma avail_disjoint T n t : avail T n = true → t ∈ T → overlapb t n = false.
Proof.
  unfold avail. rewrite andb_true_iff, forallb_forall. intros [_ Hall] Ht.
  specialize (Hall t). rewrite negb_true_iff in Hall. apply Hall. by apply list_elem_of_In.
Qed.

Lemma avail_not_in T n : is_node n → avail T n = true → n ∉ T.
Proof.
  intros Hn Ha Hin. pose proof (avail_disjoint T n n Ha Hin) as Ho.
  destruct (node_level n Hn). by rewrite (overlapb_self (Z.log2 n)) in Ho.
Qed.

Lemma no_overlap_cons T n :
  is_node n → avail T n = true → no_overlap T → no_overlap (n :: T).
Proof.
  intros Hn Ha [Hnd Hnode Hov]. split.
  - apply NoDup_cons. split; [by apply avail_not_in|done].
  - intros x [->|Hx]%elem_of_cons; auto.
  - intros x y [->|Hx]%elem_of_cons [->|Hy]%elem_of_cons Hne; [done|..].
    + rewrite overlapb_sym. by apply (avail_disjoint T).
    + by apply (avail_disjoint T).
    + by apply Hov.
Qed.

Lemma buddy_ok_use bt live D n :
  is_node n → n ∉ live → ¬ unmapped_in D n →
  buddy_ok bt live D → buddy_ok (eupd bt (n - 1) NODE_USED) (n :: live) D.
Proof.
  intros Hn Hnl Hnu [Hu Hm Hd]. split; intros i Hi; unfold is_node in Hn, Hi;
    rewrite bnode_eupd by lia; case_decide as Hni; try done.
  - subst. set_solver.
  - rewrite Hu by done. set_solver.
  - subst. done.
  - by apply Hm.
  - by apply Hd.
Qed.

Lemma node_taken_inv base live dead c c' n L rs :
  chunk_inv base live dead c → 0 ≤ L ≤ 11 → n ∈ avail_list (live.*1 ++ dead) L →
  (L = 11 → 0 ≤ rs ≤ CHUNK_LEAST_REGION_SIZE_BYTES) →
  node_taken (live.*1 ++ dead) n rs c c' → chunk_inv base ((n, rs) :: live) dead c'.
Proof.
  intros [Harr Hj Hno Hab Hbu Hk Hb Hrl Hrf] HL [Hlv Ha]%avail_list_elem Hrs [Ha' Hj' He' Hb' Hr']; [|lia].
  pose proof (on_level_le L n HL Hlv) as Hn.
  assert (IS_LEAF n = true ↔ 2048 ≤ n) as Hleaf by (unfold IS_LEAF; apply Z.leb_le).
  assert (∀ m, m ≠ n ∨ ¬ 2048 ≤ n →
    acell (reg_size_small_medium c') (m - 2048) = acell (reg_size_small_medium c) (m - 2048)) as Hreg.
  { intros m Hm. rewrite Hr'. unfold reg_recorded. destruct (_ && _) eqn:E; [|done].
    apply andb_true_iff in E as [E%Hleaf _]. rewrite acell_aupd_ne by lia. done. }
  split; simpl; [done|done|by apply no_overlap_cons|..|by rewrite He'|done| |].
  - intros t [->|Ht]%elem_of_cons; [|by apply Hab]. unfold avail in Ha. lia.
  - rewrite Hb'. apply buddy_ok_use; [done|..|done].
    + intros Hin. apply (avail_not_in (live.*1 ++ dead) n); [done|done|set_solver].
    + intros Hu. pose proof (um_disjoint dead n n) as Hd. destruct (node_level n Hn).
      rewrite (overlapb_self (Z.log2 n)) in Hd by done. cut (true = false); [done|].
      apply Hd; [done| |done]. intros d Hdd. rewrite overlapb_sym.
      apply (avail_disjoint (live.*1 ++ dead)); [done|set_solver].
  - intros m s [[= -> ->]|Hm]%elem_of_cons Hm2.
    + assert (L = 11) as HL11.
      { destruct Hlv as [_ Hlt]. destruct (decide (L = 11)); [done|].
        assert (2 ^ (L + 1) ≤ 2 ^ 11) by (apply Z.pow_le_mono_r; lia). lia. }
      split; [|auto]. rewrite Hr'. unfold reg_recorded, recorded. rewrite (proj2 Hleaf) by done.
      destruct (Z.eqb_spec rs CHUNK_LEAST_REGION_SIZE_BYTES); simpl; [apply Hrf; [lia|done]|].
      rewrite acell_aupd_eq. apply wrap_small. specialize (Hrs HL11).
      change CHUNK_LEAST_REGION_SIZE_BYTES with 16384 in Hrs. lia.
    + rewrite Hreg; [by apply Hrl|]. left. intros ->.
      apply (avail_not_in (live.*1 ++ dead) n); [done|done|].
      apply elem_of_app. left. apply list_elem_of_fmap. by exists (n, s).
  - intros m Hm Ham. rewrite avail_cons in Ham. apply andb_true_iff in Ham as [Ho Ham].
    rewrite Hreg; [by apply Hrf|]. left. intros ->. destruct (node_level n Hn).
    by rewrite (overlapb_self (Z.log2 n)) in Ho.
Qed.

(** ** Climbing from a leaf to the run it starts

    find_used_step and find_run_step climb the same way; [up] is what they count,
    [fin] their result and [bad] what they do when the leaf starts no live run. *)
Section climb.
Context {A R : Type} (bt : arr Z) (live D : list Z) (up : A → A) (fin : Z → A → R)
  (bad : outcome R).

Definition climb_step (st : Z * A * chunk_node_t) : outcome ((Z * A * chunk_node_t) + R) :=
  let '(idx, a, node) := st in
  if bool_decide (node = NODE_USED) then Ok (inr (fin idx a))
  else if IS_ROOT idx || IS_RIGHT_CHILD idx then inr <$> bad
  else if bool_decide (node = NODE_DEPLETED) || bool_decide (node = NODE_UNMAPPED) then inr <$> bad
  else
    let idx := PARENT idx in
    node ← get_buddy_tree_item bt idx;
    Ok (inl (idx, up a, node)).

Context (Hlen : alen bt = 1024) (Hbt : buddy_ok bt live D).

Lemma climb_go i a :
  is_node (2 * i) → 1 ≤ i → (2 * i ∉ live) → ¬ unmapped_in D (2 * i) →
  climb_step (2 * i, a, bnode bt (2 * i)) = Ok (inl (i, up a, bnode bt i)).
Proof.
  intros Hn Hi Hl Hu. unfold climb_step.
  rewrite bool_decide_false by (rewrite (bo_used _ _ _ Hbt); done).
  unfold IS_ROOT, IS_RIGHT_CHILD, PARENT. rewrite Z.odd_mul. simpl.
  rewrite (proj2 (Z.eqb_neq (2 * i) 1)) by lia. simpl.
  rewrite bool_decide_false by (apply (bo_depleted _ _ _ Hbt); done).
  rewrite bool_decide_false by (rewrite (bo_unmapped _ _ _ Hbt); done). simpl.
  rewrite (Z.mul_comm 2), Z.div_mul by done. unfold is_node in Hn.
  by rewrite get_buddy_ok by lia.
Qed.

(** From the first leaf of the live run [n]. *)
Lemma climb_found n (k : nat) a :
  is_node (n * 2 ^ Z.of_nat k) → 1 ≤ n → n ∈ live →
  (∀ i, i ≠ n → is_node i → inside i n → (i ∉ live) ∧ ¬ unmapped_in D i) →
  iterate climb_step (S k) (n * 2 ^ Z.of_nat k, a, bnode bt (n * 2 ^ Z.of_nat k)) =
  Ok (inr (fin n (Nat.iter k up a))).
Proof.
  intros Hk Hn Hlive Hfree. revert a. induction k as [|k IH]; intros a.
  - change (Z.of_nat 0) with 0 in *. rewrite Z.pow_0_r, Z.mul_1_r in *. rewrite iterate_1.
    unfold climb_step. rewrite bool_decide_true; [done|]. by apply (bo_used _ _ _ Hbt).
  - pose proof (pow2_pos (Z.of_nat k) ltac:(lia)) as Hp.
    rewrite Nat2Z.inj_succ, Z.pow_succ_r in * by lia.
    replace (n * (2 * 2 ^ Z.of_nat k)) with (2 * (n * 2 ^ Z.of_nat k)) in * by lia.
    set (i := n * 2 ^ Z.of_nat k) in *.
    assert (is_node i) as Hi by (unfold is_node in *; nia).
    assert (inside (2 * i) n ∧ 2 * i ≠ n) as [Hin Hne].
    { split; [|unfold i; nia]. unfold is_node in *.
      assert (is_node n) as Hnn by (unfold is_node, i in *; nia).
      unfold inside, node_lo, node_hi, node_span. replace (2 * i) with (n * 2 ^ (Z.of_nat k + 1))
        by (unfold i; rewrite Z.pow_add_r by lia; lia).
      rewrite Z.log2_mul_pow2 by lia.
      assert (Z.log2 (2 * i) ≤ 11) by (apply node_level; unfold is_node; lia).
      assert (Z.log2 (2 * i) = Z.of_nat k + 1 + Z.log2 n) as Hlg.
      { rewrite <- Z.log2_mul_pow2 by lia. f_equal. unfold i. rewrite Z.pow_add_r by lia. lia. }
      replace (11 - Z.log2 n) with ((Z.of_nat k + 1) + (11 - (Z.of_nat k + 1 + Z.log2 n))) by lia.
      rewrite (Z.pow_add_r 2 (Z.of_nat k + 1) (_ - _)) by lia.
      pose proof (pow2_pos (11 - (Z.of_nat k + 1 + Z.log2 n)) ltac:(lia)).
      pose proof (pow2_pos (Z.of_nat k + 1) ltac:(lia)). nia. }
    destruct (Hfree (2 * i) Hne Hk Hin) as [Hl Hu].
    rewrite (iterate_next _ _ _ _ (climb_go i a Hk ltac:(unfold is_node in Hi; lia) Hl Hu)).
    rewrite IH by done. by rewrite Nat.iter_succ_r.
Qed.

Lemma climb_bad m st : climb_step st = (inr <$> bad) → iterate climb_step (S m) st = (inr <$> bad).
Proof. intros Hs. simpl. rewrite Hs. by destruct bad. Qed.

(** From a leaf that starts no live run. *)
Lemma climb_missed (m : nat) i a :
  is_node i → i < 2 ^ (Z.of_nat m + 1) →
  (∀ j, j ∈ live → node_lo j ≠ node_lo i) →
  iterate climb_step (S m) (i, a, bnode bt i) = (inr <$> bad).
Proof.
  revert i a. induction m as [|m IH]; intros i a Hi Hm Hlo;
    assert (i ∉ live) as Hnl by (intros Hin; by apply (Hlo i));
    assert (bnode bt i ≠ NODE_USED) as Hnu by (by rewrite (bo_used _ _ _ Hbt)).
  - apply climb_bad. unfold climb_step. rewrite bool_decide_false by done.
    unfold is_node in Hi. simpl in Hm. assert (i = 1) as -> by lia. done.
  - destruct (decide (i = 1)) as [->|Hi1].
    { apply climb_bad. unfold climb_step. by rewrite bool_decide_false. }
    pose proof (Zmod_odd i) as Hodd. pose proof (Z.div_mod i 2 ltac:(lia)) as Hdm.
    destruct (Z.odd i) eqn:Ho.
    { apply climb_bad. unfold climb_step, IS_RIGHT_CHILD. rewrite Ho, orb_true_r.
      by rewrite bool_decide_false. }
    destruct (decide (bnode bt i = NODE_UNMAPPED)) as [Hu|Hu].
    { apply climb_bad. unfold climb_step. rewrite bool_decide_false by done.
      rewrite (bool_decide_true (_ = NODE_UNMAPPED)) by done. rewrite orb_true_r.
      by destruct (_ || _). }
    remember (i / 2) as p eqn:Hp. assert (i = 2 * p) as -> by lia. unfold is_node in Hi.
    rewrite (iterate_next _ _ _ _ (climb_go p a Hi ltac:(lia) Hnl
      ltac:(rewrite <- (bo_unmapped _ _ _ Hbt); done))).
    destruct (children_bounds p ltac:(lia)) as (E1 & _). apply IH.
    + unfold is_node. lia.
    + rewrite Nat2Z.inj_succ in Hm. replace (Z.succ (Z.of_nat m) + 1) with (Z.of_nat m + 1 + 1) in Hm by lia.
      rewrite on_level_double in Hm by lia. lia.
    + intros j Hj. rewrite <- E1. by apply Hlo.
Qed.
End climb.

(** A live run found or missed, at the leaf with index [x]. *)
Section climbs.
Context (base : Z) (live : list (Z * Z)) (dead : list Z) (c : chunk_t).
Context (Hinv : chunk_inv base live dead c).
Abbreviation bt := (buddy_tree c).

Lemma live_subtree_free n :
  n ∈ live.*1 → ∀ i, i ≠ n → is_node i → inside i n → (i ∉ live.*1) ∧ ¬ unmapped_in dead i.
Proof.
  intros Hn i Hne Hi Hin. destruct Hinv as [_ _ [Hnd Hnode Hov] _ _ _ _ _ _].
  assert (is_node n) as Hnn by (apply Hnode; set_solver).
  pose proof (inside_overlap i n Hi Hin) as Ho. split.
  - intros Hl. rewrite (Hov i n) in Ho; [done|set_solver|set_solver|done].
  - intros Hu. rewrite overlapb_sym, (um_disjoint dead i n) in Ho; [done|done| |done].
    intros d Hd. apply Hov; [set_solver|set_solver|]. intros ->.
    apply NoDup_app in Hnd as (_ & Hdis & _). by apply (Hdis d).
Qed.

Lemma climb_from_leaf {A R} (up : A → A) (fin : Z → A → R) (bad : outcome R) n a :
  n ∈ live.*1 →
  while_loop (climb_step bt up fin bad) 5 (node_lo n, a, bnode bt (node_lo n)) =
  Ok (fin n (Nat.iter (Z.to_nat (11 - Z.log2 n)) up a)).
Proof.
  intros Hn. assert (is_node n) as Hnn by (apply (no_node _ (ci_no _ _ _ _ Hinv)); set_solver).
  destruct (node_level n Hnn) as [Hl _]. pose proof (node_bounds n Hnn).
  set (k := Z.to_nat (11 - Z.log2 n)).
  assert (node_lo n = n * 2 ^ Z.of_nat k) as ->
    by (unfold node_lo, node_span, k; by rewrite Z2Nat.id by lia).
  apply (while_loop_done _ 5 (S k)); [|simpl; lia].
  apply (climb_found bt (live.*1) dead).
  - by apply ca_buddy, Hinv.
  - apply Hinv.
  - unfold k. rewrite Z2Nat.id by lia. change (n * 2 ^ (11 - Z.log2 n)) with (node_lo n).
    unfold is_node. lia.
  - unfold is_node in Hnn. lia.
  - done.
  - by apply live_subtree_free.
Qed.

Lemma climb_nowhere {A R} (up : A → A) (fin : Z → A → R) (bad : outcome R) x a :
  2048 ≤ x ≤ 4095 → (∀ n, n ∈ live.*1 → node_lo n ≠ x) →
  while_loop (climb_step bt up fin bad) 5 (x, a, bnode bt x) = bad.
Proof.
  intros Hx Hno. apply (while_loop_outcome _ 5 12); [|simpl; lia].
  apply (climb_missed bt (live.*1) dead); [by apply ca_buddy, Hinv|apply Hinv|unfold is_node; lia|simpl; lia|].
  destruct (node_leaf x Hx) as [-> _]. done.
Qed.
End climbs.

(** ** chunk_deallocate_run *)

(** The leaf a pointer into the chunk falls in. *)
Definition leaf_of (base ptr : Z) : Z := 2048 + (ptr - base) / CHUNK_LEAST_REGION_SIZE_BYTES.

Lemma leaf_of_range base ptr :
  base ≤ ptr < base + CHUNK_SIZE_BYTES →
  2048 ≤ leaf_of base ptr ≤ 4095 ∧
  0 ≤ (ptr - base) / CHUNK_LEAST_REGION_SIZE_BYTES < 2048.
Proof.
  unfold leaf_of. change CHUNK_SIZE_BYTES with 33554432. change CHUNK_LEAST_REGION_SIZE_BYTES with 16384.
  intros Hp. pose proof (Z.div_pos (ptr - base) 16384 ltac:(lia) ltac:(lia)).
  assert ((ptr - base) / 16384 < 2048) by (apply Z.div_lt_upper_bound; lia). lia.
Qed.

Lemma iter_depth k : (k ≤ 11)%nat → Nat.iter k (λ d, u32 (d + 1)) 0 = Z.of_nat k.
Proof. intros Hk. do 12 (destruct k as [|k]; [done|]). lia. Qed.

Lemma iter_size k :
  (k ≤ 11)%nat →
  Nat.iter k (λ d, u32 (d * 2)) CHUNK_LEAST_REGION_SIZE_BYTES =
  CHUNK_LEAST_REGION_SIZE_BYTES * 2 ^ Z.of_nat k.
Proof. intros Hk. do 12 (destruct k as [|k]; [done|]). lia. Qed.

(** The returned runs cover the whole chunk. *)
Definition all_returned (dead : list Z) : Prop :=
  ∀ x, 2048 ≤ x < 4096 → ∃ d, d ∈ dead ∧ node_lo d ≤ x < node_hi d.

Lemma root_unmapped_iff dead :
  no_overlap dead → unmapped_in dead 1 ↔ all_returned dead.
Proof.
  intros Hno. split.
  - intros Hu x Hx. destruct (um_covered _ _ Hu x) as (d & Hd & _ & _ & Hdx); [exact Hx|eauto].
  - intros Hall. apply covered_um; [unfold is_node; lia|apply Hno| |exact Hall].
    intros d Hd Hin. apply inside_antisym; [by apply Hno|unfold is_node; lia| |done].
    by apply root_above, Hno.
Qed.

Section deallocate.
Context `{Build} `{Kernel OS}.
Context (base : Z) (live : list (Z * Z)) (dead : list Z) (c : chunk_t).
Context (Hinv : chunk_inv base live dead c).

Lemma find_used_climb bt :
  find_used_step bt = climb_step bt (λ d, u32 (d + 1)) (λ i d, (i, d)) (Fail ErrorExit).
Proof. reflexivity. Qed.

Lemma dealloc_leaf ptr :
  base ≤ ptr < base + CHUNK_SIZE_BYTES →
  u32 ((CHUNK_NO_NODES + 1) / 2 +
       u32 (u64 (ptr - key (chunk_entry c)) / CHUNK_LEAST_REGION_SIZE_BYTES)) = leaf_of base ptr.
Proof.
  intros Hp. destruct (leaf_of_range base ptr Hp) as [Hl Hd].
  pose proof (ci_base _ _ _ _ Hinv). rewrite (ci_key _ _ _ _ Hinv).
  change CHUNK_SIZE_BYTES with 33554432 in *.
  rewrite (wrap_small 64), (wrap_small 32 (_ / _)) by lia. apply wrap_small.
  change ((CHUNK_NO_NODES + 1) / 2) with 2048. lia.
Qed.

(** The pointer starts no live run: the program stops. *)
Lemma chunk_deallocate_run_bad os ptr :
  base ≤ ptr < base + CHUNK_SIZE_BYTES →
  (∀ n, n ∈ live.*1 → node_lo n ≠ leaf_of base ptr) →
  chunk_deallocate_run os c ptr = Fail ErrorExit.
Proof.
  intros Hp Hno. destruct (leaf_of_range base ptr Hp) as [Hl _].
  unfold chunk_deallocate_run. rewrite dealloc_leaf by done.
  rewrite get_buddy_ok by (lia || apply ca_buddy, Hinv). cbn [mbind outcome_bind].
  rewrite find_used_climb.
  change (eitem (buddy_tree c) (leaf_of base ptr - 1)) with (bnode (buddy_tree c) (leaf_of base ptr)).
  by rewrite (climb_nowhere base live dead c Hinv).
Qed.

Lemma no_overlap_moved live1 live2 n rs :
  live = live1 ++ (n, rs) :: live2 → no_overlap (n :: (live1 ++ live2).*1 ++ dead).
Proof.
  intros Hl. eapply no_overlap_perm; [|apply (ci_no _ _ _ _ Hinv)].
  rewrite Hl, !fmap_app, fmap_cons. simpl. solve_Permutation.
Qed.

Lemma buddy_ok_moved live1 live2 n rs :
  live = live1 ++ (n, rs) :: live2 → buddy_ok (buddy_tree c) (n :: (live1 ++ live2).*1) dead.
Proof.
  intros Hl. destruct (ci_buddy _ _ _ _ Hinv) as [Hu Hm Hd]. split; [|done|done].
  intros i Hi. rewrite Hu by done. rewrite Hl, !fmap_app, fmap_cons. set_solver.
Qed.

Lemma coalesced_ext n lv D bt bt' i :
  (∀ j, is_node j → bnode bt' j = bnode bt j) → coalesced n lv D bt i → coalesced n lv D bt' i.
Proof.
  intros Heq [H1 H2 H3 H4 H5].
  split; [done|done|..]; intros j Hj; rewrite Heq by done; auto.
Qed.

(** The loop that would merge returned runs stops at once: no node stays
    NODE_DEPLETED between two calls. *)
Lemma merge_depleted_stops bt lv ctx :
  alen bt = 1024 → is_node (ctx_idx ctx) → 1 < ctx_idx ctx → buddy_ok bt lv dead →
  while_loop (coalesce_step NODE_DEPLETED) 5 (ctx, eupd bt (ctx_idx ctx - 1) NODE_DEPLETED) =
  Ok (ctx, eupd bt (ctx_idx ctx - 1) NODE_DEPLETED).
Proof.
  intros Hlen Hn H1 Hbt. apply (while_loop_done _ 5 1); [|simpl; lia]. rewrite iterate_1.
  unfold coalesce_step. rewrite (proj2 (Z.ltb_lt _ _) H1). fold (sibling (ctx_idx ctx)).
  destruct (parent_cases _ Hn H1) as [Hp Hc].
  assert (is_node (sibling (ctx_idx ctx)) ∧ sibling (ctx_idx ctx) ≠ ctx_idx ctx) as [Hs Hne]
    by (unfold is_node in *; lia).
  rewrite get_buddy_ok by (rewrite ?alen_eupd; done). cbn [mbind outcome_bind].
  change (eitem ?m (sibling (ctx_idx ctx) - 1)) with (bnode m (sibling (ctx_idx ctx))).
  unfold is_node in Hn, Hs. rewrite bnode_eupd by lia. rewrite decide_False by congruence.
  rewrite bool_decide_false; [done|]. by apply Hbt.
Qed.

Lemma coalesce_after_unmap live1 live2 n rs ctx :
  live = live1 ++ (n, rs) :: live2 → ctx_idx ctx = n →
  ∃ ctx' bt', coalesce_unmapped_nodes ctx
      (eupd (eupd (buddy_tree c) (n - 1) NODE_DEPLETED) (n - 1) NODE_UNMAPPED) = Ok (ctx', bt') ∧
    alen bt' = 1024 ∧ buddy_ok bt' ((live1 ++ live2).*1) (n :: dead) ∧
    (ctx_idx ctx' = 1 ↔ unmapped_in (n :: dead) 1).
Proof.
  intros Hl Hctx. pose proof (no_overlap_moved _ _ _ _ Hl) as Hno.
  pose proof (n_node _ _ _ Hno) as Hn. destruct (node_level n Hn) as [Hlg [_ Hlt]].
  set (bt1 := eupd _ _ NODE_UNMAPPED).
  destruct (coalesce_unmapped_iterate n ((live1 ++ live2).*1) dead Hno (Z.to_nat (Z.log2 n)) ctx bt1)
    as (ctx' & bt' & Hit & Hrest).
  - rewrite Hctx, Z2Nat.id by lia. done.
  - apply Hinv.
  - rewrite Hctx. eapply coalesced_ext; [|apply coalesced_start; [done|by eapply buddy_ok_moved]].
    intros j Hj. unfold bt1, is_node in *. rewrite !bnode_eupd by lia. by case_decide.
  - exists ctx', bt'. split; [|done]. eapply while_loop_done; [exact Hit|simpl; lia].
Qed.

(** The pointer is in the first block of the live run [n]: what is left once the
    climb has found the node. *)
Lemma chunk_deallocate_run_eq os ptr live1 live2 n rs :
  live = live1 ++ (n, rs) :: live2 →
  base ≤ ptr < base + CHUNK_SIZE_BYTES → node_lo n = leaf_of base ptr →
  let ctx := BuddyCtx n (run_bytes n) (11 - Z.log2 n) ptr DOWN in
  chunk_deallocate_run os c ptr =
  match k_munmap os ptr (run_bytes n) with
  | (Some _, _) => Fail ErrorExit
  | (None, os') =>
      '(ctx', bt) ← coalesce_unmapped_nodes ctx
         (eupd (eupd (buddy_tree c) (n - 1) NODE_DEPLETED) (n - 1) NODE_UNMAPPED);
      Ok (ctx_idx ctx' =? 1, with_buddy c bt, os')
  end.
Proof.
  intros Hl Hp Hlo ctx. destruct (leaf_of_range base ptr Hp) as [Hlf _].
  pose proof (no_overlap_moved _ _ _ _ Hl) as Hno. pose proof (n_node _ _ _ Hno) as Hn.
  pose proof (ca_buddy _ (ci_arrays _ _ _ _ Hinv)) as Hlen.
  assert (n ∈ live.*1) as Hin by (rewrite Hl, fmap_app, fmap_cons; set_solver).
  assert (1 < n) as Hn1 by (assert (2 ≤ n) by (apply (ci_above _ _ _ _ Hinv); set_solver); lia).
  destruct (node_level n Hn) as [Hlg _]. pose proof (node_bounds n Hn) as Hnb.
  assert (0 < run_bytes n ≤ CHUNK_SIZE_BYTES) as Hsz.
  { destruct (ci_base _ _ _ _ Hinv). destruct (run_addr_eq base n) as [_ ->]; [done..|].
    change CHUNK_SIZE_BYTES with 33554432. lia. }
  change CHUNK_SIZE_BYTES with 33554432 in Hsz.
  unfold chunk_deallocate_run. rewrite dealloc_leaf, <- Hlo by done.
  rewrite get_buddy_ok by (lia || done). cbn [mbind outcome_bind].
  change (eitem (buddy_tree c) (node_lo n - 1)) with (bnode (buddy_tree c) (node_lo n)).
  rewrite find_used_climb, (climb_from_leaf base live dead c Hinv) by done.
  rewrite iter_depth, Z2Nat.id by lia. cbn [mbind outcome_bind].
  rewrite set_buddy_ok by done. cbn [mbind outcome_bind].
  rewrite Z.shiftl_mul_pow2 by lia. change (2 ^ (11 - Z.log2 n)) with (node_span n).
  fold (run_bytes n). rewrite wrap_small by lia. fold ctx. unfold coalesce_depleted_nodes.
  change (n - 1) with (ctx_idx ctx - 1).
  rewrite (merge_depleted_stops _ (n :: (live1 ++ live2).*1)) by (done || by eapply buddy_ok_moved).
  cbn [mbind outcome_bind]. unfold platform_unmap.
  change (ctx_ptr ctx) with ptr. change (ctx_cur_size ctx) with (run_bytes n).
  rewrite c_assert_true by lia. cbn [mbind outcome_bind].
  destruct (k_munmap os ptr (run_bytes n)) as [[e|] os']; cbn [mbind outcome_bind].
  { rewrite bool_decide_false by by destruct e. done. }
  rewrite bool_decide_true by done. cbn [negb]. rewrite set_buddy_ok by done.
  cbn [mbind outcome_bind]. by destruct (coalesce_unmapped_nodes _ _) as [[]|].
Qed.

Lemma chunk_deallocate_run_live os ptr live1 live2 n rs :
  live = live1 ++ (n, rs) :: live2 →
  base ≤ ptr < base + CHUNK_SIZE_BYTES → node_lo n = leaf_of base ptr →
  match k_munmap os ptr (run_bytes n) with
  | (Some _, _) => chunk_deallocate_run os c ptr = Fail ErrorExit
  | (None, os') => ∃ b c', chunk_deallocate_run os c ptr = Ok (b, c', os') ∧
      chunk_inv base (live1 ++ live2) (n :: dead) c' ∧ (b = true ↔ all_returned (n :: dead))
  end.
Proof.
  intros Hl Hp Hlo. rewrite (chunk_deallocate_run_eq os ptr live1 live2 n rs) by done.
  destruct (k_munmap os ptr (run_bytes n)) as [[e|] os']; [done|].
  match goal with |- context [coalesce_unmapped_nodes ?x _] => set (ctx := x) end.
  destruct (coalesce_after_unmap live1 live2 n rs ctx Hl eq_refl) as (ctx' & bt' & Hco & Hlen' & Hbt & Hroot).
  rewrite Hco. cbn [mbind outcome_bind]. eexists _, _. split; [reflexivity|].
  assert ((live.*1 ++ dead) ≡ₚ (live1 ++ live2).*1 ++ n :: dead) as Hperm.
  { rewrite Hl, !fmap_app, fmap_cons. simpl. solve_Permutation. }
  assert (no_overlap ((live1 ++ live2).*1 ++ n :: dead)) as Hno'.
  { eapply no_overlap_perm; [exact Hperm|apply Hinv]. }
  split; [|rewrite Z.eqb_eq, Hroot, root_unmapped_iff; [done|]].
  - destruct Hinv as [Harr Hj _ Hab _ Hk Hb Hrl Hrf]. split; simpl; try done.
    + destruct Harr. by split.
    + intros l Hl'. apply (level_ok_jump c); [done..|]. by apply (jump_ok_perm _ _ _ Hperm Hj).
    + intros t. rewrite <- Hperm. apply Hab.
    + intros m s Hm2. apply Hrl. rewrite Hl. set_solver.
    + intros m Hm2. rewrite <- (avail_perm _ _ m Hperm). by apply Hrf.
  - destruct Hno' as [H1 H2 H3]. split.
    + by apply NoDup_app in H1 as (_ & _ & ?).
    + intros x Hx. apply H2. set_solver.
    + intros x y Hx Hy. apply H3; set_solver.
Qed.
End deallocate.
