(* ===== verification/ChunkProps.v ===== *)
(** * ChunkProps: the theorems about chunks

    The operations of chunk.c refine a small abstract machine: a list of live runs
    and a list of returned ones.  From chunk_init on, whatever the order of
    allocations and deallocations, no two runs ever share a byte.  [run_start] is the live
    run that starts at a pointer, [run_at] the one whose first 16KB block holds it: only
    these blocks are looked at by chunk_deallocate_run and chunk_get_run_ptr. *)
From Stdlib Require Import ZArith Lia.
From stdpp Require Import base option numbers list gmap sorting.
From S2P Require Import Prelude.
From S2P Require Import CArray.
From S2P Require Import Utils.
From S2P Require Import SizeClass.
From S2P Require Import Random.
From S2P Require Import ContainerLL.
From S2P Require Import Platform.
From S2P Require Import Chunk.
From S2P Require Import ChunkTree.
From S2P Require Import ChunkAlloc.
From S2P Require Import ChunkRun.
From S2P Require Import ChunkBuddy.
From S2P Require Import ChunkSpec.

(** The region size chunk_get_run_ptr reports for the run at node [n]. *)
Definition reported (n rs : Z) : Z :=
  if IS_LEAF n && negb (rs =? CHUNK_LEAST_REGION_SIZE_BYTES) then rs else 0.

Section lookup.
Context (base : Z) (live : list (Z * Z)) (dead : list Z) (c : chunk_t).
Context (Hinv : chunk_inv base live dead c).

Lemma find_run_climb bt :
  find_run_step bt = climb_step bt (λ s, u32 (s * 2)) (λ _ s, Some s) (Ok None).
Proof. reflexivity. Qed.

Lemma same_start n m : n ∈ live.*1 → m ∈ live.*1 → node_lo n = node_lo m → n = m.
Proof.
  intros Hn Hm Heq. destruct (ci_no _ _ _ _ Hinv) as [_ Hnode Hov].
  destruct (decide (n = m)) as [|Hne]; [done|].
  assert (overlapb n m = false) as Ho by (apply Hov; [set_solver|set_solver|done]).
  apply overlapb_false in Ho.
  pose proof (node_bounds n ltac:(apply Hnode; set_solver)).
  pose proof (node_bounds m ltac:(apply Hnode; set_solver)). lia.
Qed.

Lemma get_run_ptr_body ptr :
  base ≤ ptr < base + CHUNK_SIZE_BYTES →
  let x := leaf_of base ptr in
  let start := base + (x - 2048) * 16384 in
  chunk_get_run_ptr c ptr =
  if negb (bool_decide (bnode (buddy_tree c) x = NODE_USED)) then
    found ← while_loop (find_run_step (buddy_tree c)) 5 (x, CHUNK_LEAST_REGION_SIZE_BYTES, bnode (buddy_tree c) x);
    match found with Some s => Ok (start, s, 0) | None => Ok (0, 0, 0) end
  else
    let rs := acell (reg_size_small_medium c) (x - 2048) in
    Ok (start, CHUNK_LEAST_REGION_SIZE_BYTES, if negb (rs =? REG_MARK_BAD_VALUE) then rs else 0).
Proof.
  intros Hp x start. destruct (leaf_of_range base ptr Hp) as [Hx Hd].
  destruct (ci_base _ _ _ _ Hinv) as [Hb1 Hb2]. destruct (ci_arrays _ _ _ _ Hinv) as [_ Hreg _ _ Hbt].
  unfold chunk_get_run_ptr. rewrite (ci_key _ _ _ _ Hinv).
  change CHUNK_SIZE_BYTES with 33554432 in *. change CHUNK_LEAST_REGION_SIZE_BYTES with 16384 in *.
  rewrite (wrap_small 64 (base + 33554432)) by lia.
  replace ((ptr <? base) || (base + 33554432 <=? ptr)) with false by lia.
  rewrite (wrap_small 64 (ptr - base)) by lia.
  assert (x - 2048 = (ptr - base) / 16384) as Hxd.
  { unfold x, leaf_of. change CHUNK_LEAST_REGION_SIZE_BYTES with 16384. lia. }
  rewrite <- Hxd in *. change ((CHUNK_NO_NODES + 1) / 2) with 2048.
  replace (2048 + (x - 2048)) with x by lia.
  rewrite (wrap_small 64 ((x - 2048) * 16384)) by lia.
  rewrite (wrap_small 64 (base + _)), (wrap_small 32 x) by lia.
  rewrite get_buddy_ok by lia. cbn [mbind outcome_bind].
  rewrite aread_in by lia. done.
Qed.

Lemma get_run_ptr_found ptr n rs :
  base ≤ ptr < base + CHUNK_SIZE_BYTES → (n, rs) ∈ live → node_lo n = leaf_of base ptr →
  chunk_get_run_ptr c ptr = Ok (run_addr base n, run_bytes n, reported n rs).
Proof.
  intros Hp Hlive Hlo. rewrite get_run_ptr_body by done.
  destruct (leaf_of_range base ptr Hp) as [Hx _]. rewrite <- Hlo in *.
  assert (n ∈ live.*1) as Hn1 by (apply list_elem_of_fmap; by exists (n, rs)).
  assert (is_node n) as Hn by (apply (no_node _ (ci_no _ _ _ _ Hinv)); set_solver).
  destruct (ci_base _ _ _ _ Hinv) as [Hb1 Hb2].
  destruct (run_addr_eq base n Hb1 Hb2 Hn) as [Ha _]. destruct (node_level n Hn) as [Hlg [Hl1 Hl2]].
  destruct (decide (node_lo n ∈ live.*1)) as [Hin|Hin].
  - rewrite (bool_decide_true (_ = NODE_USED)) by (apply (bo_used _ _ _ (ci_buddy _ _ _ _ Hinv)); [unfold is_node; lia|done]).
    cbn [negb]. destruct (node_leaf (node_lo n) Hx) as [Hll _].
    assert (node_lo n = n) as Hnn by (by apply same_start). rewrite Hnn in *.
    destruct (ci_reg_live _ _ _ _ Hinv n rs Hlive) as [Hr Hrs]; [lia|].
    assert (Z.log2 n = 11) as Hl11 by (apply Z.log2_unique; lia).
    rewrite Ha. unfold run_bytes, node_span. rewrite Hl11, Hr. simpl (2 ^ (11 - 11)).
    rewrite Z.mul_1_r. unfold reported, recorded, IS_LEAF.
    rewrite (proj2 (Z.leb_le _ n)) by (change ((CHUNK_NO_NODES + 1) / 2) with 2048; lia). simpl andb.
    destruct (Z.eqb_spec rs CHUNK_LEAST_REGION_SIZE_BYTES); [done|].
    change CHUNK_LEAST_REGION_SIZE_BYTES with 16384 in Hrs. unfold REG_MARK_BAD_VALUE.
    by replace (rs =? 65535) with false by lia.
  - rewrite bool_decide_false by (rewrite (bo_used _ _ _ (ci_buddy _ _ _ _ Hinv)); [done|unfold is_node; lia]).
    cbn [negb]. rewrite find_run_climb, (climb_from_leaf base live dead c Hinv) by done.
    cbn [mbind outcome_bind]. rewrite iter_size by lia. rewrite Z2Nat.id by lia.
    rewrite Ha. unfold run_bytes, node_span, reported.
    destruct (IS_LEAF n) eqn:Hleaf; [|done]. exfalso. apply Z.leb_le in Hleaf.
    change ((CHUNK_NO_NODES + 1) / 2) with 2048 in Hleaf. unfold is_node in Hn.
    destruct (node_leaf n) as [Hnl _]; [lia|]. by rewrite Hnl in Hin.
Qed.

Lemma get_run_ptr_none ptr :
  base ≤ ptr < base + CHUNK_SIZE_BYTES → (∀ n, n ∈ live.*1 → node_lo n ≠ leaf_of base ptr) →
  chunk_get_run_ptr c ptr = Ok (0, 0, 0).
Proof.
  intros Hp Hno. rewrite get_run_ptr_body by done. destruct (leaf_of_range base ptr Hp) as [Hx _].
  rewrite bool_decide_false.
  - cbn [negb]. by rewrite find_run_climb, (climb_nowhere base live dead c Hinv).
  - rewrite (bo_used _ _ _ (ci_buddy _ _ _ _ Hinv)) by (unfold is_node; lia).
    intros Hin. apply (Hno _ Hin). by apply node_leaf.
Qed.

Lemma get_run_ptr_outside ptr :
  ¬ (base ≤ ptr < base + CHUNK_SIZE_BYTES) → chunk_get_run_ptr c ptr = Ok (0, 0, 0).
Proof.
  intros Hp. destruct (ci_base _ _ _ _ Hinv) as [Hb1 Hb2].
  unfold chunk_get_run_ptr. rewrite (ci_key _ _ _ _ Hinv).
  change CHUNK_SIZE_BYTES with 33554432 in *. rewrite wrap_small by lia.
  by replace ((ptr <? base) || (base + 33554432 <=? ptr)) with true by lia.
Qed.
End lookup.

(** The live run whose first block [ptr] points into. *)
Definition run_at (base : Z) (live : list (Z * Z)) (ptr : Z) : option (nat * (Z * Z)) :=
  if (base <=? ptr) && (ptr <? base + CHUNK_SIZE_BYTES)
  then list_find (λ x, node_lo x.1 = leaf_of base ptr) live else None.

Lemma run_at_Some base live ptr i n rs :
  run_at base live ptr = Some (i, (n, rs)) →
  base ≤ ptr < base + CHUNK_SIZE_BYTES ∧ live !! i = Some (n, rs) ∧ node_lo n = leaf_of base ptr.
Proof.
  unfold run_at. destruct (_ && _) eqn:E; [|done]. intros (Hi & Hn & _)%list_find_Some.
  split; [lia|done].
Qed.

Lemma run_at_None base live ptr :
  run_at base live ptr = None → base ≤ ptr < base + CHUNK_SIZE_BYTES →
  ∀ n, n ∈ live.*1 → node_lo n ≠ leaf_of base ptr.
Proof.
  unfold run_at. intros Hf Hp. replace (_ && _) with true in Hf by lia.
  apply list_find_None in Hf. rewrite Forall_forall in Hf.
  intros n Hn. apply list_elem_of_fmap in Hn as ([n' rs] & -> & Hin). by apply (Hf (n', rs)).
Qed.

(** The live run that starts at [ptr]: what chunk_allocate_run returned. *)
Definition run_start (base : Z) (live : list (Z * Z)) (ptr : Z) : option (nat * (Z * Z)) :=
  list_find (λ x, run_addr base x.1 = ptr) live.

Lemma first_block_leaf base n ptr :
  0 < base → base + CHUNK_SIZE_BYTES < 2 ^ 64 → is_node n → base ≤ ptr < base + CHUNK_SIZE_BYTES →
  run_addr base n ≤ ptr < run_addr base n + CHUNK_LEAST_REGION_SIZE_BYTES ↔ node_lo n = leaf_of base ptr.
Proof.
  intros Hb Hb' Hn Hp. destruct (run_addr_eq base n Hb Hb' Hn) as [-> _]. unfold leaf_of.
  change CHUNK_LEAST_REGION_SIZE_BYTES with 16384.
  pose proof (Z.div_mod (ptr - base) 16384 ltac:(lia)). pose proof (Z.mod_pos_bound (ptr - base) 16384 ltac:(lia)).
  lia.
Qed.

Section starts.
Context (base : Z) (live : list (Z * Z)) (dead : list Z) (c : chunk_t).
Context (Hinv : chunk_inv base live dead c).

Lemma live_node n rs : (n, rs) ∈ live → is_node n.
Proof.
  intros Hin. apply (no_node _ (ci_no _ _ _ _ Hinv)), elem_of_app. left.
  apply list_elem_of_fmap. by exists (n, rs).
Qed.

Lemma first_block_live n rs ptr :
  (n, rs) ∈ live → base ≤ ptr < base + CHUNK_SIZE_BYTES →
  run_addr base n ≤ ptr < run_addr base n + CHUNK_LEAST_REGION_SIZE_BYTES ↔ node_lo n = leaf_of base ptr.
Proof.
  intros Hin Hp. destruct (ci_base _ _ _ _ Hinv). apply first_block_leaf; try done. by eapply live_node.
Qed.

(** A pointer into a later block of a live run is in no live run's first block. *)
Lemma later_block n rs ptr :
  (n, rs) ∈ live →
  run_addr base n + CHUNK_LEAST_REGION_SIZE_BYTES ≤ ptr < run_addr base n + run_bytes n →
  run_at base live ptr = None.
Proof.
  intros Hin Hp. destruct (run_at base live ptr) as [[i [m rs']]|] eqn:Hat; [exfalso|done].
  apply run_at_Some in Hat as (Hc & Hi & Hlo). apply list_elem_of_lookup_2 in Hi.
  pose proof (proj2 (first_block_live m rs' ptr Hi Hc) Hlo) as Hfb.
  destruct (ci_base _ _ _ _ Hinv) as [Hb1 Hb2]. pose proof (live_node _ _ Hin) as Hn. pose proof (live_node _ _ Hi) as Hm.
  destruct (run_addr_eq base n Hb1 Hb2 Hn) as [En Bn]. destruct (run_addr_eq base m Hb1 Hb2 Hm) as [Em _].
  rewrite En, Bn in Hp. rewrite Em in Hfb. change CHUNK_LEAST_REGION_SIZE_BYTES with 16384 in *.
  pose proof (node_bounds n Hn). pose proof (node_bounds m Hm).
  destruct (decide (n = m)) as [->|Hne]; [lia|].
  assert (overlapb n m = false) as Ho%overlapb_false.
  { destruct (ci_no _ _ _ _ Hinv) as [_ _ Hov]. apply Hov; [..|done];
      apply elem_of_app; left; apply list_elem_of_fmap; by eexists (_, _). }
  lia.
Qed.
End starts.

(** ** Concrete chunks, for the witnesses *)
Definition sample_base : Z := 33554432.
Definition sample_chunk : chunk_t :=
  match chunk_init_fields sample_base with
  | Ok c => c
  | Fail _ => Chunk (LLEntry 0 0 0) (amake 0 0) (amake 0 0) (amake 0 0) (amake 0 (JumpNode 0 0)) (amake 0 0)
  end.
Definition sample_with (n L rs : Z) : chunk_t :=
  match chunk_allocate_with_node sample_chunk (jn sample_chunk n) n L rs with
  | Ok (_, c) => c | Fail _ => sample_chunk
  end.
(** A run of one block for regions of 48 bytes, and a run of eight blocks. *)
Definition sample_chunk1 : chunk_t := sample_with 2050 11 48.
Definition sample_chunk8 : chunk_t := sample_with 257 8 131072.

Lemma sample_chunk_inv : chunk_inv sample_base [] [] sample_chunk.
Proof.
  destruct (@chunk_init_ok assert_build sample_base) as (c & Hc & Hfr); [done|].
  rewrite chunk_init_eq in Hc by done. unfold sample_chunk. rewrite Hc.
  by apply chunk_fresh_inv.
Qed.

Lemma sample_with_inv n L rs :
  1 ≤ L ≤ 11 → on_level L n → avail [] n = true → (L = 11 → 0 ≤ rs ≤ CHUNK_LEAST_REGION_SIZE_BYTES) →
  chunk_inv sample_base [(n, rs)] [] (sample_with n L rs).
Proof.
  intros HL Hn Ha Hrs. pose proof sample_chunk_inv as Hinv.
  destruct (chunk_allocate_with_node_ok [] n L sample_chunk rs) as (c' & Hc & Hnt);
    [lia|done|done|exact (ci_arrays _ _ _ _ Hinv)|exact (ci_jump _ _ _ _ Hinv)|].
  unfold sample_with. rewrite Hc. apply (node_taken_inv _ [] [] sample_chunk _ _ L); [exact Hinv|lia| |exact Hrs|exact Hnt].
  apply avail_list_elem; [lia|split; [exact Hn|exact Ha]].
Qed.
Lemma sample_chunk1_inv : chunk_inv sample_base [(2050, 48)] [] sample_chunk1.
Proof. apply (sample_with_inv 2050 11 48); [lia|by unfold on_level|reflexivity|by intros _; split]. Qed.
Lemma sample_chunk8_inv : chunk_inv sample_base [(257, 131072)] [] sample_chunk8.
Proof. apply (sample_with_inv 257 8 131072); [lia|by unfold on_level|reflexivity|lia]. Qed.

(** ** The theorems *)

(** C13. chunk_allocate_run of a power-of-two number of 16KB blocks: it returns NULL and
    changes nothing exactly when no node of the requested level is available, and
    otherwise returns the memory of an available node of that level, which is live
    from then on; the chunk invariant is preserved. *)
Theorem chunk_allocate_run_refines `{Build} base live dead c k rs r :
  chunk_inv base live dead c → 0 ≤ k ≤ 11 → is_size_aligned rs = true →
  0 ≤ rs ≤ CHUNK_LEAST_REGION_SIZE_BYTES * 2 ^ k →
  let run_size := CHUNK_LEAST_REGION_SIZE_BYTES * 2 ^ k in
  ((∀ n, on_level (11 - k) n → avail (live.*1 ++ dead) n = false) ∧
   chunk_allocate_run c run_size rs r = Ok (0, c, r)) ∨
  (∃ n c' r', on_level (11 - k) n ∧ avail (live.*1 ++ dead) n = true ∧
    chunk_allocate_run c run_size rs r = Ok (run_addr base n, c', r') ∧
    chunk_inv base ((n, rs) :: live) dead c').
Proof.
  intros Hinv Hk Hal Hrs. cbv zeta.
  destruct (chunk_allocate_run_ok (live.*1 ++ dead) c k rs r Hk Hal) as [[Hnil Hr]|(n & c' & r' & Hn & Hnt & Hr)];
    [apply Hinv|apply Hinv|left|right].
  - split; [|done]. intros n Hn. apply not_true_is_false. intros Ha.
    assert (n ∈ avail_list (live.*1 ++ dead) (11 - k)) as Hin by (apply avail_list_elem; [lia|done]).
    rewrite Hnil in Hin. set_solver.
  - exists n, c', r'. pose proof Hn as [Hlv Ha]%avail_list_elem; [|lia].
    rewrite (ci_key _ _ _ _ Hinv) in Hr. split; [done|]. split; [done|]. split; [done|].
    apply (node_taken_inv base live dead c c' n (11 - k)); [done|lia|done| |done].
    intros HL. assert (k = 0) as -> by lia. change (2 ^ 0) with 1 in Hrs. lia.
Qed.

Lemma chunk_allocate_run_refines_witness :
  let res := @chunk_allocate_run assert_build sample_chunk1 (CHUNK_LEAST_REGION_SIZE_BYTES * 2 ^ 3)
               131072 (Rng 7 7) in
  ((∀ n, on_level (11 - 3) n → avail [2050] n = false) ∧ res = Ok (0, sample_chunk1, Rng 7 7)) ∨
  (∃ n c' r', on_level (11 - 3) n ∧ avail [2050] n = true ∧ res = Ok (run_addr sample_base n, c', r') ∧
    chunk_inv sample_base [(n, 131072); (2050, 48)] [] c').
Proof.
  apply (@chunk_allocate_run_refines assert_build sample_base [(2050, 48)] [] sample_chunk1 3 131072 (Rng 7 7));
    [apply sample_chunk1_inv|lia|reflexivity|vm_compute; split; discriminate].
Defined.

(** The [i]-th live run, at node [n], is given back by the pointer [ptr]. *)
Definition gives_back `{Build} `{Kernel OS} base live dead c os ptr (i : nat) n : Prop :=
  match k_munmap os ptr (run_bytes n) with
  | (Some _, _) => chunk_deallocate_run os c ptr = Fail ErrorExit
  | (None, os') => ∃ b c', chunk_deallocate_run os c ptr = Ok (b, c', os') ∧
      chunk_inv base (delete i live) (n :: dead) c' ∧ (b = true ↔ all_returned (n :: dead))
  end.

Lemma gives_back_at `{Build} `{Kernel OS} base live dead c os ptr i n rs :
  chunk_inv base live dead c → base ≤ ptr < base + CHUNK_SIZE_BYTES →
  live !! i = Some (n, rs) → node_lo n = leaf_of base ptr → gives_back base live dead c os ptr i n.
Proof.
  intros Hinv Hp Hi Hlo. unfold gives_back. rewrite delete_take_drop.
  apply (chunk_deallocate_run_live base live dead c Hinv os ptr _ _ n rs); [|done|done].
  symmetry. by apply take_drop_middle.
Qed.

(** C14. chunk_deallocate_run of a pointer into the chunk.  For the start of a live run,
    which is the pointer chunk_allocate_run returned and the only one chunk.h admits,
    exactly that run's bytes are passed to munmap, the run becomes a returned one, and the
    result says whether the whole chunk has now been returned; when munmap fails the
    program stops.  For a pointer outside the first 16KB blocks of the live runs (never
    handed out, returned before, or into a later block) the program stops.  A pointer into
    the first block of a live run, but not to its start, is not refused: the run is
    returned, and as many bytes as it has are unmapped from the pointer on, beyond its end. *)
Theorem chunk_deallocate_run_refines `{Build} `{Kernel OS} base live dead c os ptr :
  chunk_inv base live dead c → base ≤ ptr < base + CHUNK_SIZE_BYTES →
  match run_start base live ptr with
  | Some (i, (n, _)) => ptr = run_addr base n ∧ gives_back base live dead c os ptr i n
  | None =>
      match run_at base live ptr with
      | None => chunk_deallocate_run os c ptr = Fail ErrorExit
      | Some (i, (n, _)) =>
          run_addr base n < ptr < run_addr base n + CHUNK_LEAST_REGION_SIZE_BYTES ∧
          gives_back base live dead c os ptr i n
      end
  end.
Proof.
  intros Hinv Hp. destruct (run_start base live ptr) as [[i [n rs]]|] eqn:Hst.
  - apply list_find_Some in Hst as (Hi & Hn & _). cbn [fst] in Hn. split; [done|].
    eapply (gives_back_at _ _ _ _ _ _ _ _ rs); [done..|].
    apply (first_block_live base live dead c Hinv n rs ptr); [by eapply list_elem_of_lookup_2|done|].
    rewrite Hn. change CHUNK_LEAST_REGION_SIZE_BYTES with 16384. lia.
  - destruct (run_at base live ptr) as [[i [n rs]]|] eqn:Hat.
    + apply run_at_Some in Hat as (_ & Hi & Hlo). split; [|by eapply gives_back_at].
      pose proof (list_elem_of_lookup_2 _ _ _ Hi) as Hin.
      apply (first_block_live base live dead c Hinv n rs ptr Hin Hp) in Hlo.
      apply list_find_None in Hst. rewrite Forall_forall in Hst. specialize (Hst _ Hin). cbn [fst] in Hst. lia.
    + apply (chunk_deallocate_run_bad base live dead c Hinv); [done|]. by apply run_at_None.
Qed.

Lemma chunk_deallocate_run_refines_witness :
  ∃ b c', @chunk_deallocate_run assert_build unit granting_kernel tt sample_chunk1 (sample_base + 32768)
          = Ok (b, c', tt) ∧
    chunk_inv sample_base [] [2050] c' ∧ (b = true ↔ all_returned [2050]).
Proof.
  pose proof (@chunk_deallocate_run_refines assert_build unit granting_kernel sample_base [(2050, 48)] []
           sample_chunk1 tt (sample_base + 32768) sample_chunk1_inv) as H.
  assert (run_start sample_base [(2050, 48)] (sample_base + 32768) = Some (0%nat, (2050, 48))) as Hst
    by (vm_compute; reflexivity).
  rewrite Hst in H. destruct H as [_ H]; [vm_compute; done|exact H].
Defined.

(** chunk_get_run_ptr against the live runs. *)
Lemma chunk_get_run_ptr_ok base live dead c ptr :
  chunk_inv base live dead c →
  chunk_get_run_ptr c ptr =
  match run_at base live ptr with
  | Some (_, (n, rs)) => Ok (run_addr base n, run_bytes n, reported n rs)
  | None => Ok (0, 0, 0)
  end.
Proof.
  intros Hinv. destruct (run_at base live ptr) as [[i [n rs]]|] eqn:Hat.
  - apply run_at_Some in Hat as (Hp & Hi & Hlo).
    apply (get_run_ptr_found base live dead c Hinv); [done|by eapply list_elem_of_lookup_2|done].
  - destruct (decide (base ≤ ptr < base + CHUNK_SIZE_BYTES)) as [Hp|Hp].
    + apply (get_run_ptr_none base live dead c Hinv); [done|by apply run_at_None].
    + by apply (get_run_ptr_outside base live dead c Hinv).
Qed.

(** C15. chunk_get_run_ptr of any address: when the address is in the first block of a
    live run the result is the run's start, its size, and the region size recorded for
    a small or medium run (0 otherwise); every other address gives three zeros.  So does
    an address in a later block of a live run of several blocks, although chunk.h leaves
    the results untouched only for an address that belongs to no run. *)
Theorem chunk_get_run_ptr_refines base live dead c ptr :
  chunk_inv base live dead c →
  chunk_get_run_ptr c ptr =
    match run_at base live ptr with
    | Some (_, (n, rs)) => Ok (run_addr base n, run_bytes n, reported n rs)
    | None => Ok (0, 0, 0)
    end ∧
  (∀ n rs, (n, rs) ∈ live →
     run_addr base n + CHUNK_LEAST_REGION_SIZE_BYTES ≤ ptr < run_addr base n + run_bytes n →
     chunk_get_run_ptr c ptr = Ok (0, 0, 0)).
Proof.
  intros Hinv. pose proof (chunk_get_run_ptr_ok base live dead c ptr Hinv) as Hptr. split; [done|].
  intros n rs Hin Hp. by rewrite Hptr, (later_block base live dead c Hinv n rs ptr).
Qed.

(** A run of eight blocks is found by an address in its first block, and not by one 20000
    bytes behind its start. *)
Lemma chunk_get_run_ptr_refines_witness :
  chunk_get_run_ptr sample_chunk8 (sample_base + 131072 + 96) = Ok (sample_base + 131072, 131072, 0) ∧
  chunk_get_run_ptr sample_chunk8 (sample_base + 131072 + 20000) = Ok (0, 0, 0).
Proof.
  assert (run_at sample_base [(257, 131072)] (sample_base + 131072 + 96) = Some (0%nat, (257, 131072))) as Hat
    by (vm_compute; reflexivity).
  assert (run_addr sample_base 257 = sample_base + 131072 ∧ run_bytes 257 = 131072 ∧ reported 257 131072 = 0) as (Ha & Hb & Hr)
    by (vm_compute; split_and!; reflexivity).
  split.
  - rewrite (proj1 (chunk_get_run_ptr_refines sample_base [(257, 131072)] [] sample_chunk8
                      (sample_base + 131072 + 96) sample_chunk8_inv)), Hat, Ha, Hb, Hr. reflexivity.
  - apply (proj2 (chunk_get_run_ptr_refines sample_base [(257, 131072)] [] sample_chunk8
                    (sample_base + 131072 + 20000) sample_chunk8_inv) 257 131072); [by left|].
    rewrite Ha, Hb. change CHUNK_LEAST_REGION_SIZE_BYTES with 16384. lia.
Defined.

(** ** Sequences of operations *)
Inductive chunk_op : Type :=
  | OpAllocate (k rs : Z)     (* chunk_allocate_run of 2^k blocks *)
  | OpDeallocate (ptr : Z).   (* chunk_deallocate_run *)

Section sequences.
Context `{Build} `{Kernel OS}.

(** The runs (address and size) handed out so far and those among them that were not
    given back, with the state of the chunk, the generator and the kernel. *)
Definition chunk_st : Type := list (Z * Z) * list (Z * Z) * chunk_t * rng * OS.

(** The run that [ptr] gives back. *)
Definition held_at (ptr : Z) (held : list (Z * Z)) : option (nat * (Z * Z)) :=
  list_find (λ x, x.1 ≤ ptr < x.1 + CHUNK_LEAST_REGION_SIZE_BYTES) held.

Definition chunk_op_step (op : chunk_op) (st : chunk_st) : outcome chunk_st :=
  let '(given, held, c, r, os) := st in
  match op with
  | OpAllocate k rs =>
      let run_size := CHUNK_LEAST_REGION_SIZE_BYTES * 2 ^ k in
      '(p, c, r) ← chunk_allocate_run c run_size rs r;
      Ok (if p =? 0 then (given, held, c, r, os)
          else ((p, run_size) :: given, (p, run_size) :: held, c, r, os))
  | OpDeallocate ptr =>
      '(_, c, os) ← chunk_deallocate_run os c ptr;
      Ok (given, from_option (λ x, delete x.1 held) held (held_at ptr held), c, r, os)
  end.
Fixpoint chunk_exec (ops : list chunk_op) (st : chunk_st) : outcome chunk_st :=
  match ops with
  | [] => Ok st
  | op :: ops => st ← chunk_op_step op st; chunk_exec ops st
  end.

(** The pointer gives back no run, or munmap refuses the bytes of the run. *)
Definition stops (st : chunk_st) (ptr : Z) : Prop :=
  let '(_, held, _, _, os) := st in
  match held_at ptr held with
  | None => True
  | Some (_, (_, s)) => ∃ e os', k_munmap os ptr s = (Some e, os')
  end.

(** The arguments respect the preconditions of chunk.h; the pointers given back may be
    any addresses of the chunk. *)
Definition op_ok (base : Z) (op : chunk_op) : Prop :=
  match op with
  | OpAllocate k rs => 0 ≤ k ≤ 11 ∧ is_size_aligned rs = true ∧
                       0 ≤ rs ≤ CHUNK_LEAST_REGION_SIZE_BYTES * 2 ^ k
  | OpDeallocate ptr => base ≤ ptr < base + CHUNK_SIZE_BYTES
  end.

(** Runs inside the chunk, no two of which share a byte. *)
Definition disjoint_runs (base : Z) (runs : list (Z * Z)) : Prop :=
  (∀ p s, (p, s) ∈ runs → base ≤ p ∧ 0 < s ∧ p + s ≤ base + CHUNK_SIZE_BYTES) ∧
  (∀ i j p s q t, i ≠ j → runs !! i = Some (p, s) → runs !! j = Some (q, t) →
     p + s ≤ q ∨ q + t ≤ p).

Definition node_run (base n : Z) : Z * Z := (run_addr base n, run_bytes n).

Lemma no_overlap_runs base T :
  0 < base → base + CHUNK_SIZE_BYTES < 2 ^ 64 → no_overlap T → disjoint_runs base (node_run base <$> T).
Proof.
  intros Hb Hb' [Hnd Hnode Hov]. split.
  - intros p s Hin. apply list_elem_of_fmap in Hin as (n & [= -> ->] & Hn).
    destruct (run_addr_eq base n Hb Hb' (Hnode n Hn)) as [-> ->].
    pose proof (node_bounds n (Hnode n Hn)). change CHUNK_SIZE_BYTES with 33554432. lia.
  - intros i j p s q t Hij. rewrite !list_lookup_fmap.
    intros (n & Hn & [= -> ->])%fmap_Some (m & Hm & [= -> ->])%fmap_Some.
    assert (n ≠ m) as Hne by (intros ->; apply Hij; by eapply NoDup_lookup).
    pose proof (list_elem_of_lookup_2 _ _ _ Hn) as Hn'. pose proof (list_elem_of_lookup_2 _ _ _ Hm) as Hm'.
    destruct (run_addr_eq base n Hb Hb' (Hnode n Hn')) as [-> ->].
    destruct (run_addr_eq base m Hb Hb' (Hnode m Hm')) as [-> ->].
    pose proof (Hov n m Hn' Hm' Hne) as Ho%overlapb_false. lia.
Qed.

Lemma run_bytes_level n k : 0 ≤ k ≤ 11 → on_level (11 - k) n →
  run_bytes n = CHUNK_LEAST_REGION_SIZE_BYTES * 2 ^ k.
Proof.
  intros Hk Hn. unfold run_bytes. rewrite (node_span_level (11 - k)) by (lia || done).
  do 2 f_equal. lia.
Qed.

Lemma no_overlap_app_l T1 T2 : no_overlap (T1 ++ T2) → no_overlap T1.
Proof.
  intros [Hnd Hn Ho]. split.
  - by apply NoDup_app in Hnd as [? _].
  - intros x Hx. apply Hn. set_solver.
  - intros x y Hx Hy. apply Ho; set_solver.
Qed.

(** The runs handed out are the live and the returned ones of the chunk. *)
Record tracked (base : Z) (st : chunk_st) (ns : list Z) (live : list (Z * Z)) (dead : list Z) : Prop := {
  tk_given : st.1.1.1.1 = node_run base <$> ns;
  tk_held : st.1.1.1.2 = node_run base <$> live.*1;
  tk_nodes : ns ≡ₚ live.*1 ++ dead;
  tk_inv : chunk_inv base live dead st.1.1.2
}.

Lemma held_at_run base live dead c ptr :
  chunk_inv base live dead c → base ≤ ptr < base + CHUNK_SIZE_BYTES →
  held_at ptr (node_run base <$> live.*1) = (λ x, (x.1, node_run base x.2.1)) <$> run_at base live ptr.
Proof.
  intros Hinv Hp. pose proof (λ n rs, first_block_live base live dead c Hinv n rs ptr) as Hfb.
  destruct (run_at base live ptr) as [[i [n rs]]|] eqn:Hat; cbn [fmap option_fmap option_map].
  - unfold run_at in Hat. replace (_ && _) with true in Hat by lia. apply list_find_Some in Hat as (Hi & Hn & Hfirst).
    apply list_find_Some. cbn [fst snd] in *. split; [by rewrite !list_lookup_fmap, Hi|]. split.
    + apply (Hfb n rs); [by eapply list_elem_of_lookup_2|done|done].
    + intros j y Hj Hlt. rewrite !list_lookup_fmap in Hj. destruct (live !! j) as [[m rs']|] eqn:Hm; [|done].
      injection Hj as <-. cbn [node_run fst]. rewrite (Hfb m rs') by (done || by eapply list_elem_of_lookup_2).
      by apply (Hfirst j (m, rs')).
  - apply list_find_None. rewrite !Forall_fmap. apply Forall_forall. intros [m rs'] Hm. cbn.
    rewrite (Hfb m rs') by done. apply (run_at_None _ _ _ Hat Hp). apply list_elem_of_fmap. by exists (m, rs').
Qed.

Lemma chunk_op_step_ok base op st ns live dead :
  tracked base st ns live dead → op_ok base op →
  (∃ st' ns' live' dead', chunk_op_step op st = Ok st' ∧ tracked base st' ns' live' dead') ∨
  (∃ ptr, op = OpDeallocate ptr ∧ chunk_op_step op st = Fail ErrorExit ∧ stops st ptr).
Proof.
  destruct st as [[[[given held] c] r] os]. intros [Hg Hh Hns Hinv] Hop. cbn [fst snd] in *. subst given held.
  unfold chunk_op_step, stops. destruct op as [k rs|ptr]; cbn [op_ok] in Hop.
  - left. destruct Hop as (Hk & Hal & Hrs).
    destruct (chunk_allocate_run_ok (live.*1 ++ dead) c k rs r Hk Hal)
      as [[Hnil Hr]|(n & c' & r' & Hn & Hnt & Hr)];
      [exact (ci_arrays _ _ _ _ Hinv)|exact (ci_jump _ _ _ _ Hinv)|..]; rewrite Hr; cbn [mbind outcome_bind].
    { eexists _, ns, live, dead. split; [reflexivity|]. by split. }
    pose proof Hn as [Hlv Ha]%avail_list_elem; [|lia].
    assert (chunk_inv base ((n, rs) :: live) dead c') as Hinv'.
    { apply (node_taken_inv base live dead c c' n (11 - k)); [done|lia|done| |done].
      intros HL. assert (k = 0) as -> by lia. change (2 ^ 0) with 1 in Hrs. lia. }
    destruct (ci_base _ _ _ _ Hinv) as [Hb1 Hb2]. rewrite (ci_key _ _ _ _ Hinv).
    pose proof (live_node base _ _ _ Hinv' n rs ltac:(by left)) as Hnn. pose proof (node_bounds n Hnn).
    destruct (run_addr_eq base n Hb1 Hb2 Hnn) as [Haddr _].
    rewrite (proj2 (Z.eqb_neq (run_addr base n) 0)), <- (run_bytes_level n k) by (done || lia).
    eexists _, (n :: ns), ((n, rs) :: live), dead. split; [reflexivity|]. split; cbn [fst snd]; try done.
    cbn [fmap list_fmap app]. by rewrite Hns.
  - rewrite (held_at_run base live dead c ptr Hinv Hop).
    pose proof (run_at_Some base live ptr) as Hsome. destruct (run_at base live ptr) as [[i [n rs]]|] eqn:Hat.
    + destruct (Hsome i n rs eq_refl) as (_ & Hi & Hlo).
      pose proof (gives_back_at base live dead c os ptr i n rs Hinv Hop Hi Hlo) as Hd. unfold gives_back in Hd.
      cbn [fmap option_fmap option_map fst snd from_option node_run] in *.
      destruct (k_munmap os ptr (run_bytes n)) as [[e|] os'] eqn:Hm.
      { right. exists ptr. rewrite Hd, (held_at_run base live dead c ptr Hinv Hop), Hat.
        split; [done|]. split; [done|]. by exists e, os'. }
      left. destruct Hd as (b & c' & -> & Hinv' & _). cbn [mbind outcome_bind].
      eexists _, ns, (delete i live), (n :: dead). split; [reflexivity|]. split; cbn [fst snd]; try done.
      * by rewrite !list_fmap_delete.
      * rewrite Hns. rewrite <- (take_drop_middle _ _ _ Hi) at 1. rewrite delete_take_drop, !fmap_app, fmap_cons.
        cbn [fst]. solve_Permutation.
    + right. exists ptr. rewrite (held_at_run base live dead c ptr Hinv Hop), Hat.
      cbn [fmap option_fmap option_map]. split; [done|]. split; [|done].
      by rewrite (chunk_deallocate_run_bad base live dead c Hinv) by (done || by apply run_at_None).
Qed.

Lemma chunk_exec_ok base ops : Forall (op_ok base) ops → ∀ st ns live dead,
  tracked base st ns live dead →
  (∃ st' ns' live' dead', chunk_exec ops st = Ok st' ∧ tracked base st' ns' live' dead') ∨
  (∃ pre ptr post st' ns' live' dead', ops = pre ++ OpDeallocate ptr :: post ∧
     chunk_exec pre st = Ok st' ∧ tracked base st' ns' live' dead' ∧
     chunk_exec ops st = Fail ErrorExit ∧ stops st' ptr).
Proof.
  induction 1 as [|op ops Hop _ IH]; intros st ns live dead Htr; cbn [chunk_exec].
  { left. by exists st, ns, live, dead. }
  destruct (chunk_op_step_ok base op st ns live dead Htr Hop) as
    [(st1 & ns1 & live1 & dead1 & Hst & Htr1)|(ptr & -> & Hst & Hstop)]; rewrite Hst; cbn [mbind outcome_bind].
  - destruct (IH st1 ns1 live1 dead1 Htr1) as
      [?|(pre & ptr & post & st' & ns' & live' & dead' & -> & Hpre & Hrest)]; [by left|right].
    exists (op :: pre), ptr, post, st', ns', live', dead'. split; [done|]. split; [|done].
    cbn [chunk_exec]. by rewrite Hst.
  - right. by exists [], ptr, ops, st, ns, live, dead.
Qed.

Lemma tracked_disjoint base st ns live dead : tracked base st ns live dead → disjoint_runs base st.1.1.1.1.
Proof.
  intros [-> _ Hns Hinv]. destruct (ci_base _ _ _ _ Hinv). apply no_overlap_runs; [done|done|].
  eapply no_overlap_perm; [symmetry; exact Hns|apply Hinv].
Qed.
End sequences.

(** C11. One-time allocation: along any sequence of allocations and deallocations of
    runs, from chunk_init on and whatever the random numbers and the kernel's answers,
    the chunk never hands out a byte twice, not even after the run was returned: the
    runs lie inside the chunk's 32MB and are pairwise disjoint.  The only way to stop
    is the se_error exit of a deallocation whose pointer is not in the first block of a
    run that was handed out and not given back, or whose munmap fails; the runs handed
    out before it are disjoint, too. *)
Theorem chunk_runs_never_overlap `{Build} `{Kernel OS} base ops r os :
  0 < base → base + CHUNK_SIZE_BYTES < 2 ^ 64 → Forall (op_ok base) ops →
  ∃ c, chunk_init base = Ok c ∧
    let st0 := ([], [], c, r, os) in
    ((∃ given held c' r' os', chunk_exec ops st0 = Ok (given, held, c', r', os') ∧ disjoint_runs base given) ∨
     (∃ pre ptr post given held c' r' os', ops = pre ++ OpDeallocate ptr :: post ∧
        chunk_exec pre st0 = Ok (given, held, c', r', os') ∧ disjoint_runs base given ∧
        chunk_exec ops st0 = Fail ErrorExit ∧ stops (given, held, c', r', os') ptr)).
Proof.
  intros Hb Hb' Hops. destruct (chunk_init_ok base ltac:(lia)) as (c & Hc & Hfr).
  exists c. split; [done|]. pose proof (chunk_fresh_inv base c Hb Hb' Hfr) as Hinv. intros st0.
  assert (tracked base st0 [] [] []) as Htr by done.
  destruct (chunk_exec_ok base ops Hops st0 [] [] [] Htr) as
    [([[[[gv hd] c1] r1] os1] & ns & live & dead & Hx & Ht)|
     (pre & ptr & post & [[[[gv hd] c1] r1] os1] & ns & live & dead & He & Hpre & Ht & Hx & Hstop)];
    pose proof (tracked_disjoint _ _ _ _ _ Ht) as Hd; [left|right].
  - by exists gv, hd, c1, r1, os1.
  - by exists pre, ptr, post, gv, hd, c1, r1, os1.
Qed.

Lemma sample_chunk_init : @chunk_init assert_build sample_base = Ok sample_chunk.
Proof.
  destruct (@chunk_init_ok assert_build sample_base) as (c & Hc & _); [done|].
  unfold sample_chunk. rewrite chunk_init_eq in * by done. by rewrite Hc.
Qed.

(** Two runs, of one and of 64 blocks; the first is given back, and the next run of one
    block is another one. *)
Lemma chunk_runs_never_overlap_witness :
  let ops := [OpAllocate 0 48; OpAllocate 6 1048576; OpDeallocate 64782336; OpAllocate 0 16384] in
  ∃ given held c' r',
    @chunk_exec assert_build unit granting_kernel ops ([], [], sample_chunk, Rng 1 1, tt) = Ok (given, held, c', r', tt) ∧
    given = [(41893888, 16384); (50331648, 1048576); (64782336, 16384)] ∧ disjoint_runs sample_base given.
Proof.
  intros ops. set (st0 := ([], [], sample_chunk, Rng 1 1, tt)).
  assert (match @chunk_exec assert_build unit granting_kernel ops st0 with Ok st => st.1.1.1.1 | Fail _ => [] end =
          [(41893888, 16384); (50331648, 1048576); (64782336, 16384)]) as Hb by (vm_compute; reflexivity).
  destruct (@chunk_runs_never_overlap assert_build unit granting_kernel sample_base ops (Rng 1 1) tt) as (c & Hc & Hor);
    [reflexivity|reflexivity|repeat constructor; vm_compute; discriminate|].
  rewrite sample_chunk_init in Hc. apply Ok_inj in Hc as <-. fold st0 in Hor.
  destruct Hor as [(given & held & c' & r' & [] & Hx & Hd)|(pre & ptr & post & given & held & c' & r' & os' & _ & _ & _ & Hx & _)];
    rewrite Hx in Hb; [|discriminate Hb].
  exists given, held, c', r'. split; [exact Hx|]. split; [exact Hb|exact Hd].
Defined.

(** chunk_is_unmapped against the returned runs. *)
Lemma chunk_is_unmapped_ok base live dead c :
  chunk_inv base live dead c → ∃ b, chunk_is_unmapped c = Ok b ∧ (b = true ↔ all_returned dead).
Proof.
  intros Hinv. pose proof (ci_arrays _ _ _ _ Hinv) as Harr.
  unfold chunk_is_unmapped. rewrite get_buddy_ok by (lia || apply Harr). cbn [mbind outcome_bind].
  eexists. split; [reflexivity|]. change (eitem (buddy_tree c) (1 - 1)) with (bnode (buddy_tree c) 1).
  rewrite bool_decide_eq_true, (bo_unmapped _ _ _ (ci_buddy _ _ _ _ Hinv)) by (unfold is_node; lia).
  apply root_unmapped_iff. eapply (no_overlap_app_l _ (live.*1)), no_overlap_perm; [|apply (ci_no _ _ _ _ Hinv)].
  solve_Permutation.
Qed.

(** chunk_is_full answers true exactly when no node of any level can be allocated any
    more, and chunk_is_unmapped exactly when every block of the chunk was returned. *)
Theorem chunk_status_exact base live dead c :
  chunk_inv base live dead c →
  (∃ b, chunk_is_full c = Ok b ∧
        (b = true ↔ ∀ n, is_node n → avail (live.*1 ++ dead) n = false)) ∧
  (∃ b, chunk_is_unmapped c = Ok b ∧ (b = true ↔ all_returned dead)).
Proof.
  intros Hinv. pose proof (ci_arrays _ _ _ _ Hinv) as Harr. split.
  - unfold chunk_is_full. change CHUNK_BUDDY_TREE_DEPTH with 11.
    rewrite aread_in by (rewrite (ca_avail _ Harr); lia). cbn [mbind outcome_bind].
    rewrite (lo_count _ _ _ _ (ci_jump _ _ _ _ Hinv 11 ltac:(lia))).
    eexists. split; [reflexivity|]. set (T := live.*1 ++ dead). split.
    + intros Hz n Hn. apply not_true_is_false. intros Ha.
      destruct (node_level n Hn) as [Hlg Hlv].
      assert (node_lo n ∈ avail_list T 11) as Hin.
      { replace 11 with (Z.log2 n + (11 - Z.log2 n)) by lia. apply avail_list_elem; [lia|].
        pose proof (node_bounds n Hn) as Hb. split.
        - replace (Z.log2 n + (11 - Z.log2 n)) with 11 by lia. unfold on_level. lia.
        - apply (below_avail T n (Z.log2 n) Hlg Hlv Ha (Z.to_nat (11 - Z.log2 n))); [lia|].
          rewrite Z2Nat.id by lia. unfold node_lo, node_hi, node_span in *. lia. }
      destruct (avail_list T 11); [set_solver|]. simpl in Hz. lia.
    + intros Hall. destruct (avail_list T 11) as [|x S] eqn:E; [done|]. exfalso.
      assert (x ∈ avail_list T 11) as [Hx Ha]%avail_list_elem by (rewrite E; left || lia); [|lia].
      rewrite Hall in Ha; [done|]. by apply (on_level_le 11).
  - by apply (chunk_is_unmapped_ok base live).
Qed.

Lemma chunk_status_exact_witness :
  (∃ b, chunk_is_full sample_chunk1 = Ok b ∧ (b = true ↔ ∀ n, is_node n → avail [2050] n = false)) ∧
  (∃ b, chunk_is_unmapped sample_chunk1 = Ok b ∧ (b = true ↔ all_returned [])).
Proof. apply (chunk_status_exact sample_base [(2050, 48)] [] sample_chunk1 sample_chunk1_inv). Defined.
