(* ===== verification/World.v ===== *)
(** * World: the memory and the state the arena functions work on

    The metadata structures live in memory handed out by the internal allocator.  The
    model keeps one store per structure type, indexed by the address of the
    structure; [world] puts them together with the static generator states, the state
    of the kernel, the arena and the contents of user memory.  A pointer to a bin is
    its index in the array of the arena. *)
From Stdlib Require Import ZArith Lia.
From stdpp Require Import base option numbers list gmap.
From S2P Require Import Prelude.
From S2P Require Import CArray.
From S2P Require Import Utils.
From S2P Require Import SizeClass.
From S2P Require Import Random.
From S2P Require Import ContainerLL.
From S2P Require Import Run.
From S2P Require Import Bin.
From S2P Require Import InternalAllocator.
From S2P Require Import Chunk.

(** struct huge_chunk *)
Record huge_chunk_t : Type := Huge { huge_entry : ll_entry; len : Z }.
#[export] Program Instance huge_has_entry : HasEntry huge_chunk_t := {
  get_entry h := huge_entry h;
  put_entry e h := Huge e (len h)
}.
Solve Obligations with done.

Definition ARENA_NO_BINS : Z :=
  NO_SMALL_SIZE_CLASSES + NO_MEDIUM_SIZE_CLASSES + NO_LARGE_SIZE_CLASSES.

(** struct arena_state, without the file descriptor of the statistics build, which Statistics adds *)
Record arena_t : Type := Arena {
  is_initialized : Z;
  secret : Z;
  brk : Z;
  chunk_list : Z;
  huge_alloc_list : Z;
  internal_alloc_list : Z;
  chunk_alloc_ptr : Z;
  huge_alloc_ptr : Z;
  internal_alloc_ptr : Z;
  bins : arr bin_t
}.

Record world (OS : Type) : Type := World {
  w_os : OS;
  w_rng : rng;
  w_arena : arena_t;
  w_ias : gmap Z int_alloc_t;
  w_chunks : gmap Z chunk_t;
  w_runs : gmap Z run_t;
  w_huges : gmap Z huge_chunk_t;
  w_mem : Z → Z
}.
Arguments World {OS}.
Arguments w_os {OS}. Arguments w_rng {OS}. Arguments w_arena {OS}. Arguments w_ias {OS}.
Arguments w_chunks {OS}. Arguments w_runs {OS}. Arguments w_huges {OS}. Arguments w_mem {OS}.

(** sizeof of the metadata structures, with 64-bit pointers *)
Definition SIZEOF_RUN : Z := 24 + 2 + 2 + 2 + 2.
Definition SIZEOF_HUGE_CHUNK : Z := 24 + 8.
Definition SIZEOF_CHUNK : Z :=
  ALIGNUP_8 64 (24 + 2 * (CHUNK_BUDDY_TREE_DEPTH + 1) + 2 * CHUNK_NO_NODES_LAST_LAYER +
                4 * (CHUNK_BUDDY_TREE_DEPTH + 1) + 4 * CHUNK_NO_NODES + CHUNK_BUDDY_TREE_SIZE_BYTES).

(** ** Field updates *)
Section updates.
Context {OS : Type}.

Definition set_os (w : world OS) (x : OS) : world OS :=
  World x (w_rng w) (w_arena w) (w_ias w) (w_chunks w) (w_runs w) (w_huges w) (w_mem w).
Definition set_rng (w : world OS) (x : rng) : world OS :=
  World (w_os w) x (w_arena w) (w_ias w) (w_chunks w) (w_runs w) (w_huges w) (w_mem w).
Definition set_arena (w : world OS) (x : arena_t) : world OS :=
  World (w_os w) (w_rng w) x (w_ias w) (w_chunks w) (w_runs w) (w_huges w) (w_mem w).
Definition set_ias (w : world OS) (x : gmap Z int_alloc_t) : world OS :=
  World (w_os w) (w_rng w) (w_arena w) x (w_chunks w) (w_runs w) (w_huges w) (w_mem w).
Definition set_chunks (w : world OS) (x : gmap Z chunk_t) : world OS :=
  World (w_os w) (w_rng w) (w_arena w) (w_ias w) x (w_runs w) (w_huges w) (w_mem w).
Definition set_runs (w : world OS) (x : gmap Z run_t) : world OS :=
  World (w_os w) (w_rng w) (w_arena w) (w_ias w) (w_chunks w) x (w_huges w) (w_mem w).
Definition set_huges (w : world OS) (x : gmap Z huge_chunk_t) : world OS :=
  World (w_os w) (w_rng w) (w_arena w) (w_ias w) (w_chunks w) (w_runs w) x (w_mem w).
Definition set_mem (w : world OS) (x : Z → Z) : world OS :=
  World (w_os w) (w_rng w) (w_arena w) (w_ias w) (w_chunks w) (w_runs w) (w_huges w) x.
End updates.

Definition set_brk (a : arena_t) (x : Z) : arena_t :=
  Arena (is_initialized a) (secret a) x (chunk_list a) (huge_alloc_list a)
  (internal_alloc_list a) (chunk_alloc_ptr a) (huge_alloc_ptr a) (internal_alloc_ptr a) (bins a).
Definition set_chunk_list (a : arena_t) (x : Z) : arena_t :=
  Arena (is_initialized a) (secret a) (brk a) x (huge_alloc_list a)
  (internal_alloc_list a) (chunk_alloc_ptr a) (huge_alloc_ptr a) (internal_alloc_ptr a) (bins a).
Definition set_huge_list (a : arena_t) (x : Z) : arena_t :=
  Arena (is_initialized a) (secret a) (brk a) (chunk_list a) x
  (internal_alloc_list a) (chunk_alloc_ptr a) (huge_alloc_ptr a) (internal_alloc_ptr a) (bins a).
Definition set_ia_list (a : arena_t) (x : Z) : arena_t :=
  Arena (is_initialized a) (secret a) (brk a) (chunk_list a)
  (huge_alloc_list a) x (chunk_alloc_ptr a) (huge_alloc_ptr a) (internal_alloc_ptr a) (bins a).
Definition set_chunk_ptr (a : arena_t) (x : Z) : arena_t :=
  Arena (is_initialized a) (secret a) (brk a) (chunk_list a)
  (huge_alloc_list a) (internal_alloc_list a) x (huge_alloc_ptr a) (internal_alloc_ptr a) (bins a).
Definition set_huge_ptr (a : arena_t) (x : Z) : arena_t :=
  Arena (is_initialized a) (secret a) (brk a) (chunk_list a)
  (huge_alloc_list a) (internal_alloc_list a) (chunk_alloc_ptr a) x (internal_alloc_ptr a) (bins a).
Definition set_ia_ptr (a : arena_t) (x : Z) : arena_t :=
  Arena (is_initialized a) (secret a) (brk a) (chunk_list a)
  (huge_alloc_list a) (internal_alloc_list a) (chunk_alloc_ptr a) (huge_alloc_ptr a) x (bins a).
Definition set_bins (a : arena_t) (x : arr bin_t) : arena_t :=
  Arena (is_initialized a) (secret a) (brk a) (chunk_list a)
  (huge_alloc_list a) (internal_alloc_list a) (chunk_alloc_ptr a) (huge_alloc_ptr a)
  (internal_alloc_ptr a) x.

(** The fields other than the break and the three probe pointers. *)
Definition forget_probes (a : arena_t) : arena_t :=
  Arena (is_initialized a) (secret a) 0 (chunk_list a) (huge_alloc_list a)
        (internal_alloc_list a) 0 0 0 (bins a).

(** ** Access through pointers: a dangling or NULL pointer is undefined behaviour. *)
Definition rd_at {T} (s : gmap Z T) (a : Z) : outcome T :=
  match s !! a with Some x => Ok x | None => Fail UB end.
(** Initialising a fresh structure at an address. *)
Definition new_at {T} (s : gmap Z T) (a : Z) (x : T) : outcome (gmap Z T) :=
  if a =? 0 then Fail UB else Ok (<[a := x]> s).

(** memcpy and memset on user memory *)
Definition memcpy (m : Z → Z) (dst src n : Z) : Z → Z :=
  λ a, if (dst <=? a) && (a <? dst + n) then m (src + (a - dst)) else m a.
Definition memset (m : Z → Z) (dst v n : Z) : Z → Z :=
  λ a, if (dst <=? a) && (a <? dst + n) then v else m a.
