(* ===== verification/Arena.v ===== *)
(** * Arena: arena.c and arena.h, the code

    The functions of arena.c over a [world].  A function pointer argument of
    arena_morecore (with the probe and the ceiling that go with it) is a value of
    [probe_t].  se_error is [Fail ErrorExit]; the probing loop of arena_morecore, which
    retries for as long as the kernel reports an error, is bounded by 2^47 calls of
    platform_map_probe and is [Fail Diverged] after them. *)
From Stdlib Require Import ZArith Lia.
From stdpp Require Import base option numbers list gmap.
From S2P Require Import Prelude.
From S2P Require Import CArray.
From S2P Require Import Utils.
From S2P Require Import SizeClass.
From S2P Require Import Random.
From S2P Require Import ContainerLL.
From S2P Require Import Platform.
From S2P Require Import Run.
From S2P Require Import Bin.
From S2P Require Import InternalAllocator.
From S2P Require Import Chunk.
From S2P Require Import World.

Section arena.
Context `{Build} `{Kernel OS}.
Implicit Types w : world OS.

(** ** Where to look for memory *)
Definition random_above_brk (a : arena_t) (r : rng) : outcome (Z * rng) :=
  let '(x, r) := splitmix64 r in
  off ← umod x (u64 (MAX_USERSPACE_ADDR64 - brk a));
  Ok (ALIGNUP_PAGE 64 (u64 (brk a + off)), r).

(** static void reset_ia_ptr_start(arena_t *arena) *)
Definition reset_ia_ptr_start (a : arena_t) (r : rng) : outcome (arena_t * rng) :=
  '(p, r) ← random_above_brk a r; Ok (set_ia_ptr a p, r).
(** static void reset_huge_alloc_ptr_start(arena_t *arena) *)
Definition reset_huge_alloc_ptr_start (a : arena_t) (r : rng) : outcome (arena_t * rng) :=
  '(p, r) ← random_above_brk a r; Ok (set_huge_ptr a p, r).
(** static void reset_chunk_ptr_start(arena_t *arena) *)
Definition reset_chunk_ptr_start (a : arena_t) (r : rng) : outcome (arena_t * rng) :=
  let '(x, r) := splitmix32 r in
  let a := set_chunk_ptr a (ALIGNUP_PAGE 32 x) in
  if brk a <=? MASK_44_BITS then
    let '(y, r) := splitmix64 r in
    Ok (set_brk a (ALIGNUP_PAGE 64 (Z.land y MASK_45_BITS)), r)
  else Ok (a, r).

(** The three uses of arena_morecore: the probe, the reset function, the ceiling. *)
Inductive probe_t : Type := ChunkProbe | HugeProbe | InternalProbe.
#[export] Instance probe_eq_dec : EqDecision probe_t.
Proof. solve_decision. Defined.
Definition probe_get (pr : probe_t) (a : arena_t) : Z :=
  match pr with ChunkProbe => chunk_alloc_ptr a | HugeProbe => huge_alloc_ptr a
              | InternalProbe => internal_alloc_ptr a end.
Definition probe_set (pr : probe_t) (a : arena_t) (p : Z) : arena_t :=
  match pr with ChunkProbe => set_chunk_ptr a p | HugeProbe => set_huge_ptr a p
              | InternalProbe => set_ia_ptr a p end.
Definition probe_reset (pr : probe_t) : arena_t → rng → outcome (arena_t * rng) :=
  match pr with ChunkProbe => reset_chunk_ptr_start | HugeProbe => reset_huge_alloc_ptr_start
              | InternalProbe => reset_ia_ptr_start end.
Definition probe_ceil (pr : probe_t) (a : arena_t) : Z :=
  match pr with ChunkProbe => brk a | _ => MAX_USERSPACE_ADDR64 end.

(** static uintptr_t arena_morecore(...): one call of platform_map_probe and what
    follows it. *)
Definition morecore_step (pr : probe_t) (size : Z) w : outcome (world OS + Z * world OS) :=
  '(code, p, os) ← platform_map_probe (w_os w) (probe_get pr (w_arena w))
                                      (probe_ceil pr (w_arena w)) size;
  let a := probe_set pr (w_arena w) p in
  let w := set_arena (set_os w os) a in
  match code with
  | PLATFORM_STATUS_OK => Ok (inr (p, w))
  | PLATFORM_STATUS_CEILING_HIT =>
      '(a, r) ← probe_reset pr a (w_rng w);
      Ok (inl (set_rng (set_arena w a) r))
  | PLATFORM_DIFFERENT_ADDRESS =>
      '(a, r) ← probe_reset pr a (w_rng w);
      Ok (inr (p, set_rng (set_arena w a) r))
  | _ => Ok (inl w)
  end.
Definition arena_morecore (pr : probe_t) (size : Z) w : outcome (Z * world OS) :=
  while_loop (morecore_step pr size) 47 w.

(** The lines after each use: step over a mapping made where the probe was. *)
Definition skip_mapping (pr : probe_t) (p n : Z) w : world OS :=
  let a := w_arena w in
  if p =? probe_get pr a then set_arena w (probe_set pr a (u64 (probe_get pr a + n))) else w.

(** void arena_init(arena_t *arena) *)
Definition arena_seed (os : OS) : outcome (Z * OS) :=
  match k_getenv_seed os with
  | Some user_rand => s ← str2u32 user_rand; Ok (s, os)
  | None =>
      let '(code, v, os) := platform_get_random os in
      match code, v with
      | PLATFORM_STATUS_OK, Some v => Ok (u32 v, os)
      | _, _ => Fail ErrorExit
      end
  end.
Definition arena_init w : outcome (world OS) :=
  _ ← c_assert (is_initialized (w_arena w) =? 0);
  '(secret, os) ← arena_seed (w_os w);
  let '(code, ptr, os) := platform_get_program_break os in
  if negb (bool_decide (code = PLATFORM_STATUS_OK)) then Fail ErrorExit
  else
    let r := init_splitmix64 secret (init_splitmix32 secret (w_rng w)) in
    let old := w_arena w in
    let a := Arena 1 secret ptr ll_init ll_init ll_init (chunk_alloc_ptr old)
                   (huge_alloc_ptr old) (internal_alloc_ptr old) (bins old) in
    '(a, r) ← reset_chunk_ptr_start a r;
    '(a, r) ← reset_ia_ptr_start a r;
    '(a, r) ← reset_huge_alloc_ptr_start a r;
    let a := set_bins a (amake ARENA_NO_BINS (Bin 0 0 0 0 0 0 0)) in
    Ok (set_rng (set_arena (set_os w os) a) r).

(** ** Metadata memory *)

(** One mapping of the list: the allocation it grants, or the next mapping. *)
Definition ia_alloc_step (size : Z) (st : Z * world OS) : outcome (Z * world OS + Z * world OS) :=
  let '(root, w) := st in
  if root =? 0 then Ok (inr (0, w))
  else
    ia ← rd_at (w_ias w) root;
    '(alloc, ia) ← internal_alloc root ia size;
    let w := set_ias w (<[root := ia]> (w_ias w)) in
    if negb (alloc =? 0) then Ok (inr (alloc, w)) else Ok (inl (fd (ia_entry ia), w)).

(** void *arena_internal_alloc(arena_t *arena, size_t size) *)
Definition arena_internal_alloc (size : Z) w : outcome (Z * world OS) :=
  '(alloc, w) ← while_loop (ia_alloc_step size) 47 (internal_alloc_list (w_arena w), w);
  if negb (alloc =? 0) then Ok (alloc, w)
  else
    let n := ALIGNUP_PAGE 64 SIZEOF_INT_ALLOC in
    '(map, w) ← arena_morecore InternalProbe n w;
    let w := skip_mapping InternalProbe map n w in
    (* the mapping is fresh anonymous memory: all zeros *)
    ia ← internal_allocator_init map ia_zeroed;
    ias ← new_at (w_ias w) map ia;
    '(head, ias) ← ll_add ias (internal_alloc_list (w_arena w)) map;
    let w := set_ias (set_arena w (set_ia_list (w_arena w) head)) ias in
    ia ← rd_at (w_ias w) map;
    '(alloc, ia) ← internal_alloc map ia size;
    Ok (alloc, set_ias w (<[map := ia]> (w_ias w))).

(** The mapping that contains the pointer. *)
Definition ia_find_step (ias : gmap Z int_alloc_t) (ptr : Z) (root : Z) : outcome (Z + Z) :=
  if root =? 0 then Ok (inr 0)
  else
    ia ← rd_at ias root;
    let memory := u64 (root + MEMORY_OFFSET) in
    if (memory <=? ptr) && (ptr <=? u64 (memory + INTERNAL_ALLOC_CHUNK_SIZE_BYTES))
    then Ok (inr root) else Ok (inl (fd (ia_entry ia))).

(** void arena_internal_free(arena_t *arena, void *ptr) *)
Definition arena_internal_free (ptr : Z) w : outcome (world OS) :=
  root ← while_loop (ia_find_step (w_ias w) ptr) 47 (internal_alloc_list (w_arena w));
  if root =? 0 then Fail ErrorExit
  else
    ia ← rd_at (w_ias w) root;
    ia ← internal_free root ia ptr;
    Ok (set_ias w (<[root := ia]> (w_ias w))).

(** ** Chunks *)

(** chunk_t *arena_allocate_chunk(arena_t *arena) *)
Definition arena_allocate_chunk w : outcome (Z * world OS) :=
  _ ← c_assert (is_initialized (w_arena w) =? 1);
  '(chunk_meta, w) ← arena_internal_alloc SIZEOF_CHUNK w;
  let map_len := CHUNK_SIZE_BYTES in
  '(ptr, w) ← arena_morecore ChunkProbe map_len w;
  let w := skip_mapping ChunkProbe ptr (map_len + PAGE_SIZE) w in
  c ← chunk_init ptr;
  chunks ← new_at (w_chunks w) chunk_meta c;
  '(head, chunks) ← ll_add chunks (chunk_list (w_arena w)) chunk_meta;
  Ok (chunk_meta, set_chunks (set_arena w (set_chunk_list (w_arena w) head)) chunks).

(** void arena_deallocate_chunk(arena_t *arena, chunk_t *chunk): the structure is gone
    with its memory. *)
Definition arena_deallocate_chunk (chunk : Z) w : outcome (world OS) :=
  _ ← c_assert (is_initialized (w_arena w) =? 1);
  c ← rd_at (w_chunks w) chunk;
  unmapped ← chunk_is_unmapped c;
  _ ← c_assert unmapped;
  '(head, chunks) ← ll_del (w_chunks w) (chunk_list (w_arena w)) chunk;
  let w := set_chunks (set_arena w (set_chunk_list (w_arena w) head)) (delete chunk chunks) in
  arena_internal_free chunk w.

(** chunk_t *arena_get_chunk_from_ptr(arena, ptr, start_chunk) *)
Definition chunk_find_step (chunks : gmap Z chunk_t) (ptr : Z) (entry : Z) : outcome (Z + Z) :=
  if entry =? 0 then Ok (inr 0)
  else
    e ← rd_entry chunks entry;
    _ ← c_assert (IS_ALIGNED (key e) PAGE_SIZE);
    if (s64 (key e) <=? s64 ptr) && (s64 ptr <? s64 (key e) + CHUNK_SIZE_BYTES)
    then Ok (inr entry) else Ok (inl (fd e)).
Definition arena_get_chunk_from_ptr w (ptr start_chunk : Z) : outcome Z :=
  _ ← c_assert (is_initialized (w_arena w) =? 1);
  entry ← (if start_chunk =? 0 then Ok (chunk_list (w_arena w))
           else e ← rd_entry (w_chunks w) start_chunk; Ok (fd e));
  while_loop (chunk_find_step (w_chunks w) ptr) 47 entry.

(** ** Runs *)

(** A run in some chunk of the list: the address of its memory, or NULL. *)
Definition chunk_run_step (bin : bin_t) (st : Z * world OS) : outcome (Z * world OS + Z * world OS) :=
  let '(entry, w) := st in
  if entry =? 0 then Ok (inr (0, w))
  else
    c ← rd_at (w_chunks w) entry;
    '(run_ptr, c, r) ← chunk_allocate_run c (u32 (run_size_pages bin * PAGE_SIZE)) (reg_size bin) (w_rng w);
    let w := set_rng (set_chunks w (<[entry := c]> (w_chunks w))) r in
    if negb (run_ptr =? 0) then Ok (inr (run_ptr, w)) else Ok (inl (fd (chunk_entry c), w)).

(** The metadata of a run whose memory has been found. *)
Definition make_run (bin : bin_t) (run_ptr : Z) w : outcome (Z * world OS) :=
  '(run, w) ← arena_internal_alloc
                (SIZEOF_RUN + BITS2BYTES_CEIL 32 (reg_mask_size_bits bin)) w;
  '(x, r) ← run_init bin run_ptr (w_rng w);
  runs ← new_at (w_runs w) run x;
  Ok (run, set_rng (set_runs w runs) r).

(** run_t *arena_allocate_run(arena_t *arena, bin_t *bin) *)
Definition arena_allocate_run (bin : bin_t) w : outcome (Z * world OS) :=
  _ ← c_assert (is_initialized (w_arena w) =? 1);
  _ ← c_assert (negb (reg_size bin =? 0));
  '(run_ptr, w) ← while_loop (chunk_run_step bin) 47 (chunk_list (w_arena w), w);
  if negb (run_ptr =? 0) then make_run bin run_ptr w
  else
    '(chunk, w) ← arena_allocate_chunk w;
    c ← rd_at (w_chunks w) chunk;
    '(run_ptr, c, r) ← chunk_allocate_run c (u32 (run_size_pages bin * PAGE_SIZE)) (reg_size bin) (w_rng w);
    let w := set_rng (set_chunks w (<[chunk := c]> (w_chunks w))) r in
    _ ← c_assert (negb (run_ptr =? 0));
    make_run bin run_ptr w.

(** ** Bins *)
Definition rd_bin w (i : Z) : outcome bin_t := aread (bins (w_arena w)) i.
Definition wr_bin w (i : Z) (bin : bin_t) : outcome (world OS) :=
  b ← awrite (bins (w_arena w)) i bin; Ok (set_arena w (set_bins (w_arena w) b)).

(** One more run for a bin: arena_allocate_run and bin_add_run. *)
Definition add_fresh_run (i : Z) w : outcome (bool * world OS) :=
  bin ← rd_bin w i;
  '(run, w) ← arena_allocate_run bin w;
  if run =? 0 then Ok (false, w)
  else
    bin ← rd_bin w i;
    '(bin, runs) ← bin_add_run bin (w_runs w) run;
    w ← wr_bin (set_runs w runs) i bin;
    Ok (true, w).

(** static inline unsigned ceil_div(unsigned a, unsigned b) *)
Definition ceil_div (a b : Z) : outcome Z :=
  q ← udiv a b;
  m ← umod a b;
  Ok (u32 (q + (if m =? 0 then 0 else 1))).

(** bool arena_supply_runs(arena_t *arena, bin_t *bin) *)
Fixpoint supply_loop (n : nat) (i : Z) w : outcome (bool * world OS) :=
  match n with
  | O => Ok (true, w)
  | S n =>
      '(ok, w) ← add_fresh_run i w;
      if ok : bool then supply_loop n i w else Ok (false, w)
  end.
Definition arena_supply_runs (i : Z) w : outcome (bool * world OS) :=
  bin ← rd_bin w i;
  _ ← c_assert (avail_regs bin <? BIN_MINIMUM_REGIONS);
  runs_to_allocate ← ceil_div (u32 (BIN_MINIMUM_REGIONS - avail_regs bin)) (reg_mask_size_bits bin / 2);
  supply_loop (Z.to_nat runs_to_allocate) i w.

(** bin_t *arena_get_bin_by_reg_size(arena_t *arena, unsigned reg_size) *)
Definition bin_index (reg_size : Z) : outcome Z :=
  if IS_SIZE_SMALL reg_size then
    _ ← c_assert (ALIGNUP_SMALL_SIZE 32 reg_size =? reg_size);
    Ok (SIZE_TO_IDX_SMALL reg_size)
  else if IS_SIZE_MEDIUM reg_size then
    _ ← c_assert (alignup_medium_size reg_size =? reg_size);
    idx ← size_to_idx_medium reg_size;
    Ok (NO_SMALL_SIZE_CLASSES + idx)
  else
    _ ← c_assert (alignup_large_size reg_size =? reg_size);
    idx ← size_to_idx_large reg_size;
    Ok (NO_SMALL_SIZE_CLASSES + NO_MEDIUM_SIZE_CLASSES + idx).
Definition arena_get_bin_by_reg_size (rs : Z) w : outcome (Z * world OS) :=
  _ ← c_assert (is_initialized (w_arena w) =? 1);
  _ ← c_assert (1 <=? rs);
  _ ← c_assert (rs <=? LARGE_SIZE_MAX_REGION);
  i ← bin_index rs;
  bin ← rd_bin w i;
  '(bin, w) ← (if reg_size bin =? 0
               then bin ← bin_init rs; w ← wr_bin w i bin; Ok (bin, w) else Ok (bin, w));
  _ ← c_assert (reg_size bin =? rs);
  Ok (i, w).

(** ** Huge mappings *)

(** huge_chunk_t *arena_find_huge_mapping(const arena_t *arena, const void *huge_map) *)
Definition arena_find_huge_mapping w (huge_map : Z) : outcome Z :=
  _ ← c_assert (is_initialized (w_arena w) =? 1);
  entry ← ll_find (w_huges w) (huge_alloc_list (w_arena w)) huge_map;
  if entry =? 0 then Ok 0
  else
    h ← rd_at (w_huges w) entry;
    _ ← c_assert (key (huge_entry h) =? huge_map);
    Ok entry.

(** huge_chunk_t *arena_allocate_huge_mapping(arena_t *arena, size_t len) *)
Definition arena_allocate_huge_mapping (n : Z) w : outcome (Z * world OS) :=
  _ ← c_assert (IS_ALIGNED n PAGE_SIZE);
  _ ← c_assert (is_initialized (w_arena w) =? 1);
  '(huge, w) ← arena_internal_alloc SIZEOF_HUGE_CHUNK w;
  huges ← new_at (w_huges w) huge (Huge (LLEntry 0 0 0) n);
  '(map, w) ← arena_morecore HugeProbe n (set_huges w huges);
  h ← rd_at (w_huges w) huge;
  let w := set_huges w (<[huge := Huge (LLEntry (fd (huge_entry h)) (bk (huge_entry h)) map) (len h)]> (w_huges w)) in
  let w := skip_mapping HugeProbe map (n + PAGE_SIZE) w in
  '(head, huges) ← ll_add (w_huges w) (huge_alloc_list (w_arena w)) huge;
  Ok (huge, set_huges (set_arena w (set_huge_list (w_arena w) head)) huges).

(** void arena_reallocate_huge_mapping(arena_t *arena, huge_chunk_t *huge, size_t new_size) *)
Definition arena_reallocate_huge_mapping (huge new_size : Z) w : outcome (world OS) :=
  h ← rd_at (w_huges w) huge;
  _ ← c_assert (IS_ALIGNED (len h) PAGE_SIZE);
  _ ← c_assert (IS_ALIGNED new_size PAGE_SIZE);
  _ ← c_assert (is_initialized (w_arena w) =? 1);
  _ ← c_assert (IS_SIZE_HUGE new_size);
  '(map, w) ← arena_morecore HugeProbe new_size w;
  let w := skip_mapping HugeProbe map (new_size + PAGE_SIZE) w in
  let n := if new_size <? len h then new_size else len h in
  let w := set_mem w (memcpy (w_mem w) map (key (huge_entry h)) n) in
  '(code, os) ← platform_unmap (w_os w) (key (huge_entry h)) (len h);
  if negb (bool_decide (code = PLATFORM_STATUS_OK)) then Fail ErrorExit
  else
    let h := Huge (LLEntry (fd (huge_entry h)) (bk (huge_entry h)) map) new_size in
    Ok (set_huges (set_os w os) (<[huge := h]> (w_huges w))).

(** void arena_deallocate_huge_mapping(arena_t *arena, huge_chunk_t *huge) *)
Definition arena_deallocate_huge_mapping (huge : Z) w : outcome (world OS) :=
  h ← rd_at (w_huges w) huge;
  _ ← c_assert (IS_ALIGNED (len h) PAGE_SIZE);
  _ ← c_assert (is_initialized (w_arena w) =? 1);
  '(code, os) ← platform_unmap (w_os w) (key (huge_entry h)) (len h);
  if negb (bool_decide (code = PLATFORM_STATUS_OK)) then Fail ErrorExit
  else
    '(head, huges) ← ll_del (w_huges w) (huge_alloc_list (w_arena w)) huge;
    let w := set_huges (set_arena (set_os w os) (set_huge_list (w_arena w) head)) (delete huge huges) in
    arena_internal_free huge w.
End arena.
