(* ===== verification/Sealloc.v ===== *)
(** * Sealloc: sealloc.c, the code

    The allocator proper, over a [world]: malloc, free, realloc and calloc on an
    initialised arena.  A bin is its index in the arena; metadata_t carries the
    pointers that locate_metadata_for_ptr returns through its arguments.  The build
    is one without memory tagging; TaggedSealloc adds those branches. *)
From Stdlib Require Import ZArith Lia.
From stdpp Require Import base option numbers list gmap.
From S2P Require Import Prelude.
From S2P Require Import CArray.
From S2P Require Import Utils.
From S2P Require Import SizeClass.
From S2P Require Import Random.
From S2P Require Import ContainerLL.
From S2P Require Import Platform.
From S2P Require Import Run.
From S2P Require Import Bin.
From S2P Require Import InternalAllocator.
From S2P Require Import Chunk.
From S2P Require Import World.
From S2P Require Import Arena.

Inductive metadata_t : Type :=
  | METADATA_INVALID
  | METADATA_REGULAR (chunk run bin : Z)
  | METADATA_HUGE (huge : Z).

Section sealloc.
Context `{Build} `{Kernel OS}.
Implicit Types w : world OS.

(** ** Allocation *)

(** The end of sealloc_allocate_with_bin: a region of a bin with enough of them. *)
Definition take_region (i : Z) w : outcome (Z * world OS) :=
  bin ← rd_bin w i;
  '(ptr, bin, runs, r) ← allocate_from_bin bin (w_runs w) (w_rng w);
  w ← wr_bin (set_rng (set_runs w runs) r) i bin;
  Ok (ptr, w).

(** static void *sealloc_allocate_with_bin(arena_t *arena, bin_t *bin) *)
Definition sealloc_allocate_with_bin (i : Z) w : outcome (Z * world OS) :=
  bin ← rd_bin w i;
  if avail_regs bin <? BIN_MINIMUM_REGIONS then
    '(ok, w) ← add_fresh_run i w;
    if ok : bool then take_region i w else Ok (0, w)
  else take_region i w.

(** The bin for regions of an aligned size, with runs in it, and a region of it. *)
Definition allocate_class (aligned_size : Z) w : outcome (Z * world OS) :=
  '(i, w) ← arena_get_bin_by_reg_size (u32 aligned_size) w;
  bin ← rd_bin w i;
  '(ok, w) ← (if avail_regs bin =? 0 then arena_supply_runs i w else Ok (true, w));
  if ok : bool then sealloc_allocate_with_bin i w else Ok (0, w).

(** A huge mapping for a request: the address of the mapping. *)
Definition allocate_huge (size : Z) w : outcome (Z * world OS) :=
  '(huge, w) ← arena_allocate_huge_mapping (ALIGNUP_PAGE 64 size) w;
  h ← rd_at (w_huges w) huge;
  Ok (key (huge_entry h), w).

(** void *sealloc_malloc(arena_t *arena, size_t size) *)
Definition sealloc_malloc (size : Z) w : outcome (Z * world OS) :=
  let size := if size =? 0 then SMALL_SIZE_MIN_REGION else size in
  if IS_SIZE_HUGE size then allocate_huge size w
  else allocate_class (alignup_class size) w.

(** ** Lookup *)

(** One chunk whose range holds the pointer: a run of it, or the next such chunk. *)
Definition locate_step w (ptr chunk : Z) : outcome (Z + option (Z * Z * Z * Z)) :=
  if chunk =? 0 then Ok (inr None)
  else
    c ← rd_at (w_chunks w) chunk;
    '(run_ptr, run_size, reg_size) ← chunk_get_run_ptr c ptr;
    if negb (run_ptr =? 0) then Ok (inr (Some (chunk, run_ptr, run_size, reg_size)))
    else
      chunk ← arena_get_chunk_from_ptr w ptr chunk;
      Ok (inl chunk).

(** metadata_t locate_metadata_for_ptr(...) *)
Definition locate_metadata_for_ptr (ptr : Z) w : outcome (metadata_t * world OS) :=
  chunk ← arena_get_chunk_from_ptr w ptr 0;
  found ← while_loop (locate_step w ptr) 47 chunk;
  match found with
  | None =>
      huge ← arena_find_huge_mapping w ptr;
      if huge =? 0 then Ok (METADATA_INVALID, w) else Ok (METADATA_HUGE huge, w)
  | Some (chunk, run_ptr, run_size, reg_size) =>
      '(i, w) ← arena_get_bin_by_reg_size (if 0 <? reg_size then reg_size else run_size) w;
      bin ← rd_bin w i;
      run ← bin_get_run_by_addr bin (w_runs w) run_ptr;
      Ok (METADATA_REGULAR chunk run i, w)
  end.

(** ** Release *)

(** The end of sealloc_free_with_metadata: a run whose regions are all given back
    leaves its chunk, and the last run takes the chunk with it. *)
Definition release_run (chunk run : Z) w : outcome (world OS) :=
  r ← rd_at (w_runs w) run;
  c ← rd_at (w_chunks w) chunk;
  '(unmapped, c, os) ← chunk_deallocate_run (w_os w) c (key (run_entry r));
  let w := set_chunks (set_os w os) (<[chunk := c]> (w_chunks w)) in
  w ← (if unmapped : bool then arena_deallocate_chunk chunk w else Ok w);
  arena_internal_free run (set_runs w (delete run (w_runs w))).

(** static void sealloc_free_with_metadata(arena, chunk, bin, run, ptr) *)
Definition sealloc_free_with_metadata (chunk i run ptr : Z) w : outcome (world OS) :=
  bin ← rd_bin w i;
  '(freeable, bin, runs) ← release_to_bin bin (w_runs w) run ptr;
  w ← wr_bin (set_runs w runs) i bin;
  if freeable : bool then release_run chunk run w else Ok w.

(** void sealloc_free(arena_t *arena, void *ptr) *)
Definition sealloc_free (ptr : Z) w : outcome (world OS) :=
  if ptr =? 0 then Ok w
  else
    '(meta, w) ← locate_metadata_for_ptr ptr w;
    match meta with
    | METADATA_INVALID => Fail Aborted
    | METADATA_HUGE huge => arena_deallocate_huge_mapping huge w
    | METADATA_REGULAR chunk run i => sealloc_free_with_metadata chunk i run ptr w
    end.

(** ** Reallocation *)

(** static void *realloc_huge(arena_t *arena, huge_chunk_t *huge, size_t new_size) *)
Definition realloc_huge (huge new_size : Z) w : outcome (Z * world OS) :=
  if IS_SIZE_HUGE new_size then
    w ← arena_reallocate_huge_mapping huge new_size w;
    h ← rd_at (w_huges w) huge;
    Ok (key (huge_entry h), w)
  else
    '(new_reg, w) ← sealloc_malloc new_size w;
    if new_reg =? 0 then Ok (0, w)
    else
      h ← rd_at (w_huges w) huge;
      let w := set_mem w (memcpy (w_mem w) new_reg (key (huge_entry h)) new_size) in
      w ← arena_deallocate_huge_mapping huge w;
      Ok (new_reg, w).

(** The regular case: a new region of the other class, the common part copied. *)
Definition realloc_regular (chunk run_old bin_old old_ptr new_size : Z) w
    : outcome (Z * world OS) :=
  let aligned := alignup_class new_size in
  '(bin_new, w) ← arena_get_bin_by_reg_size (u32 aligned) w;
  bin ← rd_bin w bin_new;
  '(ok, w) ← (if avail_regs bin =? 0 then arena_supply_runs bin_new w else Ok (true, w));
  if negb (ok : bool) then Ok (0, w)
  else
    '(new_ptr, w) ← sealloc_allocate_with_bin bin_new w;
    if new_ptr =? 0 then Ok (0, w)
    else
      bn ← rd_bin w bin_new;
      bo ← rd_bin w bin_old;
      let n := if reg_size bo <? reg_size bn then reg_size bo else reg_size bn in
      let w := set_mem w (memcpy (w_mem w) new_ptr old_ptr n) in
      w ← sealloc_free_with_metadata chunk bin_old run_old old_ptr w;
      Ok (new_ptr, w).

(** The move of a regular region to a huge mapping. *)
Definition realloc_to_huge (chunk run_old bin_old old_ptr new_size : Z) w
    : outcome (Z * world OS) :=
  '(huge, w) ← arena_allocate_huge_mapping (ALIGNUP_PAGE 64 new_size) w;
  h ← rd_at (w_huges w) huge;
  bo ← rd_bin w bin_old;
  let w := set_mem w (memcpy (w_mem w) (key (huge_entry h)) old_ptr (reg_size bo)) in
  w ← sealloc_free_with_metadata chunk bin_old run_old old_ptr w;
  h ← rd_at (w_huges w) huge;
  Ok (key (huge_entry h), w).

(** void *sealloc_realloc(arena_t *arena, void *old_ptr, size_t new_size) *)
Definition sealloc_realloc (old_ptr new_size : Z) w : outcome (Z * world OS) :=
  if old_ptr =? 0 then sealloc_malloc new_size w
  else
    '(meta, w) ← locate_metadata_for_ptr old_ptr w;
    match meta with
    | METADATA_INVALID => Fail Aborted
    | METADATA_HUGE huge => realloc_huge huge (ALIGNUP_PAGE 64 new_size) w
    | METADATA_REGULAR chunk run_old bin_old =>
        bo ← rd_bin w bin_old;
        r ← rd_at (w_runs w) run_old;
        valid ← run_validate_ptr r bo old_ptr;
        if valid =? SIZE_MAX then Fail Aborted
        else if IS_SIZE_HUGE new_size then
          realloc_to_huge chunk run_old bin_old old_ptr new_size w
        else realloc_regular chunk run_old bin_old old_ptr new_size w
    end.

(** void *sealloc_calloc(arena_t *arena, size_t nmemb, size_t size) *)
Definition sealloc_calloc (nmemb size : Z) w : outcome (Z * world OS) :=
  if (nmemb =? 0) || (size =? 0) then Ok (0, w)
  else
    '(ptr, w) ← sealloc_malloc (u64 (nmemb * size)) w;
    if ptr =? 0 then Ok (0, w)
    else Ok (ptr, set_mem w (memset (w_mem w) ptr 0 (u64 (nmemb * size)))).
End sealloc.
