(* ===== verification/MallocApi.v ===== *)
(** * MallocApi: malloc_api.c, the exported functions

    malloc, free, calloc and realloc on the static arena, which the first call of
    malloc, calloc or realloc initialises. *)
From Stdlib Require Import ZArith Lia.
From stdpp Require Import base option numbers list gmap.
From S2P Require Import Prelude.
From S2P Require Import CArray.
From S2P Require Import Utils.
From S2P Require Import SizeClass.
From S2P Require Import Random.
From S2P Require Import Platform.
From S2P Require Import Run.
From S2P Require Import InternalAllocator.
From S2P Require Import Chunk.
From S2P Require Import World.
From S2P Require Import Arena.
From S2P Require Import Sealloc.

Section api.
Context `{Build} `{Kernel OS}.
Implicit Types w : world OS.

(** if (arena.is_initialized == 0) arena_init(&arena); *)
Definition ensure_init w : outcome (world OS) :=
  if is_initialized (w_arena w) =? 0 then arena_init w else Ok w.

Definition malloc (size : Z) w : outcome (Z * world OS) :=
  w ← ensure_init w; sealloc_malloc size w.
Definition free (ptr : Z) w : outcome (world OS) := sealloc_free ptr w.
Definition calloc (nmemb size : Z) w : outcome (Z * world OS) :=
  w ← ensure_init w; sealloc_calloc nmemb size w.
Definition realloc (ptr size : Z) w : outcome (Z * world OS) :=
  w ← ensure_init w; sealloc_realloc ptr size w.

(** The static arena before the first call: zero-initialised. *)
Definition arena_static : arena_t := Arena 0 0 0 0 0 0 0 0 0 (amake ARENA_NO_BINS (Bin 0 0 0 0 0 0 0)).
Definition world_static (os : OS) (mem : Z → Z) : world OS :=
  World os (Rng 0 0) arena_static ∅ ∅ ∅ ∅ mem.
End api.
