(* ===== verification/ArenaMeta.v ===== *)
(** * ArenaMeta: arena_morecore and the metadata memory

    [arena_morecore_ok]: what arena_morecore returns is a fresh mapping of the kernel,
    and nothing but the probe pointers changes.  [meta_rep] says that the list of
    metadata mappings represents a list of block trees; arena_internal_alloc and
    arena_internal_free add and remove one block. *)
From Stdlib Require Import ZArith Lia.
From stdpp Require Import base option numbers list gmap.
From S2P Require Import Prelude.
From S2P Require Import CArray.
From S2P Require Import Utils.
From S2P Require Import Random.
From S2P Require Import ContainerLL.
From S2P Require Import Platform.
From S2P Require Import KernelSpec.
From S2P Require Import Run.
From S2P Require Import Bin.
From S2P Require Import InternalAllocator.
From S2P Require Import IntAllocTree.
From S2P Require Import IntAllocProps.
From S2P Require Import Chunk.
From S2P Require Import World.
From S2P Require Import Arena.

(** ** Page alignment *)
Lemma alignup_page_aligned w n : w = 32 ∨ w = 64 → ALIGNUP_PAGE w n mod PAGE_SIZE = 0 ∧ 0 ≤ ALIGNUP_PAGE w n.
Proof.
  intros Hw. unfold ALIGNUP_PAGE, alignup. split.
  - change PAGE_SIZE with (2 ^ 12). rewrite <- Z.land_ones, <- Z.land_assoc by lia.
    assert (Z.land (wrap w (Z.lnot (2 ^ 12 - 1))) (Z.ones 12) = 0) as -> by (by destruct Hw; subst w).
    apply Z.land_0_r.
  - apply Z.land_nonneg. left. apply wrap_range. lia.
Qed.

Lemma alignup_page_bound n : 0 ≤ n < 2 ^ 63 → n ≤ ALIGNUP_PAGE 64 n < n + PAGE_SIZE.
Proof.
  intros Hn. unfold ALIGNUP_PAGE. change PAGE_SIZE with 4096. rewrite (alignup_mod 64 4096 12) by (done || lia).
  pose proof (Z.div_mod (n + (4096 - 1)) 4096 ltac:(lia)).
  pose proof (Z.mod_pos_bound (n + (4096 - 1)) 4096 ltac:(lia)). lia.
Qed.

Lemma page_add_aligned p n :
  p mod PAGE_SIZE = 0 → n mod PAGE_SIZE = 0 → u64 (p + n) mod PAGE_SIZE = 0.
Proof.
  change PAGE_SIZE with 4096. intros Hp Hn. apply Z.mod_divide in Hp as [a ->]; [|lia].
  apply Z.mod_divide in Hn as [b ->]; [|lia]. unfold wrap.
  replace (a * 4096 + b * 4096) with (4096 * (a + b)) by lia.
  change (2 ^ 64) with (4096 * 2 ^ 52). rewrite Z.mul_mod_distr_l by lia.
  by rewrite Z.mul_comm, Z.mod_mul.
Qed.

Section arena_meta.
Context `{Build} `{KernelLaws OS}.
Implicit Types w : world OS.

(** ** Frames *)

(** The break and the probe pointers between two calls. *)
Record probes_ok (a : arena_t) : Prop := {
  po_brk : 0 ≤ brk a < MAX_USERSPACE_ADDR64;
  po_probe : ∀ pr, 0 ≤ probe_get pr a ∧ probe_get pr a mod PAGE_SIZE = 0
}.

(** Only the kernel, the generators, the probes and the metadata mappings differ. *)
Record side_frame w w' : Prop := {
  sf_chunks : w_chunks w' = w_chunks w;
  sf_runs : w_runs w' = w_runs w;
  sf_huges : w_huges w' = w_huges w;
  sf_mem : w_mem w' = w_mem w;
  sf_init : is_initialized (w_arena w') = is_initialized (w_arena w);
  sf_chunk_list : chunk_list (w_arena w') = chunk_list (w_arena w);
  sf_huge_list : huge_alloc_list (w_arena w') = huge_alloc_list (w_arena w);
  sf_bins : bins (w_arena w') = bins (w_arena w)
}.

#[export] Instance side_frame_preorder : PreOrder side_frame.
Proof.
  split; [by intros w; split|]. intros w1 w2 w3 [] []. split; etrans; eauto.
Qed.

(** The metadata mappings do not differ either. *)
Record probe_frame w w' : Prop := {
  pf_side : side_frame w w';
  pf_ias : w_ias w' = w_ias w;
  pf_list : internal_alloc_list (w_arena w') = internal_alloc_list (w_arena w)
}.

#[export] Instance probe_frame_preorder : PreOrder probe_frame.
Proof.
  split; [by intros w; split|]. intros w1 w2 w3 [] []. split; etrans; eauto.
Qed.

(** ** The probe pointers *)
Lemma probe_get_set pr pr' a p :
  probe_get pr' (probe_set pr a p) = if decide (pr = pr') then p else probe_get pr' a.
Proof. by destruct pr, pr'. Qed.

Lemma probe_frame_arena w os a r :
  forget_probes a = forget_probes (w_arena w) → probe_frame w (set_rng (set_arena (set_os w os) a) r).
Proof. destruct a, w as [? ? [] ? ? ? ? ?]. intros [=]. by split. Qed.

Lemma probes_ok_set pr a p :
  probes_ok a → 0 ≤ p → p mod PAGE_SIZE = 0 → probes_ok (probe_set pr a p).
Proof.
  intros [Hb Hp] Hnn Hm. split; [by destruct pr, a|]. intros pr'. rewrite probe_get_set.
  case_decide; [done|apply Hp].
Qed.

Lemma random_above_brk_ok a r :
  0 ≤ brk a < MAX_USERSPACE_ADDR64 →
  ∃ p r', random_above_brk a r = Ok (p, r') ∧ 0 ≤ p ∧ p mod PAGE_SIZE = 0.
Proof.
  intros Hb. unfold random_above_brk. destruct (splitmix64 r) as [x r'].
  rewrite wrap_small by (unfold MAX_USERSPACE_ADDR64 in *; lia). rewrite umod_ok by lia.
  cbn [mbind outcome_bind]. eexists _, r'. split; [reflexivity|].
  destruct (alignup_page_aligned 64 (u64 (brk a + x mod (MAX_USERSPACE_ADDR64 - brk a)))); [by right|done].
Qed.

Lemma reset_chunk_brk a r a' r' :
  probes_ok a → reset_chunk_ptr_start a r = Ok (a', r') → probes_ok a' ∧ forget_probes a' = forget_probes a.
Proof.
  intros Hok. unfold reset_chunk_ptr_start. destruct (splitmix32 r) as [x r1].
  destruct (alignup_page_aligned 32 x) as [Hal Hnn]; [by left|].
  pose proof (probes_ok_set ChunkProbe a _ Hok Hnn Hal) as Hok1. cbn [probe_set] in Hok1.
  set (a1 := set_chunk_ptr a (ALIGNUP_PAGE 32 x)) in *.
  assert (forget_probes a1 = forget_probes a) as Hf by done.
  destruct (brk a1 <=? MASK_44_BITS); [|by intros [= <- <-]].
  destruct (splitmix64 r1) as [y r2]. intros [= <- <-]. split; [|done].
  destruct Hok1 as [_ Hp]. split; [|by intros pr; specialize (Hp pr); destruct pr].
  assert (0 ≤ Z.land y MASK_45_BITS < 2 ^ 45) as Hy.
  { change MASK_45_BITS with (Z.ones 45). rewrite Z.land_ones by lia. apply Z.mod_pos_bound. lia. }
  pose proof (alignup_page_bound (Z.land y MASK_45_BITS) ltac:(lia)) as Hb.
  cbn [set_brk brk]. unfold MAX_USERSPACE_ADDR64. change PAGE_SIZE with 4096 in Hb. lia.
Qed.

Lemma probe_reset_ok pr a r :
  probes_ok a → ∃ a' r', probe_reset pr a r = Ok (a', r') ∧ probes_ok a' ∧
                         forget_probes a' = forget_probes a.
Proof.
  intros Hok. destruct pr; cbn [probe_reset].
  - destruct (reset_chunk_ptr_start a r) as [[a' r']|e] eqn:Hr.
    + exists a', r'. split; [done|]. by eapply reset_chunk_brk.
    + exfalso. revert Hr. unfold reset_chunk_ptr_start. destruct (splitmix32 r) as [x r1].
      destruct (_ <=? _); [by destruct (splitmix64 r1)|done].
  - unfold reset_huge_alloc_ptr_start. destruct (random_above_brk_ok a r) as (p & r' & -> & Hp & Hal); [apply Hok|].
    eexists _, r'. split; [reflexivity|]. split; [|done]. by apply (probes_ok_set HugeProbe).
  - unfold reset_ia_ptr_start. destruct (random_above_brk_ok a r) as (p & r' & -> & Hp & Hal); [apply Hok|].
    eexists _, r'. split; [reflexivity|]. split; [|done]. by apply (probes_ok_set InternalProbe).
Qed.

(** ** arena_morecore *)
Lemma morecore_step_ok pr n w :
  0 < n → n mod PAGE_SIZE = 0 → probes_ok (w_arena w) →
  ∃ res, morecore_step pr n w = Ok res ∧
    match res with
    | inl w' => probe_frame w w' ∧ probes_ok (w_arena w') ∧ same_mapped (w_os w) (w_os w')
    | inr (p, w') => probe_frame w w' ∧ probes_ok (w_arena w') ∧ granted (w_os w) (w_os w') p n
    end.
Proof.
  intros Hn Hna Hok. destruct (po_probe _ Hok pr) as [Hp Hpa].
  unfold morecore_step.
  destruct (map_probe_spec (w_os w) (probe_get pr (w_arena w)) (probe_ceil pr (w_arena w)) n)
    as (code & p & os' & Heq & Hcode); try done.
  { destruct pr; cbn [probe_ceil]; pose proof (po_brk _ Hok); unfold MAX_USERSPACE_ADDR64 in *; lia. }
  ok_rw Heq.
  assert (probe_frame w (set_arena (set_os w os') (probe_set pr (w_arena w) p))) as Hfr.
  { apply (probe_frame_arena w os' (probe_set pr (w_arena w) p) (w_rng w)). by destruct pr. }
  assert (0 ≤ p ∧ p mod PAGE_SIZE = 0) as [Hp0 Hpal].
  { destruct code; try (by destruct Hcode as [_ ->]); destruct Hcode as [[] _ _]; lia. }
  pose proof (probes_ok_set pr _ p Hok Hp0 Hpal) as Hok1.
  set (a1 := probe_set pr (w_arena w) p) in *.
  assert (forget_probes a1 = forget_probes (w_arena w)) as Hf1 by (by destruct pr).
  assert (w_arena (set_arena (set_os w os') a1) = a1) as Hwa by done.
  assert (w_os (set_arena (set_os w os') a1) = os') as Hwo by done.
  destruct code; try (eexists; split; [reflexivity|]; cbn beta iota; rewrite Hwa, Hwo; by split; [|split; [|apply Hcode]]).
  - destruct (probe_reset_ok pr a1 (w_rng w) Hok1) as (a2 & r2 & Hr & Hok2 & Hf2).
    change (w_rng (set_arena (set_os w os') a1)) with (w_rng w). ok_rw Hr.
    eexists. split; [reflexivity|]. split; [|split; [done|apply Hcode]].
    apply (probe_frame_arena w os' a2 r2). by rewrite Hf2.
  - destruct (probe_reset_ok pr a1 (w_rng w) Hok1) as (a2 & r2 & Hr & Hok2 & Hf2).
    change (w_rng (set_arena (set_os w os') a1)) with (w_rng w). ok_rw Hr.
    eexists. split; [reflexivity|]. split; [|split; [done|apply Hcode]].
    apply (probe_frame_arena w os' a2 r2). by rewrite Hf2.
Qed.

(** The result of arena_morecore is fresh memory; it may keep asking a kernel that has
    none. *)
Lemma arena_morecore_ok pr n w :
  0 < n → n mod PAGE_SIZE = 0 → probes_ok (w_arena w) →
  arena_morecore pr n w = Fail Diverged ∨
  ∃ p w', arena_morecore pr n w = Ok (p, w') ∧ probe_frame w w' ∧ probes_ok (w_arena w') ∧
          granted (w_os w) (w_os w') p n.
Proof.
  intros Hn Hna Hok.
  destruct (while_loop_invariant (morecore_step pr n)
    (λ w', probe_frame w w' ∧ probes_ok (w_arena w') ∧ same_mapped (w_os w) (w_os w'))
    (λ x, probe_frame w x.2 ∧ probes_ok (w_arena x.2) ∧ granted (w_os w) (w_os x.2) x.1 n) 47 w)
    as [Hd|([p w'] & Hd & HQ)]; [| |by left|right; by exists p, w'].
  - intros w1 (Hf & Hok1 & Hs).
    destruct (morecore_step_ok pr n w1 Hn Hna Hok1) as (res & Hst & Hres). exists res. split; [done|].
    destruct res as [w2|[p w2]]; destruct Hres as (Hf2 & Hok2 & Hm).
    + split; [by etrans|]. split; [done|]. by etrans.
    + cbn [fst snd]. split; [by etrans|]. split; [done|]. by eapply granted_same.
  - split; [done|]. split; [done|]. done.
Qed.

(** Without memory arena_morecore asks forever. *)
Lemma arena_morecore_refused pr n w :
  no_memory → 0 < n → n mod PAGE_SIZE = 0 → probes_ok (w_arena w) → arena_morecore pr n w = Fail Diverged.
Proof.
  intros Hno Hn Hna Hp. unfold arena_morecore. apply (while_loop_never _ (λ w, probes_ok (w_arena w))); [|done].
  clear w Hp. intros w Hp. unfold morecore_step.
  destruct (map_probe_refused (w_os w) (probe_get pr (w_arena w)) (probe_ceil pr (w_arena w)) n Hno Hn Hna) as
    (code & os' & Hpr & Hcode); [by apply Hp|]. ok_rw Hpr.
  destruct (po_probe _ Hp pr) as [Hnn Hal]. pose proof (probes_ok_set pr _ _ Hp Hnn Hal) as Hp1.
  destruct Hcode as [->| ->]; [|by eexists].
  destruct (probe_reset_ok pr (probe_set pr (w_arena w) (probe_get pr (w_arena w))) (w_rng w) Hp1) as (a' & r' & Hr & Hp' & _).
  cbn [w_rng set_arena set_os]. ok_rw Hr. by eexists.
Qed.

Lemma skip_mapping_ok pr p n w :
  n mod PAGE_SIZE = 0 → probes_ok (w_arena w) →
  probe_frame w (skip_mapping pr p n w) ∧ probes_ok (w_arena (skip_mapping pr p n w)) ∧
  w_os (skip_mapping pr p n w) = w_os w.
Proof.
  intros Hn Hok. unfold skip_mapping. destruct (_ =? _); [|done].
  destruct (po_probe _ Hok pr) as [Hp Hpa]. split; [|split; [|done]].
  - apply (probe_frame_arena w (w_os w) _ (w_rng w)). by destruct pr.
  - cbn [w_arena set_arena]. apply probes_ok_set; [done|apply wrap_range; lia|by apply page_add_aligned].
Qed.

(** ** The metadata mappings *)
Definition META_LEN : Z := ALIGNUP_PAGE 64 SIZEOF_INT_ALLOC.
Lemma META_LEN_eq : META_LEN = 8523776 ∧ MEMORY_OFFSET = 131104 ∧ SIZEOF_INT_ALLOC = 8519712.
Proof. done. Qed.

(** The list of mappings, each with its tree of blocks. *)
Record meta_rep (os : OS) (ias : gmap Z int_alloc_t) (head : Z) (M : list (Z * bt)) : Prop := {
  mr_list : dll ias head ((λ x, (x.1, x.1)) <$> M);
  mr_trees : ∀ a t, (a, t) ∈ M → ∃ ia, ias !! a = Some ia ∧ ia_rep a ia t;
  mr_mapped : ∀ a x, a ∈ M.*1 → range a META_LEN x → k_mapped os x;
  mr_apart : ∀ a b, a ∈ M.*1 → b ∈ M.*1 → a ≠ b → apart (a, META_LEN) (b, META_LEN);
  mr_top : ∀ a, a ∈ M.*1 → 0 < a ∧ a + META_LEN ≤ 2 ^ 47
}.

(** The blocks in use: first byte and length. *)
Definition meta_blocks (M : list (Z * bt)) : list (Z * Z) :=
  M ≫= λ x, abs_blocks (mem_base x.1) x.2.

Lemma meta_blocks_app M1 M2 : meta_blocks (M1 ++ M2) = meta_blocks M1 ++ meta_blocks M2.
Proof. apply bind_app. Qed.
Lemma meta_blocks_cons a t M : meta_blocks ((a, t) :: M) = abs_blocks (mem_base a) t ++ meta_blocks M.
Proof. done. Qed.

Lemma abs_block_range base t x :
  x ∈ abs_blocks base t → base ≤ x.1 ∧ 32 ≤ x.2 ∧ x.1 + x.2 ≤ base + 8388608.
Proof.
  intros ([o e] & -> & Hin)%list_elem_of_fmap. apply blocks_range in Hin. cbn [fst snd] in *.
  rewrite bsize_TOP in Hin. pose proof (bsize_mono 0 e ltac:(lia)) as Hm.
  change (bsize 0) with 32 in Hm. lia.
Qed.

Lemma meta_block_in M x : x ∈ meta_blocks M ↔ ∃ a t, (a, t) ∈ M ∧ x ∈ abs_blocks (mem_base a) t.
Proof.
  unfold meta_blocks. rewrite list_elem_of_bind. split.
  - intros ([a t] & Hx & Hin). by exists a, t.
  - intros (a & t & Hin & Hx). by exists (a, t).
Qed.

(** A block lies in its mapping, after the header. *)
Lemma meta_block_range M x :
  x ∈ meta_blocks M →
  ∃ a t, (a, t) ∈ M ∧ x ∈ abs_blocks (mem_base a) t ∧
         a + 131104 ≤ x.1 ∧ 32 ≤ x.2 ∧ x.1 + x.2 ≤ a + 8519712.
Proof.
  intros (a & t & Hin & Hx)%meta_block_in. exists a, t. split; [done|]. split; [done|].
  apply abs_block_range in Hx. unfold mem_base in Hx. destruct META_LEN_eq as (_ & HM & _). rewrite HM in Hx. lia.
Qed.

(** Rewriting a structure of a store but not its list entry. *)
Lemma store_insert_entry `{HasEntry T} (s : gmap Z T) a x x' b :
  s !! a = Some x → get_entry x' = get_entry x → es_lookup (<[a := x']> s) b = es_lookup s b.
Proof.
  simpl. intros Ha He. rewrite lookup_insert. case_decide; [subst b|done].
  rewrite Ha. simpl. by rewrite He.
Qed.

Lemma dll_insert_entry `{HasEntry T} (s : gmap Z T) head l a x x' :
  s !! a = Some x → get_entry x' = get_entry x → dll s head l → dll (<[a := x']> s) head l.
Proof.
  intros Ha He (-> & Hseg & Hnd & Hlen). split_and!; try done.
  eapply dseg_ext; [|done]. intros b _. by eapply store_insert_entry.
Qed.

Lemma mid_nodup {A B} (l1 : list (A * B)) x l2 :
  NoDup (l1 ++ x :: l2).*1 → x.1 ∉ (l1 ++ l2).*1.
Proof.
  rewrite !fmap_app, fmap_cons. intros (_ & Hd & Hn)%NoDup_app. apply NoDup_cons in Hn as [Hx _].
  intros [Hin|Hin]%elem_of_app; [|done]. apply (Hd _ Hin). by left.
Qed.

Lemma meta_nodup os ias head M : meta_rep os ias head M → NoDup M.*1.
Proof.
  intros [(_ & _ & Hnd & _) _ _ _ _]. by rewrite <- list_fmap_compose in Hnd.
Qed.

(** Replacing the allocator of one mapping. *)
Lemma meta_rep_update os ias head M1 a t M2 t' ia ia' :
  meta_rep os ias head (M1 ++ (a, t) :: M2) → ias !! a = Some ia →
  ia_entry ia' = ia_entry ia → ia_rep a ia' t' →
  meta_rep os (<[a := ia']> ias) head (M1 ++ (a, t') :: M2).
Proof.
  intros Hrep Ha He Hia. pose proof (meta_nodup _ _ _ _ Hrep) as Hnd.
  destruct Hrep as [Hl Ht Hm Hap Htop].
  assert (∀ x : Z, x ∈ (M1 ++ (a, t') :: M2).*1 ↔ x ∈ (M1 ++ (a, t) :: M2).*1) as Hsame.
  { intros x. by rewrite !fmap_app, !fmap_cons. }
  split.
  - apply (dll_insert_entry _ _ _ _ ia); [done|done|].
    rewrite fmap_app, fmap_cons in *. exact Hl.
  - intros b tb Hin. rewrite lookup_insert. case_decide as Hab.
    + subst b. exists ia'. split; [done|]. apply mid_nodup in Hnd. cbn [fst] in Hnd.
      apply elem_of_app in Hin as [Hin|Hin].
      * destruct Hnd. rewrite fmap_app. apply elem_of_app. left. apply list_elem_of_fmap. by exists (a, tb).
      * apply elem_of_cons in Hin as [[= ->]|Hin]; [done|]. destruct Hnd. rewrite fmap_app.
        apply elem_of_app. right. apply list_elem_of_fmap. by exists (a, tb).
    + apply Ht. set_solver.
  - intros x y Hx. apply Hm. by apply Hsame.
  - intros x y Hx Hy. apply Hap; by apply Hsame.
  - intros x Hx. apply Htop. by apply Hsame.
Qed.

(** A block that is new in one mapping is apart from every block. *)
Lemma meta_new_apart os ias head M1 a t M2 t' p n :
  meta_rep os ias head (M1 ++ (a, t) :: M2) →
  abs_blocks (mem_base a) t' ≡ₚ (p, n) :: abs_blocks (mem_base a) t →
  meta_blocks (M1 ++ (a, t') :: M2) ≡ₚ (p, n) :: meta_blocks (M1 ++ (a, t) :: M2) ∧
  Forall (apart (p, n)) (meta_blocks (M1 ++ (a, t) :: M2)) ∧ p ≠ 0 ∧ 32 ≤ n.
Proof.
  intros Hrep Hperm. pose proof (meta_nodup _ _ _ _ Hrep) as Hnd. apply mid_nodup in Hnd. cbn [fst] in Hnd.
  assert ((p, n) ∈ abs_blocks (mem_base a) t') as Hin by (rewrite Hperm; by left).
  apply abs_block_range in Hin. cbn [fst snd] in Hin. unfold mem_base in Hin at 1 2.
  destruct META_LEN_eq as (Hml & Hmo & _). rewrite Hmo in Hin.
  destruct (mr_top _ _ _ _ Hrep a) as [Ha _]; [rewrite fmap_app, fmap_cons; set_solver|].
  split; [|split; [|lia]].
  - rewrite !meta_blocks_app, !meta_blocks_cons, Hperm. cbn [app]. symmetry. apply Permutation_middle.
  - apply Forall_forall. intros x Hx. pose proof Hx as Hx'.
    rewrite meta_blocks_app, meta_blocks_cons in Hx'.
    assert (x ∈ abs_blocks (mem_base a) t ∨ x ∈ meta_blocks (M1 ++ M2)) as [Hxa|Hxo].
    { rewrite meta_blocks_app. set_solver. }
    + pose proof (blocks_apart _ _ _ _ _ Hperm) as Hall. rewrite Forall_forall in Hall. by apply Hall.
    + apply meta_block_range in Hxo as (b & tb & Hb & _ & Hr).
      assert (b ∈ (M1 ++ M2).*1) as Hb1 by (apply list_elem_of_fmap; by exists (b, tb)).
      assert (a ≠ b) as Hne by (by intros ->).
      destruct (mr_apart _ _ _ _ Hrep a b) as [Hap|Hap]; [rewrite fmap_app, fmap_cons; set_solver| |done|..].
      { rewrite fmap_app, fmap_cons. rewrite fmap_app in Hb1. set_solver. }
      all: cbn [fst snd] in Hap; rewrite Hml in Hap; unfold apart; cbn [fst snd]; lia.
Qed.

(** ** arena_internal_alloc *)
Record new_block (M M' : list (Z * bt)) (p n : Z) : Prop := {
  nb_perm : meta_blocks M' ≡ₚ (p, n) :: meta_blocks M;
  nb_apart : Forall (apart (p, n)) (meta_blocks M);
  nb_pos : p ≠ 0 ∧ 32 ≤ n
}.

(** The mappings are the old ones, or one more that the kernel has granted. *)
Definition meta_growth (os os' : OS) (M M' : list (Z * bt)) : Prop :=
  (M'.*1 = M.*1 ∧ os' = os) ∨ ∃ a, M'.*1 = a :: M.*1 ∧ granted os os' a META_LEN.

Definition meta_of w (M : list (Z * bt)) : Prop :=
  meta_rep (w_os w) (w_ias w) (internal_alloc_list (w_arena w)) M.

(** Requests of at most half of a mapping. *)
Definition META_MAX : Z := INTERNAL_ALLOC_CHUNK_SIZE_BYTES / 2.
Lemma META_MAX_eq : META_MAX = 4194304 ∧ META_MAX = bsize HALF.
Proof. rewrite bsize_HALF. done. Qed.

Lemma size_ok_small size ia t : 0 < size ≤ META_MAX → size_ok size ia t.
Proof. intros Hs. split; [lia|]. left. rewrite <- (proj2 META_MAX_eq). lia. Qed.

Lemma set_ias_same w : set_ias w (w_ias w) = w.
Proof. by destruct w. Qed.

Lemma rd_at_ok {T} (s : gmap Z T) a x : s !! a = Some x → rd_at s a = Ok x.
Proof. unfold rd_at. by intros ->. Qed.

(** What internal_alloc does to one mapping of the list. *)
Lemma meta_alloc_at os ias head M1 a t M2 ia size :
  meta_rep os ias head (M1 ++ (a, t) :: M2) → ias !! a = Some ia → ia_rep a ia t →
  0 < size ≤ META_MAX →
  (internal_alloc a ia size = Ok (0, ia) ∧ t ≠ Free) ∨
  ∃ p n ia' M', internal_alloc a ia size = Ok (p, ia') ∧ M'.*1 = (M1 ++ (a, t) :: M2).*1 ∧
    meta_rep os (<[a := ia']> ias) head M' ∧ new_block (M1 ++ (a, t) :: M2) M' p n ∧ size ≤ n.
Proof.
  intros Hrep Ha Hia Hsz.
  destruct (internal_alloc_ok a ia t size Hia (size_ok_small _ _ _ Hsz)) as
    [(t' & off & e & ia' & Hal & Hia' & He & Heff & _)|[Hal Hnone]].
  - right. assert (abs_blocks (mem_base a) t' ≡ₚ (mem_base a + off, bsize e) :: abs_blocks (mem_base a) t) as Hperm.
    { unfold abs_blocks. rewrite (ae_blocks _ _ _ _ _ _ Heff 0), fmap_cons. cbn [fst snd]. by rewrite Z.add_0_l. }
    destruct (meta_new_apart _ _ _ _ _ _ _ _ _ _ Hrep Hperm) as (H1 & H2 & H3).
    exists (mem_base a + off), (bsize e), ia', (M1 ++ (a, t') :: M2).
    split; [done|]. split; [by rewrite !fmap_app, !fmap_cons|].
    split; [by eapply meta_rep_update|]. split; [by split|]. by apply Heff.
  - left. split; [done|]. intros ->.
    assert (bsize TOP < size) as Hlt by (apply Hnone; cbn [free_levels]; by left).
    rewrite bsize_TOP in Hlt. destruct META_MAX_eq as [Hm _]. lia.
Qed.

Lemma ia_alloc_iterate size w M2 : ∀ M1,
  meta_of w (M1 ++ M2) → 0 < size ≤ META_MAX →
  iterate (ia_alloc_step size) (S (length M2)) (first_of ((λ x, (x.1, x.1)) <$> M2) 0, w) = Ok (inr (0, w)) ∨
  ∃ p n ias' M', iterate (ia_alloc_step size) (S (length M2)) (first_of ((λ x, (x.1, x.1)) <$> M2) 0, w) =
      Ok (inr (p, set_ias w ias')) ∧
    M'.*1 = (M1 ++ M2).*1 ∧ meta_of (set_ias w ias') M' ∧ new_block (M1 ++ M2) M' p n ∧ size ≤ n.
Proof.
  induction M2 as [|[a t] M2 IH]; intros M1 Hrep Hsz.
  { left. done. }
  destruct (mr_trees _ _ _ _ Hrep a t) as (ia & Ha & Hia); [set_solver|].
  destruct (mr_top _ _ _ _ Hrep a) as [Hpos _]; [rewrite fmap_app, fmap_cons; set_solver|].
  assert (ia_alloc_step size (a, w) =
    '(alloc, ia) ← internal_alloc a ia size;
    let w := set_ias w (<[a := ia]> (w_ias w)) in
    if negb (alloc =? 0) then Ok (inr (alloc, w)) else Ok (inl (fd (ia_entry ia), w))) as Hstep.
  { unfold ia_alloc_step. rewrite (proj2 (Z.eqb_neq a 0)) by lia. by ok_rw (rd_at_ok _ _ _ Ha). }
  cbn [length fmap list_fmap first_of fst].
  destruct (meta_alloc_at _ _ _ _ _ _ _ _ size Hrep Ha Hia Hsz) as [[Hal _]|(p & n & ia' & M' & Hal & Hdom & Hrep' & Hnb & Hn)].
  - rewrite Hal in Hstep. cbn [mbind outcome_bind] in Hstep. rewrite insert_id, set_ias_same in Hstep by done.
    assert (fd (ia_entry ia) = first_of ((λ x, (x.1, x.1)) <$> M2) 0) as Hfd.
    { destruct Hrep as [(_ & Hseg & _) _ _ _ _]. rewrite fmap_app, fmap_cons in Hseg.
      apply dseg_app in Hseg as [_ (_ & Hl & _)]. simpl in Hl. rewrite Ha in Hl. simpl in Hl. by injection Hl as ->. }
    rewrite Hfd in Hstep.
    rewrite (iterate_next _ _ _ _ Hstep). cbn [fmap list_fmap].
    rewrite (cons_middle (a, t) M1 M2), app_assoc in *. by apply IH.
  - right. rewrite Hal in Hstep. cbn [mbind outcome_bind] in Hstep.
    rewrite (proj2 (Z.eqb_neq p 0)) in Hstep by apply Hnb. cbn [negb] in Hstep.
    exists p, n, (<[a := ia']> (w_ias w)), M'. split; [by apply iterate_stop|]. done.
Qed.

(** The number of mappings, from their length. *)
Lemma meta_count os ias head M : meta_rep os ias head M → Z.of_nat (length M) * META_LEN ≤ 2 ^ 47.
Proof.
  intros Hrep. pose proof (meta_nodup _ _ _ _ Hrep) as Hnd. destruct Hrep as [_ _ _ Hap Htop].
  rewrite <- (length_fmap fst M). apply spaced_count; [apply Z.ltb_lt; reflexivity|lia| |done|].
  - intros x Hx. destruct (Htop x Hx). split; [lia|done].
  - intros x y Hx Hy Hne. by apply (Hap x y).
Qed.

(** A fresh mapping, linked into the list with all its memory free. *)
Lemma meta_rep_fresh os os' ias head M a :
  meta_rep os ias head M → granted os os' a META_LEN →
  ∃ ia ias1 ias2, internal_allocator_init a ia_zeroed = Ok ia ∧ new_at ias a ia = Ok ias1 ∧
    ll_add ias1 head a = Ok (a, ias2) ∧ meta_rep os' ias2 a ((a, Free) :: M).
Proof.
  intros Hrep [(Ha0 & _ & Ha1) Hfresh Hmap]. pose proof (meta_count _ _ _ _ Hrep) as Hcnt.
  destruct META_LEN_eq as (Hml & _ & Hsz).
  assert (a ∉ M.*1) as Hnew.
  { intros Hin. apply (Hfresh a); [unfold range; lia|]. apply (mr_mapped _ _ _ _ Hrep a); [done|unfold range; lia]. }
  destruct Hrep as [Hl Ht Hm Hap Htop].
  destruct (internal_allocator_init_ok a) as (ia & Hinit & Hia & He); [lia|rewrite Hsz; lia|].
  assert (((λ x : Z * bt, (x.1, x.1)) <$> M).*1 = M.*1) as Hf1 by (by rewrite <- list_fmap_compose).
  assert (((λ x : Z * bt, (x.1, x.1)) <$> M).*2 = M.*1) as Hf2 by (by rewrite <- list_fmap_compose).
  assert (dll (<[a := ia]> ias) head ((λ x, (x.1, x.1)) <$> M)) as Hl1.
  { eapply (dll_ext ias); [|done]. intros b Hb. simpl. rewrite lookup_insert_ne; [done|]. rewrite Hf1 in Hb. by intros ->. }
  destruct (ll_add_ok (<[a := ia]> ias) head _ a a Hl1) as (ias2 & Hadd & Hl2 & Hfr & Hoth).
  - simpl. by rewrite lookup_insert_eq, <- He.
  - lia.
  - by rewrite Hf1.
  - rewrite length_fmap. rewrite Hml in Hcnt. lia.
  - intros _. rewrite Hf2. split; [lia|done].
  - exists ia, (<[a := ia]> ias), ias2. split; [done|]. split; [|split; [done|]].
    { unfold new_at. by rewrite (proj2 (Z.eqb_neq a 0)) by lia. }
    assert (∀ b x, <[a := ia]> ias !! b = Some x → ∃ e, ias2 !! b = Some (put_entry e x)) as Hsame.
    { intros b x Hx. specialize (Hfr b). rewrite Hx in Hfr. destruct (ias2 !! b) as [y|]; [|done].
      injection Hfr as Hf. exists (ia_entry y). destruct x, y; simpl in *. by subst. }
    assert (∀ b e x t, ia_rep b x t → ia_rep b (put_entry e x) t) as Hput.
    { intros b e x t [? ? ? ? ?]. by split. }
    split.
    + done.
    + intros b t [[= -> ->]|Hin]%elem_of_cons.
      * destruct (Hsame a ia) as [e ->]; [by rewrite lookup_insert_eq|]. eexists. split; [done|]. by apply Hput.
      * destruct (Ht b t Hin) as (x & Hx & Hrx).
        assert (b ≠ a) as Hne by (intros ->; apply Hnew, list_elem_of_fmap; by exists (a, t)).
        destruct (Hsame b x) as [e ->]; [by rewrite lookup_insert_ne by done|]. eexists. split; [done|]. by apply Hput.
    + intros b x Hb Hx. apply Hmap. apply elem_of_cons in Hb as [->|Hb]; [by left|right; by apply (Hm b)].
    + assert (∀ b, b ∈ M.*1 → apart (a, META_LEN) (b, META_LEN)) as Hfar.
      { intros b Hb. unfold apart. cbn [fst snd].
        assert (¬ (b < a + META_LEN ∧ a < b + META_LEN)); [|lia]. intros [H1 H2].
        apply (Hfresh (Z.max a b)); [unfold range; lia|]. apply (Hm b); [done|unfold range; lia]. }
      intros x y [->|Hx]%elem_of_cons [->|Hy]%elem_of_cons Hne; [done|by apply Hfar|by apply apart_sym, Hfar|by apply Hap].
    + intros x [->|Hx]%elem_of_cons; [done|by apply Htop].
Qed.

Lemma side_frame_ias w ias : side_frame w (set_ias w ias).
Proof. by split. Qed.

Lemma meta_count_fuel os ias head M : meta_rep os ias head M → (S (length M) ≤ 2 ^ 47)%nat.
Proof.
  intros Hcnt%meta_count. rewrite (proj1 META_LEN_eq) in Hcnt. apply Nat2Z.inj_le. rewrite Nat2Z.inj_pow.
  change (Z.of_nat 2 ^ Z.of_nat 47) with (2 ^ 47). lia.
Qed.

(** A metadata allocation gives a new block, or keeps asking a kernel that has no
    memory. *)
Lemma arena_internal_alloc_ok w M size :
  meta_of w M → probes_ok (w_arena w) → 0 < size ≤ META_MAX →
  arena_internal_alloc size w = Fail Diverged ∨
  ∃ p n w' M', arena_internal_alloc size w = Ok (p, w') ∧ side_frame w w' ∧ probes_ok (w_arena w') ∧
    meta_of w' M' ∧ new_block M M' p n ∧ size ≤ n ∧ meta_growth (w_os w) (w_os w') M M'.
Proof.
  intros Hrep Hok Hsz. unfold arena_internal_alloc.
  assert (internal_alloc_list (w_arena w) = first_of ((λ x : Z * bt, (x.1, x.1)) <$> M) 0) as Hhd
    by apply Hrep.
  pose proof (meta_count_fuel _ _ _ _ Hrep) as Hfuel.
  destruct (ia_alloc_iterate size w M [] Hrep Hsz) as [Hit|(p & n & ias' & M' & Hit & Hdom & Hrep' & Hnb & Hn)];
    pose proof (while_loop_done _ 47 _ _ _ Hit Hfuel) as Hloop; rewrite Hhd; ok_rw Hloop.
  - change (negb (0 =? 0)) with false. cbv iota zeta.
    fold META_LEN. destruct META_LEN_eq as (Hml & _).
    destruct (arena_morecore_ok InternalProbe META_LEN w) as [Hd|(a & w1 & Hmc & [Hf1 Hias Hlist] & Hok1 & Hgr)];
      [rewrite Hml; lia|by rewrite Hml|done|left; by rewrite Hd|right].
    ok_rw Hmc.
    destruct (skip_mapping_ok InternalProbe a META_LEN w1) as ([Hf2 Hias2 Hlist2] & Hok2 & Hos2); [by rewrite Hml|done|].
    set (w2 := skip_mapping InternalProbe a META_LEN w1) in *.
    destruct (meta_rep_fresh _ _ _ _ _ _ Hrep Hgr) as (ia & ias1 & ias2 & Hinit & Hnew & Hadd & Hrep2).
    ok_rw Hinit. rewrite Hias2, Hias. ok_rw Hnew. rewrite Hlist2, Hlist. ok_rw Hadd.
    destruct (mr_trees _ _ _ _ Hrep2 a Free) as (ia2 & Ha2 & Hia2); [by left|].
    cbn [w_ias set_ias]. ok_rw (rd_at_ok _ _ _ Ha2).
    destruct (meta_alloc_at _ _ _ [] a Free M ia2 size Hrep2 Ha2 Hia2 Hsz) as
      [[_ Hno]|(p & n & ia' & M' & Hal & Hdom & Hrep' & Hnb & Hn)]; [done|].
    ok_rw Hal.
    assert (meta_blocks ((a, Free) :: M) = meta_blocks M) as Hblk by done.
    eexists p, n, _, M'. split; [reflexivity|]. split; [|split; [|split; [|split; [|split; [done|]]]]].
    + etrans; [exact Hf1|]. etrans; [exact Hf2|]. by split.
    + destruct Hok2 as [Hb Hp]. split; [done|]. intros pr. specialize (Hp pr). by destruct pr.
    + unfold meta_of. cbn [w_os w_ias w_arena set_ias set_arena internal_alloc_list set_ia_list]. by rewrite Hos2.
    + destruct Hnb as [H1 H2 H3]. cbn [app] in H1, H2. rewrite Hblk in H1, H2. by split.
    + right. exists a. split; [by rewrite Hdom|]. cbn [w_os set_ias set_arena]. by rewrite Hos2.
  - right. rewrite (proj2 (Z.eqb_neq p 0)) by apply Hnb. cbn [negb]. cbv iota.
    exists p, n, (set_ias w ias'), M'. split; [done|]. split; [apply side_frame_ias|]. split; [done|].
    split; [done|]. split; [done|]. split; [done|]. by left.
Qed.

(** ** arena_internal_free *)

(** The search for the mapping of a block. *)
Lemma ia_find_iterate os ias head M1 a t M2 ptr : ∀ M0,
  meta_rep os ias head (M0 ++ M1 ++ (a, t) :: M2) → a + 131104 ≤ ptr < a + 8519712 →
  iterate (ia_find_step ias ptr) (S (length M1)) (first_of ((λ x, (x.1, x.1)) <$> M1 ++ (a, t) :: M2) 0) = Ok (inr a).
Proof.
  destruct META_LEN_eq as (Hml & Hmo & _).
  assert (∀ M0 b tb Mr, meta_rep os ias head (M0 ++ (b, tb) :: Mr) →
    ia_find_step ias ptr b = Ok (if (b + 131104 <=? ptr) && (ptr <=? b + 8519712) then inr b
                                 else inl (first_of ((λ x, (x.1, x.1)) <$> Mr) 0))) as Hstep.
  { intros M0 b tb Mr Hrep. destruct (mr_trees _ _ _ _ Hrep b tb) as (ia & Hb & Hia); [set_solver|].
    destruct (mr_top _ _ _ _ Hrep b) as [Hpos Htop]; [rewrite fmap_app, fmap_cons; set_solver|].
    rewrite Hml in Htop. unfold ia_find_step. rewrite (proj2 (Z.eqb_neq b 0)) by lia.
    ok_rw (rd_at_ok _ _ _ Hb). rewrite Hmo. change INTERNAL_ALLOC_CHUNK_SIZE_BYTES with 8388608.
    rewrite (wrap_small 64 (b + 131104)), (wrap_small 64 (b + 131104 + 8388608)) by lia.
    replace (b + 131104 + 8388608) with (b + 8519712) by lia.
    destruct (_ && _); [done|]. do 2 f_equal.
    destruct Hrep as [(_ & Hseg & _) _ _ _ _]. rewrite fmap_app, fmap_cons in Hseg.
    apply dseg_app in Hseg as [_ (_ & Hl & _)]. simpl in Hl. rewrite Hb in Hl. simpl in Hl. by injection Hl as ->. }
  induction M1 as [|[b tb] M1 IH]; intros M0 Hrep Hptr; cbn [app] in *.
  - cbn [length fmap list_fmap first_of fst]. apply iterate_stop. rewrite (Hstep M0 a t M2 Hrep).
    by replace (_ && _) with true by lia.
  - pose proof (meta_nodup _ _ _ _ Hrep) as Hnd. apply mid_nodup in Hnd. cbn [fst] in Hnd.
    cbn [length fmap list_fmap first_of fst].
    destruct (mr_apart _ _ _ _ Hrep b a) as [Hap|Hap]; [rewrite !fmap_app, fmap_cons; set_solver| |intros ->; apply Hnd|..].
    { rewrite !fmap_app, fmap_cons, fmap_app, fmap_cons. set_solver. }
    { rewrite !fmap_app, fmap_cons. set_solver. }
    all: cbn [fst snd] in Hap; rewrite Hml in Hap; rewrite (iterate_next _ _ _ (first_of ((λ x, (x.1, x.1)) <$> M1 ++ (a, t) :: M2) 0));
      [|rewrite (Hstep M0 b tb (M1 ++ (a, t) :: M2) Hrep); by replace (_ && _) with false by lia].
    all: apply (IH (M0 ++ [(b, tb)])); [by rewrite <- app_assoc|done].
Qed.

(** Freeing the start of a block takes that block away. *)
Lemma arena_internal_free_ok w M ptr :
  meta_of w M → ptr ∈ (meta_blocks M).*1 →
  ∃ n ias' M', arena_internal_free ptr w = Ok (set_ias w ias') ∧ meta_of (set_ias w ias') M' ∧
    M'.*1 = M.*1 ∧ meta_blocks M ≡ₚ (ptr, n) :: meta_blocks M'.
Proof.
  intros Hrep ([p n] & -> & Hblk)%list_elem_of_fmap. cbn [fst].
  apply meta_block_range in Hblk as (a & t & Hin & Hblk & Hr1 & Hr2 & Hr3). cbn [fst snd] in *.
  apply list_elem_of_split in Hin as (M1 & M2 & ->).
  destruct (mr_trees _ _ _ _ Hrep a t) as (ia & Ha & Hia); [set_solver|].
  destruct (mr_top _ _ _ _ Hrep a) as [Hpos _]; [rewrite fmap_app, fmap_cons; set_solver|].
  unfold arena_internal_free.
  assert (while_loop (ia_find_step (w_ias w) p) 47 (internal_alloc_list (w_arena w)) = Ok a) as Hloop.
  { assert (internal_alloc_list (w_arena w) = first_of ((λ x : Z * bt, (x.1, x.1)) <$> M1 ++ (a, t) :: M2) 0) as ->
      by apply Hrep.
    pose proof (meta_count_fuel _ _ _ _ Hrep) as Hfuel.
    eapply while_loop_done; [apply (ia_find_iterate _ _ _ M1 a t M2 p [] Hrep); lia|].
    rewrite length_app in Hfuel. cbn [length] in Hfuel. lia. }
  ok_rw Hloop. rewrite (proj2 (Z.eqb_neq a 0)) by lia. ok_rw (rd_at_ok _ _ _ Ha).
  pose proof (internal_free_ok a ia t p Hia) as Hfree.
  destruct (bt_free TOP (p - mem_base a) t) as [t'|] eqn:Hf.
  - destruct Hfree as (ia' & e & Hfr & Hia' & He & Heff). ok_rw Hfr.
    exists (bsize e), (<[a := ia']> (w_ias w)), (M1 ++ (a, t') :: M2). split; [done|].
    split; [by eapply meta_rep_update|]. split; [by rewrite !fmap_app, !fmap_cons|].
    rewrite !meta_blocks_app, !meta_blocks_cons.
    assert (abs_blocks (mem_base a) t ≡ₚ (p, bsize e) :: abs_blocks (mem_base a) t') as ->.
    { unfold abs_blocks. rewrite (fe_blocks _ _ _ _ _ Heff 0), fmap_cons. cbn [fst snd].
      by replace (mem_base a + (0 + (p - mem_base a))) with p by lia. }
    cbn [app]. symmetry. apply Permutation_middle.
  - exfalso. apply (bt_free_None TOP t (p - mem_base a)); [apply Hia|done|].
    apply (abs_blocks_starts (mem_base a) t p). apply list_elem_of_fmap. by exists (p, n).
Qed.
End arena_meta.
