(* ===== verification/ArenaInv.v ===== *)
(** * ArenaInv: the invariant of an arena

    The ghost state of an arena is a list of metadata mappings with their block trees,
    a list of chunks with their live and returned runs, a list of huge mappings, and
    for every run its memory, its bin and its regions.  [arena_inv] relates it to a
    [world]; [space] says that every byte of the mappings has one owner. *)
From Stdlib Require Import ZArith Lia.
From stdpp Require Import base option numbers functions list gmap.
From S2P Require Import Prelude.
From S2P Require Import CArray.
From S2P Require Import Utils.
From S2P Require Import SizeClass.
From S2P Require Import Random.
From S2P Require Import ContainerLL.
From S2P Require Import Platform.
From S2P Require Import KernelSpec.
From S2P Require Import Run.
From S2P Require Import Bin.
From S2P Require Import InternalAllocator.
From S2P Require Import IntAllocTree.
From S2P Require Import IntAllocProps.
From S2P Require Import Chunk.
From S2P Require Import ChunkTree.
From S2P Require Import ChunkAlloc.
From S2P Require Import ChunkRun.
From S2P Require Import ChunkBuddy.
From S2P Require Import ChunkSpec.
From S2P Require Import World.
From S2P Require Import Arena.
From S2P Require Import ArenaMeta.

(** ** Ghost state *)
Record chunk_g : Type := ChunkG {
  cg_base : Z;
  cg_live : list (Z * Z);   (* node and region size of the live runs *)
  cg_dead : list Z          (* nodes of the runs returned to the kernel *)
}.

Record arena_g : Type := ArenaG {
  g_meta : list (Z * bt);
  g_chunks : list (Z * chunk_g);                    (* structure, chunk *)
  g_huges : list (Z * (Z * Z));                     (* structure, address and length *)
  g_runs : gmap Z (Z * nat);                        (* structure, memory and bin *)
  g_regs : gmap Z (list Z * gset Z);                (* structure, regions issued and given back *)
  g_bins : nat → list (Z * Z) * list (Z * Z)        (* active and inactive runs *)
}.

(** ** Who owns a byte *)
Inductive holder : Type := HMeta (a : Z) | HChunk (a : Z) | HHuge (a : Z).

Definition node_range (base n x : Z) : Prop := range (run_addr base n) (run_bytes n) x.

Definition owns (M : list (Z * bt)) (C : list (Z * chunk_g)) (Hs : list (Z * (Z * Z)))
    (h : holder) (x : Z) : Prop :=
  match h with
  | HMeta a => a ∈ M.*1 ∧ range a META_LEN x
  | HChunk a => ∃ g, (a, g) ∈ C ∧ range (cg_base g) CHUNK_SIZE_BYTES x ∧
                     ∀ n, n ∈ cg_dead g → ¬ node_range (cg_base g) n x
  | HHuge a => ∃ p n, (a, (p, n)) ∈ Hs ∧ range p n x
  end.

Section space.
Context `{Build} `{KernelLaws OS}.

Record space (own : holder → Z → Prop) (os : OS) : Prop := {
  sp_mapped : ∀ h x, own h x → k_mapped os x;
  sp_unique : ∀ h h' x, own h x → own h' x → h = h'
}.

Lemma space_grant own own' os os' h0 p n :
  space own os → granted os os' p n →
  (∀ h x, own' h x → own h x ∨ (h = h0 ∧ range p n x)) → space own' os'.
Proof.
  intros [Hm Hu] [_ Hfr Hgr] Hsub. split.
  - intros h x Hx. apply Hgr. destruct (Hsub h x Hx) as [Ho|[_ Hr]]; [right; by eapply Hm|by left].
  - intros h h' x Hx Hx'. destruct (Hsub h x Hx) as [Ho|[-> Hr]], (Hsub h' x Hx') as [Ho'|[-> Hr']];
      [by eapply Hu|exfalso; by apply (Hfr x), (Hm h)|exfalso; by apply (Hfr x), (Hm h')|done].
Qed.

Lemma space_sub own own' os os' :
  space own os → (∀ h x, own' h x → own h x ∧ (k_mapped os x → k_mapped os' x)) → space own' os'.
Proof.
  intros [Hm Hu] Hsub. split.
  - intros h x Hx. destruct (Hsub h x Hx) as [Ho Hmp]. by eapply Hmp, Hm.
  - intros h h' x Hx Hx'. apply (Hu h h' x); [by apply Hsub|by apply Hsub].
Qed.
End space.

(** ** Chunks *)

(** A run of region size [rs] at node [n] has the size its class asks for. *)
Definition run_fits (n rs : Z) : Prop :=
  rs ∈ size_classes ∧ run_bytes n = class_pages rs * PAGE_SIZE.

Record chunk_good (g : chunk_g) (c : chunk_t) : Prop := {
  cg_inv : chunk_inv (cg_base g) (cg_live g) (cg_dead g) c;
  cg_addr : 0 < cg_base g ∧ cg_base g mod PAGE_SIZE = 0 ∧ cg_base g + CHUNK_SIZE_BYTES ≤ 2 ^ 47;
  cg_part : ¬ all_returned (cg_dead g);
  cg_fits : ∀ n rs, (n, rs) ∈ cg_live g → run_fits n rs
}.

Definition chunk_key (x : Z * chunk_g) : Z * Z := (x.1, cg_base x.2).

Record chunks_rep (cs : gmap Z chunk_t) (head : Z) (C : list (Z * chunk_g)) : Prop := {
  cr_list : dll cs head (chunk_key <$> C);
  cr_keys : NoDup (chunk_key <$> C).*2;
  cr_good : ∀ a g, (a, g) ∈ C → ∃ c, cs !! a = Some c ∧ chunk_good g c
}.

Lemma chunk_inv_entry base live dead c e :
  key e = base → chunk_inv base live dead c → chunk_inv base live dead (put_entry e c).
Proof.
  intros He [Ha Hj Hno Hab Hb Hk Hba Hl Hf]. destruct c. simpl in *.
  split; simpl; try done; [destruct Ha; by split|].
  intros l Hl'. destruct (Hj l Hl') as [? ? ? ? ? ?]. by split.
Qed.

Lemma chunk_good_entry g c e : key e = cg_base g → chunk_good g c → chunk_good g (put_entry e c).
Proof. intros He [Hi Ha Hp Hf]. split; try done. by apply chunk_inv_entry. Qed.

(** A live run of the chunks: address and region size. *)
Definition live_run (C : list (Z * chunk_g)) (k rs : Z) : Prop :=
  ∃ a g n, (a, g) ∈ C ∧ (n, rs) ∈ cg_live g ∧ k = run_addr (cg_base g) n.

(** ** Huge mappings *)
Record huge_good (p n : Z) (h : huge_chunk_t) : Prop := {
  hg_len : len h = n;
  hg_addr : 0 < p ∧ p mod PAGE_SIZE = 0 ∧ p + n ≤ 2 ^ 47;
  hg_size : 0 < n ∧ n mod PAGE_SIZE = 0;
  hg_large : LARGE_SIZE_MAX_REGION < n
}.
Definition huge_key (x : Z * (Z * Z)) : Z * Z := (x.1, x.2.1).

Record huges_rep (hs : gmap Z huge_chunk_t) (head : Z) (Hs : list (Z * (Z * Z))) : Prop := {
  hr_list : dll hs head (huge_key <$> Hs);
  hr_keys : NoDup (huge_key <$> Hs).*2;
  hr_good : ∀ a p n, (a, (p, n)) ∈ Hs → ∃ h, hs !! a = Some h ∧ huge_good p n h
}.

(** ** Bins *)
Definition no_bin : bin_t := Bin 0 0 0 0 0 0 0.

(** The bin of index [i]: not used yet, or with runs. *)
Record bin_slot (i : nat) (bin : bin_t) (runs : gmap Z run_t) (A I : list (Z * Z))
    (G : gmap Z (list Z * gset Z)) : Prop := {
  bs_class : size_classes !! i = Some (reg_size bin);
  bs_rep : bin_rep bin runs A I G;
  bs_avail : avail_regs bin < 2 ^ 20
}.

Record bins_rep (b : arr bin_t) (runs : gmap Z run_t) (R : gmap Z (Z * nat))
    (G : gmap Z (list Z * gset Z)) (B : nat → list (Z * Z) * list (Z * Z)) : Prop := {
  br_len : alen b = ARENA_NO_BINS;
  br_slot : ∀ i : nat, Z.of_nat i < ARENA_NO_BINS →
    (acell b (Z.of_nat i) = no_bin ∧ B i = ([], [])) ∨
    bin_slot i (acell b (Z.of_nat i)) runs (B i).1 (B i).2 G;
  br_run : ∀ a k i, R !! a = Some (k, i) ↔ Z.of_nat i < ARENA_NO_BINS ∧ (a, k) ∈ (B i).1 ++ (B i).2
}.

(** ** Runs and metadata *)

(** The runs of the bins are the live runs of the chunks, but for one ([X]) that is
    being added or removed. *)
Record links (X : option (Z * Z)) (R : gmap Z (Z * nat)) (C : list (Z * chunk_g)) : Prop := {
  ln_run : ∀ a k i, R !! a = Some (k, i) → ∃ rs, size_classes !! i = Some rs ∧ live_run C k rs;
  ln_live : ∀ k rs, live_run C k rs →
    X = Some (k, rs) ∨ ∃ a i, R !! a = Some (k, i) ∧ size_classes !! i = Some rs;
  ln_inj : ∀ a a' k i i', R !! a = Some (k, i) → R !! a' = Some (k, i') → a = a';
  ln_new : ∀ k rs, X = Some (k, rs) → live_run C k rs ∧ ∀ a i, R !! a ≠ Some (k, i)
}.

(** The structures, and the bytes each one needs; [P] are blocks in use for
    structures that are not linked yet, or not any more. *)
Definition run_struct_size (rs : Z) : Z := SIZEOF_RUN + BITS2BYTES_CEIL 32 (2 * class_elems rs).
Definition room (M : list (Z * bt)) (a s : Z) : Prop := ∃ n, (a, n) ∈ meta_blocks M ∧ s ≤ n.

Record structs (P : list Z) (M : list (Z * bt)) (C : list (Z * chunk_g)) (R : gmap Z (Z * nat))
    (Hs : list (Z * (Z * Z))) : Prop := {
  st_blocks : (meta_blocks M).*1 ≡ₚ P ++ C.*1 ++ (map_to_list R).*1 ++ Hs.*1;
  st_nodup : NoDup (meta_blocks M).*1;
  st_chunk : ∀ a, a ∈ C.*1 → room M a SIZEOF_CHUNK;
  st_run : ∀ a k i rs, R !! a = Some (k, i) → size_classes !! i = Some rs → room M a (run_struct_size rs);
  st_huge : ∀ a, a ∈ Hs.*1 → room M a SIZEOF_HUGE_CHUNK
}.

Section arena_inv.
Context `{Build} `{KernelLaws OS}.
Implicit Types w : world OS.

(** The invariant while a structure is added or removed. *)
Record arena_pend (P : list Z) (X : option (Z * Z)) w (S : arena_g) : Prop := {
  ai_init : is_initialized (w_arena w) = 1;
  ai_probes : probes_ok (w_arena w);
  ai_meta : meta_of w (g_meta S);
  ai_chunks : chunks_rep (w_chunks w) (chunk_list (w_arena w)) (g_chunks S);
  ai_huges : huges_rep (w_huges w) (huge_alloc_list (w_arena w)) (g_huges S);
  ai_bins : bins_rep (bins (w_arena w)) (w_runs w) (g_runs S) (g_regs S) (g_bins S);
  ai_links : links X (g_runs S) (g_chunks S);
  ai_structs : structs P (g_meta S) (g_chunks S) (g_runs S) (g_huges S);
  ai_space : space (owns (g_meta S) (g_chunks S) (g_huges S)) (w_os w)
}.
Abbreviation arena_inv := (arena_pend [] None).

(** The regions handed out and not given back: address and length. *)
Inductive live_region (S : arena_g) : Z → Z → Prop :=
  | live_regular a k i rs issued freed j :
      g_runs S !! a = Some (k, i) → size_classes !! i = Some rs →
      g_regs S !! a = Some (issued, freed) → j ∈ issued → j ∉ freed →
      live_region S (k + j * rs) rs
  | live_huge a p n : (a, (p, n)) ∈ g_huges S → live_region S p n.

Lemma live_region_inv S p n :
  live_region S p n →
  (∃ a k i issued freed j, g_runs S !! a = Some (k, i) ∧ size_classes !! i = Some n ∧
     g_regs S !! a = Some (issued, freed) ∧ j ∈ issued ∧ (j ∉ freed) ∧ p = k + j * n) ∨
  ∃ a, (a, (p, n)) ∈ g_huges S.
Proof. intros [a k i rs issued freed j|a q m]; [left; by exists a, k, i, issued, freed, j|right; by exists a]. Qed.

(** The regions handed out whose memory is still there, given back or not. *)
Inductive issued_region (S : arena_g) : Z → Z → Prop :=
  | issued_regular a k i rs issued freed j :
      g_runs S !! a = Some (k, i) → size_classes !! i = Some rs →
      g_regs S !! a = Some (issued, freed) → j ∈ issued →
      issued_region S (k + j * rs) rs
  | issued_huge a p n : (a, (p, n)) ∈ g_huges S → issued_region S p n.

Lemma live_issued S p n : live_region S p n → issued_region S p n.
Proof. intros [a k i rs issued freed j|a q m]; [by eapply issued_regular|by eapply issued_huge]. Qed.

Lemma issued_region_inv S p n :
  issued_region S p n →
  (∃ a k i issued freed j, g_runs S !! a = Some (k, i) ∧ size_classes !! i = Some n ∧
     g_regs S !! a = Some (issued, freed) ∧ j ∈ issued ∧ p = k + j * n) ∨
  ∃ a, (a, (p, n)) ∈ g_huges S.
Proof. intros [a k i rs issued freed j|a q m]; [left; by exists a, k, i, issued, freed, j|right; by exists a]. Qed.

(** ** What the invariant says about addresses *)
Lemma run_in_chunk g c n rs :
  chunk_good g c → (n, rs) ∈ cg_live g →
  run_addr (cg_base g) n = cg_base g + (node_lo n - 2048) * 16384 ∧
  run_bytes n = (node_hi n - node_lo n) * 16384 ∧
  2048 ≤ node_lo n < node_hi n ∧ node_hi n ≤ 4096.
Proof.
  intros [[_ _ [_ Hnode _] _ _ _ Hb _ _] Ha _ _] Hin.
  assert (is_node n) as Hn by (apply Hnode, elem_of_app; left; apply list_elem_of_fmap; by exists (n, rs)).
  destruct (run_addr_eq (cg_base g) n) as [-> ->]; [apply Hb..|done|].
  pose proof (node_bounds n Hn). split_and!; try done; lia.
Qed.

(** A returned run and a live run, or two live runs, of one chunk. *)
Lemma nodes_apart g c n m x :
  chunk_good g c → n ∈ (cg_live g).*1 ++ cg_dead g → m ∈ (cg_live g).*1 ++ cg_dead g → n ≠ m →
  node_range (cg_base g) n x → ¬ node_range (cg_base g) m x.
Proof.
  intros [[_ _ [_ Hnode Hov] _ _ _ Hb _ _] _ _ _] Hn Hm Hne.
  unfold node_range, range. destruct Hb as [Hb1 Hb2].
  destruct (run_addr_eq (cg_base g) n Hb1 Hb2 (Hnode n Hn)) as [-> ->].
  destruct (run_addr_eq (cg_base g) m Hb1 Hb2 (Hnode m Hm)) as [-> ->].
  pose proof (node_bounds n (Hnode n Hn)). pose proof (node_bounds m (Hnode m Hm)).
  pose proof (Hov n m Hn Hm Hne) as Ho%overlapb_false. lia.
Qed.

Lemma live_node_in g n rs : (n, rs) ∈ cg_live g → n ∈ (cg_live g).*1 ++ cg_dead g.
Proof. intros Hin. apply elem_of_app. left. apply list_elem_of_fmap. by exists (n, rs). Qed.

(** The regions of a live run lie in its memory. *)
Lemma region_in_node g c n rs j x :
  chunk_good g c → (n, rs) ∈ cg_live g → 0 ≤ j < class_elems rs →
  range (run_addr (cg_base g) n + j * rs) rs x → node_range (cg_base g) n x.
Proof.
  intros Hg Hlive Hj. destruct (cg_fits _ _ Hg n rs Hlive) as [Hcl Hby].
  destruct (class_shape rs Hcl) as (_ & Hrs & _ & Hfit). unfold node_range, range. rewrite Hby. nia.
Qed.

(** The bytes of a live run belong to its chunk. *)
Lemma live_run_owned M C Hs cs head a g n rs x :
  chunks_rep cs head C → (a, g) ∈ C → (n, rs) ∈ cg_live g →
  node_range (cg_base g) n x → owns M C Hs (HChunk a) x.
Proof.
  intros HC Hin Hlive Hx. destruct (cr_good _ _ _ HC a g Hin) as (c & _ & Hg).
  destruct (run_in_chunk g c n rs Hg Hlive) as (Ha & Hb & Hlo & Hhi).
  exists g. split; [done|]. split.
  - unfold node_range, range in Hx. rewrite Ha, Hb in Hx. unfold range. change CHUNK_SIZE_BYTES with 33554432. lia.
  - intros d Hd. apply (nodes_apart g c n d x Hg); [by eapply live_node_in|apply elem_of_app; by right| |done].
    intros ->. destruct Hg as [[_ _ [Hnd _ _] _ _ _ _ _ _] _ _ _]. apply NoDup_app in Hnd as (_ & Hdis & _).
    apply (Hdis d); [|done]. apply list_elem_of_fmap. by exists (d, rs).
Qed.

Lemma fst_unique {A} (l : list (Z * A)) a x y : NoDup l.*1 → (a, x) ∈ l → (a, y) ∈ l → x = y.
Proof.
  intros Hnd Hx Hy. apply list_elem_of_lookup in Hx as [i Hi]. apply list_elem_of_lookup in Hy as [j Hj].
  assert (i = j) as <-; [|rewrite Hi in Hj; by injection Hj].
  eapply (NoDup_lookup l.*1 i j a); [done|by rewrite list_lookup_fmap, Hi|by rewrite list_lookup_fmap, Hj].
Qed.

Lemma chunks_nodup cs head C : chunks_rep cs head C → NoDup C.*1.
Proof. intros [(_ & _ & Hnd & _) _ _]. by rewrite <- list_fmap_compose in Hnd. Qed.
Lemma huges_nodup hs head Hs : huges_rep hs head Hs → NoDup Hs.*1.
Proof. intros [(_ & _ & Hnd & _) _ _]. by rewrite <- list_fmap_compose in Hnd. Qed.

(** The slot of a run, and its regions. *)
Lemma slot_of_run b runs R G B a k i :
  bins_rep b runs R G B → R !! a = Some (k, i) →
  bin_slot i (acell b (Z.of_nat i)) runs (B i).1 (B i).2 G ∧ (a, k) ∈ (B i).1 ++ (B i).2.
Proof.
  intros [_ Hs Hr] Ha. apply Hr in Ha as [Hi Hin]. destruct (Hs i Hi) as [[_ HB]|Hslot]; [|done].
  rewrite HB in Hin. set_solver.
Qed.

Lemma region_in_run b runs R G B a k i rs issued freed j :
  bins_rep b runs R G B → R !! a = Some (k, i) → size_classes !! i = Some rs →
  G !! a = Some (issued, freed) → j ∈ issued → 0 < rs ∧ 0 ≤ j < class_elems rs.
Proof.
  intros Hb Ha Hc HG Hj. destruct (slot_of_run _ _ _ _ _ _ _ _ Hb Ha) as [[Hc' [Hl _ _ _ _ _] _] Hin].
  rewrite Hc in Hc'. injection Hc' as ->.
  destruct (class_shape _ (list_elem_of_lookup_2 _ _ _ Hc)) as (_ & Hrs & _). split; [done|].
  destruct (bl_runs _ _ _ _ _ Hl _ Hin) as (run & iss & fr & _ & _ & HG' & Hrep). cbn [fst] in HG'.
  rewrite HG in HG'. injection HG' as <- <-.
  eapply issued_range; [apply bin_geometry_shape, Hl|exact Hrep|done].
Qed.

(** A live region is owned as a whole. *)
Record region_at (S : arena_g) (p n : Z) (h : holder) : Prop := {
  ra_size : 0 < n;
  ra_owned : ∀ x, range p n x → owns (g_meta S) (g_chunks S) (g_huges S) h x
}.

Lemma regular_region P X w S a k i rs issued freed j :
  arena_pend P X w S → g_runs S !! a = Some (k, i) → size_classes !! i = Some rs →
  g_regs S !! a = Some (issued, freed) → j ∈ issued →
  ∃ ca g n, (ca, g) ∈ g_chunks S ∧ (n, rs) ∈ cg_live g ∧ k = run_addr (cg_base g) n ∧
    region_at S (k + j * rs) rs (HChunk ca) ∧ ∀ x, range (k + j * rs) rs x → node_range (cg_base g) n x.
Proof.
  intros Hinv Ha Hc HG Hj.
  destruct (region_in_run _ _ _ _ _ _ _ _ _ _ _ _ (ai_bins _ _ _ _ Hinv) Ha Hc HG Hj) as [Hrs Hjr].
  destruct (ln_run _ _ _ (ai_links _ _ _ _ Hinv) a k i Ha) as (rs' & Hc' & ca & g & n & HC & Hlive & Hk).
  rewrite Hc in Hc'. injection Hc' as <-.
  assert (∀ x, range (k + j * rs) rs x → node_range (cg_base g) n x) as Hsub.
  { destruct (cr_good _ _ _ (ai_chunks _ _ _ _ Hinv) ca g HC) as (c & _ & Hg).
    intros x. rewrite Hk. by apply (region_in_node g c n rs j). }
  exists ca, g, n. split; [done|]. split; [done|]. split; [done|]. split; [|done].
  split; [done|]. intros x Hx. eapply live_run_owned; [apply Hinv|done|done|by apply Hsub].
Qed.

Lemma issued_region_at P X w S p n : arena_pend P X w S → issued_region S p n → ∃ h, region_at S p n h.
Proof.
  intros Hinv [a k i rs issued freed j Ha Hc HG Hj|a q m Hin].
  - destruct (regular_region P X w S a k i rs issued freed j) as (ca & g & nd & _ & _ & _ & Hat & _); eauto.
  - exists (HHuge a). destruct (hr_good _ _ _ (ai_huges _ _ _ _ Hinv) a q m Hin) as (h & _ & Hg).
    split; [apply Hg|]. intros x Hx. by exists q, m.
Qed.

Lemma live_region_at P X w S p n : arena_pend P X w S → live_region S p n → ∃ h, region_at S p n h.
Proof. intros Hinv Hl%live_issued. by eapply issued_region_at. Qed.

(** Two regions of runs with a byte in common are the same region of the same run. *)
Lemma regular_overlap P X w S a k i rs iss fr j a' k' i' rs' iss' fr' j' x :
  arena_pend P X w S →
  g_runs S !! a = Some (k, i) → size_classes !! i = Some rs → g_regs S !! a = Some (iss, fr) → j ∈ iss →
  g_runs S !! a' = Some (k', i') → size_classes !! i' = Some rs' → g_regs S !! a' = Some (iss', fr') → j' ∈ iss' →
  range (k + j * rs) rs x → range (k' + j' * rs') rs' x → a = a' ∧ j = j'.
Proof.
  intros Hinv Ha Hc HG Hj Ha' Hc' HG' Hj' Hxp Hxq.
  pose proof (ai_space _ _ _ _ Hinv) as [_ Hu].
  destruct (regular_region P X w S a k i rs iss fr j Hinv Ha Hc HG Hj) as (ca & g & nd & HC & Hl & Hk & [_ Ho] & Hs).
  destruct (regular_region P X w S a' k' i' rs' iss' fr' j' Hinv Ha' Hc' HG' Hj') as (ca' & g' & nd' & HC' & Hl' & Hk' & [_ Ho'] & Hs').
  assert (HChunk ca = HChunk ca') as [= <-] by (by eapply Hu; [apply Ho|apply Ho']).
  assert (g = g') as <- by (eapply fst_unique; [eapply chunks_nodup, Hinv|done|done]).
  destruct (cr_good _ _ _ (ai_chunks _ _ _ _ Hinv) ca g HC) as (c & _ & Hg).
  destruct (decide (nd = nd')) as [<-|Hne].
  2: { exfalso. apply (nodes_apart g c nd nd' x Hg); [by eapply live_node_in|by eapply live_node_in|done|by apply Hs|by apply Hs']. }
  subst k k'. assert (a = a') as <- by (eapply ln_inj; [apply Hinv|done|done]).
  rewrite Ha in Ha'. injection Ha' as <-. rewrite Hc in Hc'. injection Hc' as <-.
  split; [done|]. unfold range in Hxp, Hxq. nia.
Qed.

Lemma regular_not_huge P X w S a k i rs iss fr j b p n x :
  arena_pend P X w S →
  g_runs S !! a = Some (k, i) → size_classes !! i = Some rs → g_regs S !! a = Some (iss, fr) → j ∈ iss →
  (b, (p, n)) ∈ g_huges S → range (k + j * rs) rs x → ¬ range p n x.
Proof.
  intros Hinv Ha Hc HG Hj Hb Hx Hxh.
  destruct (regular_region P X w S a k i rs iss fr j Hinv Ha Hc HG Hj) as (ca & _ & _ & _ & _ & _ & [_ Ho] & _).
  assert (HChunk ca = HHuge b); [|done]. eapply (sp_unique _ _ (ai_space _ _ _ _ Hinv)); [by apply Ho|]. by exists p, n.
Qed.

(** Two regions with a byte in common are the same. *)
Lemma issued_regions_apart P X w S p n q m :
  arena_pend P X w S → issued_region S p n → issued_region S q m → (p, n) = (q, m) ∨ apart (p, n) (q, m).
Proof.
  intros Hinv Hp Hq.
  destruct (decide (apart (p, n) (q, m))) as [|Hno]; [by right|left]. unfold apart in Hno. cbn [fst snd] in Hno.
  assert (0 < n ∧ 0 < m) as [Hn Hm].
  { destruct (issued_region_at P X w S p n Hinv Hp) as [? [? _]], (issued_region_at P X w S q m Hinv Hq) as [? [? _]]. done. }
  set (x := Z.max p q). assert (range p n x ∧ range q m x) as [Hxp Hxq] by (unfold range, x; lia).
  destruct Hp as [a k i rs issued freed j Ha Hc HG Hj|a p n Hin],
           Hq as [a' k' i' rs' issued' freed' j' Ha' Hc' HG' Hj'|a' q m Hin'].
  - destruct (regular_overlap P X w S a k i rs issued freed j a' k' i' rs' issued' freed' j' x) as [<- <-]; try done.
    by simplify_eq.
  - exfalso. by eapply (regular_not_huge P X w S a k i rs issued freed j a' q m x).
  - exfalso. by eapply (regular_not_huge P X w S a' k' i' rs' issued' freed' j' a p n x).
  - assert (HHuge a = HHuge a') as [= <-].
    { eapply (sp_unique _ _ (ai_space _ _ _ _ Hinv)); [by exists p, n|by exists q, m]. }
    eapply fst_unique; [eapply huges_nodup, Hinv|done|done].
Qed.

Lemma live_regions_apart P X w S p n q m :
  arena_pend P X w S → live_region S p n → live_region S q m → (p, n) = (q, m) ∨ apart (p, n) (q, m).
Proof. intros Hinv Hp%live_issued Hq%live_issued. by eapply issued_regions_apart. Qed.
End arena_inv.
