(* ===== verification/ArenaOps.v ===== *)
(** * ArenaOps: the operations of the arena keep its invariant

    Metadata blocks for structures, chunks, runs and bins: every operation of arena.c
    that the allocator uses, against the ghost state of ArenaInv.  The only other
    outcome is the endless request for memory of arena_morecore. *)
From Stdlib Require Import ZArith Lia.
From stdpp Require Import base option numbers functions sorting list gmap.
From S2P Require Import Prelude.
From S2P Require Import CArray.
From S2P Require Import Utils.
From S2P Require Import SizeClass.
From S2P Require Import Random.
From S2P Require Import ContainerLL.
From S2P Require Import Platform.
From S2P Require Import KernelSpec.
From S2P Require Import Run.
From S2P Require Import Bin.
From S2P Require Import InternalAllocator.
From S2P Require Import IntAllocTree.
From S2P Require Import IntAllocProps.
From S2P Require Import Chunk.
From S2P Require Import ChunkTree.
From S2P Require Import ChunkAlloc.
From S2P Require Import ChunkRun.
From S2P Require Import ChunkBuddy.
From S2P Require Import ChunkSpec.
From S2P Require Import World.
From S2P Require Import Arena.
From S2P Require Import ArenaMeta.
From S2P Require Import ArenaInv.

(** ** Ghost updates *)
Definition with_meta (S : arena_g) M : arena_g :=
  ArenaG M (g_chunks S) (g_huges S) (g_runs S) (g_regs S) (g_bins S).
Definition with_chunks (S : arena_g) C : arena_g :=
  ArenaG (g_meta S) C (g_huges S) (g_runs S) (g_regs S) (g_bins S).
Definition with_huges (S : arena_g) Hs : arena_g :=
  ArenaG (g_meta S) (g_chunks S) Hs (g_runs S) (g_regs S) (g_bins S).
Definition with_bins (S : arena_g) R G B : arena_g :=
  ArenaG (g_meta S) (g_chunks S) (g_huges S) R G B.

(** ** Blocks *)
Lemma room_perm M M' a s : (∀ x, x ∈ meta_blocks M → x ∈ meta_blocks M') → room M a s → room M' a s.
Proof. intros Hsub (n & Hin & Hn). exists n. auto. Qed.

Section arena_ops.
Context `{Build} `{KernelLaws OS}.
Implicit Types w : world OS.

Lemma new_block_fresh M M' p n : new_block M M' p n → p ∉ (meta_blocks M).*1.
Proof.
  intros [_ Hap [_ Hn]] ([q m] & -> & Hin)%list_elem_of_fmap. cbn [fst] in *.
  rewrite Forall_forall in Hap. specialize (Hap _ Hin).
  apply meta_block_range in Hin as (_ & _ & _ & _ & _ & Hm & _). unfold apart in Hap. cbn [fst snd] in *. lia.
Qed.

(** A new block is a structure in the making. *)
Lemma structs_new P M M' C R Hs p n :
  structs P M C R Hs → new_block M M' p n → structs (p :: P) M' C R Hs ∧ room M' p n ∧
  (p ∉ C.*1) ∧ R !! p = None ∧ (p ∉ Hs.*1).
Proof.
  intros [Hb Hnd Hc Hr Hh] Hnb. pose proof (new_block_fresh _ _ _ _ Hnb) as Hfresh.
  destruct Hnb as [Hperm _ _].
  assert (∀ x, x ∈ meta_blocks M → x ∈ meta_blocks M') as Hsub by (intros x Hx; rewrite Hperm; by right).
  split; [split|].
  - rewrite Hperm, fmap_cons, Hb. done.
  - rewrite Hperm, fmap_cons. by constructor.
  - intros a Ha. by eapply room_perm, Hc.
  - intros a k i rs Ha Hrs. by eapply room_perm, Hr.
  - intros a Ha. by eapply room_perm, Hh.
  - split; [exists n; split; [rewrite Hperm; by left|lia]|]. rewrite Hb in Hfresh.
    split; [set_solver|]. split; [|set_solver]. apply eq_None_not_Some. intros [x Hx].
    apply Hfresh. rewrite !elem_of_app. right. right. left. apply list_elem_of_fmap.
    exists (p, x). split; [done|by apply elem_of_map_to_list].
Qed.

(** Freeing the block of a structure that is not linked any more. *)
Lemma structs_free P M M' C R Hs p n :
  structs (p :: P) M C R Hs → meta_blocks M ≡ₚ (p, n) :: meta_blocks M' → structs P M' C R Hs.
Proof.
  intros [Hb Hnd Hc Hr Hh] Hperm. rewrite Hperm, fmap_cons in Hb, Hnd. cbn [fst app] in *.
  apply Permutation_cons_inv in Hb. apply NoDup_cons in Hnd as [Hp Hnd].
  assert (∀ a s, a ≠ p → room M a s → room M' a s) as Hroom.
  { intros a s Ha (m & Hin & Hm). exists m. split; [|done]. rewrite Hperm in Hin.
    apply elem_of_cons in Hin as [[= -> ->]|Hin]; done. }
  rewrite Hb in Hp. split; [done|done|..].
  - intros a Ha. apply Hroom; [|by apply Hc]. intros ->. apply Hp. set_solver.
  - intros a k i rs Ha Hrs. apply Hroom; [|by eapply Hr]. intros ->. apply Hp.
    rewrite !elem_of_app. right. right. left. apply list_elem_of_fmap. exists (p, (k, i)).
    split; [done|by apply elem_of_map_to_list].
  - intros a Ha. apply Hroom; [|by apply Hh]. intros ->. apply Hp. set_solver.
Qed.

Lemma sorted_before (l : list (Z * nat)) x y :
  StronglySorted before l → x ∈ l → y ∈ l → x = y ∨ before x y ∨ before y x.
Proof.
  induction 1 as [|z l Hs IH Hall]; [set_solver|]. rewrite Forall_forall in Hall.
  intros [->|Hx]%elem_of_cons [->|Hy]%elem_of_cons; [by left|right; left; auto|right; right; auto|auto].
Qed.

(** Two metadata blocks have no byte in common. *)
Lemma meta_blocks_apart w M x y :
  meta_of w M → x ∈ meta_blocks M → y ∈ meta_blocks M → x.1 ≠ y.1 → apart x y.
Proof.
  destruct x as [p n], y as [q m]. cbn [fst]. intros HM Hp Hq Hne. unfold apart. cbn [fst snd].
  apply meta_block_range in Hp as (a & t & Ha & Hpa & Hp1 & Hp2 & Hp3).
  apply meta_block_range in Hq as (b & u & Hb & Hqb & Hq1 & Hq2 & Hq3). cbn [fst snd] in *.
  destruct (decide (a = b)) as [<-|Hab].
  - assert (t = u) as <- by (eapply fst_unique; [eapply meta_nodup, HM|done|done]).
    unfold abs_blocks in Hpa, Hqb.
    apply list_elem_of_fmap in Hpa as ([o e] & [= -> ->] & Hpa), Hqb as ([o' e'] & [= -> ->] & Hqb).
    cbn [fst snd] in *.
    destruct (sorted_before _ _ _ (blocks_sorted TOP 0 t) Hpa Hqb) as [[= -> ->]|[Hbf|Hbf]]; [done|..];
      unfold before in Hbf; cbn [fst snd] in Hbf; lia.
  - destruct (mr_apart _ _ _ _ HM a b) as [Hap|Hap]; [apply list_elem_of_fmap; by exists (a, t)|
      apply list_elem_of_fmap; by exists (b, u)|done|..]; cbn [fst snd] in Hap;
      rewrite (proj1 META_LEN_eq) in Hap; lia.
Qed.

(** The number of blocks, from their size. *)
Lemma blocks_count w M P C R Hs :
  meta_of w M → structs P M C R Hs → Z.of_nat (length (meta_blocks M)) ≤ 2 ^ 42.
Proof.
  intros HM Hst. rewrite <- (length_fmap fst (meta_blocks M)).
  assert (Z.of_nat (length (meta_blocks M).*1) * 32 ≤ 2 ^ 47); [|lia].
  apply spaced_count; [lia|lia| |apply Hst|].
  - intros p ([q n] & -> & Hin)%list_elem_of_fmap. cbn [fst].
    apply meta_block_range in Hin as (a & t & Hin & _ & H1 & H2 & H3). cbn [fst snd] in *.
    destruct (mr_top _ _ _ _ HM a) as [Ha Htop]; [apply list_elem_of_fmap; by exists (a, t)|].
    rewrite (proj1 META_LEN_eq) in Htop. lia.
  - intros p q ([p' n] & -> & Hp)%list_elem_of_fmap ([q' m] & -> & Hq)%list_elem_of_fmap Hne. cbn [fst] in *.
    pose proof (meta_blocks_apart w M _ _ HM Hp Hq Hne) as Hap. unfold apart in Hap. cbn [fst snd] in Hap.
    apply meta_block_range in Hp as (a & t & _ & _ & _ & Hp2 & _).
    apply meta_block_range in Hq as (b & u & _ & _ & _ & Hq2 & _). cbn [fst snd] in *. lia.
Qed.

Lemma structs_counts w M P C R Hs :
  meta_of w M → structs P M C R Hs →
  Z.of_nat (length C) ≤ 2 ^ 42 ∧ Z.of_nat (size R) ≤ 2 ^ 42 ∧ Z.of_nat (length Hs) ≤ 2 ^ 42.
Proof.
  intros HM Hst. pose proof (blocks_count _ _ _ _ _ _ HM Hst) as Hc.
  pose proof (Permutation_length (st_blocks _ _ _ _ _ Hst)) as Hl.
  rewrite !length_app, !length_fmap, length_map_to_list in Hl. lia.
Qed.

(** ** Changes that the invariant does not see *)
Lemma space_growth M M' C Hs os os' :
  space (owns M C Hs) os → meta_growth os os' M M' → space (owns M' C Hs) os'.
Proof.
  intros Hsp [[HM ->]|(a & HM & Hgr)].
  - eapply space_sub; [done|]. intros h x Ho. split; [|done]. destruct h; [|done..].
    cbn [owns] in *. by rewrite HM in Ho.
  - eapply (space_grant _ _ _ _ (HMeta a)); [done|done|]. intros h x Ho. destruct h as [b| |]; [|by left..].
    cbn [owns] in *. rewrite HM in Ho. destruct Ho as [[->|Hb]%elem_of_cons Hr]; [by right|by left].
Qed.

(** A step of the metadata allocator: one more block in the making. *)
Lemma alloc_struct P X w S size :
  arena_pend P X w S → 0 < size ≤ META_MAX →
  arena_internal_alloc size w = Fail Diverged ∨
  ∃ p w' M', arena_internal_alloc size w = Ok (p, w') ∧ side_frame w w' ∧ p ≠ 0 ∧
    arena_pend (p :: P) X w' (with_meta S M') ∧ room M' p size ∧
    (p ∉ (g_chunks S).*1) ∧ g_runs S !! p = None ∧ (p ∉ (g_huges S).*1).
Proof.
  intros [Hi Hp Hm Hc Hh Hb Hl Hs Hsp] Hsz.
  destruct (arena_internal_alloc_ok w (g_meta S) size Hm Hp Hsz) as
    [Hd|(p & n & w' & M' & Hal & Hfr & Hp' & Hm' & Hnb & Hn & Hgr)]; [by left|right].
  destruct (structs_new _ _ _ _ _ _ _ _ Hs Hnb) as (Hs' & (m & Hin & Hm2) & Hf1 & Hf2 & Hf3).
  exists p, w', M'. split; [done|]. split; [done|]. split; [apply Hnb|]. split; [|split; [exists m; split; [done|lia]|done]].
  destruct Hfr as [E1 E2 E3 E4 E5 E6 E7 E8].
  split; cbn [with_meta g_meta g_chunks g_huges g_runs g_regs g_bins]; rewrite ?E1, ?E2, ?E3, ?E5, ?E6, ?E7, ?E8; try done.
  by eapply space_growth.
Qed.

(** ** Chunks *)
Lemma chunk_frame (s s' : gmap Z chunk_t) a c :
  es_frame s s' → s !! a = Some c → ∃ e, s' !! a = Some (put_entry e c) ∧ es_lookup s' a = Some e.
Proof.
  intros Hf Ha. specialize (Hf a). rewrite Ha in Hf. destruct (s' !! a) as [c'|] eqn:Ha'; [|done].
  injection Hf as Hf. exists (chunk_entry c'). simpl. rewrite Ha'. destruct c, c'; simpl in *. by simplify_eq.
Qed.

(** The chunks of a list that has been linked anew. *)
Lemma chunks_rep_of cs cs' head C :
  NoDup (chunk_key <$> C).*2 → (∀ a g, (a, g) ∈ C → ∃ c, cs !! a = Some c ∧ chunk_good g c) →
  es_frame cs cs' → dll cs' head (chunk_key <$> C) → chunks_rep cs' head C.
Proof.
  intros Hk Hg Hf Hl. split; [done|done|]. intros a g Hin.
  destruct (Hg a g Hin) as (c & Ha & Hgood). destruct (chunk_frame _ _ _ _ Hf Ha) as (e & Ha' & He).
  exists (put_entry e c). split; [done|]. apply chunk_good_entry; [|done].
  destruct (dll_key _ _ _ a (cg_base g) Hl) as (_ & e' & He' & Hke).
  { apply list_elem_of_fmap. by exists (a, g). }
  rewrite He in He'. by injection He' as ->.
Qed.

(** The chunks survive a change of links. *)
Lemma chunks_rep_links cs cs' head head' C :
  chunks_rep cs head C → es_frame cs cs' → dll cs' head' (chunk_key <$> C) → chunks_rep cs' head' C.
Proof. intros [_ Hk Hg]. by apply chunks_rep_of. Qed.

Lemma chunk_key_fst C : (chunk_key <$> C).*1 = C.*1.
Proof. by rewrite <- list_fmap_compose. Qed.

(** Structures outside the list do not matter. *)
Lemma chunks_rep_frame cs cs' head C :
  chunks_rep cs head C → (∀ a, a ∈ C.*1 → cs' !! a = cs !! a) → chunks_rep cs' head C.
Proof.
  intros [Hl Hk Hg] Hsame. split; [|done|].
  - eapply dll_ext; [|done]. intros a Ha. rewrite chunk_key_fst in Ha. simpl. by rewrite Hsame.
  - intros a g Hin. rewrite Hsame; [by apply Hg|]. apply list_elem_of_fmap. by exists (a, g).
Qed.

Lemma chunks_rep_add cs head C a g c :
  chunks_rep cs head C → a ≠ 0 → a ∉ C.*1 → cg_base g ∉ (chunk_key <$> C).*2 →
  Z.of_nat (length C) ≤ 2 ^ 42 → chunk_entry c = LLEntry 0 0 (cg_base g) → chunk_good g c →
  ∃ cs1 cs2, new_at cs a c = Ok cs1 ∧ ll_add cs1 head a = Ok (a, cs2) ∧ chunks_rep cs2 a ((a, g) :: C).
Proof.
  intros Hrep Ha Hfr Hkey Hlen He Hgood. exists (<[a := c]> cs).
  assert (dll (<[a := c]> cs) head (chunk_key <$> C)) as Hl1.
  { eapply (dll_ext cs); [|apply Hrep]. intros b Hb. simpl. rewrite lookup_insert_ne; [done|].
    rewrite chunk_key_fst in Hb. by intros ->. }
  destruct (ll_add_ok (<[a := c]> cs) head _ a (cg_base g) Hl1) as (cs2 & Hadd & Hl2 & Hf & _).
  - simpl. by rewrite lookup_insert_eq, <- He.
  - done.
  - by rewrite chunk_key_fst.
  - rewrite length_fmap. lia.
  - intros _. split; [|done]. pose proof (cg_addr _ _ Hgood). lia.
  - exists cs2. split; [unfold new_at; by rewrite (proj2 (Z.eqb_neq a 0))|]. split; [done|].
    split; [done| |].
    { rewrite fmap_cons. constructor; [done|apply Hrep]. }
    intros b g' Hb.
    assert (∃ c', <[a := c]> cs !! b = Some c' ∧ chunk_good g' c') as (c' & Hc' & Hg').
    { apply elem_of_cons in Hb as [[= -> ->]|Hb]; [exists c; by rewrite lookup_insert_eq|].
      destruct (cr_good _ _ _ Hrep b g' Hb) as (c' & Hc' & Hg'). exists c'.
      rewrite lookup_insert_ne; [done|]. intros ->. apply Hfr, list_elem_of_fmap. by exists (b, g'). }
    destruct (chunk_frame _ _ _ _ Hf Hc') as (e & Hb' & He').
    exists (put_entry e c'). split; [done|]. apply chunk_good_entry; [|done].
    destruct (dll_key _ _ _ b (cg_base g') Hl2) as (_ & e' & He'' & Hke).
    { change ((a, cg_base g) :: (chunk_key <$> C)) with (chunk_key <$> ((a, g) :: C)).
      apply list_elem_of_fmap. by exists (b, g'). }
    rewrite He' in He''. by injection He'' as ->.
Qed.

(** A chunk of the list still owns a byte of its range. *)
Lemma chunk_owns_some M C Hs cs head a g :
  chunks_rep cs head C → (a, g) ∈ C →
  ∃ x, range (cg_base g) CHUNK_SIZE_BYTES x ∧ owns M C Hs (HChunk a) x.
Proof.
  intros Hrep Hin. destruct (cr_good _ _ _ Hrep a g Hin) as (c & _ & Hg).
  set (covered := λ x, Exists (λ d, node_lo d ≤ x < node_hi d) (cg_dead g)).
  destruct (decide (Forall covered (seqZ 2048 2048))) as [Hall|Hno].
  { exfalso. apply (cg_part _ _ Hg). intros x Hx. rewrite Forall_forall in Hall.
    apply Exists_exists, Hall, elem_of_seqZ. lia. }
  apply not_Forall_Exists in Hno; [|intros x; apply _].
  apply Exists_exists in Hno as (x & Hx%elem_of_seqZ & Hc). unfold covered in Hc.
  exists (cg_base g + (x - 2048) * 16384). change CHUNK_SIZE_BYTES with 33554432.
  assert (range (cg_base g) 33554432 (cg_base g + (x - 2048) * 16384)) as Hr by (unfold range; lia).
  split; [done|]. exists g. split; [done|]. split; [done|]. intros d Hd Hnr. apply Hc, Exists_exists.
  exists d. split; [done|].
  destruct Hg as [[_ _ [_ Hnode _] _ _ _ [Hb1 Hb2] _ _] _ _ _].
  assert (is_node d) as Hdn by (apply Hnode, elem_of_app; by right).
  unfold node_range, range in Hnr. destruct (run_addr_eq (cg_base g) d Hb1 Hb2 Hdn) as [Ha Hb].
  rewrite Ha, Hb in Hnr. lia.
Qed.

Lemma fresh_base M C Hs cs head os os' p :
  chunks_rep cs head C → space (owns M C Hs) os → granted os os' p CHUNK_SIZE_BYTES →
  p ∉ (chunk_key <$> C).*2.
Proof.
  intros Hrep Hsp Hgr Hin. rewrite <- list_fmap_compose in Hin.
  apply list_elem_of_fmap in Hin as ([a g] & -> & Hin). cbn in Hgr.
  destruct (chunk_owns_some M C Hs cs head a g Hrep Hin) as (x & Hx & Ho).
  by apply (gr_fresh _ _ _ _ Hgr x), (sp_mapped _ _ Hsp (HChunk a)).
Qed.

Lemma SIZEOF_CHUNK_small : 0 < SIZEOF_CHUNK ≤ META_MAX.
Proof. split; [apply Z.ltb_lt; reflexivity|apply Z.leb_le; reflexivity]. Qed.

Lemma page_multiple n : n mod PAGE_SIZE = 0 → (n + PAGE_SIZE) mod PAGE_SIZE = 0.
Proof. intros Hn. rewrite <- (Z.mul_1_l PAGE_SIZE) at 1. by rewrite Z.mod_add. Qed.

(** What a step keeps of the fields the bins and the user see. *)
Record user_frame w w' : Prop := {
  uf_mem : w_mem w' = w_mem w;
  uf_bins : bins (w_arena w') = bins (w_arena w)
}.

(** arena_allocate_chunk: a new chunk without runs at the head of the list. *)
Lemma arena_allocate_chunk_ok P X w S :
  arena_pend P X w S →
  arena_allocate_chunk w = Fail Diverged ∨
  ∃ a base w' M', arena_allocate_chunk w = Ok (a, w') ∧
    arena_pend P X w' (with_chunks (with_meta S M') ((a, ChunkG base [] []) :: g_chunks S)) ∧
    user_frame w w' ∧ w_runs w' = w_runs w.
Proof.
  intros Hinv. unfold arena_allocate_chunk.
  ok_assert by by rewrite (ai_init _ _ _ _ Hinv).
  destruct (alloc_struct P X w S SIZEOF_CHUNK Hinv SIZEOF_CHUNK_small) as
    [Hd|(a & w1 & M' & Hal & Hf1 & Ha & Hinv1 & Hroom & Hfresh & _)]; [left; by rewrite Hd|].
  ok_rw Hal. pose proof Hinv1 as [Hi Hp Hm Hc Hh Hb Hl Hs Hsp].
  destruct (arena_morecore_ok ChunkProbe CHUNK_SIZE_BYTES w1) as [Hd|(p & w2 & Hmc & Hf2 & Hp2 & Hgr)];
    [by apply Z.ltb_lt|done|done|left; by rewrite Hd|right].
  ok_rw Hmc.
  destruct (skip_mapping_ok ChunkProbe p (CHUNK_SIZE_BYTES + PAGE_SIZE) w2) as (Hf3 & Hp3 & Hos3); [done|done|].
  set (w3 := skip_mapping _ _ _ w2) in *.
  assert (probe_frame w1 w3) as [[F1 F2 F3 F4 F5 F6 F7 F8] F9 F10] by (by etrans). clear Hf2 Hf3.
  cbn [with_meta g_meta g_chunks g_huges g_runs g_regs g_bins] in *.
  pose proof (gr_addr _ _ _ _ Hgr) as (Hg1 & Hg2 & Hg3).
  destruct (chunk_init_ok p ltac:(lia)) as (c & Hinit & Hcf). ok_rw Hinit.
  assert (p + CHUNK_SIZE_BYTES < 2 ^ 64) as Hlt by lia.
  destruct (chunks_rep_add (w_chunks w3) (chunk_list (w_arena w3)) (g_chunks S) a (ChunkG p [] []) c)
    as (cs1 & cs2 & Hnew & Hadd & Hc'); [by rewrite F1, F6|done|done|by eapply fresh_base| |apply Hcf| |].
  { by eapply structs_counts. }
  { split; [by apply chunk_fresh_inv|done| |by intros n rs Hin%not_elem_of_nil].
    intros Hall. by destruct (Hall 2048 ltac:(lia)) as (d & []%not_elem_of_nil & _). }
  ok_rw Hnew. ok_rw Hadd. exists a, p. eexists _, M'. split; [reflexivity|].
  split; [|split; [split; cbn; [rewrite F4; apply Hf1|rewrite F8; apply Hf1]|cbn; rewrite F2; apply Hf1]].
  split; cbn [w_arena set_chunks set_arena set_chunk_list is_initialized chunk_list huge_alloc_list
              bins w_chunks w_huges w_runs w_os with_chunks with_meta g_meta g_chunks g_huges g_runs g_regs g_bins].
  - by rewrite F5.
  - destruct Hp3 as [Hb3 Hp3]. split; [done|]. intros pr. specialize (Hp3 pr). by destruct pr.
  - destruct Hm as [m1 m2 m3 m4 m5]. unfold meta_of. cbn [w_os w_ias w_arena set_chunks set_arena set_chunk_list internal_alloc_list].
    rewrite Hos3, F9, F10. split; try done. intros b x Hb' Hx. apply (gr_mapped _ _ _ _ Hgr). right. by eapply m3.
  - done.
  - by rewrite F3, F7.
  - by rewrite F8, F2.
  - destruct Hl as [l1 l2 l3 l4].
    assert (∀ k rs, live_run ((a, ChunkG p [] []) :: g_chunks S) k rs ↔ live_run (g_chunks S) k rs) as Hlr.
    { intros k rs. split.
      - intros (b & g & n & [[= -> ->]|Hbg]%elem_of_cons & Hn & Hk); [by apply not_elem_of_nil in Hn|by exists b, g, n].
      - intros (b & g & n & Hbg & Hn & Hk). exists b, g, n. split; [by right|done]. }
    split; try done; setoid_rewrite Hlr; done.
  - destruct Hs as [s1 s2 s3 s4 s5]. split; try done.
    + rewrite s1, fmap_cons. cbn [fst app]. apply Permutation_middle.
    + intros b [->|Hb']%elem_of_cons; [done|by apply s3].
  - rewrite Hos3. eapply (space_grant _ _ _ _ (HChunk a)); [exact Hsp|exact Hgr|].
    intros h x Ho. destruct h as [b|b|b]; [by left| |by left].
    destruct Ho as (g & [[= -> ->]|Hbg]%elem_of_cons & Hr & Hno); [by right|left; by exists g].
Qed.

(** ** The run classes *)
Definition class_level_ok (s : Z) : bool :=
  existsb (λ k, (class_pages s * PAGE_SIZE =? CHUNK_LEAST_REGION_SIZE_BYTES * 2 ^ k) &&
                ((0 <? k) || (s <=? CHUNK_LEAST_REGION_SIZE_BYTES))) (seqZ 0 7).
Lemma class_level_all : Forall (λ s, class_level_ok s = true) size_classes.
Proof. rewrite size_classes_eq. repeat constructor. Qed.

Lemma class_level s : s ∈ size_classes →
  ∃ k, 0 ≤ k ≤ 6 ∧ class_pages s * PAGE_SIZE = CHUNK_LEAST_REGION_SIZE_BYTES * 2 ^ k ∧
       (k = 0 → s ≤ CHUNK_LEAST_REGION_SIZE_BYTES).
Proof.
  intros Hs. pose proof class_level_all as Hall. rewrite Forall_forall in Hall.
  specialize (Hall s Hs). apply existsb_exists in Hall as (k & Hk%list_elem_of_In%elem_of_seqZ & Hc).
  exists k. apply andb_true_iff in Hc as [H1 H2]. apply orb_true_iff in H2. lia.
Qed.

Lemma class_positive s : s ∈ size_classes → 1 ≤ s ≤ 1048576.
Proof.
  intros Hs. pose proof size_classes_range as Hr. rewrite Forall_forall in Hr. by apply Hr in Hs.
Qed.

(** ** A run from a chunk *)

(** ** Growth: what an allocation keeps *)

(** The chunks are still there, with their runs. *)
Definition chunks_grow (C C' : list (Z * chunk_g)) : Prop :=
  ∀ a g, (a, g) ∈ C → ∃ g', (a, g') ∈ C' ∧ cg_base g' = cg_base g ∧ cg_live g ⊆ cg_live g'.

#[export] Instance chunks_grow_preorder : PreOrder chunks_grow.
Proof.
  split; [intros C a g Ha; by exists g|]. intros C1 C2 C3 H1 H2 a g Ha.
  destruct (H1 a g Ha) as (g2 & Ha2 & Hb2 & Hl2). destruct (H2 a g2 Ha2) as (g3 & Ha3 & Hb3 & Hl3).
  exists g3. split; [done|]. split; [congruence|by etrans].
Qed.

(** The regions handed out stay in the runs, chunks and huge mappings they are in. *)
Record grown (S S' : arena_g) : Prop := {
  gw_region : ∀ a x iss fr j, g_runs S !! a = Some x → g_regs S !! a = Some (iss, fr) → j ∈ iss →
    g_runs S' !! a = Some x ∧ ∃ iss' fr', g_regs S' !! a = Some (iss', fr') ∧ j ∈ iss' ∧ (j ∉ fr → j ∉ fr');
  gw_chunks : chunks_grow (g_chunks S) (g_chunks S');
  gw_huges : g_huges S ⊆ g_huges S'
}.

#[export] Instance grown_preorder : PreOrder grown.
Proof.
  split.
  { intros S. split; [|done|done]. intros a x iss fr j Ha HG Hj. split; [done|]. by exists iss, fr. }
  intros S1 S2 S3 [R1 C1 U1] [R2 C2 U2]. split; [|by etrans|by etrans].
  intros a x iss fr j Ha HG Hj. destruct (R1 a x iss fr j Ha HG Hj) as (Ha2 & iss2 & fr2 & HG2 & Hj2 & Hf2).
  destruct (R2 a x iss2 fr2 j Ha2 HG2 Hj2) as (Ha3 & iss3 & fr3 & HG3 & Hj3 & Hf3).
  split; [done|]. exists iss3, fr3. by auto.
Qed.

Lemma grown_issued S S' p n : grown S S' → issued_region S p n → issued_region S' p n.
Proof.
  intros [Hr _ Hu] [a k i rs iss fr j Ha Hc HG Hj|a q m Hin]; [|by eapply issued_huge, Hu].
  destruct (Hr a _ iss fr j Ha HG Hj) as (Ha' & iss' & fr' & HG' & Hj' & _). by eapply issued_regular.
Qed.

(** The chunk [g] with one more live run. *)
Definition more_live (g : chunk_g) (n rs : Z) : chunk_g :=
  ChunkG (cg_base g) ((n, rs) :: cg_live g) (cg_dead g).

Lemma elem_of_mid {A} (l1 : list A) x l2 y : y ∈ l1 ++ x :: l2 ↔ y = x ∨ y ∈ l1 ++ l2.
Proof. set_solver. Qed.

Lemma live_run_more C1 a g C2 n rs k rs' :
  live_run (C1 ++ (a, more_live g n rs) :: C2) k rs' ↔
  (k = run_addr (cg_base g) n ∧ rs' = rs) ∨ live_run (C1 ++ (a, g) :: C2) k rs'.
Proof.
  split.
  - intros (b & g' & m & [[= -> ->]|Hb]%elem_of_mid & Hm & ->).
    + cbn [more_live cg_live cg_base] in *. apply elem_of_cons in Hm as [[= -> ->]|Hm]; [by left|right].
      exists a, g, m. split; [apply elem_of_mid; by left|done].
    + right. exists b, g', m. split; [apply elem_of_mid; by right|done].
  - intros [[-> ->]|(b & g' & m & [[= -> ->]|Hb]%elem_of_mid & Hm & ->)].
    + exists a, (more_live g n rs), n. split; [apply elem_of_mid; by left|]. split; [by left|done].
    + exists a, (more_live g n rs), m. split; [apply elem_of_mid; by left|]. split; [by right|done].
    + exists b, g', m. split; [apply elem_of_mid; by right|done].
Qed.

Lemma owns_more M C1 a g C2 n rs Hs h x :
  owns M (C1 ++ (a, more_live g n rs) :: C2) Hs h x ↔ owns M (C1 ++ (a, g) :: C2) Hs h x.
Proof.
  destruct h as [b|b|b]; [done| |done]. cbn [owns]. split.
  - intros (g' & [[= -> ->]|Hb]%elem_of_mid & Hr); [exists g|exists g']; (split; [apply elem_of_mid; auto|done]).
  - intros (g' & [[= -> ->]|Hb]%elem_of_mid & Hr); [exists (more_live g n rs)|exists g']; (split; [apply elem_of_mid; auto|done]).
Qed.

(** The structure of one chunk is replaced, links and position kept. *)
Lemma chunks_rep_update cs head C1 a g g' C2 c c' :
  chunks_rep cs head (C1 ++ (a, g) :: C2) → cs !! a = Some c → chunk_entry c' = chunk_entry c →
  cg_base g' = cg_base g → chunk_good g' c' →
  chunks_rep (<[a := c']> cs) head (C1 ++ (a, g') :: C2).
Proof.
  intros Hrep Ha He Hb Hg'. pose proof (chunks_nodup _ _ _ Hrep) as Hnd. apply mid_nodup in Hnd. cbn [fst] in Hnd.
  assert (chunk_key <$> (C1 ++ (a, g') :: C2) = chunk_key <$> (C1 ++ (a, g) :: C2)) as Hkeys.
  { rewrite !fmap_app, !fmap_cons. unfold chunk_key at 2 5. cbn [fst snd]. by rewrite Hb. }
  destruct Hrep as [Hl Hk Hg]. split; [rewrite Hkeys; by eapply dll_insert_entry|by rewrite Hkeys|].
  intros b gb [[= -> ->]|Hin]%elem_of_mid.
  - exists c'. by rewrite lookup_insert_eq.
  - destruct (Hg b gb) as (cb & Hcb & Hgb); [apply elem_of_mid; by right|]. exists cb.
    rewrite lookup_insert_ne; [done|]. intros ->. apply Hnd. apply list_elem_of_fmap. by exists (b, gb).
Qed.

Lemma chunk_take_good g c bin r :
  chunk_good g c → bin_geometry bin →
  (chunk_allocate_run c (u32 (run_size_pages bin * PAGE_SIZE)) (reg_size bin) r = Ok (0, c, r) ∧
   (cg_live g).*1 ++ cg_dead g ≠ []) ∨
  ∃ n c' r', chunk_allocate_run c (u32 (run_size_pages bin * PAGE_SIZE)) (reg_size bin) r =
      Ok (run_addr (cg_base g) n, c', r') ∧
    (n ∉ (cg_live g).*1) ∧ chunk_entry c' = chunk_entry c ∧ chunk_good (more_live g n (reg_size bin)) c'.
Proof.
  intros Hg [Hcl Hpg _]. destruct (class_level _ Hcl) as (k & Hk & Hsz & Hk0).
  pose proof (class_positive _ Hcl) as Hpos.
  assert (CHUNK_LEAST_REGION_SIZE_BYTES * 2 ^ k < 2 ^ 32 ∧ 1 ≤ 2 ^ k) as [Hlt Hone].
  { change CHUNK_LEAST_REGION_SIZE_BYTES with 16384. pose proof (Z.pow_le_mono_r 2 k 6 ltac:(lia) ltac:(lia)).
    pose proof (Z.pow_pos_nonneg 2 k ltac:(lia) ltac:(lia)). lia. }
  rewrite Hpg, Hsz, wrap_small by (change CHUNK_LEAST_REGION_SIZE_BYTES with 16384 in *; lia).
  pose proof (cg_inv _ _ Hg) as Hinv. pose proof (ci_base _ _ _ _ Hinv) as [Hb1 Hb2].
  destruct (chunk_allocate_run_ok ((cg_live g).*1 ++ cg_dead g) c k (reg_size bin) r) as
    [[Hnil Hr]|(n & c' & r' & Hn & Hnt & Hr)]; [lia| |apply Hinv|apply Hinv|left|right].
  { pose proof size_classes_aligned as Ha. rewrite Forall_forall in Ha. by apply Ha. }
  - split; [done|]. intros Hno. rewrite Hno in Hnil.
    assert (2 ^ (11 - k) ∈ avail_list [] (11 - k)) as Hin; [|rewrite Hnil in Hin; set_solver].
    pose proof (Z.pow_le_mono_r 2 5 (11 - k) ltac:(lia) ltac:(lia)). change (2 ^ 5) with 32 in *.
    apply avail_list_elem; [lia|]. split; [unfold on_level; rewrite Z.pow_add_r by lia; lia|].
    unfold avail. rewrite andb_true_iff. split; [lia|done].
  - pose proof Hn as [Hlv Hav]%avail_list_elem; [|lia].
    pose proof (on_level_le (11 - k) n ltac:(lia) Hlv) as Hnode.
    rewrite (ci_key _ _ _ _ Hinv) in Hr. exists n, c', r'. split; [done|].
    split; [intros Hin; eapply avail_not_in; [exact Hnode|exact Hav|apply elem_of_app; by left]|].
    split; [apply Hnt|]. destruct Hg as [_ Haddr Hpart Hfits]. split; cbn [more_live cg_base cg_live cg_dead]; [|done|done|].
    + apply (node_taken_inv (cg_base g) (cg_live g) (cg_dead g) c c' n (11 - k)); [done|lia|done| |done].
      intros HL. assert (k = 0) as -> by lia. specialize (Hk0 eq_refl). lia.
    + intros m rs [[= -> ->]|Hm]%elem_of_cons; [|by apply Hfits]. split; [done|].
      rewrite Hsz. unfold run_bytes, node_span. rewrite (on_level_log2 (11 - k) n) by (done || lia).
      by replace (11 - (11 - k)) with k by lia.
Qed.

Lemma more_live_grow C1 a g C2 n rs :
  chunks_grow (C1 ++ (a, g) :: C2) (C1 ++ (a, more_live g n rs) :: C2).
Proof.
  intros b gb [[= -> ->]|Hb]%elem_of_mid.
  - exists (more_live g n rs). split; [apply elem_of_mid; by left|]. split; [done|]. intros x Hx. by right.
  - exists gb. split; [apply elem_of_mid; by right|done].
Qed.

Lemma chunk_take P w S C1 a g C2 c bin :
  arena_pend P None w S → g_chunks S = C1 ++ (a, g) :: C2 → w_chunks w !! a = Some c → bin_geometry bin →
  (chunk_allocate_run c (u32 (run_size_pages bin * PAGE_SIZE)) (reg_size bin) (w_rng w) = Ok (0, c, w_rng w) ∧
   (cg_live g).*1 ++ cg_dead g ≠ []) ∨
  ∃ k c' r' C', chunk_allocate_run c (u32 (run_size_pages bin * PAGE_SIZE)) (reg_size bin) (w_rng w) = Ok (k, c', r') ∧
    k ≠ 0 ∧ arena_pend P (Some (k, reg_size bin)) (set_rng (set_chunks w (<[a := c']> (w_chunks w))) r') (with_chunks S C') ∧
    chunks_grow (g_chunks S) C'.
Proof.
  intros [Hi Hp Hm Hc Hh Hb Hl Hs Hsp] HC Ha Hbin. rewrite HC in *.
  destruct (cr_good _ _ _ Hc a g) as (c0 & Hc0 & Hg); [apply elem_of_mid; by left|].
  rewrite Ha in Hc0. injection Hc0 as <-.
  destruct (chunk_take_good g c bin (w_rng w) Hg Hbin) as [[Hr Hne]|(n & c' & r' & Hr & Hnew & He & Hg')]; [by left|right].
  set (rs := reg_size bin) in *. set (k := run_addr (cg_base g) n) in *.
  exists k, c', r', (C1 ++ (a, more_live g n rs) :: C2). split; [done|].
  assert (chunks_rep (<[a := c']> (w_chunks w)) (chunk_list (w_arena w)) (C1 ++ (a, more_live g n rs) :: C2)) as Hc'.
  { by apply (chunks_rep_update _ _ _ _ g _ _ c). }
  destruct (run_in_chunk _ _ n rs Hg') as (Hk & Hby & Hlo); [by left|]. cbn [more_live cg_base] in Hk. fold k in Hk.
  pose proof (cg_addr _ _ Hg) as Hba. split; [lia|].
  split; [|by apply more_live_grow].
  split; cbn [w_arena set_rng set_chunks w_chunks w_huges w_runs w_os with_chunks g_meta g_chunks g_huges g_runs g_regs g_bins]; try done.
  - destruct Hl as [l1 l2 l3 l4].
    assert (∀ b i, g_runs S !! b ≠ Some (k, i)) as Hfresh.
    { intros b i Hbi. destruct (l1 b k i Hbi) as (rs' & _ & b' & g' & m & Hb' & Hm' & Hkm).
      assert (node_range (cg_base g) n k) as Hkn by (unfold node_range, range; fold k; rewrite Hby; lia).
      assert (node_range (cg_base g') m k) as Hkm'.
      { destruct (cr_good _ _ _ Hc b' g' Hb') as (cb & _ & Hgb).
        destruct (run_in_chunk _ _ m rs' Hgb Hm') as (_ & Hby' & Hlo').
        unfold node_range, range. rewrite <- Hkm, Hby'. lia. }
      pose proof (live_run_owned (g_meta S) _ (g_huges S) _ _ _ _ _ _ _ Hc Hb' Hm' Hkm') as Ho1.
      assert (owns (g_meta S) (C1 ++ (a, g) :: C2) (g_huges S) (HChunk a) k) as Ho2.
      { apply (owns_more _ _ _ _ _ n rs). eapply live_run_owned; [exact Hc'|apply elem_of_mid; by left|by left|done]. }
      pose proof (sp_unique _ _ Hsp _ _ _ Ho1 Ho2) as [= ->].
      assert (g' = g) as -> by (eapply fst_unique; [eapply chunks_nodup, Hc|done|apply elem_of_mid; by left]).
      apply (nodes_apart (more_live g n rs) c' n m k Hg'); [eapply live_node_in; by left|
        eapply live_node_in; right; exact Hm'| |done|done].
      intros ->. apply Hnew, list_elem_of_fmap. by exists (m, rs'). }
    split.
    + intros b kb i Hbi. destruct (l1 b kb i Hbi) as (rs' & Hcl' & Hlr). exists rs'. split; [done|].
      apply live_run_more. by right.
    + intros kb rs' [[-> ->]|Hlr]%live_run_more; [by left|right]. by destruct (l2 kb rs' Hlr).
    + done.
    + intros kb rs' [= <- <-]. split; [apply live_run_more; by left|done].
  - assert ((C1 ++ (a, more_live g n rs) :: C2).*1 = (C1 ++ (a, g) :: C2).*1) as HE
      by by rewrite !fmap_app, !fmap_cons.
    destruct Hs as [s1 s2 s3 s4 s5]. by split; rewrite ?HE.
  - eapply space_sub; [exact Hsp|]. intros h x Ho. by rewrite owns_more in Ho.
Qed.

Lemma set_same w c a : w_chunks w !! a = Some c → set_rng (set_chunks w (<[a := c]> (w_chunks w))) (w_rng w) = w.
Proof. intros Ha. rewrite insert_id by done. by destruct w. Qed.

(** The fields a search for a run leaves alone. *)
Record run_frame w w' : Prop := {
  rf_user : user_frame w w';
  rf_runs : w_runs w' = w_runs w
}.

Lemma chunk_next P X w S C1 a g C2 c :
  arena_pend P X w S → g_chunks S = C1 ++ (a, g) :: C2 → w_chunks w !! a = Some c →
  a ≠ 0 ∧ fd (chunk_entry c) = first_of (chunk_key <$> C2) 0.
Proof.
  intros Hinv HC Ha. destruct (cr_list _ _ _ (ai_chunks _ _ _ _ Hinv)) as (_ & Hseg & _).
  rewrite HC, fmap_app, fmap_cons in Hseg. apply dseg_app in Hseg as [_ (Hnz & Hl & _)].
  split; [done|]. simpl in Hl. rewrite Ha in Hl. simpl in Hl. by injection Hl as ->.
Qed.

Lemma chunk_run_iterate P w S bin C2 : ∀ C1,
  arena_pend P None w S → bin_geometry bin → g_chunks S = C1 ++ C2 →
  iterate (chunk_run_step bin) (Datatypes.S (length C2)) (first_of (chunk_key <$> C2) 0, w) = Ok (inr (0, w)) ∨
  ∃ k w' C', iterate (chunk_run_step bin) (Datatypes.S (length C2)) (first_of (chunk_key <$> C2) 0, w) = Ok (inr (k, w')) ∧
    k ≠ 0 ∧ arena_pend P (Some (k, reg_size bin)) w' (with_chunks S C') ∧ run_frame w w' ∧
    chunks_grow (g_chunks S) C'.
Proof.
  induction C2 as [|[a g] C2 IH]; intros C1 Hinv Hbin HC; [by left|].
  destruct (cr_good _ _ _ (ai_chunks _ _ _ _ Hinv) a g) as (c & Ha & Hg); [rewrite HC; apply elem_of_mid; by left|].
  destruct (chunk_next _ _ _ _ _ _ _ _ _ Hinv HC Ha) as [Hnz Hfd].
  cbn [length fmap list_fmap]. change (first_of (chunk_key (a, g) :: _) 0) with a.
  assert (chunk_run_step bin (a, w) =
    '(run_ptr, c, r) ← chunk_allocate_run c (u32 (run_size_pages bin * PAGE_SIZE)) (reg_size bin) (w_rng w);
    let w := set_rng (set_chunks w (<[a := c]> (w_chunks w))) r in
    if negb (run_ptr =? 0) then Ok (inr (run_ptr, w)) else Ok (inl (fd (chunk_entry c), w))) as Hstep.
  { unfold chunk_run_step. rewrite (proj2 (Z.eqb_neq a 0)) by done. by ok_rw (rd_at_ok _ _ _ Ha). }
  destruct (chunk_take P w S C1 a g C2 c bin Hinv HC Ha Hbin) as [[Hr _]|(k & c' & r' & C' & Hr & Hk & Hinv' & Hgr)];
    rewrite Hr in Hstep; cbn [mbind outcome_bind] in Hstep.
  - rewrite set_same in Hstep by done. cbn [negb Z.eqb] in Hstep. rewrite Hfd in Hstep.
    rewrite (iterate_next _ _ _ _ Hstep). rewrite (cons_middle (a, g) C1 C2), app_assoc in HC. by apply (IH (C1 ++ [(a, g)])).
  - right. rewrite (proj2 (Z.eqb_neq k 0)) in Hstep by done. cbn [negb] in Hstep.
    exists k. eexists _, C'. split; [by apply iterate_stop|]. split; [done|]. split; [done|]. by split.
Qed.

(** ** The structure of a run *)
Lemma bin_rep_frame bin runs runs' A I G G' :
  bin_rep bin runs A I G →
  (∀ a, a ∈ (A ++ I).*1 → runs' !! a = runs !! a ∧ G' !! a = G !! a) → bin_rep bin runs' A I G'.
Proof.
  intros [[Hgeo Hact Hina Had Hk Hruns Hcnt] Hav Hpos Hfull Hb Ht] Hsame.
  assert (∀ x, x ∈ A ++ I → runs' !! x.1 = runs !! x.1 ∧ G' !! x.1 = G !! x.1) as Hs.
  { intros [a k] Hin. apply Hsame, list_elem_of_fmap. by exists (a, k). }
  assert (∀ n x, x ∈ A ++ I → left G' n x.1 = left G n x.1) as Hleft.
  { intros n x Hx. unfold left. by destruct (Hs x Hx) as [_ ->]. }
  split; [split|..]; try done.
  - eapply dll_ext; [|done]. intros a Ha. simpl. destruct (Hsame a) as [-> _]; [rewrite fmap_app; set_solver|done].
  - eapply dll_ext; [|done]. intros a Ha. simpl. destruct (Hsame a) as [-> _]; [rewrite fmap_app; set_solver|done].
  - intros x Hx. destruct (Hruns x Hx) as (run & iss & fr & H1 & H2 & H3 & H4).
    destruct (Hs x Hx) as [Hr HG]. exists run, iss, fr. by rewrite Hr, HG.
  - rewrite Hav. f_equal. symmetry. apply fmap_left_ext. intros x Hx. apply Hleft. set_solver.
  - intros x Hx. rewrite Hleft by set_solver. by apply Hpos.
  - intros x Hx. rewrite Hleft by set_solver. by apply Hfull.
Qed.

Lemma bins_rep_frame b runs runs' R G B :
  bins_rep b runs R G B → (∀ a, is_Some (R !! a) → runs' !! a = runs !! a) → bins_rep b runs' R G B.
Proof.
  intros [Hlen Hslot Hrun] Hsame. split; [done| |done].
  intros i Hi. destruct (Hslot i Hi) as [|[Hc Hrep Hav]]; [by left|right].
  split; [done| |done]. eapply bin_rep_frame; [done|]. intros a ([a' k] & -> & Hin)%list_elem_of_fmap.
  split; [|done]. apply Hsame. exists (k, i). by apply Hrun.
Qed.

Definition run_small_ok (s : Z) : bool := (0 <? run_struct_size s) && (run_struct_size s <=? META_MAX).
Lemma run_small_all : Forall (λ s, run_small_ok s = true) size_classes.
Proof. rewrite size_classes_eq. repeat constructor. Qed.
Lemma run_small s : s ∈ size_classes → 0 < run_struct_size s ≤ META_MAX.
Proof.
  intros Hs. pose proof run_small_all as Hall. rewrite Forall_forall in Hall. specialize (Hall s Hs).
  apply andb_true_iff in Hall. lia.
Qed.

(** The memory of a live run is an address in user space. *)
Lemma live_run_addr cs head C k rs :
  chunks_rep cs head C → live_run C k rs → 0 < k < 2 ^ 47.
Proof.
  intros Hc (a & g & n & Hin & Hn & ->). destruct (cr_good _ _ _ Hc a g Hin) as (c & _ & Hg).
  destruct (run_in_chunk g c n rs Hg Hn) as (-> & _ & Hlo). pose proof (cg_addr _ _ Hg) as Ha.
  change CHUNK_SIZE_BYTES with 33554432 in Ha. lia.
Qed.

Lemma make_run_ok P w S bin k :
  arena_pend P (Some (k, reg_size bin)) w S → bin_geometry bin →
  make_run bin k w = Fail Diverged ∨
  ∃ run x w' M', make_run bin k w = Ok (run, w') ∧ run ≠ 0 ∧
    arena_pend (run :: P) (Some (k, reg_size bin)) w' (with_meta S M') ∧ user_frame w w' ∧
    w_runs w' !! run = Some x ∧ run_entry x = LLEntry 0 0 k ∧
    run_rep bin (class_elems (reg_size bin)) x [] ∅ ∧
    g_runs S !! run = None ∧ room M' run (run_struct_size (reg_size bin)).
Proof.
  intros Hinv Hbin. unfold make_run. rewrite (bg_bits _ Hbin). fold (run_struct_size (reg_size bin)).
  destruct (alloc_struct P _ w S (run_struct_size (reg_size bin)) Hinv) as
    [Hd|(run & w1 & M' & Hal & Hf & Hnz & Hinv1 & Hroom & _ & Hfr & _)];
    [by apply run_small, Hbin|left; by rewrite Hd|right].
  ok_rw Hal.
  assert (0 < k < 2 ^ 48) as Hk.
  { pose proof (live_run_addr _ _ _ k _ (ai_chunks _ _ _ _ Hinv) (proj1 (ln_new _ _ _ (ai_links _ _ _ _ Hinv) _ _ eq_refl))). lia. }
  destruct (run_init_ok bin k (w_rng w1) Hbin Hk) as (x & r' & Hinit & He & Hrep). ok_rw Hinit.
  assert (new_at (w_runs w1) run x = Ok (<[run := x]> (w_runs w1))) as Hnew.
  { unfold new_at. by rewrite (proj2 (Z.eqb_neq run 0)). }
  ok_rw Hnew. exists run, x. eexists _, M'. split; [reflexivity|]. split; [done|].
  split; [|split; [by split; cbn; apply Hf|split; [cbn; by rewrite lookup_insert_eq|done]]].
  destruct Hinv1 as [Hi Hp Hm Hc Hh Hb Hl Hs Hsp].
  split; cbn [set_rng set_runs w_arena w_chunks w_huges w_runs w_os with_meta g_meta g_chunks g_huges g_runs g_regs g_bins] in *; try done.
  eapply bins_rep_frame; [exact Hb|]. intros a Ha. rewrite lookup_insert_ne; [done|]. intros <-. rewrite Hfr in Ha. by destruct Ha.
Qed.

(** arena_allocate_run: the memory and the structure of one more run, not yet in its
    bin. *)
Lemma arena_allocate_run_ok P w S bin :
  arena_pend P None w S → bin_geometry bin →
  arena_allocate_run bin w = Fail Diverged ∨
  ∃ run k x w' S', arena_allocate_run bin w = Ok (run, w') ∧ run ≠ 0 ∧
    arena_pend (run :: P) (Some (k, reg_size bin)) w' S' ∧ user_frame w w' ∧
    w_runs w' !! run = Some x ∧ run_entry x = LLEntry 0 0 k ∧
    run_rep bin (class_elems (reg_size bin)) x [] ∅ ∧
    g_runs S !! run = None ∧ room (g_meta S') run (run_struct_size (reg_size bin)) ∧
    g_huges S' = g_huges S ∧ g_runs S' = g_runs S ∧ g_regs S' = g_regs S ∧ g_bins S' = g_bins S ∧
    chunks_grow (g_chunks S) (g_chunks S').
Proof.
  intros Hinv Hbin. unfold arena_allocate_run.
  ok_assert by by rewrite (ai_init _ _ _ _ Hinv).
  ok_assert by by apply class_nonzero.
  assert (chunk_list (w_arena w) = first_of (chunk_key <$> g_chunks S) 0) as ->.
  { by destruct (cr_list _ _ _ (ai_chunks _ _ _ _ Hinv)). }
  assert ((Datatypes.S (length (g_chunks S)) ≤ 2 ^ 47)%nat) as Hfuel.
  { destruct (structs_counts _ _ _ _ _ _ (ai_meta _ _ _ _ Hinv) (ai_structs _ _ _ _ Hinv)) as (Hn & _).
    apply Nat2Z.inj_le. rewrite Nat2Z.inj_pow. change (Z.of_nat 2 ^ Z.of_nat 47) with (2 ^ 47). lia. }
  destruct (chunk_run_iterate P w S bin (g_chunks S) [] Hinv Hbin eq_refl) as [Hit|(k & w1 & C' & Hit & Hk & Hinv1 & Hf1 & Hgr)];
    pose proof (while_loop_done _ 47 _ _ _ Hit Hfuel) as Hloop; ok_rw Hloop; clear Hloop Hit Hfuel.
  - cbn [negb Z.eqb].
    destruct (arena_allocate_chunk_ok P None w S Hinv) as [Hd|(a & base & w1 & M1 & Hac & Hinv1 & Hf1 & Hr1)];
      [left; by rewrite Hd|].
    ok_rw Hac. set (S1 := with_chunks _ _) in *.
    destruct (cr_good _ _ _ (ai_chunks _ _ _ _ Hinv1) a (ChunkG base [] [])) as (c & Ha & Hg); [by left|].
    ok_rw (rd_at_ok _ _ _ Ha).
    destruct (chunk_take P w1 S1 [] a (ChunkG base [] []) (g_chunks S) c bin Hinv1 eq_refl Ha Hbin) as
      [[_ Hno]|(k & c' & r' & C' & Hr & Hk & Hinv2 & Hgr)]; [done|].
    ok_rw Hr. ok_assert by by rewrite (proj2 (Z.eqb_neq k 0)).
    destruct (make_run_ok P _ _ bin k Hinv2 Hbin) as
      [Hd|(run & x & w3 & M3 & Hmk & Hnz & Hinv3 & Hf3 & Hx & Hex & Hrep & Hfr & Hroom)]; [left; by rewrite Hd|right].
    exists run, k, x, w3, (with_meta (with_chunks S1 C') M3).
    split; [done|]. split; [done|]. split; [done|]. split; [destruct Hf1, Hf3; split; etrans; eauto|].
    repeat (split; [done|]). etrans; [|exact Hgr]. intros b gb Hb. exists gb. split; [by right|done].
  - rewrite (proj2 (Z.eqb_neq k 0)) by done. cbn [negb].
    destruct (make_run_ok P w1 _ bin k Hinv1 Hbin) as
      [Hd|(run & x & w3 & M3 & Hmk & Hnz & Hinv3 & Hf3 & Hx & Hex & Hrep & Hfr & Hroom)]; [left; by rewrite Hd|right].
    exists run, k, x, w3, (with_meta (with_chunks S C') M3).
    split; [done|]. split; [done|]. split; [done|]. split; [destruct Hf1 as [[] _], Hf3; split; etrans; eauto|].
    by repeat (split; [done|]).
Qed.
End arena_ops.
