(* ===== verification/ArenaHuge.v ===== *)
(** * ArenaHuge: huge mappings keep the invariant of the arena *)
From Stdlib Require Import ZArith Lia.
From stdpp Require Import base option numbers functions sorting list gmap.
From S2P Require Import Prelude.
From S2P Require Import CArray.
From S2P Require Import Utils.
From S2P Require Import SizeClass.
From S2P Require Import Random.
From S2P Require Import ContainerLL.
From S2P Require Import Platform.
From S2P Require Import KernelSpec.
From S2P Require Import Run.
From S2P Require Import Bin.
From S2P Require Import InternalAllocator.
From S2P Require Import IntAllocTree.
From S2P Require Import IntAllocProps.
From S2P Require Import Chunk.
From S2P Require Import ChunkTree.
From S2P Require Import ChunkAlloc.
From S2P Require Import ChunkRun.
From S2P Require Import ChunkBuddy.
From S2P Require Import ChunkSpec.
From S2P Require Import World.
From S2P Require Import Arena.
From S2P Require Import ArenaMeta.
From S2P Require Import ArenaInv.
From S2P Require Import ArenaOps.

Section arena_huge.
Context `{Build} `{KernelLaws OS}.
Implicit Types w : world OS.

Lemma huge_key_fst Hs : (huge_key <$> Hs).*1 = Hs.*1.
Proof. by rewrite <- list_fmap_compose. Qed.

Lemma huge_frame (s s' : gmap Z huge_chunk_t) a h :
  es_frame s s' → s !! a = Some h → ∃ h', s' !! a = Some h' ∧ len h' = len h.
Proof.
  intros Hf Ha. specialize (Hf a). rewrite Ha in Hf. destruct (s' !! a) as [h'|]; [|done].
  injection Hf as Hf. exists h'. split; [done|]. destruct h, h'; simpl in *. by simplify_eq.
Qed.

Lemma huges_rep_add hs head Hs a p n h :
  huges_rep hs head Hs → a ≠ 0 → a ∉ Hs.*1 → p ∉ (huge_key <$> Hs).*2 →
  Z.of_nat (length Hs) ≤ 2 ^ 42 → hs !! a = Some h → huge_entry h = LLEntry 0 0 p → huge_good p n h →
  ∃ hs', ll_add hs head a = Ok (a, hs') ∧ huges_rep hs' a ((a, (p, n)) :: Hs).
Proof.
  intros Hrep Ha Hfr Hkey Hlen Hh He Hgood.
  destruct (ll_add_ok hs head _ a p (hr_list _ _ _ Hrep)) as (hs' & Hadd & Hl & Hf & _).
  - simpl. by rewrite Hh, <- He.
  - done.
  - by rewrite huge_key_fst.
  - rewrite length_fmap. lia.
  - intros _. split; [|done]. pose proof (hg_addr _ _ _ Hgood). lia.
  - exists hs'. split; [done|]. split; [done| |].
    { rewrite fmap_cons. constructor; [done|apply Hrep]. }
    intros b q m [[= -> -> ->]|Hb]%elem_of_cons.
    + destruct (huge_frame _ _ _ _ Hf Hh) as (h' & Hh' & Hl'). exists h'. split; [done|].
      destruct Hgood as [? ? ? ?]. split; [congruence|done|done|done].
    + destruct (hr_good _ _ _ Hrep b q m Hb) as (hb & Hhb & [? ? ? ?]).
      destruct (huge_frame _ _ _ _ Hf Hhb) as (h' & Hh' & Hl'). exists h'. split; [done|].
      split; [congruence|done|done|done].
Qed.

(** Structures outside the list do not matter. *)
Lemma huges_rep_frame hs hs' head Hs :
  huges_rep hs head Hs → (∀ a, a ∈ Hs.*1 → hs' !! a = hs !! a) → huges_rep hs' head Hs.
Proof.
  intros [Hl Hk Hg] Hsame. split; [|done|].
  - eapply dll_ext; [|done]. intros a Ha. rewrite huge_key_fst in Ha. simpl. by rewrite Hsame.
  - intros a p n Hin. rewrite Hsame; [by apply Hg|]. apply list_elem_of_fmap. by exists (a, (p, n)).
Qed.

Lemma fresh_huge M C Hs hs head os os' p n :
  huges_rep hs head Hs → space (owns M C Hs) os → granted os os' p n → 0 < n → p ∉ (huge_key <$> Hs).*2.
Proof.
  intros Hrep Hsp Hgr Hn Hin. rewrite <- list_fmap_compose in Hin.
  apply list_elem_of_fmap in Hin as ([a [q m]] & -> & Hin). cbn in Hgr.
  apply (gr_fresh _ _ _ _ Hgr q); [unfold range; lia|]. apply (sp_mapped _ _ Hsp (HHuge a)).
  exists q, m. split; [done|]. destruct (hr_good _ _ _ Hrep a q m Hin) as (h & _ & [_ _ Hm _]). unfold range. lia.
Qed.

(** arena_allocate_huge_mapping: a fresh mapping of [n] bytes at the head of the list. *)
Lemma arena_allocate_huge_mapping_ok w S n :
  arena_pend [] None w S → LARGE_SIZE_MAX_REGION < n → n mod PAGE_SIZE = 0 →
  arena_allocate_huge_mapping n w = Fail Diverged ∨
  ∃ a p w' S' h, arena_allocate_huge_mapping n w = Ok (a, w') ∧ arena_pend [] None w' S' ∧
    user_frame w w' ∧ w_huges w' !! a = Some h ∧ key (huge_entry h) = p ∧ p ≠ 0 ∧
    (∀ q m, live_region S' q m ↔ (q = p ∧ m = n) ∨ live_region S q m) ∧
    ¬ issued_region S p n ∧ grown S S'.
Proof.
  intros Hinv Hlg Hna. unfold arena_allocate_huge_mapping.
  assert (0 < n) as Hn by (change LARGE_SIZE_MAX_REGION with 1048576 in Hlg; lia).
  ok_assert by by (unfold IS_ALIGNED; rewrite Hna).
  ok_assert by by rewrite (ai_init _ _ _ _ Hinv).
  destruct (alloc_struct [] None w S SIZEOF_HUGE_CHUNK Hinv) as
    [Hd|(a & w1 & M' & Hal & Hf1 & Ha & Hinv1 & Hroom & _ & _ & Hfresh)]; [done|left; by rewrite Hd|].
  ok_rw Hal. set (h0 := Huge (LLEntry 0 0 0) n).
  assert (new_at (w_huges w1) a h0 = Ok (<[a := h0]> (w_huges w1))) as Hnew.
  { unfold new_at. by rewrite (proj2 (Z.eqb_neq a 0)). }
  ok_rw Hnew. set (w2 := set_huges w1 _).
  pose proof Hinv1 as [Hi Hp Hm Hc Hh Hb Hl Hs Hsp].
  destruct (arena_morecore_ok HugeProbe n w2 Hn Hna Hp) as [Hd|(p & w3 & Hmc & Hf3 & Hp3 & Hgr)]; [left; by rewrite Hd|right].
  ok_rw Hmc. pose proof Hf3 as [[F1 F2 F3 F4 F5 F6 F7 F8] F9 F10].
  assert (w_huges w3 !! a = Some h0) as Hh3 by (rewrite F3; apply lookup_insert_eq).
  ok_rw (rd_at_ok _ _ _ Hh3). cbn [h0 huge_entry fd bk len].
  set (h1 := Huge (LLEntry 0 0 p) n). set (w4 := set_huges w3 _).
  destruct (skip_mapping_ok HugeProbe p (n + PAGE_SIZE) w4) as (Hf5 & Hp5 & Hos5); [by apply page_multiple|done|].
  set (w5 := skip_mapping _ _ _ w4) in *. pose proof Hf5 as [[G1 G2 G3 G4 G5 G6 G7 G8] G9 G10].
  cbn [w4 set_huges w_chunks w_runs w_huges w_mem w_arena w_ias w_os] in *.
  cbn [w2 set_huges w_chunks w_runs w_huges w_mem w_arena w_ias w_os] in *.
  cbn [with_meta g_meta g_chunks g_huges g_runs g_regs g_bins] in *.
  pose proof (gr_addr _ _ _ _ Hgr) as (Hg1 & Hg2 & Hg3).
  assert (w_huges w5 !! a = Some h1) as Hh5 by (rewrite G3; apply lookup_insert_eq).
  destruct (huges_rep_add (w_huges w5) (huge_alloc_list (w_arena w5)) (g_huges S) a p n h1) as (hs' & Hadd & Hh'); try done.
  { rewrite G7, F7, G3, F3. eapply huges_rep_frame; [exact Hh|]. intros b Hb'.
    assert (a ≠ b) as Hne by (by intros ->). by rewrite !lookup_insert_ne. }
  { by eapply fresh_huge. }
  { by eapply structs_counts. }
  ok_rw Hadd. destruct (hr_good _ _ _ Hh' a p n) as (h & Hha & _); [by left|].
  set (w6 := set_huges _ hs'). set (S' := with_huges (with_meta S M') ((a, (p, n)) :: g_huges S)).
  assert (arena_pend [] None w6 S') as Hinv6.
  { split; cbn [w6 S' w_arena set_huges set_arena set_huge_list is_initialized chunk_list huge_alloc_list
              bins w_chunks w_huges w_runs w_os with_huges with_meta g_meta g_chunks g_huges g_runs g_regs g_bins].
    - by rewrite G5, F5.
    - destruct Hp5 as [Hb5 Hp5]. split; [done|]. intros pr. specialize (Hp5 pr). by destruct pr.
    - destruct Hm as [m1 m2 m3 m4 m5]. unfold meta_of. cbn [w6 w_os w_ias w_arena set_huges set_arena set_huge_list internal_alloc_list].
      rewrite Hos5, G9, G10, F9, F10. split; try done. intros b x Hb' Hx. apply (gr_mapped _ _ _ _ Hgr). right. by eapply m3.
    - by rewrite G1, F1, G6, F6.
    - done.
    - by rewrite G8, F8, G2, F2.
    - done.
    - destruct Hs as [s1 s2 s3 s4 s5]. split; try done.
      + rewrite s1, fmap_cons. cbn [fst app]. rewrite !(app_assoc (g_chunks S).*1). apply Permutation_middle.
      + intros b [->|Hb']%elem_of_cons; [done|by apply s5].
    - rewrite Hos5. eapply (space_grant _ _ _ _ (HHuge a)); [exact Hsp|exact Hgr|].
      intros hd x Ho. destruct hd as [b|b|b]; [by left|by left|].
      destruct Ho as (q & m & [[= -> -> ->]|Hb']%elem_of_cons & Hr); [by right|left; by exists q, m]. }
  exists a, p, w6, S', h. split; [done|]. split; [done|].
  split; [split; cbn [w6 set_huges set_arena w_mem w_arena set_huge_list bins]; [by rewrite G4, F4; apply Hf1|by rewrite G8, F8; apply Hf1]|].
  split; [done|]. split.
  { destruct (dll_key _ _ _ a p (hr_list _ _ _ Hh')) as (_ & e & He & Hk); [by left|].
    simpl in He. rewrite Hha in He. simpl in He. by injection He as <-. }
  split; [lia|]. split; [|split].
  - intros q m. split.
    + intros [b kb ib rs' iss' fr' jx Hbk Hc' HG' Hjx Hjf|b p' n' [[= -> -> ->]|Hhg]%elem_of_cons];
        [right; by eapply live_regular|by left|right; by eapply live_huge].
    + intros [[-> ->]|[b kb ib rs' iss' fr' jx Hbk Hc' HG' Hjx Hjf|b p' n' Hhg]];
        [eapply live_huge; by left|by eapply (live_regular S' b)|eapply live_huge; right; exact Hhg].
  - intros His. assert (issued_region (with_meta S M') p n) as His'.
    { destruct His as [b kb ib rs' iss' fr' jx|b p' n' Hhg]; [by eapply (issued_regular (with_meta S M') b)|by eapply issued_huge]. }
    destruct (issued_region_at _ _ _ _ _ _ Hinv1 His') as [hd [_ Ho]].
    assert (range p n p) as Hr by (unfold range; lia).
    apply (gr_fresh _ _ _ _ Hgr p Hr). by eapply (sp_mapped _ _ Hsp), Ho.
  - split; [|done|intros x Hx; by right]. intros b x iss fr j Hbx HG Hj. split; [done|by exists iss, fr].
Qed.

(** Without memory no huge mapping is made. *)
Lemma arena_allocate_huge_mapping_refused w S n :
  no_memory → arena_pend [] None w S → 0 < n → n mod PAGE_SIZE = 0 →
  arena_allocate_huge_mapping n w = Fail Diverged.
Proof.
  intros Hno Hinv Hn Hna. unfold arena_allocate_huge_mapping.
  ok_assert by by (unfold IS_ALIGNED; rewrite Hna).
  ok_assert by by rewrite (ai_init _ _ _ _ Hinv).
  destruct (alloc_struct [] None w S SIZEOF_HUGE_CHUNK Hinv) as
    [Hd|(a & w1 & M' & Hal & _ & Ha & Hinv1 & _)]; [done|by rewrite Hd|].
  ok_rw Hal. set (h0 := Huge (LLEntry 0 0 0) n).
  assert (new_at (w_huges w1) a h0 = Ok (<[a := h0]> (w_huges w1))) as Hnew.
  { unfold new_at. by rewrite (proj2 (Z.eqb_neq a 0)). }
  ok_rw Hnew.
  by rewrite (arena_morecore_refused HugeProbe n (set_huges w1 _) Hno Hn Hna (ai_probes _ _ _ _ Hinv1)).
Qed.
End arena_huge.
