(* ===== verification/ArenaFree.v ===== *)
(** * ArenaFree: giving memory back to the arena and to the kernel

    The structure, the run, the chunk and the huge mapping that are not used any more:
    each operation keeps the invariant of the arena, and what is unmapped belonged to
    the part that goes. *)
From Stdlib Require Import ZArith Lia.
From stdpp Require Import base option numbers functions sorting list gmap.
From S2P Require Import Prelude.
From S2P Require Import CArray.
From S2P Require Import Utils.
From S2P Require Import SizeClass.
From S2P Require Import Random.
From S2P Require Import ContainerLL.
From S2P Require Import Platform.
From S2P Require Import KernelSpec.
From S2P Require Import Run.
From S2P Require Import Bin.
From S2P Require Import InternalAllocator.
From S2P Require Import IntAllocTree.
From S2P Require Import IntAllocProps.
From S2P Require Import Chunk.
From S2P Require Import ChunkTree.
From S2P Require Import ChunkAlloc.
From S2P Require Import ChunkRun.
From S2P Require Import ChunkBuddy.
From S2P Require Import ChunkSpec.
From S2P Require Import World.
From S2P Require Import Arena.
From S2P Require Import ArenaMeta.
From S2P Require Import ArenaInv.
From S2P Require Import ArenaOps.
From S2P Require Import ChunkProps.
From S2P Require Import ArenaHuge.

Section arena_free.
Context `{Build} `{KernelLaws OS}.
Implicit Types w : world OS.

(** ** Structures *)

(** The metadata of a structure that is not linked any more is given back. *)
Lemma free_struct p P X w S :
  arena_pend (p :: P) X w S →
  ∃ ias' M', arena_internal_free p w = Ok (set_ias w ias') ∧
    arena_pend P X (set_ias w ias') (with_meta S M').
Proof.
  intros [Hi Hp Hm Hc Hh Hb Hl Hs Hsp].
  destruct (arena_internal_free_ok w (g_meta S) p Hm) as (n & ias' & M' & Hok & Hm' & HM & Hperm).
  { rewrite (st_blocks _ _ _ _ _ Hs). by left. }
  exists ias', M'. split; [done|].
  split; try done; [by eapply structs_free|].
  eapply space_sub; [exact Hsp|]. intros [b|b|b] x Hx; cbn [owns with_meta g_meta g_chunks g_huges] in *;
    rewrite ?HM in Hx; done.
Qed.

(** ** Memory given back to the kernel *)
Record unmapped_range (os os' : OS) (p n : Z) : Prop := {
  ur_mapped : ∀ x, k_mapped os' x ↔ k_mapped os x ∧ ¬ range p n x
}.

(** No byte of the range is mapped. *)
Definition gone w (p n : Z) : Prop := ∀ x, range p n x → ¬ k_mapped (w_os w) x.

Lemma unmapped_gone os w p n : unmapped_range os (w_os w) p n → gone w p n.
Proof. intros [Hu] x Hx [_ Hno]%Hu. done. Qed.

Lemma meta_rep_unmap os os' ias head M p n :
  meta_rep os ias head M → unmapped_range os os' p n →
  (∀ a x, a ∈ M.*1 → range a META_LEN x → ¬ range p n x) → meta_rep os' ias head M.
Proof.
  intros [m1 m2 m3 m4 m5] [Hu] Hap. split; try done. intros a x Ha Hx. apply Hu. split; [by eapply m3|by eapply Hap].
Qed.

Lemma space_unmap own own' os os' h0 p n :
  space own os → unmapped_range os os' p n → (∀ x, range p n x → own h0 x) →
  (∀ h x, own' h x → own h x) → (∀ x, own' h0 x → ¬ range p n x) → space own' os'.
Proof.
  intros Hsp [Hu] Hown Hsub Hno. eapply space_sub; [exact Hsp|]. intros h x Hx.
  split; [by apply Hsub|]. intros Hm. apply Hu. split; [done|]. intros Hr.
  assert (h = h0) as -> by (eapply (sp_unique _ _ Hsp); [by apply Hsub|by apply Hown]). by apply (Hno x).
Qed.

Lemma meta_apart M C Hs os h0 p n :
  space (owns M C Hs) os → (∀ a, h0 ≠ HMeta a) → (∀ x, range p n x → owns M C Hs h0 x) →
  ∀ a x, a ∈ M.*1 → range a META_LEN x → ¬ range p n x.
Proof.
  intros Hsp Hne Hown a x Ha Hx Hr. apply (Hne a). eapply (sp_unique _ _ Hsp); [by apply Hown|by split].
Qed.

(** ** Live runs *)

(** Two live runs at one address are the same run. *)
Lemma run_of_addr P X w S a g n rs a' g' n' rs' :
  arena_pend P X w S → (a, g) ∈ g_chunks S → (n, rs) ∈ cg_live g →
  (a', g') ∈ g_chunks S → (n', rs') ∈ cg_live g' →
  run_addr (cg_base g) n = run_addr (cg_base g') n' → a = a' ∧ g = g' ∧ n = n'.
Proof.
  intros Hinv Ha Hn Ha' Hn' Heq. pose proof (ai_chunks _ _ _ _ Hinv) as Hc.
  assert (∀ b gb m rm, (b, gb) ∈ g_chunks S → (m, rm) ∈ cg_live gb →
            node_range (cg_base gb) m (run_addr (cg_base gb) m)) as Hself.
  { intros b gb m rm Hb Hm. destruct (cr_good _ _ _ Hc b gb Hb) as (c & _ & Hg).
    destruct (run_in_chunk _ _ m rm Hg Hm) as (_ & Hby & Hlo). unfold node_range, range. rewrite Hby. lia. }
  pose proof (Hself _ _ _ _ Ha Hn) as Hs1. pose proof (Hself _ _ _ _ Ha' Hn') as Hs2. rewrite <- Heq in Hs2.
  assert (HChunk a = HChunk a') as [= <-].
  { eapply (sp_unique _ _ (ai_space _ _ _ _ Hinv)); eapply live_run_owned; eauto. }
  assert (g = g') as <- by (eapply fst_unique; [by eapply chunks_nodup|done|done]).
  split; [done|]. split; [done|]. destruct (decide (n = n')) as [|Hne]; [done|exfalso].
  destruct (cr_good _ _ _ Hc a g Ha) as (c & _ & Hg).
  by apply (nodes_apart g c n n' (run_addr (cg_base g) n) Hg); [eapply live_node_in..| | |].
Qed.

(** ** A run leaves its chunk *)
Definition less_live (g : chunk_g) (l1 : list (Z * Z)) (n : Z) (l2 : list (Z * Z)) : chunk_g :=
  ChunkG (cg_base g) (l1 ++ l2) (n :: cg_dead g).

(** The chunks without the run: its chunk stays, or goes with its last run. *)
Inductive dropped C1 (a : Z) (g : chunk_g) C2 l1 n l2 : list (Z * chunk_g) → Prop :=
  | drop_run : dropped C1 a g C2 l1 n l2 (C1 ++ (a, less_live g l1 n l2) :: C2)
  | drop_chunk : l1 ++ l2 = [] → dropped C1 a g C2 l1 n l2 (C1 ++ C2).

Lemma returned_empty base live dead c :
  chunk_inv base live dead c → all_returned dead → live = [].
Proof.
  intros [_ _ [Hnd Hnode Hov] _ _ _ _ _ _] Hall. destruct live as [|[m rs] live]; [done|exfalso].
  assert (m ∈ ((m, rs) :: live).*1 ++ dead) as Hm by (apply elem_of_app; left; by left).
  pose proof (node_bounds m (Hnode m Hm)) as Hb.
  destruct (Hall (node_lo m)) as (d & Hd & Hr); [lia|].
  assert (d ∈ ((m, rs) :: live).*1 ++ dead) as Hd' by (apply elem_of_app; by right).
  assert (m ≠ d) as Hne.
  { intros ->. apply NoDup_app in Hnd as (_ & Hdis & _). apply (Hdis d); [by left|done]. }
  pose proof (node_bounds d (Hnode d Hd')). pose proof (Hov m d Hm Hd' Hne) as Ho%overlapb_false. lia.
Qed.

Section drop.
Context (P : list Z) (X : option (Z * Z)) (w : world OS) (S : arena_g).
Context (C1 : list (Z * chunk_g)) (a : Z) (g : chunk_g) (C2 : list (Z * chunk_g)).
Context (l1 : list (Z * Z)) (n rs : Z) (l2 : list (Z * Z)) (C' : list (Z * chunk_g)).
Context (Hinv : arena_pend P X w S) (HC : g_chunks S = C1 ++ (a, g) :: C2).
Context (Hlive : cg_live g = l1 ++ (n, rs) :: l2) (Hdrop : dropped C1 a g C2 l1 n l2 C').
Abbreviation k := (run_addr (cg_base g) n).

Lemma dropped_in : (a, g) ∈ g_chunks S ∧ (n, rs) ∈ cg_live g.
Proof. rewrite HC, Hlive. split; apply elem_of_mid; by left. Qed.

Lemma dropped_nodes m rs' : (m, rs') ∈ l1 ++ l2 → m ≠ n.
Proof.
  intros Hm ->. destruct dropped_in as [Ha _].
  destruct (cr_good _ _ _ (ai_chunks _ _ _ _ Hinv) a g Ha) as (c & _ & [[_ _ [Hnd _ _] _ _ _ _ _ _] _ _ _]).
  apply NoDup_app in Hnd as [Hnd _]. rewrite Hlive in Hnd. apply mid_nodup in Hnd. apply Hnd, list_elem_of_fmap.
  by exists (n, rs').
Qed.

(** A chunk of [C'], as it was. *)
Lemma dropped_chunk b gb :
  (b, gb) ∈ C' → ((b, gb) ∈ g_chunks S ∧ b ≠ a) ∨ (b = a ∧ gb = less_live g l1 n l2).
Proof.
  pose proof (chunks_nodup _ _ _ (ai_chunks _ _ _ _ Hinv)) as Hnd. rewrite HC in Hnd. apply mid_nodup in Hnd.
  assert ((b, gb) ∈ C1 ++ C2 → (b, gb) ∈ g_chunks S ∧ b ≠ a) as Hmid.
  { intros Hin. split; [rewrite HC; apply elem_of_mid; by right|]. intros ->.
    apply Hnd, list_elem_of_fmap. by exists (a, gb). }
  destruct Hdrop; [intros [[= -> ->]|Hin]%elem_of_mid; [by right|left; auto]|left; auto].
Qed.

Lemma live_run_drop k' rs' : live_run C' k' rs' ↔ live_run (g_chunks S) k' rs' ∧ k' ≠ k.
Proof.
  destruct dropped_in as [Ha Hn]. split.
  - intros (b & gb & m & Hb & Hm & ->). apply dropped_chunk in Hb as [[Hb Hne]|[-> ->]].
    + split; [by exists b, gb, m|]. intros Heq.
      by destruct (run_of_addr P X w S b gb m rs' a g n rs Hinv) as (? & _).
    + cbn [less_live cg_live cg_base] in *. pose proof (dropped_nodes _ _ Hm) as Hne.
      assert ((m, rs') ∈ cg_live g) as Hm' by (rewrite Hlive; apply elem_of_mid; by right).
      split; [by exists a, g, m|]. intros Heq.
      by destruct (run_of_addr P X w S a g m rs' a g n rs Hinv) as (_ & _ & ?).
  - intros [(b & gb & m & Hb & Hm & ->) Hne]. rewrite HC in Hb. apply elem_of_mid in Hb as [[= -> ->]|Hb].
    + rewrite Hlive in Hm. apply elem_of_mid in Hm as [[= -> ->]|Hm]; [done|].
      destruct Hdrop as [|Hnil]; [|rewrite Hnil in Hm; by apply elem_of_nil in Hm].
      exists a, (less_live g l1 n l2), m. split; [apply elem_of_mid; by left|done].
    + exists b, gb, m. split; [|done]. destruct Hdrop; [apply elem_of_mid; by right|done].
Qed.

Lemma owns_drop h x :
  owns (g_meta S) C' (g_huges S) h x →
  owns (g_meta S) (g_chunks S) (g_huges S) h x ∧ (h = HChunk a → ¬ node_range (cg_base g) n x).
Proof.
  destruct h as [b|b|b]; [by split|intros (gb & Hb & Hr & Hd)|by split].
  apply dropped_chunk in Hb as [[Hb Hne]|[-> ->]].
  - split; [by exists gb|]. by intros [= ->].
  - cbn [less_live cg_dead cg_base] in *. split; [exists g; split; [apply dropped_in|]|].
    + split; [done|]. intros d Hd'. apply Hd. by right.
    + intros _. apply Hd. by left.
Qed.
End drop.

Lemma links_drop k rs R C C' :
  links (Some (k, rs)) R C → (∀ k' rs', live_run C' k' rs' ↔ live_run C k' rs' ∧ k' ≠ k) → links None R C'.
Proof.
  intros [i1 i2 i3 i4] HC'. destruct (i4 k rs eq_refl) as [_ Hno]. split; [| |done|done].
  - intros b kb i Hb. destruct (i1 b kb i Hb) as (rs' & Hcl & Hl). exists rs'. split; [done|].
    apply HC'. split; [done|]. intros ->. by eapply Hno.
  - intros kb rs' [Hl Hne]%HC'. right. by destruct (i2 kb rs' Hl) as [[= -> ->]|].
Qed.

Lemma links_remove a k i rs R C :
  links None R C → R !! a = Some (k, i) → size_classes !! i = Some rs →
  links (Some (k, rs)) (delete a R) C.
Proof.
  intros [i1 i2 i3 i4] Ha Hc. split.
  - intros b kb j [_ Hb]%lookup_delete_Some. by eapply i1.
  - intros kb rs' Hl. destruct (i2 kb rs' Hl) as [|(b & j & Hb & Hj)]; [done|].
    destruct (decide (a = b)) as [<-|Hne].
    + left. rewrite Ha in Hb. injection Hb as <- <-. rewrite Hc in Hj. by injection Hj as <-.
    + right. exists b, j. split; [|done]. apply lookup_delete_Some. split; [done|done].
  - intros b b' kb j j' [_ Hb]%lookup_delete_Some [_ Hb']%lookup_delete_Some. by eapply i3.
  - intros kb rs' [= <- <-]. split.
    + destruct (i1 a k i Ha) as (rs' & Hcl & Hl). rewrite Hc in Hcl. by injection Hcl as <-.
    + intros b j [Hne Hb]%lookup_delete_Some. apply Hne. by eapply i3.
Qed.

Lemma structs_remove a x P M C R Hs :
  structs P M C R Hs → R !! a = Some x → structs (a :: P) M C (delete a R) Hs.
Proof.
  intros [s1 s2 s3 s4 s5] Ha. split; try done.
  - rewrite s1, <- (insert_delete_id R a x Ha) at 1. rewrite map_to_list_insert by apply lookup_delete_eq.
    rewrite fmap_cons. cbn [fst app]. rewrite !(app_assoc P). symmetry. apply Permutation_middle.
  - intros b k i rs [_ Hb]%lookup_delete_Some. by eapply s4.
Qed.

(** ** The world after a run was returned *)
Section returned.
Context (P : list Z) (w : world OS) (S : arena_g).
Context (C1 : list (Z * chunk_g)) (a : Z) (g : chunk_g) (C2 : list (Z * chunk_g)).
Context (l1 : list (Z * Z)) (n rs : Z) (l2 : list (Z * Z)).
Abbreviation k := (run_addr (cg_base g) n).
Context (Hinv : arena_pend P (Some (k, rs)) w S) (HC : g_chunks S = C1 ++ (a, g) :: C2).
Context (Hlive : cg_live g = l1 ++ (n, rs) :: l2).
Context (os' : OS) (Hunmap : unmapped_range (w_os w) os' k (run_bytes n)).

(** The new chunk list [C'], with structures [cs'] from [head'] on. *)
Lemma pend_dropped P' C' cs' head' :
  dropped C1 a g C2 l1 n l2 C' → chunks_rep cs' head' C' →
  structs P' (g_meta S) C' (g_runs S) (g_huges S) →
  arena_pend P' None (set_chunks (set_arena (set_os w os') (set_chunk_list (w_arena w) head')) cs')
             (with_chunks S C').
Proof.
  intros Hdrop Hcs Hst. pose proof Hinv as [Hi Hp Hm Hc Hh Hb Hl Hs Hsp].
  destruct (dropped_in S C1 a g C2 l1 n rs l2 HC Hlive) as [Ha Hn].
  assert (∀ x, range k (run_bytes n) x → owns (g_meta S) (g_chunks S) (g_huges S) (HChunk a) x) as Hown.
  { intros x Hx. by eapply live_run_owned. }
  split; try done.
  - destruct Hp as [Hb1 Hp]. split; [done|]. intros pr. specialize (Hp pr). by destruct pr.
  - eapply meta_rep_unmap; [exact Hm|exact Hunmap|]. by eapply (meta_apart _ _ _ _ (HChunk a)).
  - eapply links_drop; [exact Hl|]. by eapply live_run_drop.
  - eapply (space_unmap _ _ _ _ (HChunk a)); [exact Hsp|exact Hunmap|exact Hown|..];
      intros; by eapply owns_drop.
Qed.

(** The chunk keeps other runs, or memory that was never used. *)
Lemma run_returned c c' :
  w_chunks w !! a = Some c → chunk_entry c' = chunk_entry c →
  chunk_inv (cg_base g) (l1 ++ l2) (n :: cg_dead g) c' → ¬ all_returned (n :: cg_dead g) →
  arena_pend P None (set_chunks (set_os w os') (<[a := c']> (w_chunks w)))
             (with_chunks S (C1 ++ (a, less_live g l1 n l2) :: C2)).
Proof.
  intros Ha He Hc' Hpart. destruct (dropped_in S C1 a g C2 l1 n rs l2 HC Hlive) as [Hin _].
  destruct (cr_good _ _ _ (ai_chunks _ _ _ _ Hinv) a g Hin) as (c0 & Hc0 & Hg).
  rewrite Ha in Hc0. injection Hc0 as <-.
  assert (chunk_good (less_live g l1 n l2) c') as Hg'.
  { destruct Hg as [_ Hba _ Hfit]. split; try done. intros m rs' Hm. apply Hfit. rewrite Hlive. by apply elem_of_mid; right. }
  replace (set_os w os') with (set_arena (set_os w os') (set_chunk_list (w_arena w) (chunk_list (w_arena w)))).
  2: { destruct w as [? ? [] ? ? ? ? ?]. done. }
  apply (pend_dropped P); [apply drop_run| |].
  - pose proof (ai_chunks _ _ _ _ Hinv) as Hrep. rewrite HC in Hrep. by eapply (chunks_rep_update _ _ _ _ g).
  - pose proof (ai_structs _ _ _ _ Hinv) as [s1 s2 s3 s4 s5].
    assert ((C1 ++ (a, less_live g l1 n l2) :: C2).*1 = (g_chunks S).*1) as HE.
    { by rewrite HC, !fmap_app, !fmap_cons. }
    split; try done; by rewrite HE.
Qed.
End returned.

(** ** Entries leave their lists *)
Lemma NoDup_mid_key {A} (f : A → Z * Z) (l1 : list A) x l2 :
  NoDup (f <$> (l1 ++ x :: l2)).*2 → ((f x).2 ∉ (f <$> l1).*2) ∧ NoDup (f <$> (l1 ++ l2)).*2.
Proof.
  rewrite !fmap_app, !fmap_cons, !NoDup_app, NoDup_cons. intros (H1 & H2 & H3 & H4).
  split; [intros Hin; apply (H2 _ Hin); by left|]. split_and!; [done| |done].
  intros y Hy Hy'. apply (H2 y Hy). by right.
Qed.

Lemma chunks_rep_del cs head C1 a g C2 c c' :
  chunks_rep cs head (C1 ++ (a, g) :: C2) → cs !! a = Some c → chunk_entry c' = chunk_entry c →
  ∃ head' cs', ll_del (<[a := c']> cs) head a = Ok (head', cs') ∧
               chunks_rep (delete a cs') head' (C1 ++ C2).
Proof.
  intros Hrep Ha He. pose proof (chunks_nodup _ _ _ Hrep) as Hnd. apply mid_nodup in Hnd. cbn [fst] in Hnd.
  destruct Hrep as [Hl Hk Hg]. destruct (NoDup_mid_key _ _ _ _ Hk) as [Hk1 Hk2].
  assert (dll (<[a := c']> cs) head (chunk_key <$> (C1 ++ (a, g) :: C2))) as Hl1 by (by eapply dll_insert_entry).
  rewrite fmap_app, fmap_cons in Hl1.
  destruct (ll_del_ok _ _ _ _ _ _ Hl1 (λ _, Hk1)) as (cs' & Hdel & Hl2 & _ & Hf & _).
  exists (first_of ((chunk_key <$> C1) ++ (chunk_key <$> C2)) 0), cs'. split; [done|].
  rewrite <- fmap_app in Hl2 |- *.
  apply (chunks_rep_frame cs'); [|intros b Hb; apply lookup_delete_ne; by intros ->].
  eapply chunks_rep_of; [done| |exact Hf|done].
  intros b gb Hb. destruct (Hg b gb) as (cb & Hcb & Hgb); [apply elem_of_mid; by right|].
  exists cb. split; [|done]. rewrite lookup_insert_ne; [done|]. intros ->.
  apply Hnd, list_elem_of_fmap. by exists (b, gb).
Qed.

Lemma huges_rep_del hs head Hs1 a p n Hs2 :
  huges_rep hs head (Hs1 ++ (a, (p, n)) :: Hs2) →
  ∃ head' hs', ll_del hs head a = Ok (head', hs') ∧ huges_rep (delete a hs') head' (Hs1 ++ Hs2).
Proof.
  intros Hrep. pose proof (huges_nodup _ _ _ Hrep) as Hnd. apply mid_nodup in Hnd. cbn [fst] in Hnd.
  destruct Hrep as [Hl Hk Hg]. destruct (NoDup_mid_key _ _ _ _ Hk) as [Hk1 Hk2].
  rewrite fmap_app, fmap_cons in Hl.
  destruct (ll_del_ok _ _ _ _ _ _ Hl (λ _, Hk1)) as (hs' & Hdel & Hl2 & _ & Hf & _).
  exists (first_of ((huge_key <$> Hs1) ++ (huge_key <$> Hs2)) 0), hs'. split; [done|].
  rewrite <- fmap_app in Hl2 |- *.
  apply (huges_rep_frame hs'); [|intros b Hb; apply lookup_delete_ne; by intros ->].
  split; [done|done|]. intros b q m Hb.
  destruct (Hg b q m) as (h & Hh & [? ? ? ?]); [apply elem_of_mid; by right|].
  destruct (huge_frame _ _ _ _ Hf Hh) as (h' & Hh' & Hl'). exists h'. split; [done|]. split; [congruence|done|done|done].
Qed.

(** ** A chunk that was returned as a whole *)
Lemma chunk_returned P w S C1 a g C2 l1 n rs l2 os' c c' :
  arena_pend P (Some (run_addr (cg_base g) n, rs)) w S → g_chunks S = C1 ++ (a, g) :: C2 →
  cg_live g = l1 ++ (n, rs) :: l2 →
  unmapped_range (w_os w) os' (run_addr (cg_base g) n) (run_bytes n) →
  w_chunks w !! a = Some c → chunk_entry c' = chunk_entry c →
  chunk_inv (cg_base g) (l1 ++ l2) (n :: cg_dead g) c' → all_returned (n :: cg_dead g) →
  ∃ w2 M', arena_deallocate_chunk a (set_chunks (set_os w os') (<[a := c']> (w_chunks w))) = Ok w2 ∧
    arena_pend P None w2 (with_chunks (with_meta S M') (C1 ++ C2)) ∧ user_frame w w2 ∧ w_huges w2 = w_huges w ∧
    w_os w2 = os'.
Proof.
  intros Hinv HC Hlive Hun Ha He Hc' Hall. unfold arena_deallocate_chunk.
  cbn [w_arena set_chunks set_os w_chunks]. ok_assert by by rewrite (ai_init _ _ _ _ Hinv).
  rewrite (rd_at_ok (<[a := c']> (w_chunks w)) a c') by apply lookup_insert_eq. cbn [mbind outcome_bind].
  destruct (chunk_is_unmapped_ok _ _ _ _ Hc') as (b & Hb & Hbt). ok_rw Hb.
  rewrite (proj2 Hbt Hall). cbn [c_assert mbind outcome_bind].
  pose proof (ai_chunks _ _ _ _ Hinv) as Hrep. rewrite HC in Hrep.
  destruct (chunks_rep_del _ _ _ _ _ _ _ _ Hrep Ha He) as (head' & cs' & Hdel & Hrep').
  rewrite c_assert_true by done. cbn [mbind outcome_bind].
  ok_rw Hdel.
  assert (arena_pend (a :: P) None
            (set_chunks (set_arena (set_os w os') (set_chunk_list (w_arena w) head')) (delete a cs'))
            (with_chunks S (C1 ++ C2))) as Hinv1.
  { eapply (pend_dropped P w S C1 a g C2 l1 n rs l2 Hinv HC Hlive os' Hun); [|done|].
    - constructor. by eapply returned_empty.
    - destruct (ai_structs _ _ _ _ Hinv) as [s1 s2 s3 s4 s5]. rewrite HC in s1, s3. split; try done.
      + rewrite s1, !fmap_app, fmap_cons. cbn [fst app]. solve_Permutation.
      + intros b' Hb'. apply s3. rewrite fmap_app, fmap_cons in *. set_solver. }
  destruct (free_struct _ _ _ _ _ Hinv1) as (ias' & M' & Hfree & Hinv2).
  eexists _, M'. split; [exact Hfree|]. split; [exact Hinv2|]. by split.
Qed.

(** ** Huge mappings *)

(** The kernel never refuses to take memory back. *)
Definition munmap_total : Prop := ∀ (os : OS) p n, (k_munmap os p n).1 = None.

Lemma munmap_not_total (os : OS) p n e os' : k_munmap os p n = (Some e, os') → ¬ munmap_total.
Proof. intros Hm Ht. specialize (Ht os p n). by rewrite Hm in Ht. Qed.

Lemma munmap_range os p n os' : k_munmap os p n = (None, os') → unmapped_range os os' p n.
Proof. intros Hm. split. by apply (k_munmap_done _ _ _ _ Hm). Qed.

(** arena_deallocate_huge_mapping: the mapping and its structure are given back. *)
Lemma arena_deallocate_huge_mapping_ok w S Hs1 a p n Hs2 :
  arena_pend [] None w S → g_huges S = Hs1 ++ (a, (p, n)) :: Hs2 →
  (arena_deallocate_huge_mapping a w = Fail ErrorExit ∧ ¬ munmap_total) ∨
  ∃ w' M', arena_deallocate_huge_mapping a w = Ok w' ∧
    arena_pend [] None w' (with_huges (with_meta S M') (Hs1 ++ Hs2)) ∧ user_frame w w' ∧ gone w' p n.
Proof.
  intros Hinv HH. pose proof Hinv as [Hi Hp Hm Hc Hh Hb Hl Hs Hsp].
  assert ((a, (p, n)) ∈ g_huges S) as Hin by (rewrite HH; apply elem_of_mid; by left).
  destruct (hr_good _ _ _ Hh a p n Hin) as (h & Ha & [Hlen Hadr Hsz Hlg]).
  unfold arena_deallocate_huge_mapping. ok_rw (rd_at_ok _ _ _ Ha). rewrite Hlen.
  ok_assert by by (unfold IS_ALIGNED; rewrite (proj2 Hsz)). ok_assert by by rewrite Hi.
  destruct (dll_key _ _ _ a p (hr_list _ _ _ Hh)) as (_ & e & He & Hk).
  { apply list_elem_of_fmap. by exists (a, (p, n)). }
  simpl in He. rewrite Ha in He. injection He as <-. rewrite Hk.
  unfold platform_unmap. rewrite outcome_bind_assoc. ok_assert by lia.
  destruct (k_munmap (w_os w) p n) as [[e|] os'] eqn:Hmu.
  { left. cbn [mbind outcome_bind]. rewrite bool_decide_eq_false_2; [|by destruct e].
    split; [done|by eapply munmap_not_total]. }
  right. cbn [mbind outcome_bind]. rewrite bool_decide_eq_true_2 by done. cbn [negb].
  apply munmap_range in Hmu. rewrite HH in Hh.
  destruct (huges_rep_del _ _ _ _ _ _ _ Hh) as (head' & hs' & Hdel & Hrep'). ok_rw Hdel.
  set (w1 := set_huges _ _).
  assert (arena_pend [a] None w1 (with_huges S (Hs1 ++ Hs2))) as Hinv1.
  { pose proof (huges_nodup _ _ _ Hh) as Hnd. apply mid_nodup in Hnd. cbn [fst] in Hnd.
    assert (∀ x, range p n x → owns (g_meta S) (g_chunks S) (g_huges S) (HHuge a) x) as Hown by (intros x Hx; by exists p, n).
    split; try done.
    - destruct Hp as [Hb1 Hp]. split; [done|]. intros pr. specialize (Hp pr). by destruct pr.
    - eapply meta_rep_unmap; [exact Hm|exact Hmu|]. by eapply (meta_apart _ _ _ _ (HHuge a)).
    - destruct Hs as [s1 s2 s3 s4 s5]. rewrite HH in s1, s5. split; try done.
      + rewrite s1. cbn [with_huges g_huges g_chunks g_runs]. rewrite !fmap_app, fmap_cons. cbn [fst app]. solve_Permutation.
      + intros b' Hb'. apply s5. cbn [with_huges g_huges] in Hb'. rewrite fmap_app, fmap_cons in *. set_solver.
    - eapply (space_unmap _ _ _ _ (HHuge a)); [exact Hsp|exact Hmu|exact Hown|..].
      + intros [b|b|b] x; [done|done|]. intros (q & m & Hb' & Hr). exists q, m. split; [|done].
        rewrite HH. apply elem_of_mid. by right.
      + intros x (q & m & Hb' & _). exfalso. apply Hnd, list_elem_of_fmap. by exists (a, (q, m)). }
  destruct (free_struct _ _ _ _ _ Hinv1) as (ias' & M' & Hfree & Hinv2).
  eexists _, M'. split; [exact Hfree|]. split; [exact Hinv2|]. split; [by split|]. by eapply unmapped_gone.
Qed.

(** chunk_deallocate_run does not touch the links of the chunk. *)
Lemma chunk_deallocate_run_entry os c ptr b c' os' :
  chunk_deallocate_run os c ptr = Ok (b, c', os') → chunk_entry c' = chunk_entry c.
Proof.
  unfold chunk_deallocate_run. destruct (get_buddy_tree_item _ _) as [node|]; [|done]. cbn [mbind outcome_bind].
  destruct (while_loop _ _ _) as [[idx d]|]; [|done]. cbn [mbind outcome_bind].
  destruct (set_buddy_tree_item _ _ _) as [bt|]; [|done]. cbn [mbind outcome_bind].
  destruct (coalesce_depleted_nodes _ _ _) as [[[ctx bt'] o]|]; [|done]. cbn [mbind outcome_bind].
  by intros [= _ <- _].
Qed.

(** ** Moving a huge mapping *)

(** A structure of a list gets another key. *)
Lemma dll_rekey (hs : gmap Z huge_chunk_t) head l1 a p l2 h h' q :
  dll hs head (l1 ++ (a, p) :: l2) → hs !! a = Some h →
  huge_entry h' = LLEntry (fd (huge_entry h)) (bk (huge_entry h)) q →
  dll (<[a := h']> hs) head (l1 ++ (a, q) :: l2).
Proof.
  intros (Hhd & Hseg & Hnd & Hlen) Ha He. pose proof (mid_nodup _ _ _ Hnd) as Hno. cbn [fst] in Hno.
  rewrite fmap_app in Hno. apply not_elem_of_app in Hno as [Hn1 Hn2].
  apply dseg_app in Hseg as [Hs1 (Hnz & Hl & Hs2)]. simpl in Hl. rewrite Ha in Hl. injection Hl as Hl.
  assert (∀ l : list (Z * Z), a ∉ l.*1 → ∀ b, b ∈ l.*1 → es_lookup (<[a := h']> hs) b = es_lookup hs b) as Hext.
  { intros l Hal b Hb. simpl. rewrite lookup_insert_ne; [done|]. by intros ->. }
  split; [by destruct l1 as [|[] ?]|]. split.
  - apply dseg_app. split; [eapply dseg_ext; [by apply Hext|done]|]. split; [done|]. split.
    + simpl. rewrite lookup_insert_eq. simpl. by rewrite He, Hl.
    + eapply dseg_ext; [by apply Hext|done].
  - split; [by rewrite !fmap_app, !fmap_cons in *|by rewrite !length_app in *].
Qed.

Lemma huges_rep_move hs head Hs1 a p n Hs2 h h' q m :
  huges_rep hs head (Hs1 ++ (a, (p, n)) :: Hs2) → hs !! a = Some h →
  huge_entry h' = LLEntry (fd (huge_entry h)) (bk (huge_entry h)) q → huge_good q m h' →
  (q ∉ (huge_key <$> (Hs1 ++ (a, (p, n)) :: Hs2)).*2) →
  huges_rep (<[a := h']> hs) head (Hs1 ++ (a, (q, m)) :: Hs2).
Proof.
  intros Hrep Ha He Hgood Hq. pose proof (huges_nodup _ _ _ Hrep) as Hnd. apply mid_nodup in Hnd. cbn [fst] in Hnd.
  destruct Hrep as [Hl Hk Hg]. destruct (NoDup_mid_key _ _ _ _ Hk) as [_ Hk2].
  split.
  - rewrite fmap_app, fmap_cons in Hl |- *. by eapply dll_rekey.
  - rewrite !fmap_app, !fmap_cons in *. cbn [huge_key fst snd] in *.
    apply NoDup_app in Hk2 as (N1 & N2 & N3). apply NoDup_app. split; [done|]. split.
    + intros x Hx [->|Hx']%elem_of_cons; [set_solver|by eapply N2].
    + constructor; [set_solver|done].
  - intros b q' m' [[= -> -> ->]|Hb]%elem_of_mid; [exists h'; by rewrite lookup_insert_eq|].
    destruct (Hg b q' m') as (hb & Hhb & Hgb); [apply elem_of_mid; by right|]. exists hb.
    rewrite lookup_insert_ne; [done|]. intros ->. apply Hnd, list_elem_of_fmap. by exists (b, (q', m')).
Qed.

(** The old mapping of a moved huge mapping is unmapped after the new one is granted. *)
Lemma space_move M C Hs1 a p n Hs2 os os1 os2 q m :
  NoDup (Hs1 ++ (a, (p, n)) :: Hs2).*1 →
  space (owns M C (Hs1 ++ (a, (p, n)) :: Hs2)) os → granted os os1 q m → unmapped_range os1 os2 p n →
  space (owns M C (Hs1 ++ (a, (q, m)) :: Hs2)) os2.
Proof.
  intros Hnd Hsp Hgr Hun. apply mid_nodup in Hnd. cbn [fst] in Hnd.
  set (own := owns M C (Hs1 ++ (a, (p, n)) :: Hs2)) in *.
  set (both := λ h x, own h x ∨ (h = HHuge a ∧ range q m x)).
  assert (∀ x, range p n x → own (HHuge a) x) as Hown.
  { intros x Hx. exists p, n. split; [apply elem_of_mid; by left|done]. }
  assert (space both os1) as Hboth by (eapply (space_grant _ _ _ _ (HHuge a)); [exact Hsp|exact Hgr|done]).
  eapply (space_unmap both _ os1 os2 (HHuge a) p n Hboth Hun).
  - intros x Hx. left. by apply Hown.
  - intros [b|b|b] x; [by left|by left|]. intros (q' & m' & [[= -> -> ->]|Hb]%elem_of_mid & Hr); [by right|].
    left. exists q', m'. split; [apply elem_of_mid; by right|done].
  - intros x (q' & m' & [[= -> ->]|Hb]%elem_of_mid & Hr) Hp.
    + apply (gr_fresh _ _ _ _ Hgr x Hr). by eapply (sp_mapped _ _ Hsp), Hown.
    + apply Hnd, list_elem_of_fmap. by exists (a, (q', m')).
Qed.

(** arena_reallocate_huge_mapping: a fresh mapping takes the place of the old one, with
    the common part of the contents. *)
Lemma arena_reallocate_huge_mapping_ok w S Hs1 a p n Hs2 m :
  arena_pend [] None w S → g_huges S = Hs1 ++ (a, (p, n)) :: Hs2 →
  m mod PAGE_SIZE = 0 → IS_SIZE_HUGE m = true →
  arena_reallocate_huge_mapping a m w = Fail Diverged ∨
  (arena_reallocate_huge_mapping a m w = Fail ErrorExit ∧ ¬ munmap_total) ∨
  ∃ q w' h, arena_reallocate_huge_mapping a m w = Ok w' ∧
    arena_pend [] None w' (with_huges S (Hs1 ++ (a, (q, m)) :: Hs2)) ∧
    bins (w_arena w') = bins (w_arena w) ∧ w_huges w' !! a = Some h ∧ key (huge_entry h) = q ∧
    w_mem w' = memcpy (w_mem w) q p (if m <? n then m else n) ∧ gone w q m ∧ gone w' p n.
Proof.
  intros Hinv HH Hm Hhuge. pose proof Hinv as [Hi Hp Hmt Hc Hh Hb Hl Hs Hsp].
  assert ((a, (p, n)) ∈ g_huges S) as Hin by (rewrite HH; apply elem_of_mid; by left).
  destruct (hr_good _ _ _ Hh a p n Hin) as (h & Ha & [Hlen Hadr Hsz Hlg]).
  assert (0 < m) as Hm0 by (unfold IS_SIZE_HUGE in Hhuge; change LARGE_SIZE_MAX_REGION with 1048576 in Hhuge; lia).
  unfold arena_reallocate_huge_mapping. ok_rw (rd_at_ok _ _ _ Ha). rewrite Hlen.
  ok_assert by by (unfold IS_ALIGNED; rewrite (proj2 Hsz)). ok_assert by by (unfold IS_ALIGNED; rewrite Hm).
  ok_assert by by rewrite Hi. ok_assert by done.
  destruct (arena_morecore_ok HugeProbe m w Hm0 Hm Hp) as [->|(q & w1 & Hmc & Hf1 & Hp1 & Hgr)]; [by left|right].
  ok_rw Hmc. pose proof Hf1 as [[F1 F2 F3 F4 F5 F6 F7 F8] F9 F10].
  destruct (skip_mapping_ok HugeProbe q (m + PAGE_SIZE) w1) as (Hf2 & Hp2 & Hos2); [by apply page_multiple|done|].
  set (w2 := skip_mapping _ _ _ w1) in *. pose proof Hf2 as [[G1 G2 G3 G4 G5 G6 G7 G8] G9 G10].
  destruct (dll_key _ _ _ a p (hr_list _ _ _ Hh)) as (_ & e & He & Hk).
  { apply list_elem_of_fmap. by exists (a, (p, n)). }
  simpl in He. rewrite Ha in He. injection He as <-. rewrite Hk.
  unfold platform_unmap. rewrite outcome_bind_assoc. ok_assert by lia.
  cbn [set_mem w_os]. rewrite Hos2. destruct (k_munmap (w_os w1) p n) as [[e|] os'] eqn:Hmu.
  { left. cbn [mbind outcome_bind]. rewrite bool_decide_eq_false_2; [|by destruct e].
    split; [done|by eapply munmap_not_total]. }
  right. cbn [mbind outcome_bind]. rewrite bool_decide_eq_true_2 by done. cbn [negb].
  apply munmap_range in Hmu. set (h' := Huge _ m).
  pose proof (gr_addr _ _ _ _ Hgr) as (Hg1 & Hg2 & Hg3).
  exists q. eexists _, h'. split; [reflexivity|].
  split; [|split; [by cbn; rewrite G8, F8|split; [cbn; rewrite G3, F3; by rewrite lookup_insert_eq|
    split; [done|split; [cbn; by rewrite G4, F4|split; [exact (gr_fresh _ _ _ _ Hgr)|by eapply unmapped_gone]]]]]].
  split; cbn [w_arena w_chunks w_huges w_runs w_os w_ias set_huges set_os set_mem with_huges g_meta g_chunks g_huges g_runs g_regs g_bins];
    rewrite ?G1, ?G2, ?G3, ?G5, ?G6, ?G7, ?G8, ?F1, ?F2, ?F3, ?F5, ?F6, ?F7, ?F8; try done.
  - unfold meta_of. cbn [w_ias w_os w_arena set_huges set_os set_mem]. rewrite G9, G10, F9, F10.
    assert (∀ b x, b ∈ (g_meta S).*1 → range b META_LEN x → ¬ range p n x) as Hap.
    { eapply (meta_apart _ _ _ _ (HHuge a)); [exact Hsp|done|]. intros x Hx. by exists p, n. }
    eapply meta_rep_unmap; [|exact Hmu|exact Hap]. destruct Hmt as [m1 m2 m3 m4 m5]. split; try done.
    intros b x Hb' Hx. apply (gr_mapped _ _ _ _ Hgr). right. by eapply m3.
  - rewrite HH in Hh. eapply (huges_rep_move _ _ _ _ p n _ h); [exact Hh|done|done|split; [done|done|done|unfold IS_SIZE_HUGE in Hhuge; lia]|].
    rewrite <- HH in Hh |- *. by eapply fresh_huge.
  - rewrite HH in Hs. destruct Hs as [s1 s2 s3 s4 s5]. rewrite !fmap_app, !fmap_cons in *. split; try done;
      rewrite !fmap_app, !fmap_cons; done.
  - rewrite HH in Hsp. eapply space_move; [|exact Hsp|exact Hgr|exact Hmu]. rewrite <- HH. by eapply huges_nodup.
Qed.
End arena_free.
