(* ===== verification/ArenaBins.v ===== *)
(** * ArenaBins: the bins of the arena, from a fresh run to a region

    Adding a run to a bin, supplying an empty bin, finding the bin of a size class and
    taking a region keep the invariant of the arena.  Between two calls of the
    allocator a bin has no region available, or at least BIN_MINIMUM_REGIONS - 1
    ([supplied]): this is why the assertions of sealloc_allocate_with_bin hold. *)
From Stdlib Require Import ZArith Lia.
From stdpp Require Import base option numbers functions sorting list gmap.
From S2P Require Import Prelude.
From S2P Require Import CArray.
From S2P Require Import Utils.
From S2P Require Import SizeClass.
From S2P Require Import Random.
From S2P Require Import ContainerLL.
From S2P Require Import Platform.
From S2P Require Import KernelSpec.
From S2P Require Import Run.
From S2P Require Import Bin.
From S2P Require Import InternalAllocator.
From S2P Require Import IntAllocTree.
From S2P Require Import IntAllocProps.
From S2P Require Import Chunk.
From S2P Require Import ChunkTree.
From S2P Require Import ChunkAlloc.
From S2P Require Import ChunkRun.
From S2P Require Import ChunkBuddy.
From S2P Require Import ChunkSpec.
From S2P Require Import World.
From S2P Require Import Arena.
From S2P Require Import ArenaMeta.
From S2P Require Import ArenaInv.
From S2P Require Import ArenaOps.
From S2P Require Import Sealloc.

(** ** The index of a size class *)
Definition index_ok `{Build} (s : Z) : bool :=
  match bin_index s with
  | Ok i => (0 <=? i) && (i <? ARENA_NO_BINS) && bool_decide (size_classes !! Z.to_nat i = Some s)
  | Fail _ => false
  end.
Lemma index_all `{B : Build} : Forall (λ s, index_ok s = true) size_classes.
Proof. destruct B as [[]]; (rewrite size_classes_eq; repeat constructor). Qed.

Lemma bin_index_ok `{Build} s : s ∈ size_classes →
  ∃ i : nat, bin_index s = Ok (Z.of_nat i) ∧ Z.of_nat i < ARENA_NO_BINS ∧ size_classes !! i = Some s.
Proof.
  intros Hs. pose proof index_all as Hall. rewrite Forall_forall in Hall. specialize (Hall s Hs).
  unfold index_ok in Hall. destruct (bin_index s) as [i|]; [|done].
  rewrite !andb_true_iff, bool_decide_eq_true in Hall. destruct Hall as [[H1 H2] H3].
  exists (Z.to_nat i). rewrite Z2Nat.id by lia. split; [done|]. split; [lia|done].
Qed.

Section arena_bins.
Context `{Build} `{KernelLaws OS}.
Implicit Types w : world OS.

(** ** One bin changes *)
Lemma bins_rep_update b runs R G B i bin' A' I' runs' R' G' :
  bins_rep b runs R G B → Z.of_nat i < ARENA_NO_BINS →
  bin_slot i bin' runs' A' I' G' →
  (∀ a k j, j ≠ i → R !! a = Some (k, j) → runs' !! a = runs !! a ∧ G' !! a = G !! a) →
  (∀ a k j, R' !! a = Some (k, j) ↔ if decide (j = i) then (a, k) ∈ A' ++ I' else R !! a = Some (k, j)) →
  bins_rep (aupd b (Z.of_nat i) bin') runs' R' G' (<[i := (A', I')]> B).
Proof.
  intros [Hlen Hslot Hrun] Hi Hnew Hoth HR. split; [done| |].
  - intros j Hj. destruct (decide (j = i)) as [->|Hne].
    { right. by rewrite acell_aupd_eq, fn_lookup_insert. }
    rewrite acell_aupd_ne by lia. rewrite fn_lookup_insert_ne by done.
    destruct (Hslot j Hj) as [|[Hc Hrep Hav]]; [by left|right]. split; [done| |done].
    eapply bin_rep_frame; [done|]. intros a ([a' k] & -> & Hin)%list_elem_of_fmap.
    apply (Hoth a' k j); [done|]. by apply Hrun.
  - intros a k j. rewrite HR. destruct (decide (j = i)) as [->|Hne].
    + rewrite fn_lookup_insert. cbn [fst snd]. by split; [|intros []].
    + rewrite fn_lookup_insert_ne by done. apply Hrun.
Qed.

Lemma bin_lists_bound R b runs G B i :
  bins_rep b runs R G B → Z.of_nat i < ARENA_NO_BINS → NoDup ((B i).1 ++ (B i).2).*1 →
  (length ((B i).1 ++ (B i).2) ≤ size R)%nat.
Proof.
  intros [_ _ Hrun] Hi Hnd. rewrite <- (length_fmap fst), <- length_map_to_list, <- (length_fmap fst (map_to_list R)).
  apply submseteq_length, NoDup_submseteq; [done|].
  intros a ([a' k] & -> & Hin)%list_elem_of_fmap. apply list_elem_of_fmap. exists (a', (k, i)).
  split; [done|]. by apply elem_of_map_to_list, Hrun.
Qed.

(** The world after a change of the bins and runs. *)
Definition set_bins_runs w b runs : world OS := set_arena (set_runs w runs) (set_bins (w_arena w) b).

Lemma wr_bin_ok w runs i bin :
  alen (bins (w_arena w)) = ARENA_NO_BINS → 0 ≤ i < ARENA_NO_BINS →
  wr_bin (set_runs w runs) i bin = Ok (set_bins_runs w (aupd (bins (w_arena w)) i bin) runs).
Proof.
  intros Hl Hi. unfold wr_bin. rewrite awrite_in; [done|]. cbn [w_arena set_runs]. by rewrite Hl.
Qed.

Lemma rd_bin_ok w i : alen (bins (w_arena w)) = ARENA_NO_BINS → 0 ≤ i < ARENA_NO_BINS →
  rd_bin w i = Ok (acell (bins (w_arena w)) i).
Proof. intros Hl Hi. unfold rd_bin. apply aread_in. by rewrite Hl. Qed.

Lemma arena_pend_bins P X P' X' w S b' runs' R' G' B' :
  arena_pend P X w S → bins_rep b' runs' R' G' B' → links X' R' (g_chunks S) →
  structs P' (g_meta S) (g_chunks S) R' (g_huges S) →
  arena_pend P' X' (set_bins_runs w b' runs') (with_bins S R' G' B').
Proof.
  intros [Hi Hp Hm Hc Hh Hb Hl Hs Hsp] Hb' Hl' Hs'. split; try done.
  destruct Hp as [Hbr Hpr]. split; [done|]. intros pr. specialize (Hpr pr). by destruct pr.
Qed.

(** The same regions are live. *)
Definition same_live (S S' : arena_g) : Prop := ∀ p n, live_region S' p n ↔ live_region S p n.

#[export] Instance same_live_preorder : PreOrder same_live.
Proof. split; [by intros S p n|]. intros S1 S2 S3 H1 H2 p n. rewrite (H2 p n). apply H1. Qed.

(** The same regions are live, in the same runs. *)
Record steady (S S' : arena_g) : Prop := {
  sd_live : same_live S S';
  sd_grown : grown S S'
}.

#[export] Instance steady_preorder : PreOrder steady.
Proof. split; [by intros S; split|]. intros S1 S2 S3 [] []. split; by etrans. Qed.

(** ** A fresh run for a bin *)
Lemma links_add R C k rs i a :
  links (Some (k, rs)) R C → R !! a = None → size_classes !! i = Some rs →
  links None (<[a := (k, i)]> R) C.
Proof.
  intros [l1 l2 l3 l4] Ha Hc. destruct (l4 k rs eq_refl) as [Hlr Hno]. split.
  - intros b kb j Hb. apply lookup_insert_Some in Hb as [[<- [= -> ->]]|[_ Hb]]; [by exists rs|by eapply l1].
  - intros kb rs' Hlr'. right. destruct (l2 kb rs' Hlr') as [[= -> ->]|(b & j & Hb & Hcj)].
    + exists a, i. by rewrite lookup_insert_eq.
    + exists b, j. rewrite lookup_insert_ne; [done|]. intros ->. by rewrite Ha in Hb.
  - intros b b' kb j j' Hb Hb'.
    apply lookup_insert_Some in Hb as [[<- [= -> ->]]|[_ Hb]], Hb' as [[<- Heq]|[_ Hb']];
      [done|exfalso; by eapply Hno|injection Heq as -> ->; exfalso; by eapply Hno|by eapply l3].
  - done.
Qed.

Lemma structs_add P M C R Hs a k i rs :
  structs (a :: P) M C R Hs → R !! a = None → size_classes !! i = Some rs → room M a (run_struct_size rs) →
  structs P M C (<[a := (k, i)]> R) Hs.
Proof.
  intros [s1 s2 s3 s4 s5] Ha Hc Hroom. split; try done.
  - rewrite s1, map_to_list_insert, fmap_cons by done. cbn [fst app].
    rewrite !(app_assoc P). apply Permutation_middle.
  - intros b kb j rs' Hb Hj. apply lookup_insert_Some in Hb as [[<- [= -> ->]]|[_ Hb]]; [|by eapply s4].
    rewrite Hc in Hj. by injection Hj as <-.
Qed.

Lemma add_fresh_run_ok w S i bin A I :
  arena_pend [] None w S → Z.of_nat i < ARENA_NO_BINS →
  acell (bins (w_arena w)) (Z.of_nat i) = bin → g_bins S i = (A, I) →
  bin_slot i bin (w_runs w) A I (g_regs S) → avail_regs bin < 2 ^ 19 →
  add_fresh_run (Z.of_nat i) w = Fail Diverged ∨
  ∃ w' S' bin' a k, add_fresh_run (Z.of_nat i) w = Ok (true, w') ∧ arena_pend [] None w' S' ∧
    w_mem w' = w_mem w ∧ bins (w_arena w') = aupd (bins (w_arena w)) (Z.of_nat i) bin' ∧
    g_bins S' = <[i := ((a, k) :: A, I)]> (g_bins S) ∧
    bin_slot i bin' (w_runs w') ((a, k) :: A) I (g_regs S') ∧
    avail_regs bin' = avail_regs bin + class_elems (reg_size bin) ∧ reg_size bin' = reg_size bin ∧
    steady S S'.
Proof.
  intros Hinv Hi Hbin HB [Hcl Hrep Hav] Hlow. unfold add_fresh_run.
  pose proof (br_len _ _ _ _ _ (ai_bins _ _ _ _ Hinv)) as Hlen.
  ok_rw (rd_bin_ok w (Z.of_nat i) Hlen ltac:(lia)). rewrite Hbin.
  pose proof (bl_geo _ _ _ _ _ (br_lists _ _ _ _ _ Hrep)) as Hgeo.
  destruct (arena_allocate_run_ok [] w S bin Hinv Hgeo) as
    [Hd|(run & k & x & w1 & S1 & Har & Hnz & Hinv1 & [Hf1 Hf2] & Hx & Hex & Hrx & Hfr & Hroom & E1 & E2 & E3 & E4 & Egr)];
    [left; by rewrite Hd|right].
  ok_rw Har. rewrite (proj2 (Z.eqb_neq run 0)) by done.
  pose proof Hinv1 as [_ _ Hm1 _ _ Hb1 Hl1 Hs1 _]. rewrite <- Hf2 in Hbin, Hlen |- *.
  ok_rw (rd_bin_ok w1 (Z.of_nat i) Hlen ltac:(lia)). rewrite Hbin.
  rewrite E2, E3, E4 in Hb1. rewrite E2 in Hl1, Hs1.
  assert (bin_rep bin (w_runs w1) A I (g_regs S)) as Hrep1.
  { destruct (br_slot _ _ _ _ _ Hb1 i Hi) as [[Hno _]|[_ Hr _]].
    - rewrite Hbin in Hno. exfalso. rewrite Hno in Hgeo. destruct (class_positive _ (bg_class _ Hgeo)). done.
    - by rewrite Hbin, HB in Hr. }
  assert (∀ y, y ∈ A ++ I → g_runs S !! y.1 = Some (y.2, i)) as Hlist.
  { intros [b kb] Hy. apply (br_run _ _ _ _ _ Hb1). by rewrite HB. }
  destruct (bin_add_run_ok bin (w_runs w1) A I (g_regs S) Hrep1 run k x) as
    (bin' & runs' & Hadd & Hrep2 & Hrs & Hav2 & Hoth); try done.
  - intros (y & -> & Hy)%list_elem_of_fmap. by rewrite (Hlist y Hy) in Hfr.
  - intros (y & -> & Hy)%list_elem_of_fmap. destruct (ln_new _ _ _ Hl1 _ _ eq_refl) as [_ Hno].
    apply (Hno y.1 i). by apply Hlist.
  - lia.
  - destruct (structs_counts _ _ _ _ _ _ Hm1 Hs1) as (_ & Hsz & _).
    pose proof (bin_lists_bound _ _ _ _ _ i Hb1 Hi) as Hbd. rewrite HB in Hbd. cbn [fst snd] in Hbd.
    assert (NoDup (A ++ I).*1) as Hnd by apply Hrep1. specialize (Hbd Hnd). lia.
  - ok_rw Hadd. rewrite wr_bin_ok by (done || lia). cbn [mbind outcome_bind].
    pose proof (class_shape _ (bg_class _ Hgeo)) as (Hce & _).
    assert (bin_slot i bin' runs' ((run, k) :: A) I (<[run := ([], ∅)]> (g_regs S))) as Hslot2.
    { split; [by rewrite Hrs|done|lia]. }
    exists (set_bins_runs w1 (aupd (bins (w_arena w1)) (Z.of_nat i) bin') runs'),
      (with_bins S1 (<[run := (k, i)]> (g_runs S)) (<[run := ([], ∅)]> (g_regs S)) (<[i := ((run, k) :: A, I)]> (g_bins S))),
      bin', run, k.
    split; [done|]. split; [|split; [done|split; [done|split; [done|split; [done|split; [done|split; [done|]]]]]]].
    + apply (arena_pend_bins [run] (Some (k, reg_size bin))); [done| | |].
      * apply (bins_rep_update _ (w_runs w1) (g_runs S) (g_regs S)); [done|done|done|..].
        { intros b kb j Hj Hb. assert (b ≠ run) as Hne by (intros ->; by rewrite Hfr in Hb).
          split; [|by apply lookup_insert_ne]. apply Hoth; [done|].
          intros (y & -> & Hy)%list_elem_of_fmap. rewrite (Hlist y Hy) in Hb. by simplify_eq. }
        { intros b kb j. cbn [app]. destruct (decide (j = i)) as [->|Hne].
          - rewrite elem_of_cons. split.
            + intros [[<- [= ->]]|[Hne Hb]]%lookup_insert_Some; [by left|right].
              apply (br_run _ _ _ _ _ Hb1) in Hb as [_ Hb]. by rewrite HB in Hb.
            + intros [[= -> ->]|Hb]; [by rewrite lookup_insert_eq|]. pose proof (Hlist _ Hb) as Hl. cbn [fst snd] in Hl.
              rewrite lookup_insert_ne; [done|]. intros ->. by rewrite Hfr in Hl.
          - split.
            + by intros [[_ [= _ <-]]|[_ Hb]]%lookup_insert_Some.
            + intros Hb. rewrite lookup_insert_ne; [done|]. intros ->. by rewrite Hfr in Hb. }
      * by apply (links_add _ _ _ (reg_size bin)).
      * rewrite E1 in *. by apply (structs_add _ _ _ _ _ _ _ _ (reg_size bin)).
    + split; [|split; [|exact Egr|cbn [with_bins g_huges]; by rewrite E1]].
      2: { intros a x' iss fr jx Ha HG Hj. cbn [with_bins g_runs g_regs].
           assert (run ≠ a) as Hne by (intros <-; by rewrite Hfr in Ha). rewrite !lookup_insert_ne by done.
           split; [done|by exists iss, fr]. }
      intros p n. split.
      * intros [a ka j rs iss fr jx Ha Hc HG Hj Hjf|a p' n' Hin]; cbn [with_bins g_runs g_regs g_huges] in *.
        -- apply lookup_insert_Some in HG as [[<- [= <- <-]]|[Hne HG]]; [by apply not_elem_of_nil in Hj|].
           rewrite lookup_insert_ne in Ha by done. by eapply live_regular.
        -- rewrite E1 in Hin. by eapply live_huge.
      * intros [a ka j rs iss fr jx Ha Hc HG Hj Hjf|a p' n' Hin].
        -- assert (run ≠ a) as Hne by (intros <-; by rewrite Hfr in Ha).
           eapply (live_regular _ a ka j rs iss fr jx); cbn [with_bins g_runs g_regs]; rewrite ?lookup_insert_ne by done; done.
        -- eapply live_huge. cbn [with_bins g_huges]. by rewrite E1.
Qed.

(** ** Supplying a bin *)

(** [w'] differs from [w] in bin [i], and in no other bin nor in user memory. *)
Record only_bin (i : nat) w w' : Prop := {
  ob_mem : w_mem w' = w_mem w;
  ob_bins : ∀ j : nat, j ≠ i → acell (bins (w_arena w')) (Z.of_nat j) = acell (bins (w_arena w)) (Z.of_nat j)
}.

#[export] Instance only_bin_preorder i : PreOrder (only_bin i).
Proof.
  split; [by intros w; split|]. intros w1 w2 w3 [M1 B1] [M2 B2].
  split; [by rewrite M2|]. intros j Hj. by rewrite B2, B1.
Qed.

Lemma only_bin_aupd i bin w w' :
  w_mem w' = w_mem w → bins (w_arena w') = aupd (bins (w_arena w)) (Z.of_nat i) bin → only_bin i w w'.
Proof. intros Hm Hb. split; [done|]. intros j Hj. rewrite Hb. apply acell_aupd_ne. lia. Qed.

(** The bin [i] of a world is [bin], with runs. *)
Record bin_at (i : nat) (bin : bin_t) w (S : arena_g) : Prop := {
  ba_index : Z.of_nat i < ARENA_NO_BINS;
  ba_cell : acell (bins (w_arena w)) (Z.of_nat i) = bin;
  ba_slot : bin_slot i bin (w_runs w) (g_bins S i).1 (g_bins S i).2 (g_regs S)
}.

Lemma bin_at_elems i bin w S : bin_at i bin w S → 1 ≤ class_elems (reg_size bin) ≤ 1024.
Proof.
  intros [_ _ [Hc _ _]]. by apply class_shape, (list_elem_of_lookup_2 _ i).
Qed.

Lemma add_fresh_run_at w S i bin :
  arena_pend [] None w S → bin_at i bin w S → avail_regs bin < 2 ^ 19 →
  add_fresh_run (Z.of_nat i) w = Fail Diverged ∨
  ∃ w' S' bin', add_fresh_run (Z.of_nat i) w = Ok (true, w') ∧ arena_pend [] None w' S' ∧
    bin_at i bin' w' S' ∧ only_bin i w w' ∧ steady S S' ∧ reg_size bin' = reg_size bin ∧
    avail_regs bin' = avail_regs bin + class_elems (reg_size bin).
Proof.
  intros Hinv [Hi Hbin Hslot] Hav.
  destruct (add_fresh_run_ok w S i bin _ _ Hinv Hi Hbin (surjective_pairing _) Hslot Hav) as
    [Hd|(w' & S' & bin' & a & k & Heq & Hinv' & Hmem & Hbins & HB & Hslot' & Hav' & Hrs & Hlive)]; [by left|right].
  exists w', S', bin'. split; [done|]. split; [done|].
  split; [|split; [by apply (only_bin_aupd i bin')|done]].
  split; [done| |]; rewrite ?HB, ?Hbins, ?fn_lookup_insert, ?acell_aupd_eq; done.
Qed.

Lemma supply_loop_ok i (m : nat) : ∀ w S bin,
  arena_pend [] None w S → bin_at i bin w S →
  avail_regs bin + Z.of_nat m * class_elems (reg_size bin) ≤ 2 ^ 18 →
  supply_loop m (Z.of_nat i) w = Fail Diverged ∨
  ∃ w' S' bin', supply_loop m (Z.of_nat i) w = Ok (true, w') ∧ arena_pend [] None w' S' ∧
    bin_at i bin' w' S' ∧ only_bin i w w' ∧ steady S S' ∧ reg_size bin' = reg_size bin ∧
    avail_regs bin' = avail_regs bin + Z.of_nat m * class_elems (reg_size bin).
Proof.
  induction m as [|m IH]; intros w S bin Hinv Hat Hav.
  { right. exists w, S, bin. split_and!; try done. lia. }
  pose proof (bin_at_elems _ _ _ _ Hat) as Hel. cbn [supply_loop].
  destruct (add_fresh_run_at w S i bin Hinv Hat ltac:(nia)) as
    [->|(w1 & S1 & bin1 & -> & Hinv1 & Hat1 & Hob1 & Hlv1 & Hrs1 & Hav1)]; [by left|].
  cbn [mbind outcome_bind].
  destruct (IH w1 S1 bin1 Hinv1 Hat1) as [->|(w2 & S2 & bin2 & -> & Hinv2 & Hat2 & Hob2 & Hlv2 & Hrs2 & Hav2)];
    [rewrite Hrs1; lia|by left|right].
  exists w2, S2, bin2. split; [done|]. split; [done|]. split; [done|]. split; [by etrans|]. split; [by etrans|].
  split; [congruence|]. rewrite Hav2, Hav1, Hrs1. lia.
Qed.

(** arena_supply_runs of an empty bin leaves at least BIN_MINIMUM_REGIONS regions. *)
Lemma arena_supply_runs_ok i w S bin :
  arena_pend [] None w S → bin_at i bin w S → avail_regs bin = 0 →
  arena_supply_runs (Z.of_nat i) w = Fail Diverged ∨
  ∃ w' S' bin', arena_supply_runs (Z.of_nat i) w = Ok (true, w') ∧ arena_pend [] None w' S' ∧
    bin_at i bin' w' S' ∧ only_bin i w w' ∧ steady S S' ∧ reg_size bin' = reg_size bin ∧
    256 ≤ avail_regs bin' ≤ 1280.
Proof.
  intros Hinv Hat Hav. pose proof (bin_at_elems _ _ _ _ Hat) as Hel. unfold arena_supply_runs.
  pose proof (br_len _ _ _ _ _ (ai_bins _ _ _ _ Hinv)) as Hlen. pose proof Hat as [Hi Hcell [Hc Hrep _]].
  ok_rw (rd_bin_ok w (Z.of_nat i) Hlen ltac:(lia)). rewrite Hcell, Hav.
  ok_assert by done. change (u32 (BIN_MINIMUM_REGIONS - 0)) with 256.
  rewrite (bg_bits _ (bl_geo _ _ _ _ _ (br_lists _ _ _ _ _ Hrep))).
  set (e := class_elems (reg_size bin)) in *. rewrite (Z.mul_comm 2 e), Z.div_mul by lia.
  unfold ceil_div. rewrite udiv_ok, umod_ok by lia. cbn [mbind outcome_bind].
  pose proof (Z.div_mod 256 e ltac:(lia)) as Hdm. pose proof (Z.mod_pos_bound 256 e ltac:(lia)) as Hmb.
  assert (0 ≤ 256 / e ≤ 256) as Hq by (split; [apply Z.div_pos; lia|apply Z.div_le_upper_bound; nia]).
  set (m := 256 / e + (if 256 mod e =? 0 then 0 else 1)).
  assert (256 ≤ m * e ≤ 1280 ∧ 0 ≤ m ≤ 257) as [Hm1 Hm2].
  { unfold m. destruct (Z.eqb_spec (256 mod e) 0); nia. }
  rewrite (wrap_small 32 m) by lia.
  destruct (supply_loop_ok i (Z.to_nat m) w S bin Hinv Hat) as
    [->|(w' & S' & bin' & -> & Hinv' & Hat' & Hob & Hlv & Hrs & Hav')]; [|by left|right].
  { fold e. rewrite Z2Nat.id by lia. lia. }
  exists w', S', bin'. split_and!; try done; rewrite Hav'; fold e; rewrite Z2Nat.id by lia; lia.
Qed.

(** ** The bin of a size class *)
Lemma class_index_lt i s : size_classes !! i = Some s → Z.of_nat i < ARENA_NO_BINS.
Proof.
  intros Hi%lookup_lt_Some. rewrite size_classes_eq in Hi. cbn [length] in Hi.
  change ARENA_NO_BINS with 43. lia.
Qed.

Lemma class_index_inj i j s : size_classes !! i = Some s → size_classes !! j = Some s → i = j.
Proof.
  intros Hi Hj. eapply (NoDup_lookup size_classes); [|done|done].
  rewrite size_classes_eq. apply (bool_decide_eq_true_1 _). reflexivity.
Qed.

(** A bin of the class is in use: arena_get_bin_by_reg_size finds it. *)
Lemma get_bin_used w S rs i bin :
  arena_pend [] None w S → bin_at i bin w S → reg_size bin = rs →
  arena_get_bin_by_reg_size rs w = Ok (Z.of_nat i, w).
Proof.
  intros Hinv [Hi Hcell [Hc Hrep _]] Hrs. rewrite Hrs in Hc.
  pose proof (list_elem_of_lookup_2 _ _ _ Hc) as Hcl. pose proof (class_positive rs Hcl) as Hpos.
  pose proof (br_len _ _ _ _ _ (ai_bins _ _ _ _ Hinv)) as Hlen.
  unfold arena_get_bin_by_reg_size. ok_assert by by rewrite (ai_init _ _ _ _ Hinv).
  ok_assert by lia. ok_assert by (change LARGE_SIZE_MAX_REGION with 1048576; lia).
  destruct (bin_index_ok rs Hcl) as (j & Hidx & _ & Hj).
  assert (j = i) as -> by (by eapply class_index_inj). ok_rw Hidx.
  ok_rw (rd_bin_ok w (Z.of_nat i) Hlen ltac:(lia)). rewrite Hcell, Hrs.
  rewrite (proj2 (Z.eqb_neq rs 0)) by lia. cbn [mbind outcome_bind].
  by ok_assert by by (rewrite Hrs; apply Z.eqb_refl).
Qed.

Lemma bin_rep_empty bin runs G G' : bin_rep bin runs [] [] G → bin_rep bin runs [] [] G'.
Proof. intros Hr. eapply bin_rep_frame; [done|]. intros a Ha%not_elem_of_nil. done. Qed.

(** arena_get_bin_by_reg_size of a size class: the bin, initialised on first use. *)
Lemma arena_get_bin_ok w S rs :
  arena_pend [] None w S → rs ∈ size_classes →
  ∃ i bin w' S', arena_get_bin_by_reg_size rs w = Ok (Z.of_nat i, w') ∧ arena_pend [] None w' S' ∧
    bin_at i bin w' S' ∧ reg_size bin = rs ∧ steady S S' ∧
    (w' = w ∨ only_bin i w w' ∧ avail_regs bin = 0).
Proof.
  intros Hinv Hcl. destruct (bin_index_ok rs Hcl) as (i & Hidx & Hi & Hc).
  pose proof (ai_bins _ _ _ _ Hinv) as Hb. pose proof (br_len _ _ _ _ _ Hb) as Hlen.
  destruct (br_slot _ _ _ _ _ Hb i Hi) as [[Hno HB]|Hslot].
  - pose proof (class_positive rs Hcl) as Hpos.
    destruct (bin_init_ok rs (w_runs w) (g_regs S) Hcl) as (bin & Hinit & Hrs & Hgeo & Hav & Hrep).
    assert (bin_slot i bin (w_runs w) [] [] (g_regs S)) as Hslot.
    { split; [by rewrite Hrs|done|by rewrite Hav]. }
    exists i, bin. eexists (set_bins_runs w _ (w_runs w)), (with_bins S (g_runs S) (g_regs S) (<[i := ([], [])]> (g_bins S))).
    split; [|split; [|split; [|split; [done|split; [|right; split; [|done]]]]]].
    + unfold arena_get_bin_by_reg_size. ok_assert by by rewrite (ai_init _ _ _ _ Hinv).
      ok_assert by lia. ok_assert by (change LARGE_SIZE_MAX_REGION with 1048576; lia).
      ok_rw Hidx. ok_rw (rd_bin_ok w (Z.of_nat i) Hlen ltac:(lia)). rewrite Hno.
      change (reg_size no_bin =? 0) with true. cbv iota. ok_rw Hinit.
      assert (w = set_runs w (w_runs w)) as Hw by (by destruct w).
      assert (wr_bin w (Z.of_nat i) bin = Ok (set_bins_runs w (aupd (bins (w_arena w)) (Z.of_nat i) bin) (w_runs w))) as Hwr.
      { rewrite Hw at 1. apply wr_bin_ok; [done|lia]. }
      rewrite Hwr. cbn [mbind outcome_bind]. ok_assert by by (rewrite Hrs; apply Z.eqb_refl). reflexivity.
    + eapply (arena_pend_bins [] None); [done| |apply Hinv|apply Hinv].
      apply (bins_rep_update _ (w_runs w) (g_runs S) (g_regs S)); [done|done|done|done|].
      intros a k j. destruct (decide (j = i)) as [->|]; [|done].
      rewrite (br_run _ _ _ _ _ Hb), HB. cbn [fst snd app]. set_solver.
    + split; [done| |]; cbn [with_bins g_bins g_regs w_runs w_arena set_bins_runs set_arena set_runs set_bins bins];
        rewrite ?fn_lookup_insert, ?acell_aupd_eq; done.
    + split; [|split; [|done|done]].
      * intros p n. split; intros [a ka j rs' iss fr jx Ha Hc' HG Hj Hjf|a p' n' Hin];
          [by eapply live_regular|by eapply live_huge|by eapply (live_regular _ a)|by eapply live_huge].
      * intros a x iss fr j Ha HG Hj. split; [done|by exists iss, fr].
    + by apply (only_bin_aupd i bin).
  - set (bin := acell (bins (w_arena w)) (Z.of_nat i)) in *.
    assert (reg_size bin = rs) as Hrs.
    { destruct Hslot as [Hc' _ _]. rewrite Hc in Hc'. by injection Hc'. }
    assert (bin_at i bin w S) as Hat by done.
    exists i, bin, w, S. split; [by eapply get_bin_used|]. by split_and!; auto.
Qed.

(** ** Taking a region *)
Lemma take_region_ok i w S bin :
  arena_pend [] None w S → bin_at i bin w S → 256 ≤ avail_regs bin →
  ∃ p w' S' bin', take_region (Z.of_nat i) w = Ok (p, w') ∧ arena_pend [] None w' S' ∧
    bin_at i bin' w' S' ∧ only_bin i w w' ∧ reg_size bin' = reg_size bin ∧
    avail_regs bin' = avail_regs bin - 1 ∧ p ≠ 0 ∧
    (∀ q m, live_region S' q m ↔ (q = p ∧ m = reg_size bin) ∨ live_region S q m) ∧
    ¬ issued_region S p (reg_size bin) ∧ grown S S'.
Proof.
  intros Hinv Hat Hav. pose proof Hat as [Hi Hcell [Hc Hrep Hmax]].
  pose proof (ai_bins _ _ _ _ Hinv) as Hb. pose proof (br_len _ _ _ _ _ Hb) as Hlen.
  unfold take_region. ok_rw (rd_bin_ok w (Z.of_nat i) Hlen ltac:(lia)). rewrite Hcell.
  destruct (allocate_from_bin_ok bin (w_runs w) _ _ _ Hrep (w_rng w) Hav) as
    (x & r' & a & k & iss & fr & j & bin' & runs' & A' & I' & _ & Hak & HG & Hj & Hfresh & Hal & Hrep' & Hperm & Hrs & Hav' & Hoth).
  ok_rw Hal. set (rs := reg_size bin) in *.
  pose (w1 := set_rng w r').
  assert (alen (bins (w_arena w1)) = ARENA_NO_BINS) as Hlen1 by done.
  change (set_rng (set_runs w runs') r') with (set_runs w1 runs').
  rewrite (wr_bin_ok w1) by (done || lia). cbn [mbind outcome_bind].
  assert ((a, k) ∈ (g_bins S i).1 ++ (g_bins S i).2) as Hin.
  { apply elem_of_app. left. by eapply list_elem_of_lookup_2. }
  assert (g_runs S !! a = Some (k, i)) as Ha by (by apply (br_run _ _ _ _ _ Hb)).
  assert (arena_pend [] None w1 S) as Hinv1 by (destruct Hinv; by split).
  set (G' := <[a := (iss ++ [j], fr)]> (g_regs S)) in *.
  assert (bin_slot i bin' runs' A' I' G') as Hslot' by (split; [by rewrite Hrs|done|lia]).
  set (S' := with_bins S (g_runs S) G' (<[i := (A', I')]> (g_bins S))).
  set (w' := set_bins_runs w1 (aupd (bins (w_arena w1)) (Z.of_nat i) bin') runs').
  assert (arena_pend [] None w' S') as Hinv'.
  { apply (arena_pend_bins [] None); [done| |apply Hinv|apply Hinv].
    apply (bins_rep_update _ (w_runs w) (g_runs S) (g_regs S)); [done|done|done|..].
    + intros b kb i' Hne Hbk. split.
      * apply Hoth. intros ([b' kb'] & -> & Hy)%list_elem_of_fmap. cbn [fst] in Hbk.
        assert (g_runs S !! b' = Some (kb', i)) as Hb' by (by apply (br_run _ _ _ _ _ Hb)).
        rewrite Hbk in Hb'. by simplify_eq.
      * unfold G'. apply lookup_insert_ne. intros ->. rewrite Ha in Hbk. by simplify_eq.
    + intros b kb i'. destruct (decide (i' = i)) as [->|]; [|done].
      rewrite (br_run _ _ _ _ _ Hb), Hperm. naive_solver. }
  assert (j ∈ iss ++ [j]) as Hjin by (apply elem_of_app; right; by left).
  assert (g_regs S' !! a = Some (iss ++ [j], fr)) as HGa by apply lookup_insert_eq.
  exists (k + j * rs), w', S', bin'.
  split; [reflexivity|]. split; [done|split; [|split; [|split; [done|split; [done|split; [|split]]]]]].
  - split; [done| |]; unfold S', w'; cbn [with_bins g_bins g_regs w_runs w_arena set_bins_runs set_arena set_runs set_bins bins];
      rewrite ?fn_lookup_insert, ?acell_aupd_eq; done.
  - by apply (only_bin_aupd i bin').
  - destruct (ln_run _ _ _ (ai_links _ _ _ _ Hinv) a k i Ha) as (rs' & _ & Hlr).
    pose proof (live_run_addr _ _ _ _ _ (ai_chunks _ _ _ _ Hinv) Hlr).
    pose proof (class_positive rs (list_elem_of_lookup_2 _ _ _ Hc)). nia.
  - intros q m. split.
    + intros [b kb ib rs' iss' fr' jx Hbk Hc' HG' Hjx Hjf|b p' n' Hhg]; [|right; by eapply live_huge].
      unfold S' in *. cbn [with_bins g_runs g_regs] in *. unfold G' in HG'.
      apply lookup_insert_Some in HG' as [[<- [= <- <-]]|[Hne HG']]; [|right; by eapply live_regular].
      rewrite Ha in Hbk. injection Hbk as <- <-. rewrite Hc in Hc'. injection Hc' as <-.
      apply elem_of_app in Hjx as [Hjx|Hjx%list_elem_of_singleton]; [right; by eapply live_regular|].
      left. by subst jx.
    + intros [[-> ->]|[b kb ib rs' iss' fr' jx Hbk Hc' HG' Hjx Hjf|b p' n' Hhg]]; [| |by eapply live_huge].
      * apply (live_regular _ a k i rs (iss ++ [j]) fr j); [done|done|by apply lookup_insert_eq|apply elem_of_app; right; by left|].
        intros Hjf. apply Hfresh. destruct (bl_runs _ _ _ _ _ (br_lists _ _ _ _ _ Hrep) _ Hin) as (run & i1 & f1 & _ & _ & HG1 & Hr1).
        cbn [fst] in HG1. rewrite HG in HG1. injection HG1 as <- <-. by eapply rr_freed.
      * destruct (decide (a = b)) as [<-|Hne].
        -- rewrite HG in HG'. injection HG' as <- <-.
           eapply (live_regular _ a kb ib rs' (iss ++ [j]) fr jx); [done|done|by apply lookup_insert_eq|apply elem_of_app; by left|done].
        -- eapply (live_regular _ b kb ib rs' iss' fr' jx); [done|done|cbn; unfold G'; by rewrite lookup_insert_ne|done|done].
  - split.
    2: { split; [|done|done]. intros b x0 iss' fr' jx Hb' HG' Hjx. split; [done|].
         cbn [with_bins g_regs S']. unfold G'. destruct (decide (a = b)) as [<-|Hne].
         - rewrite HG in HG'. injection HG' as <- <-. exists (iss ++ [j]), fr. rewrite lookup_insert_eq.
           split; [done|]. split; [apply elem_of_app; by left|done].
         - exists iss', fr'. by rewrite lookup_insert_ne. }
    assert (range (k + j * rs) rs (k + j * rs)) as Hself.
    { pose proof (class_positive rs (list_elem_of_lookup_2 _ _ _ Hc)). unfold range. lia. }
    intros [(b & kb & ib & iss' & fr' & jx & Hbk & Hc' & HG' & Hjx & Heq)|[b Hhg]]%issued_region_inv.
    + destruct (decide (a = b)) as [<-|Hne].
      * rewrite HG in HG'. injection HG' as <- <-. rewrite Ha in Hbk. injection Hbk as <- <-.
        assert (jx = j) as ->; [|done]. pose proof (class_positive rs (list_elem_of_lookup_2 _ _ _ Hc)). nia.
      * destruct (regular_overlap [] None w' S' a k i rs (iss ++ [j]) fr j b kb ib rs iss' fr' jx (k + j * rs)) as [? _]; try done.
        -- cbn. unfold G'. by rewrite lookup_insert_ne.
        -- by rewrite Heq in Hself at 1.
    + by apply (regular_not_huge [] None w' S' a k i rs (iss ++ [j]) fr j b (k + j * rs) rs (k + j * rs)).
Qed.
End arena_bins.
