(* ===== verification/SeallocInv.v ===== *)
(** * SeallocInv: what malloc and free do to the regions of the user

    [sealloc_inv] is the invariant between two calls of the allocator: the invariant of
    the arena, and bins that are empty or supplied.  [sealloc_malloc_ok] and
    [sealloc_free_ok] state the effect of the two calls on the live regions. *)
From Stdlib Require Import ZArith Lia.
From stdpp Require Import base option numbers functions sorting list gmap.
From S2P Require Import Prelude.
From S2P Require Import CArray.
From S2P Require Import Utils.
From S2P Require Import SizeClass.
From S2P Require Import Random.
From S2P Require Import ContainerLL.
From S2P Require Import Platform.
From S2P Require Import KernelSpec.
From S2P Require Import Run.
From S2P Require Import Bin.
From S2P Require Import InternalAllocator.
From S2P Require Import IntAllocTree.
From S2P Require Import IntAllocProps.
From S2P Require Import Chunk.
From S2P Require Import ChunkTree.
From S2P Require Import ChunkAlloc.
From S2P Require Import ChunkRun.
From S2P Require Import ChunkBuddy.
From S2P Require Import ChunkSpec.
From S2P Require Import World.
From S2P Require Import Arena.
From S2P Require Import ArenaMeta.
From S2P Require Import ArenaInv.
From S2P Require Import ChunkProps.
From S2P Require Import ArenaOps.
From S2P Require Import ArenaHuge.
From S2P Require Import Sealloc.
From S2P Require Import ArenaBins.

Section sealloc_inv.
Context `{Build} `{KernelLaws OS}.
Implicit Types w : world OS.

(** A bin has no regions, or one less than the minimum, or more. *)
Definition bin_supplied (bin : bin_t) : Prop := avail_regs bin = 0 ∨ 255 ≤ avail_regs bin ≤ 2048.
Definition supplied w : Prop :=
  ∀ i : nat, Z.of_nat i < ARENA_NO_BINS → bin_supplied (acell (bins (w_arena w)) (Z.of_nat i)).

Record sealloc_inv w (S : arena_g) : Prop := {
  al_arena : arena_pend [] None w S;
  al_supplied : supplied w
}.

Lemma supplied_only i w w' :
  supplied w → only_bin i w w' → bin_supplied (acell (bins (w_arena w')) (Z.of_nat i)) → supplied w'.
Proof.
  intros Hs [_ Hb] Hi j Hj. destruct (decide (j = i)) as [->|Hne]; [done|]. rewrite Hb by done. by apply Hs.
Qed.

Lemma supplied_frame w w' : supplied w → bins (w_arena w') = bins (w_arena w) → supplied w'.
Proof. intros Hs Hb i Hi. rewrite Hb. by apply Hs. Qed.

(** The effect of an allocation of [n] bytes at [p]. *)
Record allocated (S S' : arena_g) (p n : Z) : Prop := {
  at_nonnull : p ≠ 0;
  at_live : ∀ q m, live_region S' q m ↔ (q = p ∧ m = n) ∨ live_region S q m;
  at_new : ¬ issued_region S p n;
  at_grown : grown S S'
}.

Lemma allocated_same S0 S S' p n : steady S0 S → allocated S S' p n → allocated S0 S' p n.
Proof.
  intros [Hs Hg] [H1 H2 H3 H4]. split; [done| |by intros ?%(grown_issued _ _ _ _ Hg)|by etrans].
  intros q m. by rewrite H2, (Hs q m).
Qed.

(** sealloc_allocate_with_bin from a supplied bin. *)
Lemma sealloc_allocate_with_bin_ok i w S bin :
  arena_pend [] None w S → bin_at i bin w S → 255 ≤ avail_regs bin ≤ 1281 ∨ bin_supplied bin ∧ avail_regs bin ≠ 0 →
  sealloc_allocate_with_bin (Z.of_nat i) w = Fail Diverged ∨
  ∃ p w' S', sealloc_allocate_with_bin (Z.of_nat i) w = Ok (p, w') ∧ arena_pend [] None w' S' ∧
    only_bin i w w' ∧ bin_supplied (acell (bins (w_arena w')) (Z.of_nat i)) ∧
    allocated S S' p (reg_size bin) ∧ reg_size (acell (bins (w_arena w')) (Z.of_nat i)) = reg_size bin.
Proof.
  intros Hinv Hat Hav0.
  assert (255 ≤ avail_regs bin ≤ 2048) as Hav by (unfold bin_supplied in Hav0; lia). clear Hav0.
  pose proof (br_len _ _ _ _ _ (ai_bins _ _ _ _ Hinv)) as Hlen. pose proof Hat as [Hi Hcell _].
  pose proof (bin_at_elems _ _ _ _ Hat) as Hel.
  assert (∀ w1 S1 bin1, arena_pend [] None w1 S1 → bin_at i bin1 w1 S1 → only_bin i w w1 → steady S S1 →
    reg_size bin1 = reg_size bin → 256 ≤ avail_regs bin1 ≤ 2048 →
    ∃ p w' S', take_region (Z.of_nat i) w1 = Ok (p, w') ∧ arena_pend [] None w' S' ∧
      only_bin i w w' ∧ bin_supplied (acell (bins (w_arena w')) (Z.of_nat i)) ∧ allocated S S' p (reg_size bin) ∧
      reg_size (acell (bins (w_arena w')) (Z.of_nat i)) = reg_size bin) as Htake.
  { intros w1 S1 bin1 Hinv1 Hat1 Hob Hlv Hrs Hav1.
    destruct (take_region_ok i w1 S1 bin1 Hinv1 Hat1 ltac:(lia)) as
      (p & w' & S' & bin' & Ht & Hinv' & Hat' & Hob' & Hrs' & Hav' & Hp & Hl & Hn & Hgr).
    exists p, w', S'. split; [done|]. split; [done|]. split; [by etrans|].
    split; [rewrite (ba_cell _ _ _ _ Hat'); right; lia|].
    split; [|rewrite (ba_cell _ _ _ _ Hat'); congruence].
    rewrite Hrs in *. eapply allocated_same; [done|]. by split. }
  unfold sealloc_allocate_with_bin. ok_rw (rd_bin_ok w (Z.of_nat i) Hlen ltac:(lia)). rewrite Hcell.
  change BIN_MINIMUM_REGIONS with 256. destruct (Z.ltb_spec (avail_regs bin) 256) as [Hlt|Hge].
  - destruct (add_fresh_run_at w S i bin Hinv Hat ltac:(lia)) as
      [->|(w1 & S1 & bin1 & -> & Hinv1 & Hat1 & Hob1 & Hlv1 & Hrs1 & Hav1)]; [by left|right].
    cbn [mbind outcome_bind]. apply (Htake w1 S1 bin1); try done; lia.
  - right. apply (Htake w S bin); try done; lia.
Qed.

(** The bin of a size class, with regions in it. *)
Lemma supplied_bin_ok w S s :
  sealloc_inv w S → s ∈ size_classes →
  ∃ i w1 bin, arena_get_bin_by_reg_size (u32 s) w = Ok (Z.of_nat i, w1) ∧ rd_bin w1 (Z.of_nat i) = Ok bin ∧
    let supply := if avail_regs bin =? 0 then arena_supply_runs (Z.of_nat i) w1 else Ok (true, w1) in
    supply = Fail Diverged ∨
    ∃ w2 S2 bin2, supply = Ok (true, w2) ∧ arena_pend [] None w2 S2 ∧ bin_at i bin2 w2 S2 ∧ only_bin i w w2 ∧
      steady S S2 ∧ reg_size bin2 = s ∧ 255 ≤ avail_regs bin2 ≤ 2048.
Proof.
  intros [Hinv Hsup] Hs. pose proof (class_positive s Hs) as Hpos. rewrite wrap_small by lia.
  destruct (arena_get_bin_ok w S s Hinv Hs) as (i & bin & w1 & S1 & Hget & Hinv1 & Hat1 & Hrs & Hlv1 & Hw1).
  pose proof (br_len _ _ _ _ _ (ai_bins _ _ _ _ Hinv1)) as Hlen. pose proof Hat1 as [Hi Hcell _].
  exists i, w1, bin. split; [done|]. split; [rewrite (rd_bin_ok w1 (Z.of_nat i) Hlen) by lia; by rewrite Hcell|].
  assert (only_bin i w w1 ∧ bin_supplied bin) as [Hob1 Hbs].
  { destruct Hw1 as [->|[Hob Hav]]; [|split; [done|by left]]. split; [done|]. rewrite <- Hcell. by apply Hsup. }
  cbv zeta. destruct (Z.eqb_spec (avail_regs bin) 0) as [Hz|Hnz].
  - destruct (arena_supply_runs_ok i w1 S1 bin Hinv1 Hat1 Hz) as
      [->|(w2 & S2 & bin2 & -> & Hinv2 & Hat2 & Hob2 & Hlv2 & Hrs2 & Hav2)]; [by left|right].
    exists w2, S2, bin2. split; [done|]. split; [done|]. split; [done|]. split; [by etrans|]. split; [by etrans|].
    split; [congruence|lia].
  - right. exists w1, S1, bin. split; [done|]. split; [done|]. split; [done|]. split; [done|]. split; [done|].
    split; [done|]. destruct Hbs; [done|lia].
Qed.

(** A region of a bin that has been supplied. *)
Lemma supplied_region_ok i w S w2 S2 bin :
  supplied w → arena_pend [] None w2 S2 → bin_at i bin w2 S2 → only_bin i w w2 → steady S S2 →
  255 ≤ avail_regs bin ≤ 2048 →
  sealloc_allocate_with_bin (Z.of_nat i) w2 = Fail Diverged ∨
  ∃ p w' S', sealloc_allocate_with_bin (Z.of_nat i) w2 = Ok (p, w') ∧ sealloc_inv w' S' ∧ w_mem w' = w_mem w ∧
    allocated S S' p (reg_size bin) ∧ reg_size (acell (bins (w_arena w')) (Z.of_nat i)) = reg_size bin.
Proof.
  intros Hsup Hinv2 Hat2 Hob2 Hlv2 Hav2.
  destruct (sealloc_allocate_with_bin_ok i w2 S2 bin Hinv2 Hat2) as
    [Hd|(p & w3 & S3 & Heq & Hinv3 & Hob3 & Hbs3 & Hal & Hrs)]; [unfold bin_supplied; lia|by left|right].
  assert (only_bin i w w3) as Hob by (by etrans).
  exists p, w3, S3. split; [done|]. split; [split; [done|by eapply supplied_only]|]. split; [apply Hob|].
  split; [by eapply allocated_same|done].
Qed.

Lemma allocate_class_ok w S s :
  sealloc_inv w S → s ∈ size_classes →
  allocate_class s w = Fail Diverged ∨
  ∃ p w' S', allocate_class s w = Ok (p, w') ∧ sealloc_inv w' S' ∧ w_mem w' = w_mem w ∧ allocated S S' p s.
Proof.
  intros Hinv Hs. unfold allocate_class.
  destruct (supplied_bin_ok w S s Hinv Hs) as (i & w1 & bin & Hget & Hrd & Hsupply). ok_rw Hget. ok_rw Hrd.
  cbv zeta in Hsupply. destruct Hsupply as [->|(w2 & S2 & bin2 & -> & Hinv2 & Hat2 & Hob2 & Hlv2 & <- & Hav2)]; [by left|].
  cbn [mbind outcome_bind].
  destruct (supplied_region_ok i w S w2 S2 bin2 (al_supplied _ _ Hinv) Hinv2 Hat2 Hob2 Hlv2 Hav2) as
    [Hd|(p & w' & S' & Hok & Hinv' & Hm & Hal & _)]; [by left|right]. by exists p, w', S'.
Qed.

Lemma allocate_huge_ok w S size :
  sealloc_inv w S → LARGE_SIZE_MAX_REGION < size < 2 ^ 63 →
  allocate_huge size w = Fail Diverged ∨
  ∃ p w' S', allocate_huge size w = Ok (p, w') ∧ sealloc_inv w' S' ∧ w_mem w' = w_mem w ∧
    allocated S S' p (ALIGNUP_PAGE 64 size).
Proof.
  intros [Hinv Hsup] Hs. unfold allocate_huge. change LARGE_SIZE_MAX_REGION with 1048576 in Hs.
  destruct (alignup_page_aligned 64 size) as [Hal _]; [by right|].
  pose proof (alignup_page_bound size ltac:(lia)) as Hb.
  destruct (arena_allocate_huge_mapping_ok w S (ALIGNUP_PAGE 64 size) Hinv ltac:(change LARGE_SIZE_MAX_REGION with 1048576; lia) Hal) as
    [->|(a & p & w' & S' & h & -> & Hinv' & [Hm Hbn] & Hh & Hk & Hp & Hl & Hn & Hgr)]; [by left|right].
  cbn [mbind outcome_bind]. ok_rw (rd_at_ok _ _ _ Hh). rewrite Hk.
  exists p, w', S'. split; [done|]. split; [split; [done|by eapply supplied_frame]|]. split; [done|]. by split.
Qed.

(** The bytes a request is rounded up to. *)
Definition request_size (size : Z) : Z :=
  let size := if size =? 0 then SMALL_SIZE_MIN_REGION else size in
  if IS_SIZE_HUGE size then ALIGNUP_PAGE 64 size else alignup_class size.

Lemma request_size_ge size : 0 ≤ size < 2 ^ 63 → size ≤ request_size size.
Proof.
  intros Hs. unfold request_size, IS_SIZE_HUGE. change SMALL_SIZE_MIN_REGION with 16.
  destruct (Z.eqb_spec size 0) as [->|Hnz]; [change (16 >? LARGE_SIZE_MAX_REGION) with false; cbv iota;
    change (alignup_class 16) with 16; lia|].
  rewrite Z.gtb_ltb. destruct (Z.ltb_spec LARGE_SIZE_MAX_REGION size) as [Hh|Hr].
  - pose proof (alignup_page_bound size ltac:(lia)). lia.
  - apply alignup_class_ok. lia.
Qed.

(** sealloc_malloc returns a region that was not live, or keeps asking the kernel. *)
Lemma sealloc_malloc_ok w S size :
  sealloc_inv w S → 0 ≤ size < 2 ^ 63 →
  sealloc_malloc size w = Fail Diverged ∨
  ∃ p w' S', sealloc_malloc size w = Ok (p, w') ∧ sealloc_inv w' S' ∧ w_mem w' = w_mem w ∧
    allocated S S' p (request_size size).
Proof.
  intros Hinv Hs. unfold sealloc_malloc, request_size. change SMALL_SIZE_MIN_REGION with 16.
  set (n := if size =? 0 then 16 else size).
  assert (1 ≤ n < 2 ^ 63) as Hn by (unfold n; destruct (Z.eqb_spec size 0); lia).
  unfold IS_SIZE_HUGE. rewrite Z.gtb_ltb. destruct (Z.ltb_spec LARGE_SIZE_MAX_REGION n) as [Hh|Hr].
  - apply allocate_huge_ok; [done|lia].
  - apply allocate_class_ok; [done|]. apply alignup_class_ok. lia.
Qed.

Lemma sealloc_malloc_refused w S size :
  no_memory → arena_pend [] None w S → LARGE_SIZE_MAX_REGION < size < 2 ^ 63 →
  sealloc_malloc size w = Fail Diverged.
Proof.
  intros Hno Hinv Hs. change LARGE_SIZE_MAX_REGION with 1048576 in Hs. unfold sealloc_malloc.
  rewrite (proj2 (Z.eqb_neq size 0)) by lia.
  assert (IS_SIZE_HUGE size = true) as -> by (unfold IS_SIZE_HUGE; change LARGE_SIZE_MAX_REGION with 1048576; lia).
  unfold allocate_huge. destruct (alignup_page_aligned 64 size) as [Hal _]; [by right|].
  pose proof (alignup_page_bound size ltac:(lia)) as Hb.
  by rewrite (arena_allocate_huge_mapping_refused w S (ALIGNUP_PAGE 64 size) Hno Hinv ltac:(lia) Hal).
Qed.
End sealloc_inv.
