(* ===== verification/SeallocLookup.v ===== *)
(** * SeallocLookup: locate_metadata_for_ptr

    The search of locate_metadata_for_ptr goes through every chunk whose range holds
    the pointer: [locate_spec].  For the start of a live region it finds the chunk, the
    run and the bin of the region ([locate_regular]), or its huge mapping
    ([locate_huge]). *)
From Stdlib Require Import ZArith Lia.
From stdpp Require Import base option numbers functions sorting list gmap.
From S2P Require Import Prelude.
From S2P Require Import CArray.
From S2P Require Import Utils.
From S2P Require Import SizeClass.
From S2P Require Import Random.
From S2P Require Import ContainerLL.
From S2P Require Import Platform.
From S2P Require Import KernelSpec.
From S2P Require Import Run.
From S2P Require Import Bin.
From S2P Require Import InternalAllocator.
From S2P Require Import IntAllocTree.
From S2P Require Import IntAllocProps.
From S2P Require Import Chunk.
From S2P Require Import ChunkTree.
From S2P Require Import ChunkAlloc.
From S2P Require Import ChunkRun.
From S2P Require Import ChunkBuddy.
From S2P Require Import ChunkSpec.
From S2P Require Import World.
From S2P Require Import Arena.
From S2P Require Import ArenaMeta.
From S2P Require Import ArenaInv.
From S2P Require Import ChunkProps.
From S2P Require Import ArenaOps.
From S2P Require Import ArenaHuge.
From S2P Require Import Sealloc.
From S2P Require Import ArenaBins.
From S2P Require Import SeallocInv.

Section lookup.
Context `{Build} `{KernelLaws OS}.
Implicit Types w : world OS.

(** The first chunk of a list whose range holds [ptr]. *)
Definition in_chunk (ptr : Z) (x : Z * chunk_g) : Prop := range (cg_base x.2) CHUNK_SIZE_BYTES ptr.
#[export] Instance in_chunk_dec ptr x : Decision (in_chunk ptr x).
Proof. unfold in_chunk, range. apply _. Defined.

Fixpoint next_chunk (ptr : Z) (C : list (Z * chunk_g)) : Z :=
  match C with
  | [] => 0
  | x :: C => if decide (in_chunk ptr x) then x.1 else next_chunk ptr C
  end.

(** What the whole search finds: chunk, run, size of the run, region size. *)
Fixpoint locate_spec (ptr : Z) (C : list (Z * chunk_g)) : option (Z * Z * Z * Z) :=
  match C with
  | [] => None
  | (a, g) :: C =>
      match run_at (cg_base g) (cg_live g) ptr with
      | Some (_, (n, rs)) => Some (a, run_addr (cg_base g) n, run_bytes n, reported n rs)
      | None => locate_spec ptr C
      end
  end.

Lemma s64_small z : 0 ≤ z < 2 ^ 63 → s64 z = z.
Proof. intros Hz. unfold s64. rewrite wrap_small by lia. by replace (z <? 2 ^ 63) with true by lia. Qed.
Lemma s64_big z : 2 ^ 63 ≤ z < 2 ^ 64 → s64 z < 0.
Proof. intros Hz. unfold s64. rewrite wrap_small by lia. replace (z <? 2 ^ 63) with false by lia. lia. Qed.

Lemma chunk_find_iterate w S ptr C2 : ∀ C1,
  arena_pend [] None w S → g_chunks S = C1 ++ C2 → 0 ≤ ptr < 2 ^ 64 →
  iterate (chunk_find_step (w_chunks w) ptr) (Datatypes.S (length C2)) (first_of (chunk_key <$> C2) 0) =
  Ok (inr (next_chunk ptr C2)).
Proof.
  induction C2 as [|[a g] C2 IH]; intros C1 Hinv HC Hptr; [done|].
  destruct (cr_good _ _ _ (ai_chunks _ _ _ _ Hinv) a g) as (c & Ha & Hg); [rewrite HC; apply elem_of_mid; by left|].
  destruct (chunk_next _ _ _ _ _ _ _ _ _ Hinv HC Ha) as [Hnz Hfd].
  pose proof (cg_addr _ _ Hg) as (Hb1 & Hb2 & Hb3). change CHUNK_SIZE_BYTES with 33554432 in Hb3.
  cbn [length fmap list_fmap next_chunk]. change (first_of (chunk_key (a, g) :: _) 0) with a.
  assert (key (chunk_entry c) = cg_base g) as Hk by apply (ci_key _ _ _ _ (cg_inv _ _ Hg)).
  assert (chunk_find_step (w_chunks w) ptr a =
    Ok (if decide (in_chunk ptr (a, g)) then inr a else inl (first_of (chunk_key <$> C2) 0))) as Hstep.
  { unfold chunk_find_step. rewrite (proj2 (Z.eqb_neq a 0)) by done.
    assert (rd_entry (w_chunks w) a = Ok (chunk_entry c)) as Hrd.
    { apply rd_entry_ok. simpl. by rewrite Ha. }
    ok_rw Hrd. rewrite Hk. ok_assert by by (unfold IS_ALIGNED; rewrite Hb2).
    rewrite (s64_small (cg_base g)) by lia. change CHUNK_SIZE_BYTES with 33554432. rewrite Hfd.
    assert ((cg_base g <=? s64 ptr) && (s64 ptr <? cg_base g + 33554432) = bool_decide (in_chunk ptr (a, g))) as ->.
    { unfold in_chunk, range. cbn [snd]. change CHUNK_SIZE_BYTES with 33554432.
      destruct (decide (ptr < 2 ^ 63)).
      - rewrite s64_small by lia. apply eq_true_iff_eq. rewrite bool_decide_eq_true. lia.
      - pose proof (s64_big ptr ltac:(lia)). rewrite bool_decide_eq_false_2 by lia. lia. }
    destruct (decide (in_chunk ptr (a, g))) as [Hin|Hin]; [by rewrite bool_decide_eq_true_2|by rewrite bool_decide_eq_false_2]. }
  destruct (decide (in_chunk ptr (a, g))) as [Hin|Hin].
  - by apply iterate_stop.
  - rewrite (iterate_next _ _ _ _ Hstep). rewrite (cons_middle (a, g) C1 C2), app_assoc in HC. by apply (IH (C1 ++ [(a, g)])).
Qed.

Lemma chunks_fuel w S : arena_pend [] None w S → (Datatypes.S (length (g_chunks S)) ≤ 2 ^ 47)%nat.
Proof.
  intros Hinv. destruct (structs_counts _ _ _ _ _ _ (ai_meta _ _ _ _ Hinv) (ai_structs _ _ _ _ Hinv)) as (Hn & _).
  apply Nat2Z.inj_le. rewrite Nat2Z.inj_pow. change (Z.of_nat 2 ^ Z.of_nat 47) with (2 ^ 47). lia.
Qed.

Lemma get_chunk_first w S ptr :
  arena_pend [] None w S → 0 ≤ ptr < 2 ^ 64 → arena_get_chunk_from_ptr w ptr 0 = Ok (next_chunk ptr (g_chunks S)).
Proof.
  intros Hinv Hptr. unfold arena_get_chunk_from_ptr. ok_assert by by rewrite (ai_init _ _ _ _ Hinv).
  cbn [Z.eqb mbind outcome_bind].
  assert (chunk_list (w_arena w) = first_of (chunk_key <$> g_chunks S) 0) as ->.
  { by destruct (cr_list _ _ _ (ai_chunks _ _ _ _ Hinv)). }
  eapply while_loop_done; [by apply (chunk_find_iterate w S ptr (g_chunks S) [])|]. by eapply chunks_fuel.
Qed.

Lemma get_chunk_after w S ptr C1 a g C2 :
  arena_pend [] None w S → g_chunks S = C1 ++ (a, g) :: C2 → 0 ≤ ptr < 2 ^ 64 →
  arena_get_chunk_from_ptr w ptr a = Ok (next_chunk ptr C2).
Proof.
  intros Hinv HC Hptr. unfold arena_get_chunk_from_ptr. ok_assert by by rewrite (ai_init _ _ _ _ Hinv).
  destruct (cr_good _ _ _ (ai_chunks _ _ _ _ Hinv) a g) as (c & Ha & Hg); [rewrite HC; apply elem_of_mid; by left|].
  destruct (chunk_next _ _ _ _ _ _ _ _ _ Hinv HC Ha) as [Hnz Hfd].
  rewrite (proj2 (Z.eqb_neq a 0)) by done.
  assert (rd_entry (w_chunks w) a = Ok (chunk_entry c)) as Hrd.
  { apply rd_entry_ok. simpl. by rewrite Ha. }
  rewrite Hrd. cbn [mbind outcome_bind]. rewrite Hfd.
  rewrite (cons_middle (a, g) C1 C2), app_assoc in HC.
  pose proof (chunks_fuel _ _ Hinv) as Hfuel.
  eapply while_loop_done; [by apply (chunk_find_iterate w S ptr C2 (C1 ++ [(a, g)]))|].
  rewrite HC, length_app in Hfuel. lia.
Qed.

Lemma locate_iterate w S ptr C2 : ∀ C1,
  arena_pend [] None w S → g_chunks S = C1 ++ C2 → 0 ≤ ptr < 2 ^ 64 →
  iterate (locate_step w ptr) (Datatypes.S (length C2)) (next_chunk ptr C2) = Ok (inr (locate_spec ptr C2)).
Proof.
  induction C2 as [|[a g] C2 IH]; intros C1 Hinv HC Hptr; [done|].
  destruct (cr_good _ _ _ (ai_chunks _ _ _ _ Hinv) a g) as (c & Ha & Hg); [rewrite HC; apply elem_of_mid; by left|].
  destruct (chunk_next _ _ _ _ _ _ _ _ _ Hinv HC Ha) as [Hnz Hfd].
  pose proof HC as HC'. rewrite (cons_middle (a, g) C1 C2), app_assoc in HC'.
  specialize (IH _ Hinv HC' Hptr). cbn [length next_chunk locate_spec].
  destruct (decide (in_chunk ptr (a, g))) as [Hin|Hin].
  - assert (locate_step w ptr a =
      '(run_ptr, run_size, reg_size) ← chunk_get_run_ptr c ptr;
      if negb (run_ptr =? 0) then Ok (inr (Some (a, run_ptr, run_size, reg_size)))
      else chunk ← arena_get_chunk_from_ptr w ptr a; Ok (inl chunk)) as Hstep.
    { unfold locate_step. rewrite (proj2 (Z.eqb_neq a 0)) by done. by ok_rw (rd_at_ok _ _ _ Ha). }
    rewrite (chunk_get_run_ptr_ok _ _ _ _ _ (cg_inv _ _ Hg)) in Hstep.
    destruct (run_at (cg_base g) (cg_live g) ptr) as [[idx [n rs]]|] eqn:Hat; cbn [mbind outcome_bind] in Hstep.
    + apply run_at_Some in Hat as (_ & Hl & _). apply list_elem_of_lookup_2 in Hl.
      destruct (run_in_chunk _ _ n rs Hg Hl) as (Hra & _ & Hlo & _). pose proof (cg_addr _ _ Hg).
      rewrite (proj2 (Z.eqb_neq (run_addr (cg_base g) n) 0)) in Hstep by lia. by apply iterate_stop.
    + cbn [Z.eqb negb] in Hstep. rewrite (get_chunk_after w S ptr C1 a g C2 Hinv HC Hptr) in Hstep.
      cbn [mbind outcome_bind] in Hstep. by rewrite (iterate_next _ _ _ _ Hstep).
  - assert (run_at (cg_base g) (cg_live g) ptr = None) as ->.
    { unfold run_at. unfold in_chunk, range in Hin. cbn [snd] in Hin.
      by replace (_ && _) with false by lia. }
    eapply iterate_done; [exact IH|lia].
Qed.

Lemma locate_loop_ok w S ptr :
  arena_pend [] None w S → 0 ≤ ptr < 2 ^ 64 →
  while_loop (locate_step w ptr) 47 (next_chunk ptr (g_chunks S)) = Ok (locate_spec ptr (g_chunks S)).
Proof.
  intros Hinv Hptr. eapply while_loop_done; [by apply (locate_iterate w S ptr (g_chunks S) [])|]. by eapply chunks_fuel.
Qed.

(** ** What the search finds *)
Lemma locate_spec_Some ptr C a k sz rg :
  locate_spec ptr C = Some (a, k, sz, rg) →
  ∃ g i n rs, (a, g) ∈ C ∧ run_at (cg_base g) (cg_live g) ptr = Some (i, (n, rs)) ∧
    k = run_addr (cg_base g) n ∧ sz = run_bytes n ∧ rg = reported n rs.
Proof.
  induction C as [|[b g] C IH]; [done|]. cbn [locate_spec].
  destruct (run_at (cg_base g) (cg_live g) ptr) as [[i [n rs]]|] eqn:Hat.
  - intros [= <- <- <- <-]. exists g, i, n, rs. split; [by left|done].
  - intros Hl. destruct (IH Hl) as (g' & i & n & rs & Hin & Hrest). exists g', i, n, rs. split; [by right|done].
Qed.

Lemma locate_spec_None ptr C a g :
  locate_spec ptr C = None → (a, g) ∈ C → run_at (cg_base g) (cg_live g) ptr = None.
Proof.
  induction C as [|[b gb] C IH]; [by intros _ ?%not_elem_of_nil|]. cbn [locate_spec].
  destruct (run_at (cg_base gb) (cg_live gb) ptr) as [[i [n rs]]|] eqn:Hat; [done|].
  intros Hl [[= -> ->]|Hin]%elem_of_cons; [done|by apply IH].
Qed.

(** A run that is found at [ptr] holds [ptr] in its first block. *)
Lemma run_at_range w S a g ptr i n rs :
  arena_pend [] None w S → (a, g) ∈ g_chunks S → run_at (cg_base g) (cg_live g) ptr = Some (i, (n, rs)) →
  (n, rs) ∈ cg_live g ∧ node_range (cg_base g) n ptr ∧ ptr < run_addr (cg_base g) n + 16384 ∧
  owns (g_meta S) (g_chunks S) (g_huges S) (HChunk a) ptr.
Proof.
  intros Hinv HC Hat. apply run_at_Some in Hat as (Hr & Hl & Hlo). apply list_elem_of_lookup_2 in Hl.
  destruct (cr_good _ _ _ (ai_chunks _ _ _ _ Hinv) a g HC) as (c & _ & Hg).
  destruct (run_in_chunk _ _ n rs Hg Hl) as (Hra & Hby & Hlo2 & _).
  assert (run_addr (cg_base g) n ≤ ptr < run_addr (cg_base g) n + 16384) as Hblk.
  { rewrite Hra. unfold leaf_of in Hlo. change CHUNK_LEAST_REGION_SIZE_BYTES with 16384 in Hlo.
    pose proof (Z.div_mod (ptr - cg_base g) 16384 ltac:(lia)). pose proof (Z.mod_pos_bound (ptr - cg_base g) 16384 ltac:(lia)). lia. }
  assert (node_range (cg_base g) n ptr) as Hn by (unfold node_range, range; rewrite Hby; lia).
  split; [done|]. split; [done|]. split; [lia|]. eapply live_run_owned; [apply Hinv|done|done|done].
Qed.

(** A run has one block, or one region. *)
Definition class_run_ok (s : Z) : bool :=
  (0 <? s) && if s <=? 8192 then class_pages s * PAGE_SIZE =? 16384
              else (class_pages s * PAGE_SIZE =? s) && (class_elems s =? 1) && (16384 <=? s).
Lemma class_run_all : Forall (λ s, class_run_ok s = true) size_classes.
Proof. rewrite size_classes_eq. repeat constructor. Qed.
Lemma class_run s : s ∈ size_classes →
  0 < s ∧ ((s ≤ 8192 ∧ class_pages s * PAGE_SIZE = 16384) ∨
           (16384 ≤ s ∧ class_pages s * PAGE_SIZE = s ∧ class_elems s = 1)).
Proof.
  intros Hs. pose proof class_run_all as Hall. rewrite Forall_forall in Hall. specialize (Hall s Hs).
  unfold class_run_ok in Hall. destruct (Z.leb_spec s 8192); lia.
Qed.

Lemma reported_size n rs :
  is_node n → run_fits n rs → (if 0 <? reported n rs then reported n rs else run_bytes n) = rs.
Proof.
  intros Hn [Hcl Hby]. destruct (class_run rs Hcl) as [Hpos Hc].
  destruct (node_level n Hn) as [Hlg Hlv]. unfold reported.
  change CHUNK_LEAST_REGION_SIZE_BYTES with 16384.
  assert (run_bytes n = 16384 * 2 ^ (11 - Z.log2 n)) as Hrb by done.
  destruct (IS_LEAF n) eqn:Hleaf; cbn [andb].
  - apply Z.leb_le in Hleaf. change ((CHUNK_NO_NODES + 1) / 2) with 2048 in Hleaf.
    assert (Z.log2 n = 11) as Hl by (apply Z.log2_unique; unfold is_node in Hn; lia).
    rewrite Hl in Hrb. change (2 ^ (11 - 11)) with 1 in Hrb.
    destruct (Z.eqb_spec rs 16384) as [->|]; cbn [negb]; [cbn; lia|].
    by rewrite (proj2 (Z.ltb_lt 0 rs)) by lia.
  - apply Z.leb_gt in Hleaf. change ((CHUNK_NO_NODES + 1) / 2) with 2048 in Hleaf.
    assert (Z.log2 n < 11) as Hl by (apply Z.log2_lt_pow2; unfold is_node in Hn; lia).
    pose proof (Z.pow_le_mono_r 2 1 (11 - Z.log2 n) ltac:(lia) ltac:(lia)). change (2 ^ 1) with 2 in *.
    cbn [Z.ltb Z.compare]. lia.
Qed.

Lemma bin_of_run w S a k i :
  arena_pend [] None w S → g_runs S !! a = Some (k, i) →
  let bin := acell (bins (w_arena w)) (Z.of_nat i) in
  bin_at i bin w S ∧ (a, k) ∈ (g_bins S i).1 ++ (g_bins S i).2.
Proof.
  intros Hinv Ha bin. destruct (slot_of_run _ _ _ _ _ _ _ _ (ai_bins _ _ _ _ Hinv) Ha) as [Hslot Hin].
  split; [|done]. split; [|done|done]. by eapply (br_run _ _ _ _ _ (ai_bins _ _ _ _ Hinv)).
Qed.

(** The run found at a pointer, with its bin and its structure. *)
Record found_run w (S : arena_g) (ptr : Z) (a : Z) (i : nat) (ca k rs : Z) (g : chunk_g) (n : Z) : Prop := {
  fr_run : g_runs S !! a = Some (k, i);
  fr_class : size_classes !! i = Some rs;
  fr_chunk : (ca, g) ∈ g_chunks S;
  fr_node : (n, rs) ∈ cg_live g;
  fr_addr : k = run_addr (cg_base g) n;
  fr_ptr : k ≤ ptr < k + 16384 ∧ node_range (cg_base g) n ptr
}.

Lemma locate_run w S ptr ca k sz rg :
  arena_pend [] None w S → 0 ≤ ptr < 2 ^ 64 → locate_spec ptr (g_chunks S) = Some (ca, k, sz, rg) →
  ∃ a i rs g n, locate_metadata_for_ptr ptr w = Ok (METADATA_REGULAR ca a (Z.of_nat i), w) ∧
    found_run w S ptr a i ca k rs g n.
Proof.
  intros Hinv Hptr Hloc. pose proof Hloc as (g & idx & n & rs & HC & Hat & -> & -> & ->)%locate_spec_Some.
  destruct (run_at_range w S ca g ptr idx n rs Hinv HC Hat) as (Hl & Hnr & Hblk & _).
  destruct (ln_live _ _ _ (ai_links _ _ _ _ Hinv) (run_addr (cg_base g) n) rs) as [Hno|(a & i & Ha & Hc)];
    [by exists ca, g, n|done|].
  destruct (cr_good _ _ _ (ai_chunks _ _ _ _ Hinv) ca g HC) as (c & _ & Hg).
  assert (is_node n) as Hnode.
  { apply (no_node _ (ci_no _ _ _ _ (cg_inv _ _ Hg))). by eapply live_node_in. }
  exists a, i, rs, g, n. split; [|split; try done; split; [|done]; unfold node_range, range in Hnr; lia].
  unfold locate_metadata_for_ptr. ok_rw (get_chunk_first w S ptr Hinv Hptr).
  ok_rw (locate_loop_ok w S ptr Hinv Hptr). rewrite Hloc.
  rewrite (reported_size n rs Hnode (cg_fits _ _ Hg n rs Hl)).
  destruct (bin_of_run w S a _ i Hinv Ha) as [Hbat Hin]. set (bin := acell _ _) in *.
  assert (reg_size bin = rs) as Hrs.
  { pose proof (bs_class _ _ _ _ _ _ (ba_slot _ _ _ _ Hbat)) as Hc'. rewrite Hc in Hc'. by injection Hc'. }
  ok_rw (get_bin_used w S rs i bin Hinv Hbat Hrs).
  pose proof (br_len _ _ _ _ _ (ai_bins _ _ _ _ Hinv)) as Hlen. pose proof (ba_index _ _ _ _ Hbat) as Hi.
  ok_rw (rd_bin_ok w (Z.of_nat i) Hlen ltac:(lia)). fold bin.
  pose proof (br_lists _ _ _ _ _ (bs_rep _ _ _ _ _ _ (ba_slot _ _ _ _ Hbat))) as Hlists.
  ok_rw (bin_get_run_by_addr_ok _ _ _ _ _ (run_addr (cg_base g) n) Hlists).
  rewrite (find_key_nodup _ a); [done|apply Hlists|done].
Qed.

(** A region that was handed out is found in its run. *)
Lemma locate_issued w S a k i rs iss fr j :
  arena_pend [] None w S → g_runs S !! a = Some (k, i) → size_classes !! i = Some rs →
  g_regs S !! a = Some (iss, fr) → j ∈ iss →
  0 ≤ k + j * rs < 2 ^ 64 ∧
  ∃ ca g n, locate_metadata_for_ptr (k + j * rs) w = Ok (METADATA_REGULAR ca a (Z.of_nat i), w) ∧
    found_run w S (k + j * rs) a i ca k rs g n.
Proof.
  intros Hinv Ha Hc HG Hj. set (ptr := k + j * rs).
  destruct (region_in_run _ _ _ _ _ _ _ _ _ _ _ _ (ai_bins _ _ _ _ Hinv) Ha Hc HG Hj) as [Hrs Hjr].
  destruct (regular_region [] None w S a k i rs iss fr j Hinv Ha Hc HG Hj) as (ca & g & n & HC & Hl & Hk & [_ Ho] & Hsub).
  destruct (cr_good _ _ _ (ai_chunks _ _ _ _ Hinv) ca g HC) as (c & _ & Hg).
  destruct (run_in_chunk _ _ n rs Hg Hl) as (Hra & Hby & Hlo & Hhi).
  pose proof (cg_addr _ _ Hg) as (Hb1 & _ & Hb2). change CHUNK_SIZE_BYTES with 33554432 in Hb2.
  assert (range ptr rs ptr) as Hself by (unfold range; lia).
  pose proof (Hsub _ Hself) as Hnr. pose proof Hnr as Hnr'. unfold node_range, range in Hnr'. rewrite Hby, Hra in Hnr'.
  assert (0 ≤ ptr < 2 ^ 64) as Hp by (unfold ptr in *; lia). split; [done|].
  destruct (cg_fits _ _ Hg n rs Hl) as [Hcl Hpg]. destruct (class_run rs Hcl) as [_ Hcr].
  assert (k ≤ ptr < k + 16384) as Hblk.
  { unfold ptr. split; [nia|]. destruct Hcr as [[_ Hone]|(_ & _ & Hone)]; [|rewrite Hone in Hjr; assert (j = 0) as -> by lia; lia].
    rewrite Hone, Hby in Hpg. rewrite Hk, Hra. unfold ptr in Hnr'. lia. }
  destruct (locate_spec ptr (g_chunks S)) as [[[[ca' k'] sz] rg]|] eqn:Hloc.
  - destruct (locate_run w S ptr ca' k' sz rg Hinv Hp Hloc) as (a' & i' & rs' & g' & n' & Hok & Hfr).
    destruct Hfr as [F1 F2 F3 F4 F5 [F6 F7]].
    assert (HChunk ca = HChunk ca') as [= <-].
    { eapply (sp_unique _ _ (ai_space _ _ _ _ Hinv)); [by apply Ho|]. eapply live_run_owned; [apply Hinv|done|done|done]. }
    assert (g = g') as <- by (eapply fst_unique; [eapply chunks_nodup, Hinv|done|done]).
    assert (n = n') as <-.
    { destruct (decide (n = n')) as [|Hne]; [done|exfalso].
      apply (nodes_apart g c n n' ptr Hg); [by eapply live_node_in|by eapply live_node_in|done|done|done]. }
    assert (a = a') as <- by (eapply ln_inj; [apply Hinv|exact Ha|by rewrite Hk, <- F5]).
    rewrite Ha in F1. injection F1 as <- <-. rewrite Hc in F2. injection F2 as <-.
    exists ca, g, n. by split.
  - exfalso. pose proof (locate_spec_None _ _ _ _ Hloc HC) as Hnone.
    apply (run_at_None (cg_base g) (cg_live g) ptr Hnone) with n.
    + change CHUNK_SIZE_BYTES with 33554432. lia.
    + apply list_elem_of_fmap. by exists (n, rs).
    + unfold leaf_of. change CHUNK_LEAST_REGION_SIZE_BYTES with 16384. rewrite Hk, Hra in Hblk.
      pose proof (Z.div_mod (ptr - cg_base g) 16384 ltac:(lia)). pose proof (Z.mod_pos_bound (ptr - cg_base g) 16384 ltac:(lia)). lia.
Qed.

(** Nothing is found in the chunks: the huge mappings decide. *)
Lemma locate_nowhere w S ptr :
  arena_pend [] None w S → 0 ≤ ptr < 2 ^ 64 → locate_spec ptr (g_chunks S) = None →
  locate_metadata_for_ptr ptr w =
  Ok (if find_key ptr (huge_key <$> g_huges S) =? 0 then METADATA_INVALID
      else METADATA_HUGE (find_key ptr (huge_key <$> g_huges S)), w).
Proof.
  intros Hinv Hptr Hloc. unfold locate_metadata_for_ptr. ok_rw (get_chunk_first w S ptr Hinv Hptr).
  ok_rw (locate_loop_ok w S ptr Hinv Hptr). rewrite Hloc. unfold arena_find_huge_mapping.
  rewrite ?outcome_bind_assoc. ok_assert by by rewrite (ai_init _ _ _ _ Hinv).
  pose proof (hr_list _ _ _ (ai_huges _ _ _ _ Hinv)) as Hl.
  ok_rw (ll_find_ok _ _ _ ptr Hl). set (b := find_key ptr _).
  destruct (Z.eqb_spec b 0) as [Hz|Hnz]; [done|].
  assert (ptr ∈ (huge_key <$> g_huges S).*2) as Hin.
  { destruct (decide (ptr ∈ (huge_key <$> g_huges S).*2)) as [|Hno]; [done|].
    apply (find_key_None ptr) in Hno. by unfold b in Hnz. }
  apply find_key_elem in Hin as Hel. fold b in Hel.
  destruct (dll_key _ _ _ _ _ Hl Hel) as (_ & e & He & Hk).
  simpl in He. apply fmap_Some in He as (h & Hh & ->).
  rewrite (rd_at_ok _ _ _ Hh). cbn [mbind outcome_bind]. cbn [get_entry huge_has_entry] in Hk. rewrite Hk.
  ok_assert by by apply Z.eqb_refl.
  cbn [mbind outcome_bind]. by rewrite (proj2 (Z.eqb_neq b 0)).
Qed.

Lemma locate_huge w S a p n :
  arena_pend [] None w S → (a, (p, n)) ∈ g_huges S →
  locate_metadata_for_ptr p w = Ok (METADATA_HUGE a, w) ∧ a ≠ 0 ∧ 0 ≤ p < 2 ^ 64.
Proof.
  intros Hinv Hin. destruct (hr_good _ _ _ (ai_huges _ _ _ _ Hinv) a p n Hin) as (h & _ & [_ Hp Hn _]).
  assert ((a, p) ∈ huge_key <$> g_huges S) as Hk by (apply list_elem_of_fmap; by exists (a, (p, n))).
  destruct (dll_key _ _ _ a p (hr_list _ _ _ (ai_huges _ _ _ _ Hinv)) Hk) as [Ha _].
  assert (0 ≤ p < 2 ^ 64) as Hr by lia. split; [|done].
  assert (locate_spec p (g_chunks S) = None) as Hloc.
  { destruct (locate_spec p (g_chunks S)) as [[[[ca k] sz] rg]|] eqn:Hloc; [exfalso|done].
    apply locate_spec_Some in Hloc as (g & i & m & rs & HC & Hat & _).
    destruct (run_at_range w S ca g p i m rs Hinv HC Hat) as (_ & _ & _ & Ho).
    assert (HChunk ca = HHuge a); [|done]. eapply (sp_unique _ _ (ai_space _ _ _ _ Hinv)); [exact Ho|].
    exists p, n. split; [done|]. unfold range. lia. }
  rewrite (locate_nowhere w S p Hinv Hr Hloc).
  rewrite (find_key_nodup p a _ (hr_keys _ _ _ (ai_huges _ _ _ _ Hinv)) Hk). by rewrite (proj2 (Z.eqb_neq a 0)).
Qed.
End lookup.
