(* ===== verification/SeallocFree.v ===== *)
(** * SeallocFree: what free does to the regions of the user

    [sealloc_free_ok]: the release of a live region removes exactly that region, gives
    the run back when it was its last one and the chunk when it was its last run, and
    keeps [sealloc_inv].  [sealloc_free_invalid]: every other pointer stops the program
    (pointers into the unused end of a run apart). *)
From Stdlib Require Import ZArith Lia.
From stdpp Require Import base option numbers functions sorting list gmap.
From S2P Require Import Prelude.
From S2P Require Import CArray.
From S2P Require Import Utils.
From S2P Require Import SizeClass.
From S2P Require Import Random.
From S2P Require Import ContainerLL.
From S2P Require Import Platform.
From S2P Require Import KernelSpec.
From S2P Require Import Run.
From S2P Require Import Bin.
From S2P Require Import InternalAllocator.
From S2P Require Import IntAllocTree.
From S2P Require Import IntAllocProps.
From S2P Require Import Chunk.
From S2P Require Import ChunkTree.
From S2P Require Import ChunkAlloc.
From S2P Require Import ChunkRun.
From S2P Require Import ChunkBuddy.
From S2P Require Import ChunkSpec.
From S2P Require Import World.
From S2P Require Import Arena.
From S2P Require Import ArenaMeta.
From S2P Require Import ArenaInv.
From S2P Require Import ArenaOps.
From S2P Require Import ChunkProps.
From S2P Require Import ArenaHuge.
From S2P Require Import ArenaFree.
From S2P Require Import Sealloc.
From S2P Require Import ArenaBins.
From S2P Require Import SeallocInv.
From S2P Require Import SeallocLookup.

(** Regions issued and given back, when all of them are. *)
Lemma all_given_back (n : nat) (iss : list Z) (fr : gset Z) j :
  NoDup iss → (length iss ≤ n)%nat → (∀ x, x ∈ fr → x ∈ iss) → j ∈ iss → (j ∉ fr) → S (size fr) = n →
  length iss = n ∧ ∀ x, x ∈ iss → x ∈ {[j]} ∪ fr.
Proof.
  intros Hnd Hlen Hsub Hj Hjf Hn. set (X := {[j]} ∪ fr : gset Z).
  assert (size X = n) as HX by (unfold X; rewrite size_union by set_solver; by rewrite size_singleton).
  assert (X ⊆ list_to_set iss) as HXs by (unfold X; set_solver).
  pose proof (size_list_to_set (C := gset Z) iss Hnd) as Hsz.
  assert (X = list_to_set iss) as HE by (apply set_subseteq_size_eq; [done|]; rewrite Hsz, HX; done).
  split; [by rewrite <- Hsz, <- HE|]. intros x Hx. fold X. rewrite HE. by apply elem_of_list_to_set.
Qed.

Section sealloc_free.
Context `{Build} `{KernelLaws OS}.
Implicit Types w : world OS.

(** The effect of giving back [n] bytes at [p]. *)
Definition released (S S' : arena_g) (p n : Z) : Prop :=
  ∀ q m, live_region S' q m ↔ live_region S q m ∧ (q, m) ≠ (p, n).

Lemma released_same S S1 S2 p n : released S S1 p n → same_live S1 S2 → released S S2 p n.
Proof. intros Hr Hs q m. by rewrite (Hs q m), (Hr q m). Qed.

(** Every region issued keeps its place, or its memory is gone. *)
Definition kept_or_gone (S S' : arena_g) w' : Prop :=
  ∀ q m, issued_region S q m → issued_region S' q m ∨ gone w' q m.

Lemma region_self P X w S a k i rs iss fr j :
  arena_pend P X w S → g_runs S !! a = Some (k, i) → size_classes !! i = Some rs →
  g_regs S !! a = Some (iss, fr) → j ∈ iss → range (k + j * rs) rs (k + j * rs).
Proof.
  intros Hinv Ha Hc HG Hj. destruct (region_in_run _ _ _ _ _ _ _ _ _ _ _ _ (ai_bins _ _ _ _ Hinv) Ha Hc HG Hj).
  unfold range. lia.
Qed.

Lemma region_pos P X w S a k i rs iss fr j :
  arena_pend P X w S → g_runs S !! a = Some (k, i) → size_classes !! i = Some rs →
  g_regs S !! a = Some (iss, fr) → j ∈ iss → 0 < k + j * rs.
Proof.
  intros Hinv Ha Hc HG Hj.
  destruct (ln_run _ _ _ (ai_links _ _ _ _ Hinv) a k i Ha) as (rs' & _ & Hlr).
  pose proof (live_run_addr _ _ _ _ _ (ai_chunks _ _ _ _ Hinv) Hlr).
  destruct (region_in_run _ _ _ _ _ _ _ _ _ _ _ _ (ai_bins _ _ _ _ Hinv) Ha Hc HG Hj) as [Hrs Hj0].
  pose proof (Z.mul_nonneg_nonneg j rs ltac:(lia) ltac:(lia)). lia.
Qed.

(** A region is marked as given back; its run may go when all of its regions are. *)
Lemma released_ghost P X w S a k i rs iss fr j R' B' :
  arena_pend P X w S → g_runs S !! a = Some (k, i) → size_classes !! i = Some rs →
  g_regs S !! a = Some (iss, fr) → j ∈ iss →
  (R' = g_runs S ∨ R' = delete a (g_runs S) ∧ ∀ x, x ∈ iss → x ∈ {[j]} ∪ fr) →
  released S (with_bins S R' (<[a := (iss, {[j]} ∪ fr)]> (g_regs S)) B') (k + j * rs) rs.
Proof.
  intros Hinv Ha Hc HG Hj HR q m. pose proof (region_self _ _ _ _ _ _ _ _ _ _ _ Hinv Ha Hc HG Hj) as Hself.
  split.
  - intros [(a' & k' & i' & iss' & fr' & j' & Ha' & Hc' & HG' & Hj' & Hf' & ->)|(a' & Hh)]%live_region_inv;
      cbn [with_bins g_runs g_regs g_huges] in *.
    + assert (g_runs S !! a' = Some (k', i')) as Ha2.
      { destruct HR as [->|[-> _]]; [done|]. by apply lookup_delete_Some in Ha' as [_ ?]. }
      apply lookup_insert_Some in HG' as [[<- [= <- <-]]|[Hne HG']].
      * rewrite Ha in Ha2. injection Ha2 as <- <-. rewrite Hc in Hc'. injection Hc' as <-.
        split; [eapply live_regular; eauto; set_solver|]. intros [= Heq].
        assert (j' = j) as -> by (unfold range in Hself; nia). set_solver.
      * split; [by eapply live_regular|]. intros [= Heq ->].
        destruct (regular_overlap P X w S a k i rs iss fr j a' k' i' rs iss' fr' j' (k + j * rs)) as [? _]; try done.
        by rewrite Heq.
    + split; [by eapply live_huge|]. intros [= -> ->].
      by eapply (regular_not_huge P X w S a k i rs iss fr j a' _ _ (k + j * rs)).
  - intros [[(a' & k' & i' & iss' & fr' & j' & Ha' & Hc' & HG' & Hj' & Hf' & ->)|(a' & Hh)]%live_region_inv Hne];
      [|by eapply live_huge].
    destruct (decide (a' = a)) as [->|Hna].
    + rewrite Ha in Ha'. injection Ha' as <- <-. rewrite Hc in Hc'. injection Hc' as <-.
      rewrite HG in HG'. injection HG' as <- <-.
      assert (j' ≠ j) as Hjj by (by intros ->).
      destruct HR as [->|[_ Hall]].
      * eapply (live_regular _ a); [exact Ha|exact Hc|apply lookup_insert_eq|done|set_solver].
      * specialize (Hall j' Hj'). set_solver.
    + eapply (live_regular _ a'); [|exact Hc'|cbn [with_bins g_regs]; by rewrite lookup_insert_ne|exact Hj'|exact Hf'].
      destruct HR as [->|[-> _]]; [done|]. by apply lookup_delete_Some.
Qed.

(** The regions issued stay, but those of a run that goes. *)
Lemma issued_ghost S a k i rs iss fr fr' R' B' q m :
  g_runs S !! a = Some (k, i) → size_classes !! i = Some rs → g_regs S !! a = Some (iss, fr) →
  R' = g_runs S ∨ R' = delete a (g_runs S) → issued_region S q m →
  issued_region (with_bins S R' (<[a := (iss, fr')]> (g_regs S)) B') q m ∨
  R' = delete a (g_runs S) ∧ ∃ j, j ∈ iss ∧ q = k + j * rs ∧ m = rs.
Proof.
  intros Ha Hc HG HR [(a' & k' & i' & iss' & fr1 & j & Ha' & Hc' & HG' & Hj & ->)|(a' & Hh)]%issued_region_inv;
    [|left; by eapply issued_huge].
  destruct (decide (a' = a)) as [->|Hne].
  - simplify_eq. destruct HR as [->|HR]; [left|right; eauto].
    eapply (issued_regular _ a); [exact Ha|exact Hc|apply lookup_insert_eq|done].
  - left. eapply (issued_regular _ a'); [|exact Hc'|cbn [with_bins g_regs]; by rewrite lookup_insert_ne|exact Hj].
    destruct HR as [->| ->]; [done|]. by apply lookup_delete_Some.
Qed.

(** ** The bin takes the region back *)
Lemma bin_give_back w S a k i rs iss fr j :
  arena_pend [] None w S → g_runs S !! a = Some (k, i) → size_classes !! i = Some rs →
  g_regs S !! a = Some (iss, fr) → j ∈ iss → (j ∉ fr) →
  let bin := acell (bins (w_arena w)) (Z.of_nat i) in
  ∃ (full : bool) bin' runs' R' G' B', let S' := with_bins S R' G' B' in
    release_to_bin bin (w_runs w) a (k + j * rs) = Ok (full, bin', runs') ∧
    avail_regs bin' = avail_regs bin ∧ released S S' (k + j * rs) rs ∧
    (∀ q m, issued_region S q m → issued_region S' q m ∨
       full = true ∧ ∃ j', 0 ≤ j' < class_elems rs ∧ q = k + j' * rs ∧ m = rs) ∧
    (if full then R' !! a = None else True) ∧
    (∃ run, runs' !! a = Some run ∧ key (run_entry run) = k) ∧
    arena_pend (if full then [a] else []) (if full then Some (k, rs) else None)
      (set_bins_runs w (aupd (bins (w_arena w)) (Z.of_nat i) bin') runs') S'.
Proof.
  intros Hinv Ha Hc HG Hj Hjf bin. pose proof (ai_bins _ _ _ _ Hinv) as Hb.
  destruct (bin_of_run w S a k i Hinv Ha) as [[Hi Hcell [Hc' Hrep Hmax]] Hin]. fold bin in Hc', Hrep, Hmax, Hcell.
  assert (reg_size bin = rs) as Hrs by (rewrite Hc in Hc'; by injection Hc').
  destruct (release_to_bin_live bin (w_runs w) _ _ (g_regs S) Hrep a k iss fr Hin HG j Hj Hjf) as
    (bin' & runs' & Hrel & Hrep' & Hrs' & Hav' & Hoth & Hrun).
  rewrite Hrs in Hrel, Hrep'. set (full := bool_decide _) in *.
  set (G' := <[a := (iss, {[j]} ∪ fr)]> (g_regs S)) in *.
  set (I' := if full then filter (λ x, x.1 ≠ a) (g_bins S i).2 else (g_bins S i).2) in *.
  set (R' := if full then delete a (g_runs S) else g_runs S).
  set (B' := <[i := ((g_bins S i).1, I')]> (g_bins S)).
  assert (full = true → (∀ x, x ∈ iss → x ∈ {[j]} ∪ fr) ∧ ∀ kb, (a, kb) ∉ (g_bins S i).1) as Hfull.
  { intros Hf%bool_decide_eq_true.
    destruct (bin_rep_in _ _ _ _ _ _ _ (br_lists _ _ _ _ _ Hrep) Hin) as (run & iss' & fr' & _ & _ & _ & HG2 & Hrr).
    rewrite HG in HG2. injection HG2 as <- <-. rewrite Hrs in Hrr.
    destruct (all_given_back (Z.to_nat (class_elems rs)) iss fr j) as [Hlen Hall]; try done; [| | |lia|].
    - eapply issued_NoDup; [|exact Hrr]. rewrite <- Hrs. apply bin_geometry_shape, Hrep.
    - pose proof (rr_issued _ _ _ _ _ Hrr). lia.
    - apply Hrr.
    - split; [done|]. intros kb Hkb. pose proof (br_pos _ _ _ _ _ Hrep _ Hkb) as Hpos.
      unfold left in Hpos. cbn [fst] in Hpos. rewrite HG, Hrs in Hpos. lia. }
  exists full, bin', runs', R', G', B'. cbv zeta. split; [done|]. split; [done|]. split.
  { eapply released_ghost; try done. unfold R'. destruct full; [right|by left]. split; [done|by apply Hfull]. }
  split.
  { intros q m Hq. destruct (issued_ghost S a k i rs iss fr ({[j]} ∪ fr) R' B' q m Ha Hc HG) as [|(HR & j' & Hj' & Heq)];
      [unfold R'; destruct full; auto|done|by left|right].
    split; [|exists j'; split; [by eapply region_in_run|done]]. unfold R' in HR. destruct full; [done|exfalso].
    assert (g_runs S !! a = None) as Hno by (rewrite HR; apply lookup_delete_eq). by rewrite Ha in Hno. }
  split; [unfold R'; destruct full; [apply lookup_delete_eq|done]|]. split; [done|].
  assert (bins_rep (aupd (bins (w_arena w)) (Z.of_nat i) bin') runs' R' G' B') as Hb'.
  { eapply (bins_rep_update _ (w_runs w) (g_runs S) (g_regs S)); [done|done|..].
    - split; [by rewrite Hrs', Hrs|exact Hrep'|lia].
    - intros b kb i' Hne Hbk. split.
      + apply Hoth. intros ([b' kb'] & -> & Hy)%list_elem_of_fmap. cbn [fst] in Hbk.
        assert (g_runs S !! b' = Some (kb', i)) as Hbb by (by apply (br_run _ _ _ _ _ Hb)).
        rewrite Hbk in Hbb. by simplify_eq.
      + unfold G'. apply lookup_insert_ne. intros ->. rewrite Ha in Hbk. by simplify_eq.
    - intros b kb i'. unfold R', I'. destruct full.
      + destruct (Hfull eq_refl) as [_ Hno]. rewrite lookup_delete_Some, (br_run _ _ _ _ _ Hb).
        destruct (decide (i' = i)) as [->|Hne].
        * rewrite !elem_of_app, list_elem_of_filter. cbn [fst]. split; [naive_solver|].
          intros [Hba|[Hba Hbi]]; (split; [|split; [done|auto]]); intros <-; [by eapply Hno|done].
        * split.
          { intros [_ Hbk]. by apply (br_run _ _ _ _ _ Hb). } intros Hbk. split; [|by apply (br_run _ _ _ _ _ Hb)]. intros <-.
          rewrite Ha in Hbk. by simplify_eq.
      + destruct (decide (i' = i)) as [->|]; [rewrite (br_run _ _ _ _ _ Hb); naive_solver|done]. }
  unfold R' in *. destruct full.
  - apply (arena_pend_bins [] None [a] (Some (k, rs))); [done|done|eapply links_remove; [apply Hinv|done|done]|].
    eapply structs_remove; [apply Hinv|done].
  - apply (arena_pend_bins [] None); [done|done|apply Hinv|apply Hinv].
Qed.

(** ** The run leaves its chunk *)

(** The runs, their regions and the huge mappings are the same. *)
Record same_regions (S S' : arena_g) : Prop := {
  sr_runs : g_runs S' = g_runs S;
  sr_regs : g_regs S' = g_regs S;
  sr_huges : g_huges S' = g_huges S
}.

#[export] Instance same_regions_preorder : PreOrder same_regions.
Proof. split; [by intros S; split|]. intros S1 S2 S3 [] []. split; by etrans. Qed.

Lemma same_regions_live S S' : same_regions S S' → same_live S S'.
Proof.
  destruct S, S'. intros [E1 E2 E3] p n. cbn in *. subst.
  split; (intros [a k i rs iss fr j|a q m]; [by eapply live_regular|by eapply live_huge]).
Qed.

Lemma same_regions_issued S S' p n : same_regions S S' → issued_region S p n → issued_region S' p n.
Proof.
  destruct S, S'. intros [E1 E2 E3]. cbn in *. subst.
  intros [a k i rs iss fr j|a q m]; [by eapply issued_regular|by eapply issued_huge].
Qed.

Lemma pend_forget_run P X w S a :
  arena_pend P X w S → g_runs S !! a = None → arena_pend P X (set_runs w (delete a (w_runs w))) S.
Proof.
  intros [Hi Hp Hm Hc Hh Hb Hl Hs Hsp] Ha. split; try done.
  eapply bins_rep_frame; [exact Hb|]. intros b Hb'. apply lookup_delete_ne. intros <-. rewrite Ha in Hb'.
  by destruct Hb'.
Qed.

Lemma leaf_of_run g c n rs :
  chunk_good g c → (n, rs) ∈ cg_live g →
  cg_base g ≤ run_addr (cg_base g) n < cg_base g + CHUNK_SIZE_BYTES ∧
  node_lo n = leaf_of (cg_base g) (run_addr (cg_base g) n).
Proof.
  intros Hg Hn. destruct (run_in_chunk g c n rs Hg Hn) as (-> & _ & Hlo & Hhi).
  change CHUNK_SIZE_BYTES with 33554432. split; [lia|]. unfold leaf_of.
  change CHUNK_LEAST_REGION_SIZE_BYTES with 16384.
  replace (cg_base g + (node_lo n - 2048) * 16384 - cg_base g) with ((node_lo n - 2048) * 16384) by lia.
  rewrite Z.div_mul by lia. lia.
Qed.

Lemma release_run_ok w S ca g n rs a r :
  arena_pend [a] (Some (run_addr (cg_base g) n, rs)) w S → g_runs S !! a = None →
  w_runs w !! a = Some r → key (run_entry r) = run_addr (cg_base g) n →
  (ca, g) ∈ g_chunks S → (n, rs) ∈ cg_live g →
  (release_run ca a w = Fail ErrorExit ∧ ¬ munmap_total) ∨
  ∃ w' S', release_run ca a w = Ok w' ∧ arena_pend [] None w' S' ∧ user_frame w w' ∧ w_huges w' = w_huges w ∧
    same_regions S S' ∧ gone w' (run_addr (cg_base g) n) (run_bytes n).
Proof.
  intros Hinv Ha Hr Hk HC Hn. unfold release_run. ok_rw (rd_at_ok _ _ _ Hr).
  destruct (cr_good _ _ _ (ai_chunks _ _ _ _ Hinv) ca g HC) as (c & Hc & Hg).
  ok_rw (rd_at_ok _ _ _ Hc). rewrite Hk. destruct (leaf_of_run g c n rs Hg Hn) as [Hra Hlf].
  apply list_elem_of_split in HC as (C1 & C2 & HC). apply list_elem_of_split in Hn as (l1 & l2 & Hn).
  pose proof (chunk_deallocate_run_live _ _ _ _ (cg_inv _ _ Hg) (w_os w) _ l1 l2 n rs Hn Hra Hlf) as Hde.
  destruct (k_munmap (w_os w) _ _) as [[e|] os'] eqn:Hmu.
  { left. rewrite Hde. split; [done|by eapply munmap_not_total]. }
  right. destruct Hde as (b & c' & Hde & Hinv' & Hb). ok_rw Hde.
  pose proof (chunk_deallocate_run_entry _ _ _ _ _ _ Hde) as He. apply munmap_range in Hmu.
  set (w1 := set_chunks _ _).
  assert (∃ w2 S2, (if b then arena_deallocate_chunk ca w1 else Ok w1) = Ok w2 ∧
    arena_pend [a] None w2 S2 ∧ user_frame w w2 ∧ w_huges w2 = w_huges w ∧ same_regions S S2 ∧ w_os w2 = os') as
    (w2 & S2 & Hstep & Hinv2 & Huf & Hhg & Hsl & Hos).
  { destruct b.
    - destruct (chunk_returned _ _ _ _ _ _ _ _ _ _ _ os' c c' Hinv HC Hn Hmu Hc He Hinv') as (w2 & M' & Hd & Hinv2 & Huf & Hhg & Hos).
      { by apply Hb. }
      eexists w2, _. split; [exact Hd|]. split; [exact Hinv2|]. split; [done|]. split; [done|]. split; [by split|done].
    - eexists w1, _. split; [done|]. split.
      { eapply (run_returned _ _ _ _ _ _ _ _ _ _ _ Hinv HC Hn os' Hmu c c' Hc He Hinv'). intros Hall. by apply Hb in Hall. }
      split; [by split|]. split; [done|]. split; [by split|done]. }
  ok_rw Hstep. rewrite <- (sr_runs _ _ Hsl) in Ha.
  destruct (free_struct _ _ _ _ _ (pend_forget_run _ _ _ _ _ Hinv2 Ha)) as (ias' & M' & Hfree & Hinv3).
  eexists _, _. split; [exact Hfree|]. split; [exact Hinv3|]. split; [by destruct Huf|]. split; [exact Hhg|].
  split; [etrans; [exact Hsl|by split]|]. rewrite <- Hos in Hmu. by eapply unmapped_gone in Hmu.
Qed.

(** ** sealloc_free *)
Lemma sealloc_free_with_metadata_ok w S ca a i k rs g n iss fr j :
  sealloc_inv w S → found_run w S (k + j * rs) a i ca k rs g n →
  g_regs S !! a = Some (iss, fr) → j ∈ iss → (j ∉ fr) →
  (sealloc_free_with_metadata ca (Z.of_nat i) a (k + j * rs) w = Fail ErrorExit ∧ ¬ munmap_total) ∨
  ∃ w' S', sealloc_free_with_metadata ca (Z.of_nat i) a (k + j * rs) w = Ok w' ∧ sealloc_inv w' S' ∧
    w_mem w' = w_mem w ∧ w_huges w' = w_huges w ∧ released S S' (k + j * rs) rs ∧ kept_or_gone S S' w'.
Proof.
  intros [Hinv Hsup] [Ha Hc HC Hn Hk _] HG Hj Hjf. unfold sealloc_free_with_metadata.
  pose proof (br_len _ _ _ _ _ (ai_bins _ _ _ _ Hinv)) as Hlen.
  assert (Z.of_nat i < ARENA_NO_BINS) as Hi by (by eapply class_index_lt).
  ok_rw (rd_bin_ok w (Z.of_nat i) Hlen ltac:(lia)).
  destruct (bin_give_back w S a k i rs iss fr j Hinv Ha Hc HG Hj Hjf) as
    (full & bin' & runs' & R' & G' & B' & Hrel & Hav & Hre & His & HR & (r & Hr & Hkr) & Hinv1).
  ok_rw Hrel. rewrite (wr_bin_ok w) by (done || lia). cbn [mbind outcome_bind].
  set (w1 := set_bins_runs _ _ _) in *. set (S1 := with_bins _ _ _ _) in *.
  assert (supplied w1) as Hsup1.
  { apply (supplied_only i w); [done|by eapply only_bin_aupd|]. unfold w1.
    cbn [w_arena set_bins_runs set_arena set_bins bins]. rewrite acell_aupd_eq. unfold bin_supplied. rewrite Hav.
    by apply Hsup. }
  destruct full; [|right; exists w1, S1; split; [done|split; [by split|split; [done|split; [done|split; [done|]]]]]].
  2: { intros q m Hq. by destruct (His q m Hq) as [|[? _]]; [left|]. }
  rewrite Hk in Hinv1, Hkr.
  destruct (release_run_ok w1 S1 ca g n rs a r Hinv1 HR Hr Hkr HC Hn) as
    [[Hf Hmu]|(w2 & S2 & Hok & Hinv2 & [Hm Hb] & Hhg & Hsl & Hgone)]; [left; exact (conj Hf Hmu)|right].
  exists w2, S2. split; [exact Hok|]. split; [split; [done|by apply (supplied_frame w1)]|].
  split; [done|]. split; [done|]. split; [by eapply released_same, same_regions_live|].
  intros q m Hq. destruct (His q m Hq) as [Hq'|(_ & j' & Hj' & -> & ->)]; [left; by eapply same_regions_issued|right].
  destruct (cr_good _ _ _ (ai_chunks _ _ _ _ Hinv) ca g HC) as (c & _ & Hg).
  intros x Hx. rewrite Hk in Hx. by eapply Hgone, region_in_node.
Qed.

Lemma huge_released w S Hs1 a p n Hs2 M' :
  arena_pend [] None w S → g_huges S = Hs1 ++ (a, (p, n)) :: Hs2 →
  released S (with_huges (with_meta S M') (Hs1 ++ Hs2)) p n.
Proof.
  intros Hinv HH q m. pose proof (huges_nodup _ _ _ (ai_huges _ _ _ _ Hinv)) as Hnd.
  rewrite HH in Hnd. apply mid_nodup in Hnd. cbn [fst] in Hnd.
  assert ((a, (p, n)) ∈ g_huges S) as Hin by (rewrite HH; apply elem_of_mid; by left).
  destruct (hr_good _ _ _ (ai_huges _ _ _ _ Hinv) a p n Hin) as (h & _ & [_ Hadr Hsz _]).
  split.
  - intros [b k i rs iss fr j HR Hc HG Hj Hf|b q' m' Hb]; cbn [with_huges with_meta g_runs g_regs g_huges] in *.
    + split; [by eapply live_regular|]. intros [= <- <-].
      pose proof (region_self _ _ _ _ _ _ _ _ _ _ _ Hinv HR Hc HG Hj) as Hself.
      by eapply (regular_not_huge [] None w S b k i rs iss fr j a).
    + assert ((b, (q', m')) ∈ g_huges S) as Hb' by (rewrite HH; apply elem_of_mid; by right).
      split; [by eapply live_huge|]. intros [= -> ->].
      assert (HHuge b = HHuge a) as [= ->].
      { eapply (sp_unique _ _ (ai_space _ _ _ _ Hinv) _ _ p); [exists p, n|exists p, n];
          (split; [done|unfold range; lia]). }
      apply Hnd, list_elem_of_fmap. by exists (a, (p, n)).
  - intros [[b k i rs iss fr j HR Hc HG Hj Hf|b q' m' Hb] Hne]; [by eapply live_regular|].
    rewrite HH in Hb. apply elem_of_mid in Hb as [[= -> -> ->]|Hb]; [done|]. by eapply live_huge.
Qed.

Lemma huge_kept_or_gone S Hs1 a p n Hs2 M' w' :
  g_huges S = Hs1 ++ (a, (p, n)) :: Hs2 → gone w' p n →
  kept_or_gone S (with_huges (with_meta S M') (Hs1 ++ Hs2)) w'.
Proof.
  intros HH Hg q m [b k i rs iss fr j HR Hc HG Hj|b q' m' Hb]; [left; by eapply issued_regular|].
  rewrite HH in Hb. apply elem_of_mid in Hb as [[= -> -> ->]|Hb]; [by right|left; by eapply issued_huge].
Qed.

Lemma sealloc_free_huge_ok w S a p n :
  sealloc_inv w S → (a, (p, n)) ∈ g_huges S →
  (sealloc_free p w = Fail ErrorExit ∧ ¬ munmap_total) ∨
  ∃ w' S', sealloc_free p w = Ok w' ∧ sealloc_inv w' S' ∧ w_mem w' = w_mem w ∧ released S S' p n ∧
    kept_or_gone S S' w'.
Proof.
  intros [Hinv Hsup] Hin. destruct (locate_huge w S a p n Hinv Hin) as (Hloc & _ & Hr).
  destruct (hr_good _ _ _ (ai_huges _ _ _ _ Hinv) a p n Hin) as (h & _ & [_ Hadr Hsz _]).
  unfold sealloc_free. rewrite (proj2 (Z.eqb_neq p 0)) by lia. ok_rw Hloc.
  apply list_elem_of_split in Hin as HH. destruct HH as (Hs1 & Hs2 & HH).
  destruct (arena_deallocate_huge_mapping_ok w S Hs1 a p n Hs2 Hinv HH) as
    [Hf|(w' & M' & Hok & Hinv' & [Hm Hb] & Hg)]; [by left|right].
  eexists w', _. split; [exact Hok|]. split; [split; [exact Hinv'|by apply (supplied_frame w)]|]. split; [done|].
  split; [by apply (huge_released w S Hs1 a)|by apply (huge_kept_or_gone S Hs1 a p n)].
Qed.

(** sealloc_free of a live region removes that region, and nothing else changes for
    the user; the only other outcome is the exit when the kernel refuses munmap. *)
Lemma sealloc_free_live w S p n :
  sealloc_inv w S → live_region S p n →
  (sealloc_free p w = Fail ErrorExit ∧ ¬ munmap_total) ∨
  ∃ w' S', sealloc_free p w = Ok w' ∧ sealloc_inv w' S' ∧ w_mem w' = w_mem w ∧ released S S' p n ∧
    kept_or_gone S S' w'.
Proof.
  intros Hinv [a k i rs iss fr j Ha Hc HG Hj Hjf|a q m Hin]; [|by apply (sealloc_free_huge_ok w S a)].
  destruct (locate_issued w S a k i rs iss fr j (al_arena _ _ Hinv) Ha Hc HG Hj) as (Hr & ca & g & nd & Hloc & Hfr).
  pose proof (region_pos _ _ _ _ _ _ _ _ _ _ _ (al_arena _ _ Hinv) Ha Hc HG Hj) as Hpos.
  unfold sealloc_free. rewrite (proj2 (Z.eqb_neq (k + j * rs) 0)) by lia.
  ok_rw Hloc.
  destruct (sealloc_free_with_metadata_ok w S ca a i k rs g nd iss fr j Hinv Hfr HG Hj Hjf) as
    [Hf|(w' & S' & Hok & Hinv' & Hm & _ & Hre & Hkg)]; [by left|right; by exists w', S'].
Qed.

(** ** Invalid pointers *)

(** [ptr] points into the part of a small run that is too short for a region: the index
    run_deallocate computes for it is the number of regions. *)
Definition run_slack (S : arena_g) (ptr : Z) : Prop :=
  ∃ a k i rs, g_runs S !! a = Some (k, i) ∧ size_classes !! i = Some rs ∧
    k + class_elems rs * rs ≤ ptr < k + RUN_SIZE_SMALL_BYTES.

(** Such a pointer is found nowhere, or run_validate_ptr refuses it. *)
Lemma locate_dead w S ptr :
  arena_pend [] None w S → 0 < ptr < 2 ^ 64 → (∀ n, ¬ live_region S ptr n) → ¬ run_slack S ptr →
  locate_metadata_for_ptr ptr w = Ok (METADATA_INVALID, w) ∨
  ∃ ca a i bin r, locate_metadata_for_ptr ptr w = Ok (METADATA_REGULAR ca a i, w) ∧
    rd_bin w i = Ok bin ∧ w_runs w !! a = Some r ∧ run_validate_ptr r bin ptr = Ok SIZE_MAX.
Proof.
  intros Hinv Hr Hdead Hslack.
  destruct (locate_spec ptr (g_chunks S)) as [[[[ca k] sz] rg]|] eqn:Hloc.
  - right. destruct (locate_run w S ptr ca k sz rg Hinv ltac:(lia) Hloc) as (a & i & rs & g & n & Hok & [Ha Hc _ _ _ [Hp _]]).
    pose proof (br_len _ _ _ _ _ (ai_bins _ _ _ _ Hinv)) as Hlen.
    assert (Z.of_nat i < ARENA_NO_BINS) as Hi by (by eapply class_index_lt).
    destruct (bin_of_run w S a k i Hinv Ha) as [[_ Hcell [Hc' Hrep _]] Hin].
    set (bin := acell _ _) in *. assert (reg_size bin = rs) as Hrs by (rewrite Hc in Hc'; by injection Hc').
    destruct (bin_rep_in _ _ _ _ _ _ _ (br_lists _ _ _ _ _ Hrep) Hin) as (r & iss & fr & _ & Hr' & Hk & HG & Hrr).
    exists ca, a, (Z.of_nat i), bin, r. split; [done|]. split; [apply rd_bin_ok; [done|lia]|]. split; [done|].
    pose proof (class_positive rs (list_elem_of_lookup_2 _ _ _ Hc)) as Hpos.
    assert (bin_shape bin (class_elems (reg_size bin))) as Hshape by apply bin_geometry_shape, Hrep.
    pose proof (run_deallocate_refused bin _ Hshape r iss fr (ptr - k) Hrr) as Hde. rewrite Hk, Hrs in Hde.
    replace (k + (ptr - k)) with ptr in Hde by lia. unfold run_deallocate in Hde.
    assert (¬ ((ptr - k) mod rs = 0 ∧ (ptr - k) / rs ∈ iss ∧ (ptr - k) / rs ∉ fr)) as Hno.
    { intros (Hm & Hj & Hjf). apply (Hdead rs).
      assert (ptr = k + (ptr - k) / rs * rs) as -> by (pose proof (Z.div_mod (ptr - k) rs ltac:(lia)); lia).
      by eapply live_regular. }
    assert (0 ≤ ptr - k < class_elems rs * rs) as Hrange.
    { destruct (decide (k + class_elems rs * rs ≤ ptr)) as [Hge|]; [exfalso|lia].
      apply Hslack. exists a, k, i, rs. change RUN_SIZE_SMALL_BYTES with 16384. split; [done|]. split; [done|lia]. }
    specialize (Hde Hrange Hno).
    destruct (run_validate_ptr r bin ptr) as [v|e].
    + destruct (Z.eqb_spec v SIZE_MAX) as [->|Hne]; [done|exfalso]. cbn [mbind outcome_bind] in Hde.
      rewrite (proj2 (Z.eqb_neq v SIZE_MAX)) in Hde by done.
      destruct (set_bitmap_item _ _ _) as [bm|e']; cbn [mbind outcome_bind] in Hde; discriminate Hde.
    + exfalso. discriminate Hde.
  - left. rewrite (locate_nowhere w S ptr Hinv ltac:(lia) Hloc). set (b := find_key _ _).
    destruct (Z.eqb_spec b 0) as [|Hne]; [done|exfalso].
    assert (ptr ∈ (huge_key <$> g_huges S).*2) as Hin.
    { destruct (decide (ptr ∈ (huge_key <$> g_huges S).*2)) as [|Hno]; [done|].
      by apply (find_key_None ptr) in Hno. }
    apply list_elem_of_fmap in Hin as (x & -> & Hin). apply list_elem_of_fmap in Hin as ([a [p n]] & -> & Hin).
    apply (Hdead n). by eapply live_huge.
Qed.

Lemma sealloc_free_refused w S ptr :
  sealloc_inv w S → 0 < ptr < 2 ^ 64 → (∀ n, ¬ live_region S ptr n) → ¬ run_slack S ptr →
  sealloc_free ptr w = Fail Aborted.
Proof.
  intros [Hinv _] Hr Hdead Hslack. unfold sealloc_free. rewrite (proj2 (Z.eqb_neq ptr 0)) by lia.
  destruct (locate_dead w S ptr Hinv Hr Hdead Hslack) as [Hl|(ca & a & i & bin & r & Hl & Hrd & Hr' & Hv)]; ok_rw Hl; [done|].
  unfold sealloc_free_with_metadata. ok_rw Hrd. unfold release_to_bin, rd_run. rewrite Hr'.
  cbn [mbind outcome_bind]. unfold run_deallocate. by rewrite Hv.
Qed.
End sealloc_free.
