(* ===== verification/SeallocRealloc.v ===== *)
(** * SeallocRealloc: realloc and calloc

    [sealloc_realloc_live]: a live region moves to a fresh one of the new size, its
    contents come along, and no other live region changes.  [sealloc_calloc_ok]: a fresh
    region whose first nmemb * size bytes are zero. *)
From Stdlib Require Import ZArith Lia.
From stdpp Require Import base option numbers functions sorting list gmap.
From S2P Require Import Prelude.
From S2P Require Import CArray.
From S2P Require Import Utils.
From S2P Require Import SizeClass.
From S2P Require Import Random.
From S2P Require Import ContainerLL.
From S2P Require Import Platform.
From S2P Require Import KernelSpec.
From S2P Require Import Run.
From S2P Require Import Bin.
From S2P Require Import InternalAllocator.
From S2P Require Import IntAllocTree.
From S2P Require Import IntAllocProps.
From S2P Require Import Chunk.
From S2P Require Import ChunkTree.
From S2P Require Import ChunkAlloc.
From S2P Require Import ChunkRun.
From S2P Require Import ChunkBuddy.
From S2P Require Import ChunkSpec.
From S2P Require Import World.
From S2P Require Import Arena.
From S2P Require Import ArenaMeta.
From S2P Require Import ArenaInv.
From S2P Require Import ArenaOps.
From S2P Require Import ChunkProps.
From S2P Require Import ArenaHuge.
From S2P Require Import ArenaFree.
From S2P Require Import Sealloc.
From S2P Require Import ArenaBins.
From S2P Require Import SeallocInv.
From S2P Require Import SeallocLookup.
From S2P Require Import SeallocFree.

(** ** memcpy and memset *)
Lemma memcpy_in m dst src n x : 0 ≤ x < n → memcpy m dst src n (dst + x) = m (src + x).
Proof.
  intros Hx. unfold memcpy. rewrite (proj2 (Z.leb_le _ _)), (proj2 (Z.ltb_lt _ _)) by lia. cbn [andb].
  f_equal. lia.
Qed.

Lemma memcpy_out m dst src n a : ¬ range dst n a → memcpy m dst src n a = m a.
Proof.
  unfold range, memcpy. intros Hx. destruct (Z.leb_spec dst a), (Z.ltb_spec a (dst + n)); cbn [andb]; try done. lia.
Qed.

Lemma memset_at m dst v n a : memset m dst v n a = if decide (range dst n a) then v else m a.
Proof.
  unfold range, memset. destruct (Z.leb_spec dst a), (Z.ltb_spec a (dst + n)); cbn [andb];
    case_decide; done || lia.
Qed.

Section sealloc_realloc.
Context `{Build} `{KernelLaws OS}.
Implicit Types w : world OS.

Lemma sealloc_inv_mem w S m : sealloc_inv w S → sealloc_inv (set_mem w m) S.
Proof. intros [[] Hs]. by split. Qed.

(** The bytes of the live regions are the same in [w']. *)
Definition live_kept (S : arena_g) w w' : Prop :=
  ∀ p n x, live_region S p n → range p n x → w_mem w' x = w_mem w x.

(** The region [p, p + n) has moved to [q, q + m), with its first [c] bytes. *)
Record relocated w w' (S S' : arena_g) (p n q m c : Z) : Prop := {
  rl_nonnull : q ≠ 0;
  rl_new : ∀ k, ¬ live_region S q k;
  rl_live : ∀ x k, live_region S' x k ↔ (x = q ∧ k = m) ∨ (live_region S x k ∧ (x, k) ≠ (p, n));
  rl_copy : ∀ x, 0 ≤ x < c → w_mem w' (q + x) = w_mem w (p + x);
  rl_kept : live_kept S w w';
  rl_fresh : ∀ a k x, issued_region S a k → range a k x → ¬ range q m x;
  rl_issued : kept_or_gone S S' w'
}.

(** A new region and an old one have no byte in common. *)
Lemma issued_apart w S S' p n q m x :
  sealloc_inv w S' → allocated S S' q m → issued_region S p n → range p n x → ¬ range q m x.
Proof.
  intros [Hinv _] [Hnz Hl Hnew Hgr] Hp Hx Hq. pose proof (grown_issued _ _ _ _ Hgr Hp) as Hp'.
  assert (issued_region S' q m) as Hq' by (apply live_issued, Hl; by left).
  destruct (issued_regions_apart _ _ _ _ _ _ _ _ Hinv Hp' Hq') as [[= -> ->]|Hap]; [done|].
  unfold apart, range in *. cbn [fst snd] in Hap. lia.
Qed.

Lemma allocated_apart w S S' p n q m x :
  sealloc_inv w S' → allocated S S' q m → live_region S p n → range p n x → ¬ range q m x.
Proof. intros Hinv Hal Hp%live_issued. by eapply issued_apart. Qed.

(** An allocation, a copy and a release make a move. *)
Lemma relocated_compose w w1 w2 S S1 S2 p n q m len c :
  sealloc_inv w S → sealloc_inv w1 S1 → live_region S p n → allocated S S1 q m → w_mem w1 = w_mem w →
  w_mem w2 = memcpy (w_mem w1) q p len → released S1 S2 p n → kept_or_gone S1 S2 w2 → c ≤ len ≤ m →
  relocated w w2 S S2 p n q m c.
Proof.
  intros Hinv Hinv1 Hp Hal Hm1 Hm2 Hre Hkg Hlen.
  assert (∀ k, ¬ live_region S q k) as Hnew.
  { intros k Hk. destruct (live_region_at _ _ _ _ _ _ (al_arena _ _ Hinv) Hk) as [hd [Hpos _]].
    assert (live_region S1 q m) as Hq by (apply Hal; by left).
    destruct (live_region_at _ _ _ _ _ _ (al_arena _ _ Hinv1) Hq) as [hd' [Hpos' _]].
    apply (allocated_apart w1 S S1 q k q m q Hinv1 Hal Hk); unfold range; lia. }
  split; [apply Hal|done| | | |by intros a k x; eapply issued_apart|].
  4: { intros a k Hk. by eapply Hkg, grown_issued; [apply Hal|]. }
  - intros x k. rewrite (Hre x k), (at_live _ _ _ _ Hal). split.
    + intros [[[-> ->]|Hx] Hne]; [by left|by right].
    + intros [[-> ->]|[Hx Hne]]; [|by split; [right|]]. split; [by left|]. intros [= -> ->]. by eapply Hnew.
  - intros x Hx. rewrite Hm2, memcpy_in by lia. by rewrite Hm1.
  - intros a k x Ha Hx. rewrite Hm2, memcpy_out; [by rewrite Hm1|]. intros Hr.
    apply (allocated_apart w1 S S1 a k q m x Hinv1 Hal Ha Hx). unfold range in *. lia.
Qed.

(** The run, the chunk and the bin found before an allocation are still those of the
    region after it. *)
Lemma found_run_grown w w' S S' ptr a i ca k rs g n iss fr j :
  arena_pend [] None w' S' → grown S S' → found_run w S ptr a i ca k rs g n →
  g_regs S !! a = Some (iss, fr) → j ∈ iss → (j ∉ fr) →
  ∃ g' iss' fr', found_run w' S' ptr a i ca k rs g' n ∧ g_regs S' !! a = Some (iss', fr') ∧ j ∈ iss' ∧ j ∉ fr'.
Proof.
  intros Hinv [Hr Hc _] [F1 F2 F3 F4 F5 F6] HG Hj Hf.
  destruct (Hr a _ iss fr j F1 HG Hj) as (Ha & iss' & fr' & HG' & Hj' & Hf').
  destruct (Hc ca g F3) as (g' & HC' & Hb & Hl).
  exists g', iss', fr'. split; [|by auto]. split; rewrite ?Hb; try done. by apply Hl.
Qed.

(** The size of the regions of a run's bin. *)
Lemma bin_of_found w S ptr a i ca k rs g n :
  arena_pend [] None w S → found_run w S ptr a i ca k rs g n →
  ∃ bin, rd_bin w (Z.of_nat i) = Ok bin ∧ reg_size bin = rs.
Proof.
  intros Hinv Hfr. pose proof (br_len _ _ _ _ _ (ai_bins _ _ _ _ Hinv)) as Hlen.
  pose proof (class_index_lt _ _ (fr_class _ _ _ _ _ _ _ _ _ _ Hfr)) as Hi.
  exists (acell (bins (w_arena w)) (Z.of_nat i)). split; [apply rd_bin_ok; [done|lia]|].
  destruct (bin_of_run w S a k i Hinv (fr_run _ _ _ _ _ _ _ _ _ _ Hfr)) as [[_ _ [Hc _ _]] _].
  rewrite (fr_class _ _ _ _ _ _ _ _ _ _ Hfr) in Hc. by injection Hc.
Qed.

(** ** Regular regions *)
Lemma realloc_regular_ok w S ca a i k rs g n iss fr j new_size :
  sealloc_inv w S → found_run w S (k + j * rs) a i ca k rs g n →
  g_regs S !! a = Some (iss, fr) → j ∈ iss → (j ∉ fr) → 1 ≤ new_size ≤ LARGE_SIZE_MAX_REGION →
  let res := realloc_regular ca a (Z.of_nat i) (k + j * rs) new_size w in
  res = Fail Diverged ∨ (res = Fail ErrorExit ∧ ¬ munmap_total) ∨
  ∃ q w' S', res = Ok (q, w') ∧ sealloc_inv w' S' ∧
    relocated w w' S S' (k + j * rs) rs q (alignup_class new_size) (Z.min rs new_size).
Proof.
  intros Hinv Hfr HG Hj Hjf Hsz. cbv zeta. unfold realloc_regular.
  destruct (alignup_class_ok new_size Hsz) as (Hcl & Hge & _). set (s := alignup_class new_size) in *.
  destruct (supplied_bin_ok w S s Hinv Hcl) as (i2 & w1 & bin & Hget & Hrd & Hsupply). ok_rw Hget. ok_rw Hrd.
  cbv zeta in Hsupply. destruct Hsupply as [->|(w2 & S2 & bin2 & -> & Hinv2 & Hat2 & Hob2 & Hlv2 & <- & Hav2)]; [by left|].
  cbn [mbind outcome_bind negb].
  destruct (supplied_region_ok i2 w S w2 S2 bin2 (al_supplied _ _ Hinv) Hinv2 Hat2 Hob2 Hlv2 Hav2) as
    [->|(q & w3 & S3 & -> & Hinv3 & Hm3 & Hal & Hrs3)]; [by left|right].
  cbn [mbind outcome_bind]. rewrite (proj2 (Z.eqb_neq q 0)) by apply Hal.
  pose proof (br_len _ _ _ _ _ (ai_bins _ _ _ _ (al_arena _ _ Hinv3))) as Hlen3. pose proof (ba_index _ _ _ _ Hat2) as Hi2.
  ok_rw (rd_bin_ok w3 (Z.of_nat i2) Hlen3 ltac:(lia)). rewrite Hrs3.
  destruct (found_run_grown w w3 S S3 _ a i ca k rs g n iss fr j (al_arena _ _ Hinv3) (at_grown _ _ _ _ Hal) Hfr HG Hj Hjf)
    as (g3 & iss3 & fr3 & Hfr3 & HG3 & Hj3 & Hjf3).
  destruct (bin_of_found w3 S3 _ a i ca k rs g3 n (al_arena _ _ Hinv3) Hfr3) as (bo & Hbo & Hrs). ok_rw Hbo. rewrite Hrs.
  set (len := if rs <? reg_size bin2 then rs else reg_size bin2). set (w4 := set_mem w3 _).
  assert (sealloc_inv w4 S3) as Hinv4 by by apply sealloc_inv_mem.
  assert (found_run w4 S3 (k + j * rs) a i ca k rs g3 n) as Hfr4 by (destruct Hfr3; by split).
  destruct (sealloc_free_with_metadata_ok w4 S3 ca a i k rs g3 n iss3 fr3 j Hinv4 Hfr4 HG3 Hj3 Hjf3) as
    [[-> Hmu]|(w5 & S5 & -> & Hinv5 & Hm5 & _ & Hre & Hkg)]; [by left|right].
  cbn [mbind outcome_bind]. exists q, w5, S5. split; [done|]. split; [done|].
  eapply (relocated_compose w w3 w5 S S3 S5 _ _ _ _ len); [done|done| |done|done|by rewrite Hm5|done|done|].
  - destruct Hfr. by eapply live_regular.
  - unfold len. destruct (Z.ltb_spec rs (reg_size bin2)); lia.
Qed.

Lemma realloc_to_huge_ok w S ca a i k rs g n iss fr j new_size :
  sealloc_inv w S → found_run w S (k + j * rs) a i ca k rs g n →
  g_regs S !! a = Some (iss, fr) → j ∈ iss → (j ∉ fr) → LARGE_SIZE_MAX_REGION < new_size < 2 ^ 63 →
  let res := realloc_to_huge ca a (Z.of_nat i) (k + j * rs) new_size w in
  res = Fail Diverged ∨ (res = Fail ErrorExit ∧ ¬ munmap_total) ∨
  ∃ q w' S', res = Ok (q, w') ∧ sealloc_inv w' S' ∧
    relocated w w' S S' (k + j * rs) rs q (ALIGNUP_PAGE 64 new_size) (Z.min rs new_size).
Proof.
  intros Hinv Hfr HG Hj Hjf Hsz. cbv zeta. unfold realloc_to_huge.
  change LARGE_SIZE_MAX_REGION with 1048576 in Hsz.
  destruct (alignup_page_aligned 64 new_size) as [Hal' _]; [by right|].
  pose proof (alignup_page_bound new_size ltac:(lia)) as Hb.
  destruct (arena_allocate_huge_mapping_ok w S (ALIGNUP_PAGE 64 new_size) (al_arena _ _ Hinv) ltac:(change LARGE_SIZE_MAX_REGION with 1048576; lia) Hal') as
    [->|(hg & q & w3 & S3 & h & -> & Hinv3 & [Hm3 Hbn] & Hh & Hk & Hq & Hl & Hn & Hgr)]; [by left|right].
  cbn [mbind outcome_bind]. ok_rw (rd_at_ok _ _ _ Hh). rewrite Hk.
  assert (sealloc_inv w3 S3) as Hinv3' by (split; [done|eapply supplied_frame; [apply Hinv|done]]).
  destruct (found_run_grown w w3 S S3 _ a i ca k rs g n iss fr j Hinv3 Hgr Hfr HG Hj Hjf)
    as (g3 & iss3 & fr3 & Hfr3 & HG3 & Hj3 & Hjf3).
  destruct (bin_of_found w3 S3 _ a i ca k rs g3 n Hinv3 Hfr3) as (bo & Hbo & Hrs). ok_rw Hbo. rewrite Hrs.
  set (w4 := set_mem w3 _).
  assert (sealloc_inv w4 S3) as Hinv4 by by apply sealloc_inv_mem.
  assert (found_run w4 S3 (k + j * rs) a i ca k rs g3 n) as Hfr4 by (destruct Hfr3; by split).
  destruct (sealloc_free_with_metadata_ok w4 S3 ca a i k rs g3 n iss3 fr3 j Hinv4 Hfr4 HG3 Hj3 Hjf3) as
    [[-> Hmu]|(w5 & S5 & -> & Hinv5 & Hm5 & Hhg5 & Hre & Hkg)]; [by left|right].
  cbn [mbind outcome_bind]. rewrite Hhg5. cbn [w4 set_mem w_huges]. ok_rw (rd_at_ok _ _ _ Hh). rewrite Hk.
  exists q, w5, S5. split; [done|]. split; [done|].
  eapply (relocated_compose w w3 w5 S S3 S5 _ _ _ _ rs); [done|done| |by split|done|by rewrite Hm5|done|done|].
  - destruct Hfr. by eapply live_regular.
  - pose proof (class_positive rs (list_elem_of_lookup_2 _ _ _ (fr_class _ _ _ _ _ _ _ _ _ _ Hfr))). lia.
Qed.

(** run_validate_ptr accepts a live region. *)
Lemma validate_live w S ptr a i ca k rs g n iss fr j :
  arena_pend [] None w S → found_run w S ptr a i ca k rs g n →
  g_regs S !! a = Some (iss, fr) → j ∈ iss → (j ∉ fr) →
  ∃ bin r v, rd_bin w (Z.of_nat i) = Ok bin ∧ rd_at (w_runs w) a = Ok r ∧
    run_validate_ptr r bin (k + j * rs) = Ok v ∧ v ≠ SIZE_MAX.
Proof.
  intros Hinv Hfr HG Hj Hjf. destruct (bin_of_found _ _ _ _ _ _ _ _ _ _ Hinv Hfr) as (bin & Hrd & Hrs).
  destruct (bin_of_run w S a k i Hinv (fr_run _ _ _ _ _ _ _ _ _ _ Hfr)) as [[Hi Hcell [_ Hrep _]] Hin].
  pose proof (br_len _ _ _ _ _ (ai_bins _ _ _ _ Hinv)) as Hlen.
  rewrite (rd_bin_ok w (Z.of_nat i) Hlen) in Hrd by lia. injection Hrd as Hrd. rewrite Hrd in *.
  destruct (bin_rep_in _ _ _ _ _ _ _ (br_lists _ _ _ _ _ Hrep) Hin) as (r & iss' & fr' & _ & Hr & Hk & HG' & Hrr).
  rewrite HG in HG'. injection HG' as <- <-.
  assert (bin_shape bin (class_elems (reg_size bin))) as Hshape by apply bin_geometry_shape, Hrep.
  destruct (run_deallocate_live bin _ Hshape r iss fr j Hrr Hj Hjf) as (r' & Hde & _).
  unfold region_addr in Hde. rewrite Hk, Hrs in Hde. unfold run_deallocate in Hde.
  destruct (run_validate_ptr r bin (k + j * rs)) as [v|] eqn:Hv; [|done]. cbn [mbind outcome_bind] in Hde.
  exists bin, r, v. split; [rewrite (rd_bin_ok w (Z.of_nat i) Hlen) by lia; by rewrite Hrd|].
  split; [by apply rd_at_ok|]. split; [done|]. intros ->. by rewrite Z.eqb_refl in Hde.
Qed.

(** ** Huge mappings *)
Lemma alignup_page_same n : 0 ≤ n < 2 ^ 63 → n mod PAGE_SIZE = 0 → ALIGNUP_PAGE 64 n = n.
Proof.
  intros Hn Hal. pose proof (alignup_page_bound n Hn) as Hb.
  destruct (alignup_page_aligned 64 n) as [Ha _]; [by right|].
  change PAGE_SIZE with 4096 in *.
  pose proof (Z.div_mod n 4096 ltac:(lia)). pose proof (Z.div_mod (ALIGNUP_PAGE 64 n) 4096 ltac:(lia)). lia.
Qed.

Lemma realloc_huge_ok w S a p n m :
  sealloc_inv w S → (a, (p, n)) ∈ g_huges S → 0 < m < 2 ^ 63 → m mod PAGE_SIZE = 0 →
  realloc_huge a m w = Fail Diverged ∨ (realloc_huge a m w = Fail ErrorExit ∧ ¬ munmap_total) ∨
  ∃ q w' S', realloc_huge a m w = Ok (q, w') ∧ sealloc_inv w' S' ∧
    relocated w w' S S' p n q (request_size m) (Z.min n m).
Proof.
  intros [Hinv Hsup] Hin Hm Hal. unfold realloc_huge.
  assert (live_region S p n) as Hp by by eapply live_huge.
  destruct (hr_good _ _ _ (ai_huges _ _ _ _ Hinv) a p n Hin) as (h0 & _ & [_ Hadr Hsz _]).
  apply list_elem_of_split in Hin as HH. destruct HH as (Hs1 & Hs2 & HH).
  pose proof (request_size_ge m ltac:(lia)) as Hge.
  destruct (IS_SIZE_HUGE m) eqn:Hhuge.
  - destruct (arena_reallocate_huge_mapping_ok w S Hs1 a p n Hs2 m Hinv HH Hal Hhuge) as
      [->|[[-> Hmu]|(q & w' & h & -> & Hinv' & Hbn & Hh & Hk & Hmem & Hfresh & Hgone)]]; [by left|right; by left|right; right].
    cbn [mbind outcome_bind]. ok_rw (rd_at_ok _ _ _ Hh). rewrite Hk.
    assert (request_size m = m) as Hreq.
    { unfold request_size. rewrite (proj2 (Z.eqb_neq m 0)) by lia. rewrite Hhuge. by apply alignup_page_same; lia. }
    rewrite Hreq. eexists q, w', _. split; [done|]. split; [split; [exact Hinv'|by eapply supplied_frame]|].
    assert (∀ x k y, issued_region S x k → range x k y → ¬ range q m y) as Hap.
    { intros x k y Hx Hy Hq. apply (Hfresh y Hq).
      destruct (issued_region_at _ _ _ _ _ _ Hinv Hx) as [hd [_ Ho]]. by eapply (sp_mapped _ _ (ai_space _ _ _ _ Hinv)), Ho. }
    pose proof (huge_released w S Hs1 a p n Hs2 (g_meta S) Hinv HH) as Hre.
    split.
    + destruct (hr_good _ _ _ (ai_huges _ _ _ _ Hinv') a q m) as (h' & _ & [_ Hq _ _]); [cbn; apply elem_of_mid; by left|lia].
    + intros k Hk'. destruct (live_region_at _ _ _ _ _ _ Hinv Hk') as [hd [Hpos _]].
      apply (Hap q k q (live_issued _ _ _ Hk')); unfold range; lia.
    + intros x k. rewrite <- (Hre x k). split.
      * intros [b kb i rs iss fr j HR Hc HG Hj Hf|b q' m' Hb]; [right; by eapply live_regular|].
        cbn [with_huges g_huges] in Hb. apply elem_of_mid in Hb as [[= -> -> ->]|Hb]; [by left|right; by eapply live_huge].
      * intros [[-> ->]|[b kb i rs iss fr j HR Hc HG Hj Hf|b q' m' Hb]]; [|by eapply live_regular|];
          eapply live_huge; cbn [with_huges with_meta g_huges] in *; apply elem_of_mid; [by left|by right].
    + intros x Hx. rewrite Hmem, memcpy_in; [done|]. destruct (Z.ltb_spec m n); lia.
    + intros x k y Hx Hy. rewrite Hmem, memcpy_out; [done|]. intros Hr.
      apply (Hap x k y (live_issued _ _ _ Hx) Hy). unfold range in *. destruct (Z.ltb_spec m n); lia.
    + exact Hap.
    + intros x k [b kb i rs iss fr j HR Hc HG Hj|b q' m' Hb]; [left; by eapply issued_regular|].
      rewrite HH in Hb. apply elem_of_mid in Hb as [[= -> -> ->]|Hb]; [by right|left].
      eapply issued_huge. cbn [with_huges g_huges]. apply elem_of_mid. by right.
  - destruct (sealloc_malloc_ok w S m (Build_sealloc_inv _ _ Hinv Hsup) ltac:(lia)) as
      [->|(q & w1 & S1 & -> & Hinv1 & Hm1 & Hal1)]; [by left|right].
    cbn [mbind outcome_bind]. rewrite (proj2 (Z.eqb_neq q 0)) by apply Hal1.
    pose proof (gw_huges _ _ (at_grown _ _ _ _ Hal1) _ Hin) as Hin1.
    destruct (hr_good _ _ _ (ai_huges _ _ _ _ (al_arena _ _ Hinv1)) a p n Hin1) as (h & Hh & _).
    ok_rw (rd_at_ok _ _ _ Hh).
    destruct (dll_key _ _ _ a p (hr_list _ _ _ (ai_huges _ _ _ _ (al_arena _ _ Hinv1)))) as (_ & e & He & Hk).
    { apply list_elem_of_fmap. by exists (a, (p, n)). }
    simpl in He. rewrite Hh in He. injection He as <-. rewrite Hk.
    apply list_elem_of_split in Hin1 as HH1. destruct HH1 as (Hs3 & Hs4 & HH1).
    set (w2 := set_mem w1 _). destruct (sealloc_inv_mem w1 S1 (w_mem w2) Hinv1) as [Hinv2 Hsup2]. fold w2 in Hinv2, Hsup2.
    destruct (arena_deallocate_huge_mapping_ok w2 S1 Hs3 a p n Hs4 Hinv2 HH1) as
      [[-> Hmu]|(w3 & M' & -> & Hinv3 & [Hm3 Hb3] & Hg3)]; [by left|right].
    cbn [mbind outcome_bind]. eexists q, w3, _. split; [done|]. split; [split; [exact Hinv3|by apply (supplied_frame w2)]|].
    eapply (relocated_compose w w1 w3 S S1 _ _ _ _ _ m); [done|done|done|done|done|by rewrite Hm3| | |lia].
    + by apply (huge_released w2 S1 Hs3 a).
    + by apply (huge_kept_or_gone S1 Hs3 a p n).
Qed.

(** ** sealloc_realloc *)

(** The bytes a region of [n] bytes is moved to: a huge mapping asks for whole pages. *)
Definition realloc_size (n size : Z) : Z :=
  request_size (if LARGE_SIZE_MAX_REGION <? n then ALIGNUP_PAGE 64 size else size).

Lemma realloc_size_ge n size : 0 ≤ size < 2 ^ 62 → size ≤ realloc_size n size.
Proof.
  intros Hs. unfold realloc_size. pose proof (alignup_page_bound size ltac:(lia)) as Hb.
  change PAGE_SIZE with 4096 in Hb. destruct (_ <? n); [|by apply request_size_ge; lia].
  pose proof (request_size_ge (ALIGNUP_PAGE 64 size) ltac:(lia)). lia.
Qed.

(** Regions of runs are not larger than the largest class, huge mappings are. *)
Lemma class_not_huge i rs : size_classes !! i = Some rs → (LARGE_SIZE_MAX_REGION <? rs) = false.
Proof.
  assert (Forall (λ s, (LARGE_SIZE_MAX_REGION <? s) = false) size_classes) as Hall
    by (rewrite size_classes_eq; by repeat constructor).
  intros Hi. rewrite Forall_forall in Hall. by eapply Hall, list_elem_of_lookup_2.
Qed.

Lemma sealloc_realloc_live w S p n new_size :
  sealloc_inv w S → live_region S p n → 0 < new_size < 2 ^ 62 →
  sealloc_realloc p new_size w = Fail Diverged ∨
  (sealloc_realloc p new_size w = Fail ErrorExit ∧ ¬ munmap_total) ∨
  ∃ q w' S', sealloc_realloc p new_size w = Ok (q, w') ∧ sealloc_inv w' S' ∧
    relocated w w' S S' p n q (realloc_size n new_size) (Z.min n new_size).
Proof.
  intros Hinv Hp Hs. unfold sealloc_realloc.
  destruct (live_region_at _ _ _ _ _ _ (al_arena _ _ Hinv) Hp) as [hd [Hn _]].
  destruct Hp as [a k i rs iss fr j Ha Hc HG Hj Hjf|a p n Hin].
  - destruct (locate_issued w S a k i rs iss fr j (al_arena _ _ Hinv) Ha Hc HG Hj) as (Hr & ca & g & nd & Hloc & Hfr).
    pose proof (region_pos _ _ _ _ _ _ _ _ _ _ _ (al_arena _ _ Hinv) Ha Hc HG Hj) as Hpos.
    rewrite (proj2 (Z.eqb_neq (k + j * rs) 0)) by lia.
    ok_rw Hloc.
    destruct (validate_live w S _ a i ca k rs g nd iss fr j (al_arena _ _ Hinv) Hfr HG Hj Hjf) as (bin & r & v & Hrd & Hr' & Hv & Hvn).
    ok_rw Hrd. ok_rw Hr'. ok_rw Hv. rewrite (proj2 (Z.eqb_neq v SIZE_MAX)) by done.
    unfold realloc_size, request_size. rewrite (class_not_huge i rs Hc), (proj2 (Z.eqb_neq new_size 0)) by lia.
    unfold IS_SIZE_HUGE. rewrite Z.gtb_ltb. destruct (Z.ltb_spec LARGE_SIZE_MAX_REGION new_size) as [Hh|Hl].
    + destruct (realloc_to_huge_ok w S ca a i k rs g nd iss fr j new_size Hinv Hfr HG Hj Hjf ltac:(lia)) as
        [Hd|[He|Hok]]; [by left|right; by left|right; by right].
    + destruct (realloc_regular_ok w S ca a i k rs g nd iss fr j new_size Hinv Hfr HG Hj Hjf ltac:(lia)) as
        [Hd|[He|Hok]]; [by left|right; by left|right; by right].
  - destruct (locate_huge w S a p n (al_arena _ _ Hinv) Hin) as (Hloc & _ & Hr).
    destruct (hr_good _ _ _ (ai_huges _ _ _ _ (al_arena _ _ Hinv)) a p n Hin) as (h & _ & [_ Hadr _ Hlarge]).
    rewrite (proj2 (Z.eqb_neq p 0)) by lia. ok_rw Hloc.
    destruct (alignup_page_aligned 64 new_size) as [Hal _]; [by right|].
    pose proof (alignup_page_bound new_size ltac:(lia)) as Hb. change PAGE_SIZE with 4096 in Hb.
    unfold realloc_size. rewrite (proj2 (Z.ltb_lt LARGE_SIZE_MAX_REGION n) Hlarge).
    set (m := ALIGNUP_PAGE 64 new_size) in *.
    destruct (realloc_huge_ok w S a p n m Hinv Hin ltac:(lia) Hal) as
      [Hd|[He|(q & w' & S' & Hok & Hinv' & Hre)]]; [by left|right; by left|right; right].
    exists q, w', S'. split; [done|]. split; [done|].
    destruct Hre as [R1 R2 R3 R4 R5 R6 R7]. split; try done. intros x Hx. apply R4. lia.
Qed.

(** realloc of a pointer that is not live stops the program. *)
Lemma sealloc_realloc_refused w S ptr new_size :
  sealloc_inv w S → 0 < ptr < 2 ^ 64 → (∀ n, ¬ live_region S ptr n) → ¬ run_slack S ptr →
  sealloc_realloc ptr new_size w = Fail Aborted.
Proof.
  intros [Hinv _] Hr Hdead Hslack. unfold sealloc_realloc. rewrite (proj2 (Z.eqb_neq ptr 0)) by lia.
  destruct (locate_dead w S ptr Hinv Hr Hdead Hslack) as [Hl|(ca & a & i & bin & r & Hl & Hrd & Hr' & Hv)]; ok_rw Hl; [done|].
  ok_rw Hrd. ok_rw (rd_at_ok _ _ _ Hr'). ok_rw Hv. by rewrite Z.eqb_refl.
Qed.

(** realloc to zero bytes of a region of a run asks for the bin of size class 0. *)
Lemma sealloc_realloc_zero w S a k i rs iss fr j :
  sealloc_inv w S → asserts_on = true → g_runs S !! a = Some (k, i) → size_classes !! i = Some rs →
  g_regs S !! a = Some (iss, fr) → j ∈ iss → (j ∉ fr) →
  sealloc_realloc (k + j * rs) 0 w = Fail AssertFailed.
Proof.
  intros [Hinv _] Hon Ha Hc HG Hj Hjf. unfold sealloc_realloc.
  pose proof (region_pos _ _ _ _ _ _ _ _ _ _ _ Hinv Ha Hc HG Hj) as Hpos.
  rewrite (proj2 (Z.eqb_neq (k + j * rs) 0)) by lia.
  destruct (locate_issued w S a k i rs iss fr j Hinv Ha Hc HG Hj) as (Hr & ca & g & nd & Hloc & Hfr). ok_rw Hloc.
  destruct (validate_live w S _ a i ca k rs g nd iss fr j Hinv Hfr HG Hj Hjf) as (bin & r & v & Hrd & Hr' & Hv & Hvn).
  ok_rw Hrd. ok_rw Hr'. ok_rw Hv. rewrite (proj2 (Z.eqb_neq v SIZE_MAX)) by done.
  change (IS_SIZE_HUGE 0) with false. cbv iota. unfold realloc_regular.
  change (u32 (alignup_class 0)) with 0. unfold arena_get_bin_by_reg_size.
  rewrite outcome_bind_assoc. ok_assert by by rewrite (ai_init _ _ _ _ Hinv).
  assert (c_assert (1 <=? 0) = Fail AssertFailed) as -> by (unfold c_assert; by rewrite Hon). done.
Qed.

(** ** sealloc_calloc *)
Lemma sealloc_calloc_ok w S nmemb size :
  sealloc_inv w S → 0 < nmemb → 0 < size → u64 (nmemb * size) < 2 ^ 63 →
  let total := u64 (nmemb * size) in
  sealloc_calloc nmemb size w = Fail Diverged ∨
  ∃ p w' S', sealloc_calloc nmemb size w = Ok (p, w') ∧ sealloc_inv w' S' ∧
    allocated S S' p (request_size total) ∧ (∀ x, range p total x → w_mem w' x = 0) ∧ live_kept S w w'.
Proof.
  intros Hinv Hn Hs Ht total. unfold sealloc_calloc.
  rewrite (proj2 (Z.eqb_neq nmemb 0)), (proj2 (Z.eqb_neq size 0)) by lia. cbn [orb]. fold total.
  assert (0 ≤ total < 2 ^ 63) as Htot by (pose proof (wrap_range 64 (nmemb * size)); unfold total; lia).
  destruct (sealloc_malloc_ok w S total Hinv Htot) as [->|(p & w' & S' & -> & Hinv' & Hm & Hal)]; [by left|right].
  cbn [mbind outcome_bind]. rewrite (proj2 (Z.eqb_neq p 0)) by apply Hal.
  eexists p, _, S'. split; [done|]. split; [by apply sealloc_inv_mem|]. split; [done|].
  pose proof (request_size_ge total Htot) as Hge. split.
  - intros x Hx. cbn [set_mem w_mem]. by rewrite memset_at, decide_True.
  - intros q k x Hq Hx. cbn [set_mem w_mem]. rewrite memset_at, Hm, decide_False; [done|]. intros Hr.
    apply (allocated_apart w' S S' q k p (request_size total) x Hinv' Hal Hq Hx). unfold range in *. lia.
Qed.
End sealloc_realloc.
