(* ===== verification/HeapSpec.v ===== *)
(** * HeapSpec: what an allocator promises to its clients

    [HeapAllocator] is the interface: malloc, free, calloc and realloc over an abstract
    heap, a finite map from addresses to lengths.  A client is a list of calls that
    gives back only what it was given; [client_run_ok] runs it against any instance of the
    interface.  SeallocHeap gives the instance for malloc_api.c. *)
From Stdlib Require Import ZArith Lia.
From stdpp Require Import base option numbers list gmap.
From S2P Require Import Prelude.

(** The two ways an allocator may give up on a correct client: it asks a kernel without
    memory forever, or exits. *)
Definition gives_up {A} (o : outcome A) : Prop := o = Fail Diverged ∨ o = Fail ErrorExit.

Lemma gives_up_bind {A B} (m : outcome A) (f : A → outcome B) : gives_up m → gives_up (m ≫= f).
Proof. intros [->| ->]; [by left|by right]. Qed.

(** The bytes of the regions of [h] are the same. *)
Definition bytes_kept (h : gmap Z Z) (m m' : Z → Z) : Prop :=
  ∀ p n x, h !! p = Some n → range p n x → m' x = m x.

Class HeapAllocator (W : Type) := {
  ha_malloc : Z → W → outcome (Z * W);
  ha_free : Z → W → outcome W;
  ha_calloc : Z → Z → W → outcome (Z * W);
  ha_realloc : Z → Z → W → outcome (Z * W);
  ha_heap : W → gmap Z Z → Prop;
  ha_bytes : W → Z → Z;
  ha_malloc_law w h n :
    ha_heap w h → 0 ≤ n < 2 ^ 62 →
    gives_up (ha_malloc n w) ∨
    ∃ p m w', ha_malloc n w = Ok (p, w') ∧ p ≠ 0 ∧ n ≤ m ∧ h !! p = None ∧
      ha_heap w' (<[p := m]> h) ∧ bytes_kept h (ha_bytes w) (ha_bytes w');
  ha_free_law w h p n :
    ha_heap w h → h !! p = Some n →
    gives_up (ha_free p w) ∨
    ∃ w', ha_free p w = Ok w' ∧ ha_heap w' (delete p h) ∧ bytes_kept h (ha_bytes w) (ha_bytes w');
  ha_calloc_law w h nmemb size :
    ha_heap w h → 0 < nmemb → 0 < size → nmemb * size < 2 ^ 62 →
    gives_up (ha_calloc nmemb size w) ∨
    ∃ p m w', ha_calloc nmemb size w = Ok (p, w') ∧ p ≠ 0 ∧ nmemb * size ≤ m ∧ h !! p = None ∧
      ha_heap w' (<[p := m]> h) ∧ bytes_kept h (ha_bytes w) (ha_bytes w') ∧
      ∀ x, range p (nmemb * size) x → ha_bytes w' x = 0;
  ha_realloc_law w h p n size :
    ha_heap w h → h !! p = Some n → 0 < size < 2 ^ 62 →
    gives_up (ha_realloc p size w) ∨
    ∃ q m w', ha_realloc p size w = Ok (q, w') ∧ q ≠ 0 ∧ size ≤ m ∧ h !! q = None ∧
      ha_heap w' (<[q := m]> (delete p h)) ∧ bytes_kept h (ha_bytes w) (ha_bytes w') ∧
      ∀ x, 0 ≤ x < Z.min n size → ha_bytes w' (q + x) = ha_bytes w (p + x);
  ha_apart_law w h p n q m :
    ha_heap w h → h !! p = Some n → h !! q = Some m → p ≠ q → apart (p, n) (q, m)
}.

(** ** Clients *)
Inductive call_t : Type :=
  | CMalloc (size : Z)
  | CCalloc (nmemb size : Z)
  | CRealloc (i : nat) (size : Z)   (* of the i-th pointer held *)
  | CFree (i : nat).

(** The sizes of the calls. *)
Definition call_ok (c : call_t) : Prop :=
  match c with
  | CMalloc size => 0 ≤ size < 2 ^ 62
  | CCalloc nmemb size => 0 < nmemb ∧ 0 < size ∧ nmemb * size < 2 ^ 62
  | CRealloc _ size => 0 < size < 2 ^ 62
  | CFree _ => True
  end.

Section client.
Context `{HeapAllocator W}.

(** The client holds a list of pointers; a call on a pointer it does not hold is
    skipped. *)
Definition client_step (c : call_t) (st : list Z * W) : outcome (list Z * W) :=
  let '(ps, w) := st in
  match c with
  | CMalloc size => '(p, w) ← ha_malloc size w; Ok (p :: ps, w)
  | CCalloc nmemb size => '(p, w) ← ha_calloc nmemb size w; Ok (p :: ps, w)
  | CRealloc i size =>
      match ps !! i with
      | None => Ok st
      | Some p => '(q, w) ← ha_realloc p size w; Ok (q :: delete i ps, w)
      end
  | CFree i =>
      match ps !! i with
      | None => Ok st
      | Some p => w ← ha_free p w; Ok (delete i ps, w)
      end
  end.
Fixpoint client_run (cs : list call_t) (st : list Z * W) : outcome (list Z * W) :=
  match cs with
  | [] => Ok st
  | c :: cs => st ← client_step c st; client_run cs st
  end.

(** The pointers held are the addresses of the heap. *)
Definition holds (ps : list Z) (h : gmap Z Z) : Prop := NoDup ps ∧ ∀ p, p ∈ ps ↔ is_Some (h !! p).

Lemma holds_insert ps h p n : holds ps h → h !! p = None → holds (p :: ps) (<[p := n]> h).
Proof.
  intros [Hnd Hin] Hp. split.
  - constructor; [|done]. rewrite Hin, Hp. by intros [].
  - intros q. rewrite elem_of_cons, lookup_insert_is_Some', Hin. naive_solver.
Qed.

Lemma holds_delete ps h i p : holds ps h → ps !! i = Some p → holds (delete i ps) (delete p h).
Proof.
  intros [Hnd Hin] Hi. rewrite (delete_take_drop ps i).
  pose proof (take_drop_middle ps i p Hi) as Hps. rewrite <- Hps in Hnd, Hin.
  apply NoDup_app in Hnd as (N1 & N2 & N3). apply NoDup_cons in N3 as [N3 N4]. split.
  - apply NoDup_app. split; [done|]. split; [|done]. intros x Hx Hx'. apply (N2 x Hx). by right.
  - intros q. rewrite lookup_delete_is_Some, <- Hin, !elem_of_app, elem_of_cons. split.
    + intros Hq. split; [|tauto]. intros <-. destruct Hq as [Hq|Hq]; [|done]. apply (N2 p Hq). by left.
    + intros [Hne [Hq|[->|Hq]]]; auto. done.
Qed.

Lemma client_step_ok c ps w h :
  ha_heap w h → holds ps h → call_ok c →
  gives_up (client_step c (ps, w)) ∨
  ∃ ps' w' h', client_step c (ps, w) = Ok (ps', w') ∧ ha_heap w' h' ∧ holds ps' h'.
Proof.
  intros Hw Hps Hc. destruct c as [size|nmemb size|i size|i]; cbn [client_step call_ok] in *.
  - destruct (ha_malloc_law w h size Hw Hc) as [Hg|(p & m & w' & -> & _ & _ & Hp & Hw' & _)];
      [left; by apply gives_up_bind|right]. eexists _, _, _. split; [done|]. split; [done|]. by apply holds_insert.
  - destruct Hc as (Hn & Hs & Ht).
    destruct (ha_calloc_law w h nmemb size Hw Hn Hs Ht) as [Hg|(p & m & w' & -> & _ & _ & Hp & Hw' & _)];
      [left; by apply gives_up_bind|right]. eexists _, _, _. split; [done|]. split; [done|]. by apply holds_insert.
  - destruct (ps !! i) as [p|] eqn:Hi; [|right; by exists ps, w, h].
    destruct (proj1 (proj2 Hps p)) as [n Hp]; [by eapply list_elem_of_lookup_2|].
    destruct (ha_realloc_law w h p n size Hw Hp Hc) as [Hg|(q & m & w' & -> & _ & _ & Hq & Hw' & _)];
      [left; by apply gives_up_bind|right]. eexists _, _, _. split; [done|]. split; [done|].
    apply holds_insert; [by apply holds_delete|]. apply lookup_delete_None. by right.
  - destruct (ps !! i) as [p|] eqn:Hi; [|right; by exists ps, w, h].
    destruct (proj1 (proj2 Hps p)) as [n Hp]; [by eapply list_elem_of_lookup_2|].
    destruct (ha_free_law w h p n Hw Hp) as [Hg|(w' & -> & Hw' & _)]; [left; by apply gives_up_bind|right].
    eexists _, _, _. split; [done|]. split; [done|]. by apply holds_delete.
Qed.

(** A client that gives back only what it holds gets pairwise disjoint regions, and
    the allocator never fails an assertion, aborts or behaves undefinedly. *)
Lemma client_run_ok cs : Forall call_ok cs → ∀ ps w h,
  ha_heap w h → holds ps h →
  gives_up (client_run cs (ps, w)) ∨
  ∃ ps' w' h', client_run cs (ps, w) = Ok (ps', w') ∧ ha_heap w' h' ∧ holds ps' h'.
Proof.
  induction 1 as [|c cs Hc _ IH]; intros ps w h Hw Hps; cbn [client_run]; [right; by exists ps, w, h|].
  destruct (client_step_ok c ps w h Hw Hps Hc) as [Hg|(ps1 & w1 & h1 & -> & Hw1 & Hps1)];
    [left; by apply gives_up_bind|]. cbn [mbind outcome_bind]. by apply (IH ps1 w1 h1).
Qed.
End client.
