(* ===== verification/SeallocHeap.v ===== *)
(** * SeallocHeap: the exported functions against an abstract heap

    An abstract heap is a finite map from addresses to lengths.  [heap_of w h] says that
    the live regions of the world [w] are the entries of [h].  arena_init starts with
    the empty heap; malloc inserts an entry, free deletes one. *)
From Stdlib Require Import ZArith Lia.
From stdpp Require Import base option numbers functions sorting list gmap.
From S2P Require Import Prelude.
From S2P Require Import CArray.
From S2P Require Import Utils.
From S2P Require Import SizeClass.
From S2P Require Import Random.
From S2P Require Import ContainerLL.
From S2P Require Import Platform.
From S2P Require Import KernelSpec.
From S2P Require Import Run.
From S2P Require Import Bin.
From S2P Require Import InternalAllocator.
From S2P Require Import IntAllocTree.
From S2P Require Import IntAllocProps.
From S2P Require Import Chunk.
From S2P Require Import ChunkTree.
From S2P Require Import ChunkAlloc.
From S2P Require Import ChunkRun.
From S2P Require Import ChunkBuddy.
From S2P Require Import ChunkSpec.
From S2P Require Import World.
From S2P Require Import Arena.
From S2P Require Import ArenaMeta.
From S2P Require Import ArenaInv.
From S2P Require Import ArenaOps.
From S2P Require Import ArenaHuge.
From S2P Require Import ArenaFree.
From S2P Require Import Sealloc.
From S2P Require Import ArenaBins.
From S2P Require Import SeallocInv.
From S2P Require Import SeallocLookup.
From S2P Require Import SeallocFree.
From S2P Require Import SeallocRealloc.
From S2P Require Import HeapSpec.
From S2P Require Import MallocApi.

Section sealloc_heap.
Context `{Build} `{KernelLaws OS}.
Implicit Types (w : world OS) (h : gmap Z Z).

(** ** arena_init *)
Definition empty_g : arena_g := ArenaG [] [] [] ∅ ∅ (λ _, ([], [])).

(** SEALLOC_SEED is not set, or a string str2u32 can read. *)
Definition seed_readable (os : OS) : Prop := ∀ s, k_getenv_seed os = Some s → ∃ v, str2u32 s = Ok v.

Lemma arena_seed_ok os :
  seed_readable os → arena_seed os = Fail ErrorExit ∨ ∃ v os', arena_seed os = Ok (v, os').
Proof.
  intros Hs. unfold arena_seed. destruct (k_getenv_seed os) as [s|] eqn:He.
  - destruct (Hs s He) as [v ->]. right. cbn [mbind outcome_bind]. eauto.
  - unfold platform_get_random. destruct (k_urandom os) as [[v|e] os']; [right; eauto|left; by destruct e].
Qed.

Lemma dll_empty `{EntryStore St} (s : St) : dll s 0 [].
Proof. split; [done|]. split; [done|]. split; [constructor|]. simpl. lia. Qed.

Lemma empty_inv w :
  is_initialized (w_arena w) = 1 → probes_ok (w_arena w) → chunk_list (w_arena w) = 0 →
  huge_alloc_list (w_arena w) = 0 → internal_alloc_list (w_arena w) = 0 →
  bins (w_arena w) = amake ARENA_NO_BINS no_bin → sealloc_inv w empty_g.
Proof.
  intros Hi Hp Hc Hh Hm Hb.
  assert (∀ i : nat, Z.of_nat i < ARENA_NO_BINS → acell (bins (w_arena w)) (Z.of_nat i) = no_bin) as Hbin.
  { intros i _. by rewrite Hb. }
  assert (∀ k rs, ¬ live_run [] k rs) as Hno.
  { intros k rs (a & g & n & Hin & _). by apply elem_of_nil in Hin. }
  split; [|intros i Hi'; left; by rewrite Hbin].
  split; [done|done| | | | | | |]; unfold empty_g; cbn [g_meta g_chunks g_huges g_runs g_regs g_bins].
  - split; [rewrite Hm; apply dll_empty|..]; intros *; set_solver.
  - split; [rewrite Hc; apply dll_empty|constructor|]. set_solver.
  - split; [rewrite Hh; apply dll_empty|constructor|]. set_solver.
  - split; [by rewrite Hb|intros i Hi'; left; by rewrite Hbin|]. intros a k i. rewrite lookup_empty. set_solver.
  - split; [done| |done|done]. intros k rs Hl. by apply Hno in Hl.
  - split; [done|constructor|..]; try set_solver; done.
  - split; [intros [a|a|a] x|intros [a|a|a] ? x]; cbn [owns]; set_solver.
Qed.

Lemma arena_init_ok w :
  w_arena w = arena_static → seed_readable (w_os w) →
  arena_init w = Fail ErrorExit ∨
  ∃ w', arena_init w = Ok w' ∧ sealloc_inv w' empty_g ∧ w_mem w' = w_mem w.
Proof.
  intros Hst Hseed. unfold arena_init. rewrite Hst. ok_assert by done.
  destruct (arena_seed_ok (w_os w) Hseed) as [->|(v & os1 & ->)]; [by left|]. cbn [mbind outcome_bind].
  unfold platform_get_program_break. destruct (k_sbrk0 os1) as [[b|e] os2] eqn:Hb.
  2: { left. by destruct e. }
  apply k_sbrk_user in Hb. rewrite bool_decide_eq_true_2 by done. cbn [negb arena_static]. right.
  match goal with |- context [reset_chunk_ptr_start ?a ?r] => set (a0 := a); generalize r; intros r0 end.
  assert (probes_ok a0) as Hp0 by (split; [done|]; intros []; by split).
  destruct (probe_reset_ok ChunkProbe a0 r0 Hp0) as (a1 & r1 & H1 & Hp1 & Hf1). cbn [probe_reset] in H1. ok_rw H1.
  destruct (probe_reset_ok InternalProbe a1 r1 Hp1) as (a2 & r2 & H2 & Hp2 & Hf2). cbn [probe_reset] in H2. ok_rw H2.
  destruct (probe_reset_ok HugeProbe a2 r2 Hp2) as (a3 & r3 & H3 & Hp3 & Hf3). cbn [probe_reset] in H3. ok_rw H3.
  rewrite Hf2, Hf1 in Hf3. eexists. split; [reflexivity|]. split; [|done].
  apply empty_inv; cbn [w_arena set_rng set_arena set_bins is_initialized chunk_list huge_alloc_list internal_alloc_list bins].
  - exact (f_equal is_initialized Hf3).
  - destruct Hp3 as [Hb3 Hp3]. split; [done|]. intros pr. specialize (Hp3 pr). by destruct pr.
  - exact (f_equal chunk_list Hf3).
  - exact (f_equal huge_alloc_list Hf3).
  - exact (f_equal internal_alloc_list Hf3).
  - done.
Qed.

(** ** The abstract heap *)

(** The live regions of [w] are the entries of [h]. *)
Definition live_heap (S : arena_g) (h : gmap Z Z) : Prop := ∀ p n, live_region S p n ↔ h !! p = Some n.
Definition heap_of w h : Prop := ∃ S, sealloc_inv w S ∧ live_heap S h.

Lemma empty_not_live p n : ¬ live_region empty_g p n.
Proof.
  intros [a k i rs iss fr j Ha _ _ _ _|a q m Hin]; cbn in *; [by rewrite lookup_empty in Ha|by apply elem_of_nil in Hin].
Qed.

Lemma live_heap_empty : live_heap empty_g ∅.
Proof. intros p n. rewrite lookup_empty. split; [|done]. by intros ?%empty_not_live. Qed.

Lemma empty_heap_of w : sealloc_inv w empty_g → heap_of w ∅.
Proof. intros Hinv. exists empty_g. split; [exact Hinv|exact live_heap_empty]. Qed.

(** A new region is not at the address of a live one. *)
Lemma allocated_fresh P X w S S' p n :
  arena_pend P X w S' → allocated S S' p n → ∀ m, ¬ live_region S p m.
Proof.
  intros Hinv [_ Hl Hn] m Hm.
  assert (live_region S' p m) as H1 by (apply Hl; by right). assert (live_region S' p n) as H2 by (apply Hl; by left).
  destruct (live_regions_apart _ _ _ _ _ _ _ _ Hinv H1 H2) as [[= ->]|Hap]; [by apply Hn, live_issued|].
  destruct (live_region_at _ _ _ _ _ _ Hinv H1) as [? [? _]], (live_region_at _ _ _ _ _ _ Hinv H2) as [? [? _]].
  unfold apart in Hap. cbn [fst snd] in Hap. lia.
Qed.

Lemma heap_insert w' S S' h p n :
  sealloc_inv w' S' → live_heap S h → allocated S S' p n → h !! p = None ∧ live_heap S' (<[p := n]> h).
Proof.
  intros Hinv Hh Hal. pose proof (allocated_fresh _ _ _ _ _ _ _ (al_arena _ _ Hinv) Hal) as Hfr.
  assert (h !! p = None) as Hp.
  { destruct (h !! p) as [m|] eqn:Hm; [|done]. apply Hh in Hm. by apply Hfr in Hm. }
  split; [done|]. intros q m. rewrite (at_live _ _ _ _ Hal), lookup_insert_Some, (Hh q m).
  split; [intros [[-> ->]|Hq]|intros [[-> ->]|[_ Hq]]]; [by left|right|by left|by right].
  split; [|done]. intros ->. by rewrite Hp in Hq.
Qed.

Lemma heap_delete S S' h p n :
  live_heap S h → h !! p = Some n → released S S' p n → live_heap S' (delete p h).
Proof.
  intros Hh Hp Hre q m. rewrite (Hre q m), (Hh q m), lookup_delete_Some.
  split; [intros [Hq Hne]|intros [Hne Hq]].
  - split; [|done]. intros ->. rewrite Hp in Hq. by injection Hq as ->.
  - split; [done|]. by intros [= -> ->].
Qed.

Lemma heap_move w w' S S' h p n q m c :
  live_heap S h → h !! p = Some n → relocated w w' S S' p n q m c →
  h !! q = None ∧ live_heap S' (<[q := m]> (delete p h)).
Proof.
  intros Hh Hp [_ R2 R3 _ _ _ _].
  assert (h !! q = None) as Hq.
  { destruct (h !! q) as [k|] eqn:Hk; [|done]. apply Hh in Hk. by apply R2 in Hk. }
  split; [done|]. intros x k. rewrite R3, (Hh x k), lookup_insert_Some, lookup_delete_Some. split.
  - intros [[-> ->]|[Hx Hne]]; [by left|right]. split; [intros ->; by rewrite Hq in Hx|]. split; [|done].
    intros ->. rewrite Hp in Hx. by injection Hx as ->.
  - intros [[-> ->]|(_ & Hne & Hx)]; [by left|right]. split; [done|]. by intros [= -> ->].
Qed.

(** ** malloc and free *)

(** A world before the first call, or between two calls. *)
Definition api_heap w h : Prop :=
  heap_of w h ∨ (w_arena w = arena_static ∧ seed_readable (w_os w) ∧ h = ∅).

Lemma ensure_init_ok w h :
  api_heap w h → ensure_init w = Fail ErrorExit ∨
  ∃ w', ensure_init w = Ok w' ∧ heap_of w' h ∧ w_mem w' = w_mem w.
Proof.
  intros [(S & Hinv & Hh)|(Hst & Hseed & ->)]; unfold ensure_init.
  - right. exists w. rewrite (ai_init _ _ _ _ (al_arena _ _ Hinv)). split; [done|]. split; [by exists S|done].
  - rewrite Hst. cbn [arena_static is_initialized Z.eqb].
    destruct (arena_init_ok w Hst Hseed) as [->|(w' & -> & Hinv & Hm)]; [by left|right].
    exists w'. split; [done|]. split; [by apply empty_heap_of|done].
Qed.

Lemma malloc_heap w h size :
  api_heap w h → 0 ≤ size < 2 ^ 63 →
  (malloc size w = Fail Diverged ∨ malloc size w = Fail ErrorExit) ∨
  ∃ p w', malloc size w = Ok (p, w') ∧ p ≠ 0 ∧ h !! p = None ∧
    heap_of w' (<[p := request_size size]> h) ∧ w_mem w' = w_mem w.
Proof.
  intros Hw Hs. unfold malloc. destruct (ensure_init_ok w h Hw) as [->|(w1 & -> & (S & Hinv & Hh) & Hm)]; [left; by right|].
  cbn [mbind outcome_bind].
  destruct (sealloc_malloc_ok w1 S size Hinv Hs) as [->|(p & w' & S' & -> & Hinv' & Hm' & Hal)]; [left; by left|right].
  destruct (heap_insert w' S S' h p _ Hinv' Hh Hal) as [Hp Hh'].
  exists p, w'. split; [done|]. split; [apply Hal|]. split; [done|]. split; [by exists S'|]. by rewrite Hm'.
Qed.

Lemma free_heap w h p n :
  heap_of w h → h !! p = Some n →
  (free p w = Fail ErrorExit ∧ ¬ munmap_total) ∨
  ∃ w', free p w = Ok w' ∧ heap_of w' (delete p h) ∧ w_mem w' = w_mem w.
Proof.
  intros (S & Hinv & Hh) Hp. unfold free.
  destruct (sealloc_free_live w S p n Hinv (proj2 (Hh p n) Hp)) as [Hf|(w' & S' & -> & Hinv' & Hm & Hre & _)]; [by left|right].
  exists w'. split; [done|]. split; [exists S'; split; [done|by eapply heap_delete]|done].
Qed.

(** A live region is mapped user-space memory. *)
Lemma live_region_user w S p n :
  sealloc_inv w S → live_region S p n →
  0 < p ∧ 0 < n ∧ p + n ≤ 2 ^ 47 ∧ ∀ x, range p n x → k_mapped (w_os w) x.
Proof.
  intros Hinv Hp. destruct (live_region_at _ _ _ _ _ _ (al_arena _ _ Hinv) Hp) as [hd [Hn Ho]].
  assert (∀ x, range p n x → 0 < x < 2 ^ 47) as Hx.
  { intros x Hx%Ho. destruct hd as [a|a|a].
    - destruct Hx as [Ha Hr]. pose proof (mr_top _ _ _ _ (ai_meta _ _ _ _ (al_arena _ _ Hinv)) a Ha). unfold range in Hr. lia.
    - destruct Hx as (g & Hg & Hr & _). destruct (cr_good _ _ _ (ai_chunks _ _ _ _ (al_arena _ _ Hinv)) a g Hg) as (c & _ & Hgd).
      pose proof (cg_addr _ _ Hgd). unfold range in Hr. lia.
    - destruct Hx as (q & m & Hg & Hr). destruct (hr_good _ _ _ (ai_huges _ _ _ _ (al_arena _ _ Hinv)) a q m Hg) as (c & _ & Hgd).
      pose proof (hg_addr _ _ _ Hgd). unfold range in Hr. lia. }
  assert (0 < p < 2 ^ 47 ∧ 0 < p + n - 1 < 2 ^ 47) as [? ?] by (split; apply Hx; unfold range; lia).
  split; [lia|]. split; [lia|]. split; [lia|]. intros x Hr. eapply (sp_mapped _ _ (ai_space _ _ _ _ (al_arena _ _ Hinv))). by apply Ho.
Qed.

(** The entries of a heap: user-space memory, pairwise disjoint. *)
Lemma heap_entry w h p n :
  heap_of w h → h !! p = Some n → 0 < p ∧ 0 < n ∧ p + n ≤ 2 ^ 47 ∧ ∀ x, range p n x → k_mapped (w_os w) x.
Proof. intros (S & Hinv & Hh) Hp%Hh. by apply (live_region_user w S). Qed.

Lemma heap_apart w h p n q m :
  heap_of w h → h !! p = Some n → h !! q = Some m → p ≠ q → apart (p, n) (q, m).
Proof.
  intros (S & Hinv & Hh) Hp%Hh Hq%Hh Hne.
  destruct (live_regions_apart _ _ _ _ _ _ _ _ (al_arena _ _ Hinv) Hp Hq) as [[= -> ->]|]; done.
Qed.

(** ** calloc and realloc *)
Lemma kept_heap w w' S h :
  live_heap S h → live_kept S w w' → bytes_kept h (w_mem w) (w_mem w').
Proof. intros Hh Hk p n x Hp%Hh. by apply Hk. Qed.

Lemma calloc_heap w h nmemb size :
  api_heap w h → 0 < nmemb → 0 < size → nmemb * size < 2 ^ 63 →
  gives_up (calloc nmemb size w) ∨
  ∃ p w', calloc nmemb size w = Ok (p, w') ∧ p ≠ 0 ∧ h !! p = None ∧
    heap_of w' (<[p := request_size (nmemb * size)]> h) ∧ bytes_kept h (w_mem w) (w_mem w') ∧
    ∀ x, range p (nmemb * size) x → w_mem w' x = 0.
Proof.
  intros Hw Hn Hs Ht. unfold calloc.
  destruct (ensure_init_ok w h Hw) as [->|(w1 & -> & (S & Hinv & Hh) & Hm)]; [left; by right|]. cbn [mbind outcome_bind].
  assert (u64 (nmemb * size) = nmemb * size) as Hu by (apply wrap_small; split; [nia|lia]).
  destruct (sealloc_calloc_ok w1 S nmemb size Hinv Hn Hs) as [->|(p & w' & S' & -> & Hinv' & Hal & Hz & Hk)];
    [by rewrite Hu|left; by left|right]. rewrite Hu in *.
  destruct (heap_insert w' S S' h p _ Hinv' Hh Hal) as [Hp Hh'].
  exists p, w'. split; [done|]. split; [apply Hal|]. split; [done|]. split; [by exists S'|]. split; [|done].
  rewrite <- Hm. by eapply kept_heap.
Qed.

Lemma realloc_heap w h p n size :
  heap_of w h → h !! p = Some n → 0 < size < 2 ^ 62 →
  (realloc p size w = Fail Diverged ∨ (realloc p size w = Fail ErrorExit ∧ ¬ munmap_total)) ∨
  ∃ q w', realloc p size w = Ok (q, w') ∧ q ≠ 0 ∧ h !! q = None ∧
    heap_of w' (<[q := realloc_size n size]> (delete p h)) ∧ bytes_kept h (w_mem w) (w_mem w') ∧
    ∀ x, 0 ≤ x < Z.min n size → w_mem w' (q + x) = w_mem w (p + x).
Proof.
  intros (S & Hinv & Hh) Hp Hs. unfold realloc, ensure_init. rewrite (ai_init _ _ _ _ (al_arena _ _ Hinv)).
  cbn [Z.eqb mbind outcome_bind].
  destruct (sealloc_realloc_live w S p n size Hinv (proj2 (Hh p n) Hp) Hs) as
    [->|[Hf|(q & w' & S' & -> & Hinv' & Hre)]]; [left; by left|left; by right|right].
  destruct (heap_move w w' S S' h p n q _ _ Hh Hp Hre) as [Hq Hh'].
  exists q, w'. split; [done|]. split; [apply Hre|]. split; [done|]. split; [by exists S'|].
  split; [eapply kept_heap; [done|apply Hre]|apply Hre].
Qed.

Lemma api_heap_running w h p n : api_heap w h → h !! p = Some n → heap_of w h.
Proof. intros [Hw|(_ & _ & ->)] Hp; [done|by rewrite lookup_empty in Hp]. Qed.

(** ** malloc_api.c implements the interface *)
#[export] Program Instance sealloc_allocator : HeapAllocator (world OS) := {|
  ha_malloc := malloc; ha_free := free; ha_calloc := calloc; ha_realloc := realloc;
  ha_heap := api_heap; ha_bytes := w_mem
|}.
Next Obligation.
  intros w h n Hw Hn. destruct (malloc_heap w h n Hw ltac:(lia)) as [Hg|(p & w' & Hok & Hp & Hh & Hw' & Hm)]; [by left|right].
  exists p, (request_size n), w'. split; [done|]. split; [done|]. split; [apply request_size_ge; lia|].
  split; [done|]. split; [by left|]. intros q k x _ _. by rewrite Hm.
Qed.
Next Obligation.
  intros w h p n Hw Hp. destruct (free_heap w h p n (api_heap_running _ _ _ _ Hw Hp) Hp) as [[Hf _]|(w' & Hok & Hw' & Hm)];
    [left; by right|right]. exists w'. split; [done|]. split; [by left|]. intros q k x _ _. by rewrite Hm.
Qed.
Next Obligation.
  intros w h nmemb size Hw Hn Hs Ht.
  destruct (calloc_heap w h nmemb size Hw Hn Hs ltac:(lia)) as [Hg|(p & w' & Hok & Hp & Hh & Hw' & Hk & Hz)]; [by left|right].
  exists p, (request_size (nmemb * size)), w'. split; [done|]. split; [done|]. split; [apply request_size_ge; nia|].
  split; [done|]. split; [by left|done].
Qed.
Next Obligation.
  intros w h p n size Hw Hp Hs.
  destruct (realloc_heap w h p n size (api_heap_running _ _ _ _ Hw Hp) Hp Hs) as
    [[Hd|[He _]]|(q & w' & Hok & Hq & Hhq & Hw' & Hk & Hc)]; [left; by left|left; by right|right].
  exists q, (realloc_size n size), w'. split; [done|]. split; [done|]. split; [apply realloc_size_ge; lia|].
  split; [done|]. split; [by left|done].
Qed.
Next Obligation.
  intros w h p n q m Hw Hp Hq Hne. by apply (heap_apart w h p n q m (api_heap_running _ _ _ _ Hw Hp)).
Qed.
End sealloc_heap.
