(* ===== verification/TaggedSealloc.v ===== *)
(** * TaggedSealloc: sealloc.c and malloc_api.c built with memory tagging

    The functions of Sealloc and MallocApi whose code has a memory-tagging branch, or that
    call one, over a [world] and a tag memory: regions come from [run_allocate_tagged],
    new pages have the tag 0 ([TagPages]), and pointers of the caller lose their tag before
    they are looked up.  Loads and stores ignore the top byte of an address, and the copies
    of calloc and realloc are checked against the tags ([tag_check]).  [sim] relates an
    allocation to the one of a build without tags; [client_run_tagged_ok] does so for any
    sequence of calls, and keeps [regions_ok]: the client can access what it holds. *)
From Stdlib Require Import ZArith Lia.
From stdpp Require Import base option numbers functions sorting list gmap.
From S2P Require Import Prelude.
From S2P Require Import CArray.
From S2P Require Import Utils.
From S2P Require Import SizeClass.
From S2P Require Import Random.
From S2P Require Import ContainerLL.
From S2P Require Import Platform.
From S2P Require Import KernelSpec.
From S2P Require Import Run.
From S2P Require Import Bin.
From S2P Require Import Tagging.
From S2P Require Import InternalAllocator.
From S2P Require Import IntAllocTree.
From S2P Require Import IntAllocProps.
From S2P Require Import Chunk.
From S2P Require Import ChunkTree.
From S2P Require Import ChunkAlloc.
From S2P Require Import ChunkRun.
From S2P Require Import ChunkBuddy.
From S2P Require Import ChunkSpec.
From S2P Require Import World.
From S2P Require Import Arena.
From S2P Require Import ArenaMeta.
From S2P Require Import ArenaInv.
From S2P Require Import ArenaOps.
From S2P Require Import ArenaHuge.
From S2P Require Import ArenaFree.
From S2P Require Import Sealloc.
From S2P Require Import ArenaBins.
From S2P Require Import SeallocInv.
From S2P Require Import SeallocLookup.
From S2P Require Import SeallocFree.
From S2P Require Import SeallocRealloc.
From S2P Require Import HeapSpec.
From S2P Require Import MallocApi.
From S2P Require Import SeallocHeap.

(** ** Accesses and mappings

    Pages that mmap maps with PROT_MTE start with the tag 0, as the kernel documents. *)
Class TagPages (T : Type) := { k_map_tags : T → Z → Z → T }.
Class TagPagesLaws (T : Type) `{TagLaws T} `{!TagPages T} :=
  map_tags_tag t p n g : p mod PAGE_SIZE = 0 → n mod PAGE_SIZE = 0 →
    mem_tag (k_map_tags t p n) g = if decide (p / 16 ≤ g < (p + n) / 16) then 0 else mem_tag t g.

Section tagged_sealloc.
Context `{Build} `{Kernel OS} `{TagUnit T} `{!TagPages T}.
Implicit Types w : world OS.
Implicit Types on : bool.   (* is_mte_enabled *)

(** The memory a pointer accesses. *)
Definition mem_addr (p : Z) : Z := PTR_CLEAR_TAG p.

(** An access to [n] bytes through [p] faults when one of their granules has another tag
    than the pointer (PR_MTE_TCF_SYNC). *)
Definition tag_check on (t : T) (p n : Z) : outcome unit :=
  let first := mem_addr p / MEMORY_GRANULE_SIZE in
  let last := (mem_addr p + n - 1) / MEMORY_GRANULE_SIZE in
  if on && (0 <? n) &&
     negb (forallb (λ g, ptr_tag (asm_ldg t (g * MEMORY_GRANULE_SIZE)) =? ptr_tag p) (seqZ first (last - first + 1)))
  then Fail TagFault else Ok tt.
Definition memcpy_tagged on (t : T) (m : Z → Z) (dst src n : Z) : outcome (Z → Z) :=
  _ ← tag_check on t src n;
  _ ← tag_check on t dst n;
  Ok (memcpy m (mem_addr dst) (mem_addr src) n).
Definition memset_tagged on (t : T) (m : Z → Z) (p v n : Z) : outcome (Z → Z) :=
  _ ← tag_check on t p n;
  Ok (memset m (mem_addr p) v n).

(** ** Huge mappings

    platform_map and platform_map_probe map with PROT_MTE when tagging is on.  (The tags of
    a chunk are written before its regions are accessed; no code reads them earlier.) *)
Definition map_tags on (t : T) (p n : Z) : T := if on then k_map_tags t p n else t.

Definition arena_allocate_huge_mapping_tagged on (n : Z) (t : T) w : outcome (Z * world OS * T) :=
  '(huge, w) ← arena_allocate_huge_mapping n w;
  h ← rd_at (w_huges w) huge;
  Ok (huge, w, map_tags on t (key (huge_entry h)) n).

Definition arena_reallocate_huge_mapping_tagged on (huge new_size : Z) (t : T) w : outcome (world OS * T) :=
  h ← rd_at (w_huges w) huge;
  _ ← c_assert (IS_ALIGNED (len h) PAGE_SIZE);
  _ ← c_assert (IS_ALIGNED new_size PAGE_SIZE);
  _ ← c_assert (is_initialized (w_arena w) =? 1);
  _ ← c_assert (IS_SIZE_HUGE new_size);
  '(map, w) ← arena_morecore HugeProbe new_size w;
  let t := map_tags on t map new_size in
  let w := skip_mapping HugeProbe map (new_size + PAGE_SIZE) w in
  let n := if new_size <? len h then new_size else len h in
  m ← memcpy_tagged on t (w_mem w) map (key (huge_entry h)) n;
  let w := set_mem w m in
  '(code, os) ← platform_unmap (w_os w) (key (huge_entry h)) (len h);
  if negb (bool_decide (code = PLATFORM_STATUS_OK)) then Fail ErrorExit
  else
    let h := Huge (LLEntry (fd (huge_entry h)) (bk (huge_entry h)) map) new_size in
    Ok (set_huges (set_os w os) (<[huge := h]> (w_huges w)), t).

(** ** Allocation *)
Definition allocate_from_bin_tagged on (t : T) (bin : bin_t) (runs : gmap Z run_t) (r : rng)
    : outcome (Z * bin_t * gmap Z run_t * rng * T) :=
  _ ← c_assert (BIN_MINIMUM_REGIONS <=? avail_regs bin);
  '(a, bin, r) ← bin_get_run_for_allocation bin runs r;
  run ← rd_run runs a;
  '(ptr, run, t) ← run_allocate_tagged on t run bin;
  let runs := <[a := run]> runs in
  '(bin, runs) ← (if run_is_depleted run then bin_retire_run bin runs a else Ok (bin, runs));
  Ok (ptr, bin, runs, r, t).

Definition take_region_tagged on (i : Z) (t : T) w : outcome (Z * world OS * T) :=
  bin ← rd_bin w i;
  '(ptr, bin, runs, r, t) ← allocate_from_bin_tagged on t bin (w_runs w) (w_rng w);
  w ← wr_bin (set_rng (set_runs w runs) r) i bin;
  Ok (ptr, w, t).

Definition sealloc_allocate_with_bin_tagged on (i : Z) (t : T) w : outcome (Z * world OS * T) :=
  bin ← rd_bin w i;
  if avail_regs bin <? BIN_MINIMUM_REGIONS then
    '(ok, w) ← add_fresh_run i w;
    if ok : bool then take_region_tagged on i t w else Ok (0, w, t)
  else take_region_tagged on i t w.

Definition allocate_class_tagged on (aligned_size : Z) (t : T) w : outcome (Z * world OS * T) :=
  '(i, w) ← arena_get_bin_by_reg_size (u32 aligned_size) w;
  bin ← rd_bin w i;
  '(ok, w) ← (if avail_regs bin =? 0 then arena_supply_runs i w else Ok (true, w));
  if ok : bool then sealloc_allocate_with_bin_tagged on i t w else Ok (0, w, t).

Definition allocate_huge_tagged on (size : Z) (t : T) w : outcome (Z * world OS * T) :=
  '(huge, w, t) ← arena_allocate_huge_mapping_tagged on (ALIGNUP_PAGE 64 size) t w;
  h ← rd_at (w_huges w) huge;
  Ok (key (huge_entry h), w, t).

Definition sealloc_malloc_tagged on (size : Z) (t : T) w : outcome (Z * world OS * T) :=
  let size := if size =? 0 then SMALL_SIZE_MIN_REGION else size in
  if IS_SIZE_HUGE size then allocate_huge_tagged on size t w
  else allocate_class_tagged on (alignup_class size) t w.

(** ** Release *)
Definition release_to_bin_tagged on (bin : bin_t) (runs : gmap Z run_t) (a ptr : Z)
    : outcome (bool * bin_t * gmap Z run_t) :=
  run ← rd_run runs a;
  '(ok, run) ← run_deallocate_tagged on run bin ptr;
  if negb (ok : bool) then Fail Aborted
  else
    let runs := <[a := run]> runs in
    if run_is_freeable run bin then
      '(bin, runs) ← bin_delete_run bin runs a;
      Ok (true, bin, runs)
    else Ok (false, bin, runs).

Definition sealloc_free_with_metadata_tagged on (chunk i run ptr : Z) w : outcome (world OS) :=
  bin ← rd_bin w i;
  '(freeable, bin, runs) ← release_to_bin_tagged on bin (w_runs w) run ptr;
  w ← wr_bin (set_runs w runs) i bin;
  if freeable : bool then release_run chunk run w else Ok w.

Definition sealloc_free_tagged on (ptr : Z) w : outcome (world OS) :=
  if ptr =? 0 then Ok w
  else
    let ptr := if on then Z.land ptr (u64 (Z.shiftl 1 TAG_OFFSET_BITS - 1)) else ptr in
    '(meta, w) ← locate_metadata_for_ptr ptr w;
    match meta with
    | METADATA_INVALID => Fail Aborted
    | METADATA_HUGE huge => arena_deallocate_huge_mapping huge w
    | METADATA_REGULAR chunk run i => sealloc_free_with_metadata_tagged on chunk i run ptr w
    end.

(** ** Reallocation *)
Definition realloc_huge_tagged on (huge new_size : Z) (t : T) w : outcome (Z * world OS * T) :=
  if IS_SIZE_HUGE new_size then
    '(w, t) ← arena_reallocate_huge_mapping_tagged on huge new_size t w;
    h ← rd_at (w_huges w) huge;
    Ok (key (huge_entry h), w, t)
  else
    '(new_reg, w, t) ← sealloc_malloc_tagged on new_size t w;
    if new_reg =? 0 then Ok (0, w, t)
    else
      h ← rd_at (w_huges w) huge;
      m ← memcpy_tagged on t (w_mem w) new_reg (key (huge_entry h)) new_size;
      w ← arena_deallocate_huge_mapping huge (set_mem w m);
      Ok (new_reg, w, t).

Definition realloc_regular_tagged on (chunk run_old bin_old old_ptr tagged_ptr new_size : Z) (t : T) w
    : outcome (Z * world OS * T) :=
  let aligned := alignup_class new_size in
  '(bin_new, w) ← arena_get_bin_by_reg_size (u32 aligned) w;
  bin ← rd_bin w bin_new;
  '(ok, w) ← (if avail_regs bin =? 0 then arena_supply_runs bin_new w else Ok (true, w));
  if negb (ok : bool) then Ok (0, w, t)
  else
    '(new_ptr, w, t) ← sealloc_allocate_with_bin_tagged on bin_new t w;
    if new_ptr =? 0 then Ok (0, w, t)
    else
      bn ← rd_bin w bin_new;
      bo ← rd_bin w bin_old;
      let n := if reg_size bo <? reg_size bn then reg_size bo else reg_size bn in
      m ← memcpy_tagged on t (w_mem w) new_ptr tagged_ptr n;
      w ← sealloc_free_with_metadata_tagged on chunk bin_old run_old old_ptr (set_mem w m);
      Ok (new_ptr, w, t).

Definition realloc_to_huge_tagged on (chunk run_old bin_old old_ptr tagged_ptr new_size : Z) (t : T) w
    : outcome (Z * world OS * T) :=
  '(huge, w, t) ← arena_allocate_huge_mapping_tagged on (ALIGNUP_PAGE 64 new_size) t w;
  h ← rd_at (w_huges w) huge;
  bo ← rd_bin w bin_old;
  m ← memcpy_tagged on t (w_mem w) (key (huge_entry h)) tagged_ptr (reg_size bo);
  w ← sealloc_free_with_metadata_tagged on chunk bin_old run_old old_ptr (set_mem w m);
  h ← rd_at (w_huges w) huge;
  Ok (key (huge_entry h), w, t).

Definition sealloc_realloc_tagged on (old_ptr new_size : Z) (t : T) w : outcome (Z * world OS * T) :=
  if old_ptr =? 0 then sealloc_malloc_tagged on new_size t w
  else
    let tagged_ptr := old_ptr in
    let old_ptr := if on then PTR_CLEAR_TAG old_ptr else old_ptr in
    '(meta, w) ← locate_metadata_for_ptr old_ptr w;
    match meta with
    | METADATA_INVALID => Fail Aborted
    | METADATA_HUGE huge => realloc_huge_tagged on huge (ALIGNUP_PAGE 64 new_size) t w
    | METADATA_REGULAR chunk run_old bin_old =>
        bo ← rd_bin w bin_old;
        r ← rd_at (w_runs w) run_old;
        valid ← run_validate_ptr_tagged on r bo old_ptr;
        if valid =? SIZE_MAX then Fail Aborted
        else if IS_SIZE_HUGE new_size then
          realloc_to_huge_tagged on chunk run_old bin_old old_ptr tagged_ptr new_size t w
        else realloc_regular_tagged on chunk run_old bin_old old_ptr tagged_ptr new_size t w
    end.

Definition sealloc_calloc_tagged on (nmemb size : Z) (t : T) w : outcome (Z * world OS * T) :=
  if (nmemb =? 0) || (size =? 0) then Ok (0, w, t)
  else
    '(ptr, w, t) ← sealloc_malloc_tagged on (u64 (nmemb * size)) t w;
    if ptr =? 0 then Ok (0, w, t)
    else
      m ← memset_tagged on t (w_mem w) ptr 0 (u64 (nmemb * size));
      Ok (ptr, set_mem w m, t).

(** ** malloc_api.c *)
Definition malloc_tagged on (size : Z) (t : T) w : outcome (Z * world OS * T) :=
  w ← ensure_init w; sealloc_malloc_tagged on size t w.
Definition free_tagged on (ptr : Z) w : outcome (world OS) := sealloc_free_tagged on ptr w.
Definition calloc_tagged on (nmemb size : Z) (t : T) w : outcome (Z * world OS * T) :=
  w ← ensure_init w; sealloc_calloc_tagged on nmemb size t w.
Definition realloc_tagged on (ptr size : Z) (t : T) w : outcome (Z * world OS * T) :=
  w ← ensure_init w; sealloc_realloc_tagged on ptr size t w.
End tagged_sealloc.

(** The tag memory of Tagging in software, with the pages of mmap. *)
#[export] Instance soft_pages : TagPages (gmap Z Z) := {
  k_map_tags t p n := filter (λ gv : Z * Z, ¬ (p / 16 ≤ gv.1 < (p + n) / 16)) t
}.

#[export] Instance soft_pages_laws : TagPagesLaws (gmap Z Z).
Proof.
  intros t p n g _ _. simpl. unfold soft_mem_tag. case_decide as Hg.
  - rewrite (proj2 (map_lookup_filter_None _ t g)); [done|]. right. simpl. tauto.
  - destruct (t !! g) as [v|] eqn:Hv.
    + by rewrite (map_lookup_filter_Some_2 _ t g v).
    + rewrite (proj2 (map_lookup_filter_None _ t g)); [done|by left].
Qed.

(** ** Simulation *)
Lemma clear_tag_idem p : PTR_CLEAR_TAG (PTR_CLEAR_TAG p) = PTR_CLEAR_TAG p.
Proof. rewrite !clear_tag_mod. by apply Z.mod_mod. Qed.

Section simulation.
Context `{Build} `{KernelLaws OS} `{TagPagesLaws T}.
Implicit Types w : world OS.

(** [m'] ends as [m] does, with a pointer [q] to the same address and a tag memory
    such that [Q]. *)
Definition sim {W} (Q : Z → T → Prop) (m : outcome (Z * W)) (m' : outcome (Z * W * T)) : Prop :=
  match m with
  | Ok (p, w') => ∃ q t', m' = Ok (q, w', t') ∧ PTR_CLEAR_TAG q = p ∧ (q =? 0) = (p =? 0) ∧ Q q t'
  | Fail e => m' = Fail e
  end.

(** Two builds go on in the same way after an allocation. *)
Lemma sim_bind {W} (Q Q' : Z → T → Prop) {W'} (m : outcome (Z * W)) (m' : outcome (Z * W * T))
    (f : Z * W → outcome (Z * W')) (f' : Z * W * T → outcome (Z * W' * T)) :
  sim Q m m' →
  (∀ p q (v : W) t, m = Ok (p, v) → PTR_CLEAR_TAG q = p → (q =? 0) = (p =? 0) → Q q t → sim Q' (f (p, v)) (f' (q, v, t))) →
  sim Q' (m ≫= f) (m' ≫= f').
Proof.
  intros Hm Hf. destruct m as [[p w']|e]; cbn [sim] in Hm; [|by rewrite Hm].
  destruct Hm as (q & t' & -> & Hq & Hz & HQ). cbn [mbind outcome_bind]. by apply Hf.
Qed.

(** The same call in both builds. *)
Lemma sim_step {A W} (Q : Z → T → Prop) (m : outcome A) (f : A → outcome (Z * W))
    (f' : A → outcome (Z * W * T)) :
  (∀ a, m = Ok a → sim Q (f a) (f' a)) → sim Q (m ≫= f) (m ≫= f').
Proof. intros Hf. destruct m as [a|e]; [by apply Hf|done]. Qed.

(** [n] bytes at [q] get the tag of [q]. *)
Record tagged_region (t : T) (n q : Z) (t' : T) : Prop := {
  tg_tag : ptr_tag q ≠ 0;
  tg_retagged : retagged t t' q n;
  tg_granules : PTR_CLEAR_TAG q mod 16 = 0 ∧ n mod 16 = 0
}.

(** A region is put under the tag of its pointer: not 0 for a region of a run, 0 for a
    huge mapping. *)
Definition region_tag_ok (n q : Z) : Prop := if LARGE_SIZE_MAX_REGION <? n then ptr_tag q = 0 else ptr_tag q ≠ 0.
Record region_tags (t : T) (n q : Z) (t' : T) : Prop := {
  rt_tag : region_tag_ok n q;
  rt_retagged : retagged t t' q n;
  rt_granules : PTR_CLEAR_TAG q mod 16 = 0 ∧ n mod 16 = 0
}.

(** The bytes of a region can be accessed through its pointer. *)
Record region_ok (t : T) (n q : Z) : Prop := {
  ro_tag : region_tag_ok n q;
  ro_accessible : ∀ x, range (PTR_CLEAR_TAG q) n x → accessible t q x
}.

Lemma tagged_region_tags t n q t' : n ≤ LARGE_SIZE_MAX_REGION → tagged_region t n q t' → region_tags t n q t'.
Proof.
  intros Hn [Ht Hre Hgr]. split; [|done|done]. unfold region_tag_ok.
  by rewrite (proj2 (Z.ltb_ge LARGE_SIZE_MAX_REGION n)).
Qed.

(** Granules inside and outside a retagged region. *)
Lemma retagged_range t t' q n x :
  region_tags t n q t' →
  mem_tag t' (x / 16) = if decide (range (PTR_CLEAR_TAG q) n x) then ptr_tag q else mem_tag t (x / 16).
Proof.
  intros [_ Hre [Hq Hn]]. rewrite Hre. set (p := PTR_CLEAR_TAG q) in *. unfold range.
  pose proof (Z.div_mod p 16 ltac:(lia)). pose proof (Z.div_mod n 16 ltac:(lia)).
  pose proof (Z.div_mod x 16 ltac:(lia)). pose proof (Z.mod_pos_bound x 16 ltac:(lia)).
  replace ((p + n) / 16) with (p / 16 + n / 16)
    by (replace (p + n) with (p + n / 16 * 16) by lia; by rewrite Z.div_add by lia).
  destruct (decide (p ≤ x < p + n)); [rewrite decide_True by lia|rewrite decide_False by lia]; done.
Qed.

Lemma region_tags_ok t n q t' : region_tags t n q t' → region_ok t' n q.
Proof.
  intros Htag. split; [apply Htag|]. intros x Hx. unfold accessible.
  rewrite (retagged_range _ _ _ _ x Htag). by rewrite decide_True.
Qed.

Lemma region_ok_kept t t' n q m r :
  region_tags t n q t' → (∀ x, range (PTR_CLEAR_TAG r) m x → ¬ range (PTR_CLEAR_TAG q) n x) →
  region_ok t m r → region_ok t' m r.
Proof.
  intros Htag Hap [Ht Hok]. split; [done|]. intros x Hx. unfold accessible.
  rewrite (retagged_range _ _ _ _ x Htag), decide_False by by apply Hap. by apply Hok.
Qed.

(** New pages, and the pointer mmap returned. *)
Lemma map_region_tags t p n :
  0 ≤ p < 2 ^ 47 → p mod PAGE_SIZE = 0 → n mod PAGE_SIZE = 0 → LARGE_SIZE_MAX_REGION < n →
  region_tags t n p (map_tags true t p n).
Proof.
  intros Hp Hpa Hna Hlg.
  assert (PTR_CLEAR_TAG p = p ∧ ptr_tag p = 0) as [Hc Ht].
  { split; [apply untagged_clear; lia|]. unfold ptr_tag. by rewrite Z.div_small by lia. }
  assert (∀ z, z mod PAGE_SIZE = 0 → z mod 16 = 0) as H16.
  { intros z Hz. change PAGE_SIZE with 4096 in Hz. rewrite (Z.div_mod z 4096), Hz, Z.add_0_r by lia.
    replace (4096 * (z / 4096)) with (256 * (z / 4096) * 16) by lia. by apply Z.mod_mul. }
  split; [|intros g; unfold map_tags; by rewrite Hc, Ht, (map_tags_tag t p n g Hpa Hna)|rewrite Hc; split; by apply H16].
  unfold region_tag_ok. by rewrite (proj2 (Z.ltb_lt LARGE_SIZE_MAX_REGION n)).
Qed.

(** ** Accesses to a region do not fault *)
Lemma region_check t n q k :
  region_ok t n q → k ≤ n → PTR_CLEAR_TAG q + n ≤ 2 ^ 56 → tag_check true t q k = Ok tt.
Proof.
  intros [_ Hok] Hk Hb. unfold tag_check. destruct (Z.ltb_spec 0 k) as [Hpos|]; [|done]. cbn [andb].
  change MEMORY_GRANULE_SIZE with 16. unfold mem_addr. set (p := PTR_CLEAR_TAG q) in *.
  assert (0 ≤ p) as Hp by (unfold p; rewrite clear_tag_mod; by apply Z.mod_pos_bound).
  rewrite (proj2 (forallb_forall _ _)); [done|]. intros g Hg%list_elem_of_In%elem_of_seqZ. apply Z.eqb_eq.
  pose proof (Z.div_mod p 16 ltac:(lia)). pose proof (Z.mod_pos_bound p 16 ltac:(lia)).
  pose proof (Z.div_mod (p + k - 1) 16 ltac:(lia)). pose proof (Z.mod_pos_bound (p + k - 1) 16 ltac:(lia)).
  rewrite ldg_tag, untagged_granule, Z.div_mul by lia.
  specialize (Hok (Z.max p (g * 16))). unfold accessible, range in Hok. rewrite <- Hok by lia. f_equal.
  destruct (Z.max_spec p (g * 16)) as [[_ ->]|[? ->]]; [by rewrite Z.div_mul by lia|].
  apply Z.div_unique with (p - g * 16); lia.
Qed.

Lemma region_memcpy t m dst n1 src n2 k :
  region_ok t n1 dst → region_ok t n2 src → k ≤ n1 → k ≤ n2 →
  PTR_CLEAR_TAG dst + n1 ≤ 2 ^ 56 → PTR_CLEAR_TAG src + n2 ≤ 2 ^ 56 →
  memcpy_tagged true t m dst src k = Ok (memcpy m (PTR_CLEAR_TAG dst) (PTR_CLEAR_TAG src) k).
Proof.
  intros Hd Hs Hk1 Hk2 Hb1 Hb2. unfold memcpy_tagged.
  rewrite (region_check t n2 src k), (region_check t n1 dst k) by done. done.
Qed.

(** ** Regions *)
Lemma allocate_from_bin_sim bin runs active inactive G r t :
  bin_rep bin runs active inactive G → BIN_MINIMUM_REGIONS ≤ avail_regs bin →
  (∀ a k, (a, k) ∈ active ++ inactive → k mod 16 = 0) →
  ∃ q bin' runs' r' t', allocate_from_bin bin runs r = Ok (PTR_CLEAR_TAG q, bin', runs', r') ∧
    allocate_from_bin_tagged true t bin runs r = Ok (q, bin', runs', r', t') ∧
    tagged_region t (reg_size bin) q t' ∧ (q =? 0) = (PTR_CLEAR_TAG q =? 0).
Proof.
  intros Hrep Hmin Hkeys.
  destruct (allocate_from_bin_ok bin runs active inactive G Hrep r Hmin) as
    (x0 & r0 & a0 & k0 & issued0 & freed0 & i0 & bin' & runs' & A' & I' & _ & _ & _ & _ & _ & Hok & _).
  unfold BIN_MINIMUM_REGIONS in Hmin. pose proof Hrep as [Hl Havail Hpos _ _ _].
  assert (active ≠ []) as Hne by (intros ->; simpl in Havail; lia).
  pose proof (bin_get_run_for_allocation_ok bin runs active inactive G Hrep r Hne) as Hget.
  destruct (splitmix32 r) as [x r']. destruct Hget as (a & k & Hlk & Hget).
  pose proof (list_elem_of_lookup_2 _ _ _ Hlk) as Hin.
  assert ((a, k) ∈ active ++ inactive) as Hin' by set_solver.
  destruct (bin_rep_in _ _ _ _ _ _ _ Hl Hin') as (run & issued & freed & Hrd & Hr & Hk & HG & Hrun).
  set (bin1 := with_active bin (run_list_active bin) (run_list_active_cnt bin) (avail_regs bin - 1)) in *.
  pose proof (bl_geo _ _ _ _ _ Hl) as Hgeo.
  assert (bin_geometry bin1) as Hgeo1 by by destruct Hgeo.
  pose proof (Hpos _ Hin) as Hpa. unfold left in Hpa. cbn [fst] in Hpa. rewrite HG in Hpa.
  destruct (run_allocate_tagged_region bin1 (class_elems (reg_size bin)) (bin_geometry_shape bin1 Hgeo1)
    (class_granules _ (bg_class _ Hgeo1)) t run issued freed) as
    (i & q & run' & t' & Hex & Hall & He & Hi & _ & _ & Hclr & Hre & Hz & _);
    [by eapply run_rep_bin; [|done]|lia|rewrite Hk; by eapply Hkeys|].
  assert (allocate_from_bin bin runs r = Ok (PTR_CLEAR_TAG q, bin', runs', r') ∧
    allocate_from_bin_tagged true t bin runs r = Ok (q, bin', runs', r', t')) as [Hplain Htagged].
  { revert Hok. unfold allocate_from_bin, allocate_from_bin_tagged.
    ok_assert by (unfold BIN_MINIMUM_REGIONS; lia). ok_assert by (unfold BIN_MINIMUM_REGIONS; lia).
    ok_rw Hget. ok_rw Hrd. ok_rw Hall. ok_rw Hget. ok_rw Hrd. ok_rw Hex.
    destruct (if run_is_depleted run' then _ else _) as [[bin2 runs2]|e]; [|done]. cbn [mbind outcome_bind].
    by intros [= _ -> -> _]. }
  exists q, bin', runs', r', t'. split; [done|]. split; [done|].
  pose proof (class_granules _ (bg_class _ Hgeo)) as Hs16. split.
  { split; [done|done|split; [|done]]. rewrite Hclr. unfold region_addr.
    rewrite <- Z.add_mod_idemp_r, <- Z.mul_mod_idemp_r by lia. cbn [bin1 with_active reg_size].
    rewrite Hs16, Z.mul_0_r, Z.mod_0_l, Z.add_0_r, Hk by lia. by eapply Hkeys. }
  pose proof (rr_heap _ _ _ _ _ Hrun) as Hheap. destruct (class_shape _ (bg_class _ Hgeo)) as (_ & Hrs & _).
  assert (PTR_CLEAR_TAG q ≠ 0) as Hnz by (rewrite Hclr; unfold region_addr; cbn; nia).
  rewrite (proj2 (Z.eqb_neq (PTR_CLEAR_TAG q) 0)) by done. apply Z.eqb_neq. intros ->. by apply Hnz.
Qed.

(** The runs of the arena start at the start of a granule. *)
Lemma run_key_granule P X w S a k i : arena_pend P X w S → g_runs S !! a = Some (k, i) → k mod 16 = 0.
Proof.
  intros Hinv Ha. destruct (ln_run _ _ _ (ai_links _ _ _ _ Hinv) a k i Ha) as (rs & _ & ca & g & n & HC & Hn & ->).
  destruct (cr_good _ _ _ (ai_chunks _ _ _ _ Hinv) ca g HC) as (c & _ & Hg).
  destruct (run_in_chunk g c n rs Hg Hn) as (-> & _). pose proof (cg_addr _ _ Hg) as (_ & Hpage & _).
  change PAGE_SIZE with 4096 in Hpage.
  rewrite (Z.div_mod (cg_base g) 4096), Hpage by lia.
  replace (4096 * (cg_base g / 4096) + 0 + (node_lo n - 2048) * 16384)
    with ((256 * (cg_base g / 4096) + (node_lo n - 2048) * 1024) * 16) by lia. by apply Z.mod_mul.
Qed.

Lemma take_region_sim i w S bin t :
  arena_pend [] None w S → bin_at i bin w S → 256 ≤ avail_regs bin →
  sim (tagged_region t (reg_size bin)) (take_region (Z.of_nat i) w) (take_region_tagged true (Z.of_nat i) t w).
Proof.
  intros Hinv Hat Hav. pose proof Hat as [Hi Hcell [Hc Hrep Hmax]].
  pose proof (ai_bins _ _ _ _ Hinv) as Hb. pose proof (br_len _ _ _ _ _ Hb) as Hlen.
  unfold take_region, take_region_tagged. apply sim_step. intros bin1 Hrd.
  rewrite (rd_bin_ok w (Z.of_nat i) Hlen) in Hrd by lia. injection Hrd as <-. rewrite Hcell.
  destruct (allocate_from_bin_sim bin (w_runs w) _ _ _ (w_rng w) t Hrep Hav) as
    (q & bin' & runs' & r' & t' & Hplain & Htagged & Htag & Hz).
  { intros a k Hin. eapply (run_key_granule [] None w S a k i Hinv), (br_run _ _ _ _ _ Hb). done. }
  ok_rw Hplain. ok_rw Htagged. apply sim_step. intros w' _. by exists q, t'.
Qed.

Lemma sealloc_allocate_with_bin_sim i w S bin t :
  arena_pend [] None w S → bin_at i bin w S → 255 ≤ avail_regs bin ≤ 2048 →
  sim (tagged_region t (reg_size bin)) (sealloc_allocate_with_bin (Z.of_nat i) w)
    (sealloc_allocate_with_bin_tagged true (Z.of_nat i) t w).
Proof.
  intros Hinv Hat Hav. pose proof (br_len _ _ _ _ _ (ai_bins _ _ _ _ Hinv)) as Hlen. pose proof Hat as [Hi Hcell _].
  unfold sealloc_allocate_with_bin, sealloc_allocate_with_bin_tagged. apply sim_step. intros bin0 Hrd.
  rewrite (rd_bin_ok w (Z.of_nat i) Hlen) in Hrd by lia. injection Hrd as <-. rewrite Hcell.
  change BIN_MINIMUM_REGIONS with 256. destruct (Z.ltb_spec (avail_regs bin) 256) as [Hlt|Hge].
  - pose proof (bin_at_elems _ _ _ _ Hat) as Hel.
    destruct (add_fresh_run_at w S i bin Hinv Hat ltac:(lia)) as
      [->|(w1 & S1 & bin1 & -> & Hinv1 & Hat1 & _ & _ & Hrs & Hav1)]; [done|].
    cbn [mbind outcome_bind]. rewrite <- Hrs. apply (take_region_sim i w1 S1 bin1); [done|done|lia].
  - by apply (take_region_sim i w S bin).
Qed.

Lemma sim_impl {W} (Q Q' : Z → T → Prop) (m : outcome (Z * W)) (m' : outcome (Z * W * T)) :
  sim Q m m' → (∀ q t, Q q t → Q' q t) → sim Q' m m'.
Proof. intros Hm HQ. destruct m as [[p w']|e]; cbn [sim] in *; [naive_solver|done]. Qed.

Lemma class_region_sim i w S bin t :
  arena_pend [] None w S → bin_at i bin w S → 255 ≤ avail_regs bin ≤ 2048 →
  sim (region_tags t (reg_size bin)) (sealloc_allocate_with_bin (Z.of_nat i) w)
    (sealloc_allocate_with_bin_tagged true (Z.of_nat i) t w).
Proof.
  intros Hinv Hat Hav. eapply sim_impl; [by apply (sealloc_allocate_with_bin_sim i w S bin)|].
  intros q t'. apply tagged_region_tags. destruct Hat as [_ _ [Hc _ _]].
  apply class_not_huge in Hc. apply Z.ltb_ge in Hc. lia.
Qed.

(** The requests that get a huge mapping. *)
Lemma request_size_large size : 0 ≤ size < 2 ^ 63 →
  (LARGE_SIZE_MAX_REGION <? request_size size) = IS_SIZE_HUGE (if size =? 0 then SMALL_SIZE_MIN_REGION else size).
Proof.
  intros Hs. unfold request_size. change SMALL_SIZE_MIN_REGION with 16. set (n := if size =? 0 then 16 else size).
  assert (1 ≤ n < 2 ^ 63) as Hn by (unfold n; destruct (Z.eqb_spec size 0); lia).
  unfold IS_SIZE_HUGE. rewrite Z.gtb_ltb. destruct (Z.ltb_spec LARGE_SIZE_MAX_REGION n) as [Hh|Hr].
  - pose proof (alignup_page_bound n ltac:(lia)). by apply Z.ltb_lt; lia.
  - destruct (alignup_class_ok n ltac:(lia)) as (Hcl & _). apply list_elem_of_lookup in Hcl as [i Hi].
    by eapply class_not_huge.
Qed.

(** A live region longer than the classes is a huge mapping. *)
Lemma huge_region_page w S p n :
  sealloc_inv w S → live_region S p n → LARGE_SIZE_MAX_REGION < n →
  0 ≤ p < 2 ^ 47 ∧ p + n ≤ 2 ^ 47 ∧ p mod PAGE_SIZE = 0 ∧ n mod PAGE_SIZE = 0.
Proof.
  intros [Hinv _] [a k i rs iss fr j _ Hc _ _ _|a q m Hin] Hlg.
  - apply class_not_huge in Hc. lia.
  - destruct (hr_good _ _ _ (ai_huges _ _ _ _ Hinv) a q m Hin) as (h & _ & [_ Hadr [Hm Hma] _]). lia.
Qed.

(** arena_allocate_huge_mapping in both builds. *)
Lemma allocate_huge_mapping_sim w S n t :
  sealloc_inv w S → LARGE_SIZE_MAX_REGION < n → n mod PAGE_SIZE = 0 →
  (arena_allocate_huge_mapping n w = Fail Diverged ∧ arena_allocate_huge_mapping_tagged true n t w = Fail Diverged) ∨
  ∃ a p w' S' h t', arena_allocate_huge_mapping n w = Ok (a, w') ∧
    arena_allocate_huge_mapping_tagged true n t w = Ok (a, w', t') ∧
    w_huges w' !! a = Some h ∧ key (huge_entry h) = p ∧ PTR_CLEAR_TAG p = p ∧ p + n ≤ 2 ^ 47 ∧ p ≠ 0 ∧
    sealloc_inv w' S' ∧ allocated S S' p n ∧ region_tags t n p t'.
Proof.
  intros Hinv Hlg Hna. unfold arena_allocate_huge_mapping_tagged.
  destruct (arena_allocate_huge_mapping_ok w S n (al_arena _ _ Hinv) Hlg Hna) as
    [->|(a & p & w' & S' & h & -> & Hinv' & [Hm Hbn] & Hh & Hk & Hp & Hl & Hn & Hgr)]; [by left|right].
  assert (sealloc_inv w' S') as Hinv1 by (split; [done|eapply supplied_frame; [apply Hinv|done]]).
  assert (allocated S S' p n) as Hal by by split.
  destruct (huge_region_page w' S' p n Hinv1) as (Hp47 & Hpn & Hpa & _); [apply Hl; by left|done|].
  cbn [mbind outcome_bind]. ok_rw (rd_at_ok _ _ _ Hh). rewrite Hk.
  exists a, p, w', S', h, (map_tags true t p n). split; [done|]. split; [done|]. split; [done|]. split; [done|].
  split; [apply untagged_clear; lia|]. split; [done|]. split; [done|]. split; [done|]. split; [done|].
  by apply map_region_tags.
Qed.

Lemma sealloc_malloc_sim w S size t :
  sealloc_inv w S → 0 ≤ size < 2 ^ 63 →
  sim (region_tags t (request_size size)) (sealloc_malloc size w) (sealloc_malloc_tagged true size t w).
Proof.
  intros Hinv Hs. unfold sealloc_malloc, sealloc_malloc_tagged, request_size. change SMALL_SIZE_MIN_REGION with 16. set (n := if size =? 0 then 16 else size).
  assert (1 ≤ n < 2 ^ 63) as Hn by (unfold n; destruct (Z.eqb_spec size 0); lia).
  unfold IS_SIZE_HUGE. rewrite Z.gtb_ltb. destruct (Z.ltb_spec LARGE_SIZE_MAX_REGION n) as [Hh|Hr].
  - unfold allocate_huge, allocate_huge_tagged. change LARGE_SIZE_MAX_REGION with 1048576 in Hh.
    destruct (alignup_page_aligned 64 n) as [Hal _]; [by right|]. pose proof (alignup_page_bound n ltac:(lia)) as Hb.
    destruct (allocate_huge_mapping_sim w S (ALIGNUP_PAGE 64 n) t Hinv
      ltac:(change LARGE_SIZE_MAX_REGION with 1048576; lia) Hal) as
      [[-> ->]|(a & p & w' & S' & h & t' & -> & -> & Hha & Hk & Hc & _ & _ & _ & _ & Htag)]; [done|].
    cbn [mbind outcome_bind]. ok_rw (rd_at_ok _ _ _ Hha). ok_rw (rd_at_ok _ _ _ Hha). rewrite Hk. by exists p, t'.
  - destruct (alignup_class_ok n ltac:(lia)) as (Hcl & _). set (s := alignup_class n) in *.
    unfold allocate_class, allocate_class_tagged.
    destruct (supplied_bin_ok w S s Hinv Hcl) as (i & w1 & bin & Hget & Hrd & Hsupply).
    ok_rw Hget. ok_rw Hrd. ok_rw Hget. ok_rw Hrd. cbv zeta in Hsupply.
    destruct Hsupply as [->|(w2 & S2 & bin2 & -> & Hinv2 & Hat2 & _ & _ & <- & Hav2)]; [done|].
    cbn [mbind outcome_bind]. by apply (class_region_sim i w2 S2 bin2).
Qed.

(** ** Release: the same code on the address of the pointer *)
Lemma free_with_metadata_tagged chunk i run p w :
  sealloc_free_with_metadata_tagged true chunk i run p w =
  sealloc_free_with_metadata chunk i run (PTR_CLEAR_TAG p) w.
Proof. done. Qed.

Lemma land_clear_tag p : Z.land p (u64 (Z.shiftl 1 TAG_OFFSET_BITS - 1)) = PTR_CLEAR_TAG p.
Proof. done. Qed.

Lemma free_tagged_eq p w :
  (p =? 0) = (PTR_CLEAR_TAG p =? 0) → sealloc_free_tagged true p w = sealloc_free (PTR_CLEAR_TAG p) w.
Proof.
  intros Hz. unfold sealloc_free_tagged, sealloc_free. rewrite Hz. destruct (PTR_CLEAR_TAG p =? 0); [done|].
  rewrite land_clear_tag. apply outcome_bind_ext. intros [[|c r i|h] w']; [done| |done].
  by rewrite free_with_metadata_tagged, clear_tag_idem.
Qed.

(** What a region that is new leaves of the others. *)
Lemma region_ok_allocated w' S S' t t' p n q p0 n0 r :
  sealloc_inv w' S' → allocated S S' p n → live_region S p0 n0 → region_tags t n q t' →
  PTR_CLEAR_TAG q = p → PTR_CLEAR_TAG r = p0 → region_ok t n0 r → region_ok t' n0 r.
Proof.
  intros Hinv Hal Hlive Htag Hq Hr. apply (region_ok_kept t t' n q); [done|]. rewrite Hq, Hr. intros x.
  by eapply allocated_apart.
Qed.

(** The allocator accesses a huge mapping through its address, the client through its
    pointer: both have the tag 0. *)
Lemma huge_region_untagged t n p r :
  0 ≤ p < 2 ^ 56 → LARGE_SIZE_MAX_REGION < n → PTR_CLEAR_TAG r = p → region_ok t n r → region_ok t n p.
Proof.
  intros Hp Hlg Hr [Hrt Hra]. pose proof (proj2 (Z.ltb_lt LARGE_SIZE_MAX_REGION n) Hlg) as Hb.
  assert (ptr_tag p = 0) as Hpt by (unfold ptr_tag; by rewrite Z.div_small by lia).
  unfold region_tag_ok in Hrt. rewrite Hb in Hrt. split; [unfold region_tag_ok; by rewrite Hb|].
  intros x Hx. rewrite untagged_clear in Hx by lia. unfold accessible. rewrite Hpt, <- Hrt. apply Hra. by rewrite Hr.
Qed.

(** The end of a region is a user address. *)
Lemma allocated_bound w' S S' p n : sealloc_inv w' S' → allocated S S' p n → p + n ≤ 2 ^ 56.
Proof.
  intros Hinv Hal. destruct (live_region_user w' S' p n Hinv) as (_ & _ & Hb & _); [apply Hal; by left|].
  etrans; [exact Hb|]. by vm_compute.
Qed.
Lemma live_bound w S p n : sealloc_inv w S → live_region S p n → p + n ≤ 2 ^ 56.
Proof.
  intros Hinv Hp. destruct (live_region_user w S p n Hinv Hp) as (_ & _ & Hb & _). etrans; [exact Hb|]. by vm_compute.
Qed.

(** ** calloc *)
Lemma sealloc_calloc_sim w S nmemb size t :
  sealloc_inv w S → 0 < nmemb → 0 < size → nmemb * size < 2 ^ 63 →
  sim (region_tags t (request_size (nmemb * size))) (sealloc_calloc nmemb size w) (sealloc_calloc_tagged true nmemb size t w).
Proof.
  intros Hinv Hn Hs Ht. unfold sealloc_calloc, sealloc_calloc_tagged.
  rewrite (proj2 (Z.eqb_neq nmemb 0)), (proj2 (Z.eqb_neq size 0)) by lia. cbn [orb].
  rewrite wrap_small by nia. eapply sim_bind; [apply (sealloc_malloc_sim w S); [done|nia]|].
  intros p q w' t' Hok Hq Hz Htag. rewrite Hz. destruct (sealloc_malloc_ok w S (nmemb * size) Hinv ltac:(nia)) as
    [Hd|(p1 & w1 & S1 & Hok1 & Hinv1 & _ & Hal)]; [by rewrite Hd in Hok|].
  rewrite Hok1 in Hok. injection Hok as -> ->. rewrite (proj2 (Z.eqb_neq p 0)) by apply Hal.
  unfold memset_tagged. rewrite (region_check t' (request_size (nmemb * size)) q).
  - cbn [mbind outcome_bind]. unfold mem_addr. rewrite Hq. by exists q, t'.
  - by eapply region_tags_ok.
  - apply request_size_ge. nia.
  - rewrite Hq. by eapply allocated_bound.
Qed.

(** ** realloc *)
Lemma realloc_regular_sim w S ca a i k rs g n iss fr j tagged_ptr new_size t :
  sealloc_inv w S → found_run w S (k + j * rs) a i ca k rs g n →
  g_regs S !! a = Some (iss, fr) → j ∈ iss → (j ∉ fr) → 1 ≤ new_size ≤ LARGE_SIZE_MAX_REGION →
  PTR_CLEAR_TAG (k + j * rs) = k + j * rs → PTR_CLEAR_TAG tagged_ptr = k + j * rs → region_ok t rs tagged_ptr →
  sim (region_tags t (alignup_class new_size)) (realloc_regular ca a (Z.of_nat i) (k + j * rs) new_size w)
    (realloc_regular_tagged true ca a (Z.of_nat i) (k + j * rs) tagged_ptr new_size t w).
Proof.
  intros Hinv Hfr HG Hj Hjf Hsz Ho Ht Hro. unfold realloc_regular, realloc_regular_tagged.
  assert (live_region S (k + j * rs) rs) as Hlive by (destruct Hfr; by eapply live_regular).
  destruct (alignup_class_ok new_size Hsz) as (Hcl & _). set (s := alignup_class new_size) in *.
  destruct (supplied_bin_ok w S s Hinv Hcl) as (i2 & w1 & bin & Hget & Hrd & Hsupply).
  ok_rw Hget. ok_rw Hrd. ok_rw Hget. ok_rw Hrd. cbv zeta in Hsupply.
  destruct Hsupply as [->|(w2 & S2 & bin2 & -> & Hinv2 & Hat2 & Hob2 & Hlv2 & <- & Hav2)]; [done|].
  cbn [mbind outcome_bind negb].
  eapply sim_bind; [by apply (class_region_sim i2 w2 S2 bin2)|].
  intros p q w3 t' Hok Hq Hz Htag. rewrite Hz.
  destruct (supplied_region_ok i2 w S w2 S2 bin2 (al_supplied _ _ Hinv) Hinv2 Hat2 Hob2 Hlv2 Hav2) as
    [Hd|(p' & w3' & S3 & Hok' & Hinv3 & _ & Hal & Hrs3)]; [by rewrite Hd in Hok|].
  rewrite Hok' in Hok. injection Hok as -> ->. rewrite (proj2 (Z.eqb_neq p 0)) by apply Hal.
  pose proof (br_len _ _ _ _ _ (ai_bins _ _ _ _ (al_arena _ _ Hinv3))) as Hlen3. pose proof (ba_index _ _ _ _ Hat2) as Hi2.
  ok_rw (rd_bin_ok w3 (Z.of_nat i2) Hlen3 ltac:(lia)). ok_rw (rd_bin_ok w3 (Z.of_nat i2) Hlen3 ltac:(lia)). rewrite Hrs3.
  destruct (found_run_grown w w3 S S3 _ a i ca k rs g n iss fr j (al_arena _ _ Hinv3) (at_grown _ _ _ _ Hal) Hfr HG Hj Hjf)
    as (g3 & iss3 & fr3 & Hfr3 & _). 
  destruct (bin_of_found w3 S3 _ a i ca k rs g3 n (al_arena _ _ Hinv3) Hfr3) as (bo & Hbo & Hrs).
  ok_rw Hbo. ok_rw Hbo. rewrite Hrs.
  rewrite (region_memcpy t' _ q (reg_size bin2) tagged_ptr rs).
  - cbn [mbind outcome_bind]. rewrite Hq, Ht, free_with_metadata_tagged, Ho. apply sim_step. intros w5 _. exists q, t'.
    split; [done|]. split; [done|]. by split.
  - by eapply region_tags_ok.
  - by eapply (region_ok_allocated w3 S S3).
  - destruct (Z.ltb_spec rs (reg_size bin2)); lia.
  - destruct (Z.ltb_spec rs (reg_size bin2)); lia.
  - rewrite Hq. by eapply allocated_bound.
  - rewrite Ht. by apply (live_bound w S).
Qed.

Lemma realloc_to_huge_sim w S ca a i k rs g n iss fr j tagged_ptr new_size t :
  sealloc_inv w S → found_run w S (k + j * rs) a i ca k rs g n →
  g_regs S !! a = Some (iss, fr) → j ∈ iss → (j ∉ fr) → LARGE_SIZE_MAX_REGION < new_size < 2 ^ 63 →
  PTR_CLEAR_TAG (k + j * rs) = k + j * rs → PTR_CLEAR_TAG tagged_ptr = k + j * rs → region_ok t rs tagged_ptr →
  sim (region_tags t (ALIGNUP_PAGE 64 new_size)) (realloc_to_huge ca a (Z.of_nat i) (k + j * rs) new_size w)
    (realloc_to_huge_tagged true ca a (Z.of_nat i) (k + j * rs) tagged_ptr new_size t w).
Proof.
  intros Hinv Hfr HG Hj Hjf Hsz Ho Ht Hro. unfold realloc_to_huge, realloc_to_huge_tagged.
  assert (live_region S (k + j * rs) rs) as Hlive by (destruct Hfr; by eapply live_regular).
  change LARGE_SIZE_MAX_REGION with 1048576 in Hsz. pose proof (class_positive rs (list_elem_of_lookup_2 _ _ _ (fr_class _ _ _ _ _ _ _ _ _ _ Hfr))) as Hrs16.
  destruct (alignup_page_aligned 64 new_size) as [Hal' _]; [by right|].
  pose proof (alignup_page_bound new_size ltac:(lia)) as Hb.
  destruct (allocate_huge_mapping_sim w S (ALIGNUP_PAGE 64 new_size) t Hinv
    ltac:(change LARGE_SIZE_MAX_REGION with 1048576; lia) Hal') as
    [[-> ->]|(hg & q & w3 & S3 & h & t' & -> & -> & Hh & Hk & Hq & Hqb & Hnz & Hinv3 & Hal & Htag)]; [done|].
  cbn [mbind outcome_bind]. ok_rw (rd_at_ok _ _ _ Hh). ok_rw (rd_at_ok _ _ _ Hh).
  destruct (found_run_grown w w3 S S3 _ a i ca k rs g n iss fr j (al_arena _ _ Hinv3) (at_grown _ _ _ _ Hal) Hfr HG Hj Hjf)
    as (g3 & iss3 & fr3 & Hfr3 & HG3 & Hj3 & Hjf3).
  destruct (bin_of_found w3 S3 _ a i ca k rs g3 n (al_arena _ _ Hinv3) Hfr3) as (bo & Hbo & Hrs).
  ok_rw Hbo. ok_rw Hbo. rewrite Hrs, Hk.
  rewrite (region_memcpy t' _ q (ALIGNUP_PAGE 64 new_size) tagged_ptr rs).
  - cbn [mbind outcome_bind]. rewrite Hq, Ht, free_with_metadata_tagged, Ho. set (w4 := set_mem w3 _).
    assert (found_run w4 S3 (k + j * rs) a i ca k rs g3 n) as Hfr4 by (destruct Hfr3; by split).
    destruct (sealloc_free_with_metadata_ok w4 S3 ca a i k rs g3 n iss3 fr3 j (sealloc_inv_mem _ _ _ Hinv3) Hfr4 HG3 Hj3 Hjf3) as
      [[-> _]|(w5 & S5 & -> & _ & _ & Hhg5 & _)]; [done|].
    cbn [mbind outcome_bind]. rewrite Hhg5. cbn [w4 set_mem w_huges].
    ok_rw (rd_at_ok _ _ _ Hh). ok_rw (rd_at_ok _ _ _ Hh). rewrite Hk. by exists q, t'.
  - by eapply region_tags_ok.
  - by eapply (region_ok_allocated w3 S S3).
  - lia.
  - lia.
  - rewrite Hq. by eapply allocated_bound.
  - rewrite Ht. by apply (live_bound w S).
Qed.

(** arena_reallocate_huge_mapping in both builds. *)
Lemma reallocate_huge_mapping_sim w S a p n r m t :
  sealloc_inv w S → (a, (p, n)) ∈ g_huges S → 0 < m < 2 ^ 63 → m mod PAGE_SIZE = 0 → IS_SIZE_HUGE m = true →
  PTR_CLEAR_TAG r = p → region_ok t n r →
  match arena_reallocate_huge_mapping a m w with
  | Ok w' => ∃ q h t', arena_reallocate_huge_mapping_tagged true a m t w = Ok (w', t') ∧
      w_huges w' !! a = Some h ∧ key (huge_entry h) = q ∧ PTR_CLEAR_TAG q = q ∧ region_tags t m q t'
  | Fail e => arena_reallocate_huge_mapping_tagged true a m t w = Fail e
  end.
Proof.
  intros [Hinv Hsup] Hin Hm Hma Hhuge Hr Hro. pose proof Hinv as [Hi Hp Hmt Hc Hh Hb Hl Hs Hsp].
  destruct (hr_good _ _ _ Hh a p n Hin) as (h & Ha & [Hlen Hadr Hsz Hlg]).
  assert (LARGE_SIZE_MAX_REGION < m) as Hmlg by (unfold IS_SIZE_HUGE in Hhuge; lia).
  destruct (dll_key _ _ _ a p (hr_list _ _ _ Hh)) as (_ & e & He & Hk).
  { apply list_elem_of_fmap. by exists (a, (p, n)). }
  simpl in He. rewrite Ha in He. injection He as <-.
  unfold arena_reallocate_huge_mapping, arena_reallocate_huge_mapping_tagged.
  ok_rw (rd_at_ok _ _ _ Ha). ok_rw (rd_at_ok _ _ _ Ha). rewrite Hlen.
  do 2 (ok_assert by (unfold IS_ALIGNED; by rewrite (proj2 Hsz)); ok_assert by (unfold IS_ALIGNED; by rewrite Hma);
    ok_assert by (by rewrite Hi); ok_assert by done).
  destruct (arena_morecore_ok HugeProbe m w ltac:(lia) Hma Hp) as [->|(q & w1 & Hmc & _ & _ & Hgr)]; [done|].
  ok_rw Hmc. ok_rw Hmc. cbv zeta. set (w2 := skip_mapping _ _ _ w1). rewrite Hk.
  pose proof (gr_addr _ _ _ _ Hgr) as (Hg1 & Hg2 & Hg3).
  assert (PTR_CLEAR_TAG q = q) as Hcq by (apply untagged_clear; change LARGE_SIZE_MAX_REGION with 1048576 in *; lia).
  assert (PTR_CLEAR_TAG p = p) as Hcp by (apply untagged_clear; lia).
  assert (region_tags t m q (map_tags true t q m)) as Htag
    by (apply map_region_tags; [change LARGE_SIZE_MAX_REGION with 1048576 in *; lia|done..]).
  assert (region_ok t n p) as Hrp by (apply (huge_region_untagged t n p r); [lia|done..]).
  rewrite (region_memcpy _ _ q m p n); cycle 1.
  { by eapply region_tags_ok. }
  { eapply region_ok_kept; [exact Htag| |exact Hrp]. rewrite Hcq, Hcp. intros x Hx Hq.
    apply (gr_fresh _ _ _ _ Hgr x Hq), (sp_mapped _ _ Hsp (HHuge a)). by exists p, n. }
  1,2: destruct (Z.ltb_spec m n); lia.
  1,2: rewrite ?Hcq, ?Hcp; lia.
  cbn [mbind outcome_bind]. rewrite Hcq, Hcp.
  destruct (platform_unmap _ p n) as [[code os']|e]; [|done]. cbn [mbind outcome_bind].
  destruct (negb _); [done|]. eexists q, _, _. split; [reflexivity|]. split; [by apply lookup_insert_eq|]. done.
Qed.

Lemma realloc_huge_sim w S a p n r m t :
  sealloc_inv w S → (a, (p, n)) ∈ g_huges S → 0 < m < 2 ^ 63 → m mod PAGE_SIZE = 0 →
  PTR_CLEAR_TAG r = p → region_ok t n r →
  sim (region_tags t (request_size m)) (realloc_huge a m w) (realloc_huge_tagged true a m t w).
Proof.
  intros Hinv Hin Hm Hal Hr Hro. unfold realloc_huge, realloc_huge_tagged.
  assert (live_region S p n) as Hlive by by eapply live_huge.
  destruct (IS_SIZE_HUGE m) eqn:Hhuge.
  - pose proof (reallocate_huge_mapping_sim w S a p n r m t Hinv Hin Hm Hal Hhuge Hr Hro) as Hre.
    destruct (arena_reallocate_huge_mapping a m w) as [w1|e]; cbn [mbind outcome_bind] in *; [|by rewrite Hre].
    destruct Hre as (q & h & t' & -> & Hh & Hk & Hq & Htag). cbn [mbind outcome_bind].
    ok_rw (rd_at_ok _ _ _ Hh). ok_rw (rd_at_ok _ _ _ Hh). rewrite Hk. exists q, t'.
    split; [done|]. split; [done|]. split; [done|]. unfold request_size. rewrite (proj2 (Z.eqb_neq m 0)) by lia.
    rewrite Hhuge. by rewrite alignup_page_same by lia.
  - eapply sim_bind; [apply (sealloc_malloc_sim w S); [done|lia]|].
    intros p1 q w1 t' Hok Hq Hz Htag. rewrite Hz.
    destruct (sealloc_malloc_ok w S m Hinv ltac:(lia)) as [Hd|(p2 & w2 & S1 & Hok1 & Hinv1 & _ & Hal1)]; [by rewrite Hd in Hok|].
    rewrite Hok1 in Hok. injection Hok as -> ->. rewrite (proj2 (Z.eqb_neq p1 0)) by apply Hal1.
    pose proof (gw_huges _ _ (at_grown _ _ _ _ Hal1) _ Hin) as Hin1.
    destruct (hr_good _ _ _ (ai_huges _ _ _ _ (al_arena _ _ Hinv1)) a p n Hin1) as (h & Hh & [_ Hadr Hsz Hlg]).
    destruct (dll_key _ _ _ a p (hr_list _ _ _ (ai_huges _ _ _ _ (al_arena _ _ Hinv1)))) as (_ & e & He & Hk).
    { apply list_elem_of_fmap. by exists (a, (p, n)). }
    simpl in He. rewrite Hh in He. injection He as <-.
    ok_rw (rd_at_ok _ _ _ Hh). ok_rw (rd_at_ok _ _ _ Hh). rewrite Hk.
    assert (region_ok t' n r) as Hro' by by eapply (region_ok_allocated w1 S S1).
    assert (PTR_CLEAR_TAG p = p) as Hcp by (apply untagged_clear; lia).
    rewrite (region_memcpy t' _ q (request_size m) p n).
    + cbn [mbind outcome_bind]. rewrite Hq, Hcp. apply sim_step. intros w3 _. exists q, t'. by split_and!.
    + by eapply region_tags_ok.
    + apply (huge_region_untagged t' n p r); [lia|done..].
    + apply request_size_ge. lia.
    + unfold IS_SIZE_HUGE in Hhuge. lia.
    + rewrite Hq. by eapply allocated_bound.
    + rewrite Hcp. apply (live_bound w1 S1); [done|]. by eapply live_huge.
Qed.

Lemma sealloc_realloc_sim w S p n tagged_ptr size t :
  sealloc_inv w S → live_region S p n → 0 < size < 2 ^ 62 → PTR_CLEAR_TAG tagged_ptr = p → region_ok t n tagged_ptr →
  sim (region_tags t (realloc_size n size)) (sealloc_realloc p size w) (sealloc_realloc_tagged true tagged_ptr size t w).
Proof.
  intros Hinv Hp Hs Ht Hro. destruct (live_region_user w S p n Hinv Hp) as (Hpos & Hn & Hb & _).
  unfold sealloc_realloc, sealloc_realloc_tagged. rewrite (proj2 (Z.eqb_neq p 0)) by lia.
  rewrite (proj2 (Z.eqb_neq tagged_ptr 0)) by (intros ->; change (PTR_CLEAR_TAG 0) with 0 in Ht; lia).
  cbv zeta. rewrite Ht. assert (PTR_CLEAR_TAG p = p) as Hclr by (apply untagged_clear; lia).
  destruct Hp as [a k i rs iss fr j Ha Hc HG Hj Hjf|a p n Hin].
  - destruct (locate_issued w S a k i rs iss fr j (al_arena _ _ Hinv) Ha Hc HG Hj) as (Hr & ca & g & nd & Hloc & Hfr).
    ok_rw Hloc. ok_rw Hloc. apply sim_step. intros bo _. apply sim_step. intros r _.
    change (run_validate_ptr_tagged true r bo (k + j * rs)) with (run_validate_ptr r bo (PTR_CLEAR_TAG (k + j * rs))).
    rewrite Hclr. apply sim_step. intros v _. destruct (v =? SIZE_MAX); [done|].
    unfold realloc_size. rewrite (class_not_huge i rs Hc). unfold request_size. rewrite (proj2 (Z.eqb_neq size 0)) by lia.
    destruct (IS_SIZE_HUGE size) eqn:Hhuge; unfold IS_SIZE_HUGE in Hhuge.
    + apply (realloc_to_huge_sim w S ca a i k rs g nd iss fr j); try done. lia.
    + apply (realloc_regular_sim w S ca a i k rs g nd iss fr j); try done. lia.
  - destruct (locate_huge w S a p n (al_arena _ _ Hinv) Hin) as (Hloc & _ & _). ok_rw Hloc. ok_rw Hloc.
    destruct (hr_good _ _ _ (ai_huges _ _ _ _ (al_arena _ _ Hinv)) a p n Hin) as (h & _ & [_ _ _ Hlarge]).
    destruct (alignup_page_aligned 64 size) as [Hal _]; [by right|].
    pose proof (alignup_page_bound size ltac:(lia)) as Hbd. change PAGE_SIZE with 4096 in Hbd.
    unfold realloc_size. rewrite (proj2 (Z.ltb_lt LARGE_SIZE_MAX_REGION n) Hlarge).
    apply (realloc_huge_sim w S a p n tagged_ptr); [done|done|lia|done..].
Qed.

(** ** malloc_api.c *)
Lemma ensure_init_heap w h w1 : api_heap w h → ensure_init w = Ok w1 → heap_of w1 h.
Proof.
  intros Hw Hok. destruct (ensure_init_ok w h Hw) as [Hf|(w' & Hok' & Hh & _)]; rewrite Hok in *; [done|].
  by injection Hok' as ->.
Qed.

Lemma malloc_sim w h size t :
  api_heap w h → 0 ≤ size < 2 ^ 63 →
  sim (region_tags t (request_size size)) (malloc size w) (malloc_tagged true size t w).
Proof.
  intros Hw Hs. apply sim_step. intros w1 Hok. destruct (ensure_init_heap _ _ _ Hw Hok) as (S & Hinv & _).
  by apply (sealloc_malloc_sim w1 S).
Qed.

Lemma calloc_sim w h nmemb size t :
  api_heap w h → 0 < nmemb → 0 < size → nmemb * size < 2 ^ 63 →
  sim (region_tags t (request_size (nmemb * size))) (calloc nmemb size w) (calloc_tagged true nmemb size t w).
Proof.
  intros Hw Hn Hs Ht. apply sim_step. intros w1 Hok. destruct (ensure_init_heap _ _ _ Hw Hok) as (S & Hinv & _).
  by apply (sealloc_calloc_sim w1 S).
Qed.

Lemma realloc_sim w h q n size t :
  api_heap w h → h !! PTR_CLEAR_TAG q = Some n → 0 < size < 2 ^ 62 → region_ok t n q →
  sim (region_tags t (realloc_size n size)) (realloc (PTR_CLEAR_TAG q) size w) (realloc_tagged true q size t w).
Proof.
  intros Hw Hp Hs Hro. apply sim_step. intros w1 Hok. destruct (ensure_init_heap _ _ _ Hw Hok) as (S & Hinv & Hh).
  by apply (sealloc_realloc_sim w1 S (PTR_CLEAR_TAG q) n); [|apply Hh|..].
Qed.

Lemma free_api w h q n :
  api_heap w h → h !! PTR_CLEAR_TAG q = Some n → free_tagged true q w = free (PTR_CLEAR_TAG q) w.
Proof.
  intros Hw Hp. destruct (heap_entry w h _ n (api_heap_running _ _ _ _ Hw Hp) Hp) as (Hpos & _).
  apply free_tagged_eq. rewrite (proj2 (Z.eqb_neq (PTR_CLEAR_TAG q) 0)) by lia. apply Z.eqb_neq. intros ->.
  by change (PTR_CLEAR_TAG 0) with 0 in Hpos.
Qed.
End simulation.

(** ** Clients *)
Section tagged_client.
Context `{Build} `{KernelLaws OS} `{TagPagesLaws T}.
Implicit Types w : world OS.

(** The client of HeapSpec in a build with tagging on: it holds tagged pointers. *)
Definition client_step_tagged (c : call_t) (st : list Z * world OS * T) : outcome (list Z * world OS * T) :=
  let '(qs, w, t) := st in
  match c with
  | CMalloc size => '(q, w, t) ← malloc_tagged true size t w; Ok (q :: qs, w, t)
  | CCalloc nmemb size => '(q, w, t) ← calloc_tagged true nmemb size t w; Ok (q :: qs, w, t)
  | CRealloc i size =>
      match qs !! i with
      | None => Ok st
      | Some q => '(q', w, t) ← realloc_tagged true q size t w; Ok (q' :: delete i qs, w, t)
      end
  | CFree i =>
      match qs !! i with
      | None => Ok st
      | Some q => w ← free_tagged true q w; Ok (delete i qs, w, t)
      end
  end.
Fixpoint client_run_tagged (cs : list call_t) (st : list Z * world OS * T) : outcome (list Z * world OS * T) :=
  match cs with
  | [] => Ok st
  | c :: cs => st ← client_step_tagged c st; client_run_tagged cs st
  end.

(** Every region can be accessed through the pointer held to it. *)
Definition regions_ok (t : T) (qs : list Z) (h : gmap Z Z) : Prop :=
  ∀ q n, q ∈ qs → h !! PTR_CLEAR_TAG q = Some n → region_ok t n q.

Record tagged_held (qs : list Z) (t : T) w (h : gmap Z Z) : Prop := {
  th_heap : api_heap w h;
  th_holds : holds (PTR_CLEAR_TAG <$> qs) h;
  th_tags : regions_ok t qs h
}.

Lemma regions_ok_insert t t' w' h q n qs :
  heap_of w' (<[PTR_CLEAR_TAG q := n]> h) → h !! PTR_CLEAR_TAG q = None → holds (PTR_CLEAR_TAG <$> qs) h →
  region_tags t n q t' → regions_ok t qs h → regions_ok t' (q :: qs) (<[PTR_CLEAR_TAG q := n]> h).
Proof.
  intros Hw Hq [_ Hin] Htag Hok r m [->|Hr]%elem_of_cons Hm.
  - rewrite lookup_insert_eq in Hm. injection Hm as ->. by eapply region_tags_ok.
  - assert (is_Some (h !! PTR_CLEAR_TAG r)) as [k Hk] by (apply Hin; by apply list_elem_of_fmap_2).
    assert (PTR_CLEAR_TAG q ≠ PTR_CLEAR_TAG r) as Hne by (intros Heq; by rewrite Heq, Hk in Hq).
    pose proof (heap_apart w' _ _ _ _ _ Hw (lookup_insert_eq _ _ _) Hm Hne) as Hap.
    rewrite lookup_insert_ne in Hm by done. eapply region_ok_kept; [exact Htag| |by apply Hok].
    intros x Hx Hy. unfold apart, range in *. cbn [fst snd] in Hap. lia.
Qed.

Lemma regions_ok_delete t qs h i q :
  regions_ok t qs h → regions_ok t (delete i qs) (delete (PTR_CLEAR_TAG q) h).
Proof.
  intros Hok r m Hr [_ Hm]%lookup_delete_Some. apply Hok; [|done].
  rewrite (delete_take_drop qs i) in Hr. apply elem_of_app in Hr as [Hr|Hr];
    [by eapply elem_of_take in Hr as (j & Hj & _); eapply list_elem_of_lookup_2|].
  apply list_elem_of_lookup in Hr as [j Hj]. rewrite lookup_drop in Hj. by eapply list_elem_of_lookup_2.
Qed.

(** A step of the client in the two builds. *)
Definition steps_alike {A} (o : outcome (list Z * A)) (o' : outcome (list Z * A * T))
    (Q : list Z → T → A → Prop) : Prop :=
  match o with
  | Ok (ps, w') => ∃ qs' t', o' = Ok (qs', w', t') ∧ PTR_CLEAR_TAG <$> qs' = ps ∧ Q qs' t' w'
  | Fail e => o' = Fail e ∧ (e = Diverged ∨ e = ErrorExit)
  end.

(** A new pointer, in both builds. *)
Lemma held_insert t n q w' qs h (o : outcome (Z * world OS)) o' :
  sim (region_tags t n) o o' → o = Ok (q, w') → h !! q = None → heap_of w' (<[q := n]> h) →
  holds (PTR_CLEAR_TAG <$> qs) h → regions_ok t qs h →
  steps_alike ('(q, w) ← o; Ok (q :: (PTR_CLEAR_TAG <$> qs), w)) ('(q, w, t) ← o'; Ok (q :: qs, w, t))
    (λ qs' t' w', ∃ h', tagged_held qs' t' w' h').
Proof.
  intros Hsim -> Hq Hw Hps Hok. destruct Hsim as (q' & t' & -> & <- & _ & Htag). cbn [mbind outcome_bind].
  exists (q' :: qs), t'. split; [done|]. split; [done|]. exists (<[PTR_CLEAR_TAG q' := n]> h).
  split; [by left|by apply holds_insert|]. by apply (regions_ok_insert t t' w').
Qed.

Lemma gives_up_alike {A} (o : outcome (Z * A)) (o' : outcome (Z * A * T)) (R : Z → T → Prop)
    (f : Z * A → outcome (list Z * A)) (f' : Z * A * T → outcome (list Z * A * T)) P :
  sim R o o' → gives_up o → steps_alike (o ≫= f) (o' ≫= f') P.
Proof. intros Hsim [->| ->]; cbn [sim] in Hsim; rewrite Hsim; (split; [done|]); [by left|by right]. Qed.

Lemma client_step_tagged_ok c qs w h t :
  tagged_held qs t w h → call_ok c →
  steps_alike (client_step c (PTR_CLEAR_TAG <$> qs, w)) (client_step_tagged c (qs, w, t))
    (λ qs' t' w', ∃ h', tagged_held qs' t' w' h').
Proof.
  intros [Hw Hps Htags] Hc. destruct c as [size|nmemb size|i size|i]; cbn [client_step client_step_tagged call_ok] in *.
  - pose proof (malloc_sim w h size t Hw ltac:(lia)) as Hsim.
    destruct (malloc_heap w h size Hw ltac:(lia)) as [Hg|(p & w' & Hok & _ & Hp & Hw' & _)];
      [by eapply gives_up_alike|by eapply held_insert].
  - destruct Hc as (Hn & Hs & Ht). pose proof (calloc_sim w h nmemb size t Hw Hn Hs ltac:(lia)) as Hsim.
    destruct (calloc_heap w h nmemb size Hw Hn Hs ltac:(lia)) as [Hg|(p & w' & Hok & _ & Hp & Hw' & _)];
      [by eapply gives_up_alike|by eapply held_insert].
  - rewrite list_lookup_fmap. destruct (qs !! i) as [q|] eqn:Hi; cbn [fmap option_fmap option_map];
      [|exists qs, t; split; [done|]; split; [done|]; by exists h].
    destruct (proj1 (proj2 Hps (PTR_CLEAR_TAG q))) as [n Hp]; [apply list_elem_of_fmap_2; by eapply list_elem_of_lookup_2|].
    pose proof (realloc_sim w h q n size t Hw Hp Hc (Htags q n (list_elem_of_lookup_2 _ _ _ Hi) Hp)) as Hsim.
    assert ((PTR_CLEAR_TAG <$> qs) !! i = Some (PTR_CLEAR_TAG q)) as Hi' by (by rewrite list_lookup_fmap, Hi).
    destruct (realloc_heap w h _ n size (api_heap_running _ _ _ _ Hw Hp) Hp Hc) as
      [Hg|(p & w' & Hok & _ & Hq & Hw' & _)].
    + eapply gives_up_alike; [exact Hsim|]. destruct Hg as [|[? _]]; [by left|by right].
    + rewrite <- list_fmap_delete. eapply held_insert; [exact Hsim|exact Hok|apply lookup_delete_None; by right|done|..].
      * rewrite list_fmap_delete. by apply holds_delete.
      * by apply regions_ok_delete.
  - rewrite list_lookup_fmap. destruct (qs !! i) as [q|] eqn:Hi; cbn [fmap option_fmap option_map];
      [|exists qs, t; split; [done|]; split; [done|]; by exists h].
    destruct (proj1 (proj2 Hps (PTR_CLEAR_TAG q))) as [n Hp]; [apply list_elem_of_fmap_2; by eapply list_elem_of_lookup_2|].
    assert ((PTR_CLEAR_TAG <$> qs) !! i = Some (PTR_CLEAR_TAG q)) as Hi' by (by rewrite list_lookup_fmap, Hi).
    rewrite (free_api w h q n Hw Hp).
    destruct (free_heap w h _ n (api_heap_running _ _ _ _ Hw Hp) Hp) as [[Hf _]|(w' & Hok & Hw' & _)].
    + cbn [sealloc_allocator ha_free]. rewrite Hf. split; [done|by right].
    + cbn [sealloc_allocator ha_free]. rewrite Hok. cbn [mbind outcome_bind].
      exists (delete i qs), t. split; [done|]. split; [by rewrite list_fmap_delete|].
      exists (delete (PTR_CLEAR_TAG q) h). split; [by left|rewrite list_fmap_delete; by apply holds_delete|].
      by apply regions_ok_delete.
Qed.
(** Any sequence of calls: the builds end alike, in the same world, and every region
    is accessible through the pointer held to it. *)
Lemma client_run_tagged_ok cs : Forall call_ok cs → ∀ qs w h t,
  tagged_held qs t w h →
  steps_alike (client_run cs (PTR_CLEAR_TAG <$> qs, w)) (client_run_tagged cs (qs, w, t))
    (λ qs' t' w', ∃ h', tagged_held qs' t' w' h').
Proof.
  induction 1 as [|c cs Hc _ IH]; intros qs w h t Hheld; cbn [client_run client_run_tagged].
  - exists qs, t. split; [done|]. split; [done|]. by exists h.
  - pose proof (client_step_tagged_ok c qs w h t Hheld Hc) as Hstep. unfold steps_alike in Hstep.
    destruct (client_step c _) as [[ps w1]|e]; cbn [mbind outcome_bind].
    + destruct Hstep as (qs1 & t1 & -> & <- & h1 & Hheld1). cbn [mbind outcome_bind]. by apply (IH qs1 w1 h1 t1).
    + destruct Hstep as [-> He]. by split.
Qed.

Lemma tagged_held_nil (os : OS) mem t : seed_readable os → tagged_held [] t (world_static os mem) ∅.
Proof.
  intros Hseed. split; [by right| |by intros q n Hq%elem_of_nil]. split; [constructor|].
  intros p. rewrite lookup_empty. split; [by intros ?%elem_of_nil|by intros []].
Qed.
End tagged_client.
