(* ===== verification/Statistics.v ===== *)
(** * Statistics: the build with STATISTICS

    Such a build opens a file when the arena is initialised, appends one line per call of
    malloc, calloc and realloc (the letter of the size class and the size), and closes the
    file when the process ends.  The functions are those of MallocApi with the branches
    under #ifdef STATISTICS; the descriptors of the process are the operations of the
    typeclass [StatsFiles].  [stats_client_run] says that the allocator does the same work
    as without statistics, and which lines any sequence of calls leaves in the file. *)
From Stdlib Require Import ZArith Lia.
From stdpp Require Import base option numbers functions sorting list gmap.
From S2P Require Import Prelude.
From S2P Require Import CArray.
From S2P Require Import Utils.
From S2P Require Import SizeClass.
From S2P Require Import Random.
From S2P Require Import Logging.
From S2P Require Import ContainerLL.
From S2P Require Import Platform.
From S2P Require Import KernelSpec.
From S2P Require Import Run.
From S2P Require Import Bin.
From S2P Require Import InternalAllocator.
From S2P Require Import Chunk.
From S2P Require Import World.
From S2P Require Import Arena.
From S2P Require Import ArenaMeta.
From S2P Require Import ArenaInv.
From S2P Require Import ArenaOps.
From S2P Require Import Sealloc.
From S2P Require Import ArenaBins.
From S2P Require Import SeallocInv.
From S2P Require Import SeallocRealloc.
From S2P Require Import HeapSpec.
From S2P Require Import MallocApi.
From S2P Require Import SeallocHeap.

(** What the code uses of the kernel's files: [k_write fs fd bytes] is the outcome of the
    calls of write that send [bytes] to [fd], one after the other. *)
Class StatsFiles (F : Type) := {
  k_open_stats : F → Z * F;       (* open("./heap_stats.sealloc", flags, perms) *)
  k_write : F → Z → list Z → F;
  k_close : F → Z → F
}.

(** The files, and the field stats_fd of the arena. *)
Record stats (F : Type) : Type := Stats { st_files : F; stats_fd : Z }.
Arguments Stats {F}. Arguments st_files {F}. Arguments stats_fd {F}.

Section statistics.
Context `{Build} `{Kernel OS} `{StatsFiles F}.
Context (buf : arr Z).   (* the buffer of vfse_log, uninitialised *)
Implicit Types w : world OS.
Implicit Types s : stats F.

Definition written s (x : Z * list Z) : stats F := Stats (k_write (st_files s) x.1 x.2) (stats_fd s).

(** ** arena_init *)
Definition MSG_NO_STATS : list Z :=
  [67; 111; 117; 108; 100; 110; 39; 116; 32; 111; 112; 101; 110; 32; 102; 105; 108; 101; 32;
   116; 111; 32; 119; 114; 105; 116; 101; 32; 104; 101; 97; 112; 32; 115; 116; 97; 116; 105;
   115; 116; 105; 99; 115; 32; 116; 111; 10].
Definition MSG_STATS : list Z :=
  [79; 112; 101; 110; 101; 100; 32; 104; 101; 97; 112; 95; 115; 116; 97; 116; 115; 46; 115;
   101; 97; 108; 108; 111; 99; 32; 102; 105; 108; 101; 32; 102; 111; 114; 32; 115; 116; 97;
   116; 105; 115; 116; 105; 99; 115; 10].
Definition open_stats s : outcome (stats F) :=
  let '(fd, files) := k_open_stats (st_files s) in
  let s := Stats files (stats_fd s) in
  if fd <? 0 then
    out ← se_log buf (Some (MSG_NO_STATS ++ [0])) [];
    Ok (Stats (st_files (written s out)) (-1))
  else
    out ← se_log buf (Some (MSG_STATS ++ [0])) [];
    Ok (Stats (st_files (written s out)) fd).
Definition arena_init_stats s w : outcome (stats F * world OS) :=
  _ ← c_assert (is_initialized (w_arena w) =? 0);
  s ← open_stats s;
  w ← arena_init w;
  Ok (s, w).

(** ** malloc_api.c *)
Definition close_stats_file s w : stats F :=
  if negb (is_initialized (w_arena w) =? 0) && (0 <=? stats_fd s)
  then Stats (k_close (st_files s) (stats_fd s)) (stats_fd s) else s.

Definition class_letter (size : Z) : Z :=
  if IS_SIZE_SMALL size then 83          (* S *)
  else if IS_SIZE_MEDIUM size then 77    (* M *)
  else if IS_SIZE_LARGE size then 76     (* L *)
  else 72.                               (* H *)
(** The format is %s %zu and a newline.  The address of the literal is not used. *)
Definition MSG_ALLOCATION : list Z := [37; 115; 32; 37; 122; 117; 10].
Definition log_allocation (size : Z) s : outcome (stats F) :=
  let class := [class_letter size; 0] in
  if 0 <=? stats_fd s then
    out ← fse_log buf (stats_fd s) (Some (MSG_ALLOCATION ++ [0])) [VaPtr 1 (Some class); VaZ size];
    Ok (written s out)
  else Ok s.

Definition ensure_init_stats s w : outcome (stats F * world OS) :=
  if is_initialized (w_arena w) =? 0 then arena_init_stats s w else Ok (s, w).

Definition malloc_stats (size : Z) s w : outcome (Z * stats F * world OS) :=
  '(s, w) ← ensure_init_stats s w;
  s ← log_allocation size s;
  '(p, w) ← sealloc_malloc size w; Ok (p, s, w).
Definition calloc_stats (nmemb size : Z) s w : outcome (Z * stats F * world OS) :=
  '(s, w) ← ensure_init_stats s w;
  s ← log_allocation (u64 (nmemb * size)) s;
  '(p, w) ← sealloc_calloc nmemb size w; Ok (p, s, w).
Definition realloc_stats (ptr size : Z) s w : outcome (Z * stats F * world OS) :=
  '(s, w) ← ensure_init_stats s w;
  s ← log_allocation size s;
  '(p, w) ← sealloc_realloc ptr size w; Ok (p, s, w).
End statistics.

(** ** What is logged *)
Section log.
Context `{Build} `{Kernel OS} `{StatsFiles F}.
Context (buf : arr Z) (Hbuf : alen buf = BUFSIZE).
Implicit Types w : world OS.
Implicit Types s : stats F.

(** The line of one call. *)
Definition stat_line (size : Z) : list Z := [class_letter size; 32] ++ dec_text size ++ [10].
Definition log_line s (size : Z) : stats F :=
  if 0 <=? stats_fd s then written s (stats_fd s, stat_line size) else s.

Lemma log_allocation_line size s :
  0 ≤ size < 2 ^ 64 → log_allocation buf size s = Ok (log_line s size).
Proof.
  intros Hs. unfold log_allocation, log_line. destruct (0 <=? stats_fd s); [|done].
  set (ps := [ConvS 1 [class_letter size]; Lit 32; ConvZ size; Lit 10]).
  pose proof (vfse_log_format ps [] buf) as Hf. change (fmt ps) with MSG_ALLOCATION in Hf.
  change (fmt_args ps ++ []) with [VaPtr 1 (Some [class_letter size; 0]); VaZ size] in Hf.
  unfold fse_log. rewrite Hf; [|repeat constructor; try lia|simpl; lia|done].
  - cbn [mbind outcome_bind]. unfold text, stat_line. simpl. done.
  - unfold class_letter. repeat case_match; lia.
Qed.

(** A message without conversions is written as it is. *)
Lemma se_log_plain (msg : list Z) :
  Forall (λ c, c ≠ 0 ∧ c ≠ 37) msg → Z.of_nat (length msg) < 2 ^ 31 →
  se_log buf (Some (msg ++ [0])) [] = Ok (STDERR_FILENO, msg).
Proof.
  intros Hm Hl. pose proof (vfse_log_format (Lit <$> msg) [] buf) as Hf.
  assert (fmt (Lit <$> msg) = msg ∧ fmt_args (Lit <$> msg) = [] ∧ text (Lit <$> msg) = msg) as (E1 & E2 & E3).
  { clear. induction msg as [|c msg (E1 & E2 & E3)]; [done|]. unfold fmt, fmt_args, text in *.
    rewrite fmap_cons, !bind_cons, E1, E2, E3. done. }
  rewrite E1, E2, E3, (app_nil_r []) in Hf. unfold se_log. rewrite Hf; [done| |done|done]. by rewrite Forall_fmap.
Qed.

Definition opened_stats s : stats F :=
  let '(fd, files) := k_open_stats (st_files s) in
  if fd <? 0 then Stats (k_write files STDERR_FILENO MSG_NO_STATS) (-1)
  else Stats (k_write files STDERR_FILENO MSG_STATS) fd.

Lemma open_stats_ok s : open_stats buf s = Ok (opened_stats s).
Proof.
  unfold open_stats, opened_stats. destruct (k_open_stats (st_files s)) as [fd files].
  destruct (fd <? 0); rewrite se_log_plain; try done; try (by vm_compute);
    by apply (bool_decide_unpack _); vm_compute.
Qed.

(** The state after the initialisation that a call starts with. *)
Definition initialised_stats w s : stats F := if is_initialized (w_arena w) =? 0 then opened_stats s else s.

Lemma ensure_init_stats_ok s w :
  ensure_init_stats buf s w = (w' ← ensure_init w; Ok (initialised_stats w s, w')).
Proof.
  unfold ensure_init_stats, ensure_init, initialised_stats, arena_init_stats.
  destruct (is_initialized (w_arena w) =? 0); [|done].
  rewrite c_assert_true, open_stats_ok by done. done.
Qed.

(** Each call does what it does without statistics, and logs its size. *)
Definition with_stats s (o : outcome (Z * world OS)) : outcome (Z * stats F * world OS) :=
  '(p, w) ← o; Ok (p, s, w).

Lemma malloc_stats_ok size s w :
  0 ≤ size < 2 ^ 64 →
  malloc_stats buf size s w = with_stats (log_line (initialised_stats w s) size) (malloc size w).
Proof.
  intros Hs. unfold malloc_stats, malloc, with_stats. rewrite ensure_init_stats_ok.
  destruct (ensure_init w) as [w'|e]; [|done]. cbn [mbind outcome_bind]. by rewrite log_allocation_line.
Qed.

Lemma calloc_stats_ok nmemb size s w :
  calloc_stats buf nmemb size s w =
  with_stats (log_line (initialised_stats w s) (u64 (nmemb * size))) (calloc nmemb size w).
Proof.
  unfold calloc_stats, calloc, with_stats. rewrite ensure_init_stats_ok.
  destruct (ensure_init w) as [w'|e]; [|done]. cbn [mbind outcome_bind].
  rewrite log_allocation_line; [done|]. apply wrap_range. lia.
Qed.

Lemma realloc_stats_ok p size s w :
  0 ≤ size < 2 ^ 64 →
  realloc_stats buf p size s w = with_stats (log_line (initialised_stats w s) size) (realloc p size w).
Proof.
  intros Hs. unfold realloc_stats, realloc, with_stats. rewrite ensure_init_stats_ok.
  destruct (ensure_init w) as [w'|e]; [|done]. cbn [mbind outcome_bind]. by rewrite log_allocation_line.
Qed.
End log.

(** ** Clients *)
Section stats_client.
Context `{Build} `{KernelLaws OS} `{StatsFiles F}.
Context (buf : arr Z) (Hbuf : alen buf = BUFSIZE).
Implicit Types w : world OS.
Implicit Types s : stats F.

(** The client of HeapSpec in a build with statistics; free has no branch of its own. *)
Definition client_step_stats (c : call_t) (st : list Z * stats F * world OS)
    : outcome (list Z * stats F * world OS) :=
  let '(ps, s, w) := st in
  match c with
  | CMalloc size => '(p, s, w) ← malloc_stats buf size s w; Ok (p :: ps, s, w)
  | CCalloc nmemb size => '(p, s, w) ← calloc_stats buf nmemb size s w; Ok (p :: ps, s, w)
  | CRealloc i size =>
      match ps !! i with
      | None => Ok st
      | Some p => '(q, s, w) ← realloc_stats buf p size s w; Ok (q :: delete i ps, s, w)
      end
  | CFree i =>
      match ps !! i with
      | None => Ok st
      | Some p => w ← free p w; Ok (delete i ps, s, w)
      end
  end.
Fixpoint client_run_stats (cs : list call_t) (st : list Z * stats F * world OS)
    : outcome (list Z * stats F * world OS) :=
  match cs with
  | [] => Ok st
  | c :: cs => st ← client_step_stats c st; client_run_stats cs st
  end.

(** The size a call logs for a client that holds [k] pointers, and how many it holds after. *)
Definition call_logs (k : nat) (c : call_t) : option Z :=
  match c with
  | CMalloc size => Some size
  | CCalloc nmemb size => Some (nmemb * size)
  | CRealloc i size => if decide (i < k)%nat then Some size else None
  | CFree _ => None
  end.
Definition call_holds (k : nat) (c : call_t) : nat :=
  match c with
  | CMalloc _ | CCalloc _ _ => S k
  | CRealloc _ _ => k
  | CFree i => if decide (i < k)%nat then pred k else k
  end.
Fixpoint logged_sizes (k : nat) (cs : list call_t) : list Z :=
  match cs with
  | [] => []
  | c :: cs => option_list (call_logs k c) ++ logged_sizes (call_holds k c) cs
  end.

(** The file is opened before the first line. *)
Definition log_sizes (started : bool) s (sizes : list Z) : stats F :=
  match sizes with
  | [] => s
  | _ => foldl log_line (if started then s else opened_stats s) sizes
  end.
Definition started w : bool := negb (is_initialized (w_arena w) =? 0).

Lemma heap_of_started w h : heap_of w h → started w = true.
Proof. intros (S & Hinv & _). unfold started. by rewrite (ai_init _ _ _ _ (al_arena _ _ Hinv)). Qed.

Lemma initialised_started w s : initialised_stats w s = if started w then s else opened_stats s.
Proof. unfold initialised_stats, started. by destruct (_ =? 0). Qed.

Lemma log_sizes_step w s (o : option Z) sizes b :
  b = (if o is Some _ then true else started w) →
  log_sizes (started w) s (option_list o ++ sizes) =
  log_sizes b (from_option (log_line (initialised_stats w s)) s o) sizes.
Proof. intros ->. rewrite initialised_started. destruct o; [|done]. by destruct sizes. Qed.

(** One call: the effect of the plain build, the line, and the invariant of the client. *)
Definition step_logs (c : call_t) ps s w : Prop :=
  let s' := from_option (log_line (initialised_stats w s)) s (call_logs (length ps) c) in
  client_step_stats c (ps, s, w) = ('(ps', w') ← client_step c (ps, w); Ok (ps', s', w')) ∧
  ∀ ps' w', client_step c (ps, w) = Ok (ps', w') →
    length ps' = call_holds (length ps) c ∧
    started w' = (if call_logs (length ps) c is Some _ then true else started w) ∧
    ∃ h', api_heap w' h' ∧ holds ps' h'.

Lemma held_heap w h ps i p :
  api_heap w h → holds ps h → ps !! i = Some p → heap_of w h ∧ ∃ n, h !! p = Some n.
Proof.
  intros Hw [_ Hps] Hi. destruct (proj1 (Hps p)) as [n Hn]; [by eapply list_elem_of_lookup_2|].
  split; [by eapply api_heap_running|by exists n].
Qed.

Lemma gives_up_not_ok {A B} (o : outcome A) (f : A → outcome B) b : gives_up o → (o ≫= f) ≠ Ok b.
Proof. by intros [->| ->]. Qed.

(** A call that returns a new pointer. *)
Lemma new_pointer_logs (o : outcome (Z * world OS)) (ps ps' : list Z) w' h n :
  gives_up o ∨ (∃ p w', o = Ok (p, w') ∧ h !! p = None ∧ heap_of w' (<[p := n]> h)) →
  holds ps h → ('(p, w) ← o; Ok (p :: ps, w)) = Ok (ps', w') →
  length ps' = S (length ps) ∧ started w' = true ∧ ∃ h', api_heap w' h' ∧ holds ps' h'.
Proof.
  intros [Hg|(p & w1 & -> & Hp & Hw1)] Hps; [by intros ?%gives_up_not_ok|].
  intros [= <- <-]. split; [done|]. split; [by eapply heap_of_started|].
  exists (<[p := n]> h). split; [by left|by apply holds_insert].
Qed.

Lemma step_logs_ok c ps s w h : api_heap w h → holds ps h → call_ok c → step_logs c ps s w.
Proof.
  intros Hw Hps Hc. unfold step_logs.
  destruct c as [size|nmemb size|i size|i]; cbn [call_logs call_holds client_step_stats client_step call_ok from_option] in *.
  - rewrite malloc_stats_ok by (done || lia). cbn [sealloc_allocator ha_malloc]. split; [by destruct (malloc size w) as [[]|]|].
    intros ps' w'. apply (new_pointer_logs _ _ _ _ h (request_size size)); [|done].
    destruct (malloc_heap w h size Hw ltac:(lia)) as [Hg|(p & w1 & -> & _ & Hp & Hw1 & _)]; [by left|right; by exists p, w1].
  - destruct Hc as (Hn & Hs & Ht). rewrite calloc_stats_ok by done. rewrite (wrap_small 64) by nia.
    cbn [sealloc_allocator ha_calloc]. split; [by destruct (calloc nmemb size w) as [[]|]|].
    intros ps' w'. apply (new_pointer_logs _ _ _ _ h (request_size (nmemb * size))); [|done].
    destruct (calloc_heap w h nmemb size Hw Hn Hs ltac:(lia)) as [Hg|(p & w1 & -> & _ & Hp & Hw1 & _)];
      [by left|right; by exists p, w1].
  - destruct (ps !! i) as [p|] eqn:Hi.
    + pose proof (lookup_lt_Some _ _ _ Hi) as Hlt. rewrite decide_True by done. cbn [from_option].
      destruct (held_heap w h ps i p Hw Hps Hi) as [Hrun [n Hp]].
      rewrite realloc_stats_ok by (done || lia). cbn [sealloc_allocator ha_realloc].
      split; [by destruct (realloc p size w) as [[]|]|]. intros ps' w' Hok.
      apply (new_pointer_logs _ _ _ _ (delete p h) (realloc_size n size)) in Hok; [|..|by apply holds_delete].
      * rewrite length_delete in Hok by done. destruct Hok as [Hl ?]. split; [lia|done].
      * destruct (realloc_heap w h p n size Hrun Hp Hc) as [Hg|(q & w1 & -> & _ & Hq & Hw1 & _)].
        { left. destruct Hg as [|[? _]]; [by left|by right]. }
        right. exists q, w1. split; [done|]. split; [by rewrite lookup_delete_None; right|done].
    + pose proof (lookup_ge_None_1 _ _ Hi) as Hge. rewrite decide_False by lia. split; [done|].
      intros ps' w' [= <- <-]. split; [done|]. split; [done|by exists h].
  - destruct (ps !! i) as [p|] eqn:Hi.
    + pose proof (lookup_lt_Some _ _ _ Hi) as Hlt. rewrite decide_True by done.
      destruct (held_heap w h ps i p Hw Hps Hi) as [Hrun [n Hp]]. cbn [sealloc_allocator ha_free].
      split; [by destruct (free p w)|]. intros ps' w'.
      destruct (free_heap w h p n Hrun Hp) as [[-> _]|(w1 & -> & Hw1 & _)]; [done|]. intros [= <- <-].
      split; [rewrite length_delete by done; lia|]. rewrite (heap_of_started w h) by done.
      split; [by eapply heap_of_started|]. exists (delete p h). split; [by left|by apply holds_delete].
    + pose proof (lookup_ge_None_1 _ _ Hi) as Hge. rewrite decide_False by lia. split; [done|].
      intros ps' w' [= <- <-]. split; [done|]. split; [done|by exists h].
Qed.

Lemma client_run_stats_ok cs : Forall call_ok cs → ∀ ps s w h,
  api_heap w h → holds ps h →
  client_run_stats cs (ps, s, w) =
  ('(ps', w') ← client_run cs (ps, w); Ok (ps', log_sizes (started w) s (logged_sizes (length ps) cs), w')).
Proof.
  induction 1 as [|c cs Hc _ IH]; intros ps s w h Hw Hps; cbn [client_run client_run_stats logged_sizes]; [done|].
  destruct (step_logs_ok c ps s w h Hw Hps Hc) as [-> Hstep].
  destruct (client_step c (ps, w)) as [[ps1 w1]|e]; [|done]. cbn [mbind outcome_bind].
  destruct (Hstep ps1 w1 eq_refl) as (Hl & Hst & h1 & Hw1 & Hps1).
  rewrite (IH ps1 _ w1 h1 Hw1 Hps1), (log_sizes_step _ _ _ _ _ Hst), Hl. done.
Qed.

(** C26. For any sequence of calls the build with statistics returns what the plain build
    does, and leaves in the file one line per call of malloc, calloc and realloc. *)
Theorem stats_client_run (os : OS) mem s cs :
  seed_readable os → Forall call_ok cs →
  let w0 := world_static os mem in
  client_run_stats cs ([], s, w0) =
  ('(ps, w) ← client_run cs ([], w0); Ok (ps, log_sizes false s (logged_sizes 0 cs), w)).
Proof.
  intros Hseed Hcs w0. apply (client_run_stats_ok cs Hcs [] s w0 ∅); [by right|].
  split; [constructor|]. intros p. rewrite lookup_empty, elem_of_nil. split; [done|by intros []].
Qed.
End stats_client.

(** ** The letter of a line *)

(** For a request that is not empty the letter tells where the region comes from: H when
    sealloc_malloc maps it, and otherwise the class of the region. *)
Lemma class_letter_class size :
  0 < size →
  (class_letter size = 72 ↔ IS_SIZE_HUGE size = true) ∧
  (IS_SIZE_HUGE size = false → class_letter (alignup_class size) = class_letter size).
Proof.
  intros Hs. unfold class_letter, IS_SIZE_HUGE, IS_SIZE_SMALL, IS_SIZE_MEDIUM, IS_SIZE_LARGE.
  cbv [SMALL_SIZE_MAX_REGION MEDIUM_SIZE_MAX_REGION LARGE_SIZE_MAX_REGION PAGE_SIZE].
  split; [repeat case_match; lia|]. intros Hh.
  destruct (alignup_class_ok size) as (_ & Hge & Hle);
    [cbv [LARGE_SIZE_MAX_REGION PAGE_SIZE]; lia|]. rewrite Forall_forall in Hle.
  assert (∀ c, c ∈ [512; 8192; 1048576] → size ≤ c → alignup_class size ≤ c) as Hb.
  { intros c Hc. apply Hle. revert c Hc. apply Forall_forall, (bool_decide_unpack _). by vm_compute. }
  pose proof (Hb 512 ltac:(set_solver)). pose proof (Hb 8192 ltac:(set_solver)).
  pose proof (Hb 1048576 ltac:(set_solver)). repeat case_match; lia.
Qed.

(** malloc(0) is logged as a huge allocation: no class of the macros holds 0, and
    log_allocation comes before sealloc_malloc replaces 0 by the smallest class. *)
Lemma zero_size_logged_huge :
  class_letter 0 = 72 ∧ ∀ `{Build} `{Kernel OS} (w : world OS),
    sealloc_malloc 0 w = allocate_class SMALL_SIZE_MIN_REGION w.
Proof. split; [done|]. intros. reflexivity. Qed.

(** ** A trace

    Files that remember what was written to which descriptor. *)
#[local] Instance file_trace : StatsFiles (list (Z * list Z)) :=
  {| k_open_stats fs := (3, fs); k_write fs fd bytes := fs ++ [(fd, bytes)]; k_close fs _ := fs |}.

Example stats_trace :
  let run := @client_run_stats assert_build tracker tracking_kernel (list (Z * list Z)) file_trace
    (amake BUFSIZE 0) [CMalloc 100; CMalloc 0; CFree 0; CCalloc 3 700] ([], Stats [] 0, world_static (Tracker [] []) (λ _, 0)) in
  match run with
  | Ok (ps, s, _) => length ps = 2%nat ∧
      st_files s = [(2, MSG_STATS); (3, [83; 32; 49; 48; 48; 10]); (3, [72; 32; 48; 10]);
                    (3, [77; 32; 50; 49; 48; 48; 10])]
  | Fail _ => False
  end.
Proof. vm_compute. split; reflexivity. Qed.

Lemma stats_client_run_witness :
  let cs := [CMalloc 100; CMalloc 0; CFree 0; CCalloc 3 700] in
  @client_run_stats assert_build tracker tracking_kernel (list (Z * list Z)) file_trace
    (amake BUFSIZE 0) cs ([], Stats [] 0, @world_static tracker (Tracker [] []) (λ _, 0)) =
  ('(ps, w) ← @client_run _ (@sealloc_allocator assert_build tracker tracking_kernel tracking_laws) cs
     ([], @world_static tracker (Tracker [] []) (λ _, 0));
   Ok (ps, @log_sizes (list (Z * list Z)) file_trace false (Stats [] 0) (logged_sizes 0 cs), w)).
Proof.
  intros cs. apply (@stats_client_run assert_build tracker tracking_kernel tracking_laws (list (Z * list Z)) file_trace
    (amake BUFSIZE 0) eq_refl (Tracker [] []) (λ _, 0) (Stats [] 0) cs).
  - done.
  - repeat constructor; vm_compute; intuition discriminate.
Defined.
