(* ===== verification/SeallocProps.v ===== *)
(** * SeallocProps: the theorems about the allocator

    The calls of malloc_api.c on any kernel that keeps the laws of KernelSpec.  The
    witnesses run the allocator itself on [tracking_kernel] (and on a kernel without
    memory): the addresses they mention are the ones the code computes. *)
From Stdlib Require Import ZArith Lia.
From stdpp Require Import base option numbers functions sorting list gmap.
From S2P Require Import Prelude.
From S2P Require Import CArray.
From S2P Require Import Utils.
From S2P Require Import SizeClass.
From S2P Require Import Random.
From S2P Require Import ContainerLL.
From S2P Require Import Platform.
From S2P Require Import KernelSpec.
From S2P Require Import Run.
From S2P Require Import Bin.
From S2P Require Import InternalAllocator.
From S2P Require Import IntAllocTree.
From S2P Require Import IntAllocProps.
From S2P Require Import Chunk.
From S2P Require Import ChunkTree.
From S2P Require Import ChunkAlloc.
From S2P Require Import ChunkRun.
From S2P Require Import ChunkBuddy.
From S2P Require Import ChunkSpec.
From S2P Require Import World.
From S2P Require Import Arena.
From S2P Require Import ArenaMeta.
From S2P Require Import ArenaInv.
From S2P Require Import ArenaOps.
From S2P Require Import ArenaHuge.
From S2P Require Import ArenaFree.
From S2P Require Import Sealloc.
From S2P Require Import ArenaBins.
From S2P Require Import SeallocInv.
From S2P Require Import SeallocLookup.
From S2P Require Import SeallocFree.
From S2P Require Import SeallocRealloc.
From S2P Require Import MallocApi.
From S2P Require Import HeapSpec.
From S2P Require Import SeallocHeap.

(** ** Concrete worlds *)
Definition is_ok {A} (o : outcome A) : bool := match o with Ok _ => true | Fail _ => false end.

Lemma not_gives_up {A} (o : outcome A) : is_ok o = true → ¬ gives_up o.
Proof. by intros Hok [-> | ->]. Qed.

Section sample.
#[local] Existing Instance assert_build.
#[local] Existing Instance tracking_kernel.
#[local] Existing Instance tracking_laws.

Definition sample_world : world tracker := world_static (Tracker [] []) (λ _, 7).

Lemma sample_seed : seed_readable (Tracker [] []).
Proof. done. Qed.

Lemma sample_start : api_heap sample_world ∅.
Proof. right. done. Qed.

Lemma sample_munmap : @munmap_total tracker tracking_kernel.
Proof. by intros os p n. Qed.

Lemma sample_arena_init : ∃ w, arena_init sample_world = Ok w ∧ sealloc_inv w empty_g.
Proof.
  assert (is_ok (arena_init sample_world) = true) as Hok by (vm_compute; reflexivity).
  destruct (arena_init_ok sample_world eq_refl sample_seed) as [Hf|(w & Hw & Hinv & _)].
  - exfalso. apply (not_gives_up _ Hok). by right.
  - exists w. exact (conj Hw Hinv).
Qed.

(** The world after malloc(n). *)
Lemma sample_malloc n :
  0 ≤ n < 2 ^ 63 → is_ok (malloc n sample_world) = true →
  ∃ p w, malloc n sample_world = Ok (p, w) ∧ heap_of w {[p := request_size n]}.
Proof.
  intros Hn Hok. destruct (malloc_heap sample_world ∅ n sample_start Hn) as [Hg|(p & w & Hw & _ & _ & Hh & _)].
  - exfalso. exact (not_gives_up _ Hok Hg).
  - exists p, w. exact (conj Hw Hh).
Qed.
End sample.

(** A kernel that has no memory left. *)
Definition empty_kernel : Kernel unit := {|
  k_mmap _ _ _ _ := (inr ENOMEM, tt);
  k_munmap _ _ _ := (None, tt);
  k_mprotect _ _ _ _ := (None, tt);
  k_sbrk0 _ := (inl (2 ^ 24), tt);
  k_urandom _ := (inl 4, tt);
  k_getenv_seed _ := None
|}.
Definition empty_laws : @KernelLaws unit empty_kernel.
Proof.
  refine {| k_mapped := λ _ _, False |}; simpl; try done; try tauto.
  intros os b os' [= <- _]. unfold MAX_USERSPACE_ADDR64. lia.
Defined.

(** ** Clients *)

(** C1. A client of malloc, calloc, realloc and free that gives back only pointers it
    holds and asks for less than 2^62 bytes at a time, and for more than none in calloc
    and realloc, whatever the random numbers and the kernel's answers, is never stopped by an
    assertion, an abort or an undefined access: the allocator gives up only by exiting
    on a system call that fails or by asking the kernel for memory forever.  When all
    calls return, the client holds exactly the addresses of a heap whose regions are
    mapped user-space memory, no two of which share a byte. *)
Theorem client_safe `{Build} `{KernelLaws OS} (os : OS) mem cs :
  seed_readable os → Forall call_ok cs →
  gives_up (client_run cs ([], world_static os mem)) ∨
  ∃ ps w h, client_run cs ([], world_static os mem) = Ok (ps, w) ∧ holds ps h ∧
    (∀ p n, h !! p = Some n → 0 < p ∧ 0 < n ∧ p + n ≤ 2 ^ 47 ∧ ∀ x, range p n x → k_mapped (w_os w) x) ∧
    (∀ p n q m, h !! p = Some n → h !! q = Some m → p ≠ q → apart (p, n) (q, m)).
Proof.
  intros Hseed Hcs.
  assert (ha_heap (world_static os mem) ∅) as Hw by by right.
  assert (holds [] ∅) as Hps.
  { split; [constructor|]. intros p. rewrite lookup_empty. split; [by intros ?%elem_of_nil|by intros []]. }
  destruct (client_run_ok cs Hcs [] _ ∅ Hw Hps) as [Hg|(ps & w & h & Hok & Hh & Hhold)]; [by left|right].
  exists ps, w, h. split; [done|]. split; [done|]. split.
  - intros p n Hp. apply (heap_entry w h); [by eapply api_heap_running|done].
  - intros p n q m. by apply (ha_apart_law w h).
Qed.

Lemma client_safe_witness :
  let cs := [CMalloc 100; CMalloc 2000000; CCalloc 3 7; CRealloc 1 50; CRealloc 0 1200000; CFree 1; CMalloc 0] in
  ∃ ps w h, @client_run _ (@sealloc_allocator assert_build tracker tracking_kernel tracking_laws)
              cs ([], sample_world) = Ok (ps, w) ∧ holds ps h ∧ length ps = 3%nat.
Proof.
  intros cs.
  assert (Forall call_ok cs) as Hcs by (repeat constructor; vm_compute; intuition discriminate).
  pose (st := ([] : list Z, sample_world)).
  assert (match @client_run _ (@sealloc_allocator assert_build tracker tracking_kernel tracking_laws)
            cs st with Ok (ps, _) => length ps =? 3 | Fail _ => false end%nat = true) as Hb
    by (vm_compute; reflexivity).
  destruct (@client_safe assert_build tracker tracking_kernel tracking_laws (Tracker [] []) (λ _, 7) cs
              sample_seed Hcs) as [Hg|(ps & w & h & Hok & Hh & _)].
  - exfalso. fold sample_world in Hg. fold st in Hg.
    destruct Hg as [Hg|Hg]; rewrite Hg in Hb; discriminate Hb.
  - fold sample_world in Hok. fold st in Hok. rewrite Hok in Hb.
    exists ps, w, h. split; [exact Hok|]. split; [exact Hh|]. by apply Nat.eqb_eq.
Defined.

(** ** malloc and free *)

(** C3. malloc, on a fresh arena or between two calls: it returns the address of a
    region that was not live, of at least the requested size (the size class, or whole
    pages for a huge request), makes it live, and changes neither the other live
    regions nor their bytes; the size 0 is served as SMALL_SIZE_MIN_REGION.  It never
    returns NULL. *)
Theorem malloc_fresh `{Build} `{KernelLaws OS} (w : world OS) h size :
  api_heap w h → 0 ≤ size < 2 ^ 63 →
  gives_up (malloc size w) ∨
  ∃ p w', malloc size w = Ok (p, w') ∧ p ≠ 0 ∧ size ≤ request_size size ∧ h !! p = None ∧
    heap_of w' (<[p := request_size size]> h) ∧ bytes_kept h (w_mem w) (w_mem w').
Proof.
  intros Hw Hs. destruct (malloc_heap w h size Hw Hs) as [Hg|(p & w' & Hok & Hp & Hf & Hh & Hm)]; [by left|right].
  exists p, w'. split; [done|]. split; [done|]. split; [by apply request_size_ge|]. split; [done|]. split; [done|].
  intros q n x _ _. by rewrite Hm.
Qed.

Lemma malloc_fresh_witness :
  ∃ p w', @malloc assert_build tracker tracking_kernel 100 sample_world = Ok (p, w') ∧
    @heap_of tracker tracking_kernel tracking_laws w' {[p := 112]}.
Proof.
  assert (is_ok (@malloc assert_build tracker tracking_kernel 100 sample_world) = true) as Hok by (vm_compute; reflexivity).
  destruct (@malloc_fresh assert_build tracker tracking_kernel tracking_laws sample_world ∅ 100 sample_start)
    as [Hg|(p & w' & Hw & _ & _ & _ & Hh & _)]; [lia|exfalso; exact (not_gives_up _ Hok Hg)|].
  exists p, w'. exact (conj Hw Hh).
Defined.

(** C4. free of a live region removes exactly that region from the heap and leaves the
    others and their bytes alone; the only other outcome is the exit when the kernel
    refuses to unmap memory. *)
Theorem free_exact `{Build} `{KernelLaws OS} (w : world OS) h p n :
  heap_of w h → h !! p = Some n →
  (free p w = Fail ErrorExit ∧ ¬ munmap_total) ∨
  ∃ w', free p w = Ok w' ∧ heap_of w' (delete p h) ∧ bytes_kept h (w_mem w) (w_mem w').
Proof.
  intros Hw Hp. destruct (free_heap w h p n Hw Hp) as [Hf|(w' & Hok & Hh & Hm)]; [by left|right].
  exists w'. split; [done|]. split; [done|]. intros q m x _ _. by rewrite Hm.
Qed.

Lemma free_exact_witness :
  ∃ p w w', @malloc assert_build tracker tracking_kernel 100 sample_world = Ok (p, w) ∧
    @free assert_build tracker tracking_kernel p w = Ok w' ∧
    @heap_of tracker tracking_kernel tracking_laws w' ∅.
Proof.
  destruct (sample_malloc 100) as (p & w & Hm & Hh); [lia|vm_compute; reflexivity|].
  destruct (@free_exact assert_build tracker tracking_kernel tracking_laws w _ p _ Hh (lookup_singleton_eq _ _))
    as [[_ Hn]|(w' & Hf & Hh' & _)]; [exfalso; exact (Hn sample_munmap)|].
  rewrite delete_singleton_eq in Hh'. exists p, w, w'. exact (conj Hm (conj Hf Hh')).
Defined.

(** C5. free and realloc stop the program for every pointer that is not the start of a
    live region: a region given back before, the middle of a region, an address the
    allocator never handed out (the unused end of a run, where the code reads outside
    the bitmap, apart). *)
Theorem invalid_pointer_aborts `{Build} `{KernelLaws OS} (w : world OS) S ptr size :
  sealloc_inv w S → 0 < ptr < 2 ^ 64 → (∀ n, ¬ live_region S ptr n) → ¬ run_slack S ptr →
  free ptr w = Fail Aborted ∧ realloc ptr size w = Fail Aborted.
Proof.
  intros Hinv Hr Hdead Hslack. split; [by apply (sealloc_free_refused w S)|].
  unfold realloc, ensure_init. rewrite (ai_init _ _ _ _ (al_arena _ _ Hinv)). cbn [Z.eqb mbind outcome_bind].
  by apply (sealloc_realloc_refused w S).
Qed.

Lemma invalid_pointer_aborts_witness :
  ∃ w, @arena_init assert_build tracker tracking_kernel sample_world = Ok w ∧
    @free assert_build tracker tracking_kernel 4096 w = Fail Aborted ∧
    @realloc assert_build tracker tracking_kernel 4096 10 w = Fail Aborted.
Proof.
  destruct sample_arena_init as (w & Hw & Hinv). exists w. split; [exact Hw|].
  apply (@invalid_pointer_aborts assert_build tracker tracking_kernel tracking_laws w empty_g 4096 10 Hinv); [lia|..].
  - intros n. apply empty_not_live.
  - intros (a & k & i & rs & Ha & _). cbn in Ha. by rewrite lookup_empty in Ha.
Defined.

(** ** realloc and calloc *)

(** C8. realloc of a live region to a positive size returns a fresh region of at least
    that size with the first min(old, new) bytes of the old one, which is not live any
    more; the other live regions and their bytes do not change. *)
Theorem realloc_moves `{Build} `{KernelLaws OS} (w : world OS) h p n size :
  heap_of w h → h !! p = Some n → 0 < size < 2 ^ 62 →
  (realloc p size w = Fail Diverged ∨ (realloc p size w = Fail ErrorExit ∧ ¬ munmap_total)) ∨
  ∃ q m w', realloc p size w = Ok (q, w') ∧ q ≠ 0 ∧ size ≤ m ∧ h !! q = None ∧
    heap_of w' (<[q := m]> (delete p h)) ∧ bytes_kept h (w_mem w) (w_mem w') ∧
    ∀ x, 0 ≤ x < Z.min n size → w_mem w' (q + x) = w_mem w (p + x).
Proof.
  intros Hw Hp Hs. destruct (realloc_heap w h p n size Hw Hp Hs) as [Hg|(q & w' & Hok & Hq & Hhq & Hw' & Hk & Hc)]; [by left|right].
  exists q, (realloc_size n size), w'. pose proof (realloc_size_ge n size ltac:(lia)). by split_and!.
Qed.

Lemma realloc_moves_witness :
  ∃ p w q m w', @malloc assert_build tracker tracking_kernel 100 sample_world = Ok (p, w) ∧
    @realloc assert_build tracker tracking_kernel p 2000000 w = Ok (q, w') ∧ 2000000 ≤ m ∧
    @heap_of tracker tracking_kernel tracking_laws w' {[q := m]}.
Proof.
  destruct (sample_malloc 100) as (p & w & Hm & Hh); [lia|vm_compute; reflexivity|].
  assert (is_ok ('(p, w) ← @malloc assert_build tracker tracking_kernel 100 sample_world;
                 @realloc assert_build tracker tracking_kernel p 2000000 w) = true) as Hok by (vm_compute; reflexivity).
  rewrite Hm in Hok. cbn [mbind outcome_bind] in Hok.
  destruct (@realloc_moves assert_build tracker tracking_kernel tracking_laws w _ p _ 2000000 Hh (lookup_singleton_eq _ _))
    as [[Hd|[Hd _]]|(q & m & w' & Hr & _ & Hle & _ & Hh' & _)]; [lia|rewrite Hd in Hok; discriminate Hok..|].
  rewrite delete_singleton_eq in Hh'. exists p, w, q, m, w'. exact (conj Hm (conj Hr (conj Hle Hh'))).
Defined.

(** C10. calloc returns a fresh region that holds nmemb * size zero bytes, and changes no
    other live region, when the product is a size (see calloc_overflow otherwise). *)
Theorem calloc_zeroes `{Build} `{KernelLaws OS} (w : world OS) h nmemb size :
  api_heap w h → 0 < nmemb → 0 < size → nmemb * size < 2 ^ 63 →
  gives_up (calloc nmemb size w) ∨
  ∃ p w', calloc nmemb size w = Ok (p, w') ∧ p ≠ 0 ∧ h !! p = None ∧
    heap_of w' (<[p := request_size (nmemb * size)]> h) ∧ bytes_kept h (w_mem w) (w_mem w') ∧
    ∀ x, range p (nmemb * size) x → w_mem w' x = 0.
Proof. apply calloc_heap. Qed.

Lemma calloc_zeroes_witness :
  ∃ p w', @calloc assert_build tracker tracking_kernel 3 7 sample_world = Ok (p, w') ∧
    w_mem sample_world p = 7 ∧ ∀ x, range p 21 x → w_mem w' x = 0.
Proof.
  assert (is_ok (@calloc assert_build tracker tracking_kernel 3 7 sample_world) = true) as Hok by (vm_compute; reflexivity).
  destruct (@calloc_zeroes assert_build tracker tracking_kernel tracking_laws sample_world ∅ 3 7 sample_start)
    as [Hg|(p & w' & Hw & _ & _ & _ & _ & Hz)]; [lia|lia|lia|exfalso; exact (not_gives_up _ Hok Hg)|].
  exists p, w'. exact (conj Hw (conj eq_refl Hz)).
Defined.

(** ** The state between two calls *)

(** The metadata of a state between two calls: [blocks] are the blocks in use of the
    internal allocators. *)
Record metadata_placed `{Build} `{KernelLaws OS} (w : world OS) S (blocks : list (Z * Z)) : Prop := {
  mp_blocks : blocks = meta_blocks (g_meta S);
  mp_one_each : blocks.*1 ≡ₚ (g_chunks S).*1 ++ (map_to_list (g_runs S)).*1 ++ (g_huges S).*1 ∧ NoDup blocks.*1;
  mp_chunk : ∀ a n, (a, n) ∈ blocks → a ∈ (g_chunks S).*1 → is_Some (w_chunks w !! a) ∧ SIZEOF_CHUNK ≤ n;
  mp_run : ∀ a n, (a, n) ∈ blocks → is_Some (g_runs S !! a) →
    ∃ r, w_runs w !! a = Some r ∧ SIZEOF_RUN + alen (reg_bitmap r) ≤ n;
  mp_huge : ∀ a n, (a, n) ∈ blocks → a ∈ (g_huges S).*1 → is_Some (w_huges w !! a) ∧ SIZEOF_HUGE_CHUNK ≤ n;
  mp_apart : ∀ x y, x ∈ blocks → y ∈ blocks → x.1 ≠ y.1 → apart x y;
  mp_user : ∀ p n x, live_region S p n → x ∈ blocks → apart (p, n) x
}.

Lemma region_block_apart `{Build} `{KernelLaws OS} (w : world OS) S p n x :
  sealloc_inv w S → live_region S p n → x ∈ meta_blocks (g_meta S) → apart (p, n) x.
Proof.
  intros [Hinv _] Hlive Hx. pose proof (ai_space _ _ _ _ Hinv) as Hsp. destruct x as [q m].
  destruct (live_region_at _ _ _ _ _ _ Hinv Hlive) as [hd [Hn Ho]].
  destruct (meta_block_range _ _ Hx) as (a & t & Ha & _ & H1 & H2 & H3). cbn [fst snd] in *.
  destruct (decide (apart (p, n) (q, m))) as [|Hno]; [done|exfalso]. unfold apart in Hno. cbn [fst snd] in Hno.
  set (y := Z.max p q). assert (range p n y ∧ range a META_LEN y) as [Hy1 Hy2].
  { unfold range, y. rewrite (proj1 META_LEN_eq). lia. }
  assert (hd = HMeta a) as ->.
  { eapply (sp_unique _ _ Hsp); [by apply Ho|]. split; [|done]. apply list_elem_of_fmap. by exists (a, t). }
  destruct Hlive as [b k i rs iss fr j HR Hc' HG Hj _|b p n Hin].
  - destruct (regular_region [] None w S b k i rs iss fr j Hinv HR Hc' HG Hj) as (ca & _ & _ & _ & _ & _ & [_ Ho'] & _).
    by pose proof (sp_unique _ _ Hsp _ _ _ (Ho _ Hy1) (Ho' _ Hy1)).
  - assert (owns (g_meta S) (g_chunks S) (g_huges S) (HHuge b) y) as Ho' by by exists p, n.
    by pose proof (sp_unique _ _ Hsp _ _ _ (Ho _ Hy1) Ho').
Qed.

Lemma metadata_placed_ok `{Build} `{KernelLaws OS} (w : world OS) S :
  sealloc_inv w S → metadata_placed w S (meta_blocks (g_meta S)).
Proof.
  intros Hal. pose proof Hal as [Hinv _]. pose proof Hinv as [Hi Hp Hm Hc Hh Hb Hl Hs Hsp].
  pose proof (st_nodup _ _ _ _ _ Hs) as Hnd.
  assert (∀ a n s, (a, n) ∈ meta_blocks (g_meta S) → room (g_meta S) a s → s ≤ n) as Hroom.
  { intros a n s Ha (n' & Ha' & Hle). by rewrite (fst_unique _ a n n' Hnd Ha Ha'). }
  split; [done| | | | | |].
  - split; [|done]. apply (st_blocks _ _ _ _ _ Hs).
  - intros a n Ha Hin. split; [|by eapply Hroom, (st_chunk _ _ _ _ _ Hs)].
    apply list_elem_of_fmap in Hin as ([a' g] & -> & Hin). cbn [fst]. by destruct (cr_good _ _ _ Hc a' g Hin) as (c & -> & _).
  - intros a n Ha [[k i] HR]. destruct (ln_run _ _ _ Hl a k i HR) as (rs & Hrs & _).
    destruct (bin_of_run w S a k i Hinv HR) as [[_ _ [Hc' Hrep _]] Hin]. rewrite Hrs in Hc'. injection Hc' as ->.
    destruct (bin_rep_in _ _ _ _ _ _ _ (br_lists _ _ _ _ _ Hrep) Hin) as (r & iss & fr & _ & Hr & _ & _ & Hrun).
    exists r. split; [done|]. rewrite (rr_len _ _ _ _ _ Hrun), (bg_bits _ (bl_geo _ _ _ _ _ (br_lists _ _ _ _ _ Hrep))).
    eapply Hroom; [done|]. by eapply (st_run _ _ _ _ _ Hs).
  - intros a n Ha Hin. split; [|by eapply Hroom, (st_huge _ _ _ _ _ Hs)].
    apply list_elem_of_fmap in Hin as ([a' [p m]] & -> & Hin). cbn [fst]. by destruct (hr_good _ _ _ Hh a' p m Hin) as (c & -> & _).
  - intros x y. by apply (meta_blocks_apart w).
  - intros p n x. by apply (region_block_apart w).
Qed.

(** C9. After any sequence of calls of a client (one that gives back only what it holds,
    with the sizes of client_safe) the metadata of the allocator is isolated: each chunk,
    each run with its bitmap and each huge mapping has a block of the internal allocators
    of its own, which is large enough for it, and every block in use belongs to one of
    them, so that none is leaked; the blocks do not overlap each other, and none overlaps
    a region the client holds. *)
Theorem metadata_isolated `{Build} `{KernelLaws OS} (os : OS) mem cs ps w :
  seed_readable os → Forall call_ok cs → client_run cs ([], world_static os mem) = Ok (ps, w) →
  (w_arena w = arena_static ∧ ps = []) ∨
  ∃ S blocks, sealloc_inv w S ∧ metadata_placed w S blocks ∧
    ∀ p, p ∈ ps ↔ ∃ n, live_region S p n.
Proof.
  intros Hseed Hcs Hrun.
  assert (ha_heap (world_static os mem) ∅) as Hw by by right.
  assert (holds [] ∅) as Hps.
  { split; [constructor|]. intros p. rewrite lookup_empty. split; [by intros ?%elem_of_nil|by intros []]. }
  destruct (client_run_ok cs Hcs [] _ ∅ Hw Hps) as [[Hg|Hg]|(ps' & w' & h & Hok & Hh & Hhold)];
    [by rewrite Hg in Hrun|by rewrite Hg in Hrun|]. rewrite Hok in Hrun. injection Hrun as -> ->.
  destruct Hh as [(S & Hinv & Hlive)|(Hst & _ & ->)]; [right|left].
  - exists S, (meta_blocks (g_meta S)). split; [done|]. split; [by apply metadata_placed_ok|].
    intros p. rewrite (proj2 Hhold p). by split; intros [n Hn]; exists n; apply Hlive.
  - split; [done|]. destruct ps as [|p ps]; [done|].
    destruct (proj1 (proj2 Hhold p) ltac:(by left)) as [n Hn]. by rewrite lookup_empty in Hn.
Qed.

Lemma metadata_isolated_witness :
  ∃ p q w S blocks, @client_run _ (@sealloc_allocator assert_build tracker tracking_kernel tracking_laws)
      [CMalloc 100; CMalloc 2000000] ([], sample_world) = Ok ([p; q], w) ∧
    @metadata_placed assert_build tracker tracking_kernel tracking_laws w S blocks ∧
    ∃ n, @live_region S p n.
Proof.
  pose (cs := [CMalloc 100; CMalloc 2000000]). pose (st := ([] : list Z, sample_world)).
  assert (Forall call_ok cs) as Hcs by (repeat constructor; vm_compute; intuition discriminate).
  assert (match @client_run _ (@sealloc_allocator assert_build tracker tracking_kernel tracking_laws)
            cs st with Ok ([p; q], _) => true | _ => false end = true) as Hb by (vm_compute; reflexivity).
  destruct (@client_run _ (@sealloc_allocator assert_build tracker tracking_kernel tracking_laws) cs st)
    as [[[|p [|q [|]]] w]|e] eqn:Hrun; try discriminate Hb.
  destruct (@metadata_isolated assert_build tracker tracking_kernel tracking_laws (Tracker [] []) (λ _, 7) cs
              [p; q] w sample_seed Hcs Hrun) as [[_ Hno]|(S & blocks & _ & Hmp & Hps)]; [discriminate Hno|].
  exists p, q, w, S, blocks. split; [exact Hrun|]. split; [exact Hmp|]. apply Hps. left.
Defined.

(** C23. arena_init of the static arena either exits, because a system call fails, or
    leaves an arena without live regions in which every later call finds its
    invariant. *)
Theorem arena_init_establishes `{Build} `{KernelLaws OS} (w : world OS) :
  w_arena w = arena_static → seed_readable (w_os w) →
  arena_init w = Fail ErrorExit ∨
  ∃ w', arena_init w = Ok w' ∧ heap_of w' ∅ ∧ w_mem w' = w_mem w.
Proof.
  intros Hst Hseed. destruct (ensure_init_ok w ∅) as [Hf|(w' & Hok & Hh & Hm)]; [by right|left|right];
    unfold ensure_init in *; rewrite Hst in *; [done|by exists w'].
Qed.

Lemma arena_init_establishes_witness :
  ∃ w, @arena_init assert_build tracker tracking_kernel sample_world = Ok w ∧
    @heap_of tracker tracking_kernel tracking_laws w ∅.
Proof.
  assert (is_ok (@arena_init assert_build tracker tracking_kernel sample_world) = true) as Hok by (vm_compute; reflexivity).
  destruct (@arena_init_establishes assert_build tracker tracking_kernel tracking_laws sample_world eq_refl sample_seed)
    as [Hf|(w & Hw & Hh & _)]; [rewrite Hf in Hok; discriminate Hok|].
  exists w. exact (conj Hw Hh).
Defined.

(** The small classes come first, then the medium ones. *)
Lemma class_index_kind i s :
  size_classes !! i = Some s →
  (IS_SIZE_SMALL s = true ↔ (i < 32)%nat) ∧ (IS_SIZE_MEDIUM s = true ↔ (32 ≤ i < 36)%nat) ∧ (i < 43)%nat.
Proof.
  intros Hi. pose proof (lookup_lt_Some _ _ _ Hi) as Hlt. rewrite size_classes_eq in Hlt. cbn [length] in Hlt.
  assert (forallb (λ j, match size_classes !! j with
                        | Some s => Bool.eqb (IS_SIZE_SMALL s) (j <? 32)%nat &&
                                    Bool.eqb (IS_SIZE_MEDIUM s) ((32 <=? j) && (j <? 36))%nat
                        | None => true end) (seq 0 43) = true) as Hall by (vm_compute; reflexivity).
  rewrite forallb_forall in Hall. specialize (Hall i). rewrite <- list_elem_of_In, elem_of_seq, Hi in Hall.
  specialize (Hall ltac:(lia)). rewrite andb_true_iff, !Bool.eqb_true_iff in Hall. destruct Hall as [-> ->].
  by rewrite andb_true_iff, !Nat.ltb_lt, Nat.leb_le.
Qed.

(** C24. arena_get_bin_by_reg_size, for a request of 1 byte to 1MB rounded up to its class:
    it returns the bin whose index is the position of the class among the 43 size classes
    (0 to 31 for the small classes, 32 to 35 for the medium, 36 to 42 for the large ones),
    so that two classes never share a bin.  That bin has the region size and the bitmap
    size of the class: it is initialised on first use, and found as it is later.  The
    other bins, the regions in use and their contents stay the same. *)
Theorem bin_of_request `{Build} `{KernelLaws OS} (w : world OS) h size :
  heap_of w h → 1 ≤ size ≤ LARGE_SIZE_MAX_REGION →
  let s := alignup_class size in
  ∃ (i : nat) bin w', arena_get_bin_by_reg_size (u32 s) w = Ok (Z.of_nat i, w') ∧ size_classes !! i = Some s ∧
    (IS_SIZE_SMALL s = true ↔ (i < 32)%nat) ∧ (IS_SIZE_MEDIUM s = true ↔ (32 ≤ i < 36)%nat) ∧ (i < 43)%nat ∧
    rd_bin w' (Z.of_nat i) = Ok bin ∧ reg_size bin = s ∧ reg_mask_size_bits bin = 2 * class_elems s ∧
    (∀ j : nat, j ≠ i → acell (bins (w_arena w')) (Z.of_nat j) = acell (bins (w_arena w)) (Z.of_nat j)) ∧
    (w' = w ∨ avail_regs bin = 0) ∧ heap_of w' h ∧ w_mem w' = w_mem w.
Proof.
  intros (S & Hinv & Hh) Hs s. destruct (alignup_class_ok size Hs) as (Hcl & _). fold s in Hcl.
  pose proof (class_positive s Hcl) as Hpos. rewrite wrap_small by lia.
  destruct (arena_get_bin_ok w S s (al_arena _ _ Hinv) Hcl) as (i & bin & w1 & S1 & Hget & Hinv1 & Hat & Hrs & Hst & Hw1).
  pose proof (br_len _ _ _ _ _ (ai_bins _ _ _ _ Hinv1)) as Hlen. pose proof Hat as [Hi Hcell [Hc Hrep _]].
  assert (only_bin i w w1 ∧ supplied w1) as [[Hmem Hoth] Hsup].
  { pose proof (al_supplied _ _ Hinv) as Hsup. destruct Hw1 as [->|[Hob Hav]]; [by split|]. split; [done|].
    apply (supplied_only i w); [done..|]. rewrite Hcell. by left. }
  rewrite Hrs in Hc. destruct (class_index_kind i s Hc) as (K1 & K2 & K3).
  exists i, bin, w1. repeat (split; [done|]). split; [by rewrite (rd_bin_ok w1 (Z.of_nat i) Hlen), Hcell by lia|].
  split; [done|]. split; [rewrite <- Hrs; apply (bg_bits _ (bl_geo _ _ _ _ _ (br_lists _ _ _ _ _ Hrep)))|].
  split; [done|]. split; [destruct Hw1 as [|[_ ?]]; [by left|by right]|]. split; [|done].
  exists S1. split; [by split|]. intros p n. rewrite (sd_live _ _ Hst p n). apply Hh.
Qed.

(** After malloc(100) the request 500 initialises the bin of its class, number 31. *)
Lemma bin_of_request_witness :
  ∃ p w, @malloc assert_build tracker tracking_kernel 100 sample_world = Ok (p, w) ∧
    ∃ bin w', @arena_get_bin_by_reg_size assert_build tracker 512 w = Ok (31, w') ∧
      @rd_bin tracker w' 31 = Ok bin ∧ reg_size bin = 512 ∧ reg_mask_size_bits bin = 64.
Proof.
  destruct (sample_malloc 100) as (p & w & Hm & Hh); [lia|vm_compute; reflexivity|].
  exists p, w. split; [exact Hm|].
  destruct (@bin_of_request assert_build tracker tracking_kernel tracking_laws w _ 500 Hh) as
    (i & bin & w' & Hget & Hc & _ & _ & _ & Hrd & Hrs & Hbits & _); [vm_compute; split; discriminate|].
  assert (i = 31%nat) as -> by (eapply class_index_inj; [exact Hc|reflexivity]).
  exists bin, w'. split; [exact Hget|]. split; [exact Hrd|]. split; [exact Hrs|exact Hbits].
Defined.

(** C21. locate_metadata_for_ptr of the start of a live region finds the structures the
    region belongs to: the huge mapping, or the chunk, the run and the bin of its size
    class. *)
Theorem locate_live `{Build} `{KernelLaws OS} (w : world OS) S p n :
  sealloc_inv w S → live_region S p n →
  (∃ a, (a, (p, n)) ∈ g_huges S ∧ locate_metadata_for_ptr p w = Ok (METADATA_HUGE a, w)) ∨
  ∃ ca g a k (i : nat), locate_metadata_for_ptr p w = Ok (METADATA_REGULAR ca a (Z.of_nat i), w) ∧
    (ca, g) ∈ g_chunks S ∧ range (cg_base g) CHUNK_SIZE_BYTES p ∧ g_runs S !! a = Some (k, i) ∧
    k ≤ p < k + RUN_SIZE_SMALL_BYTES ∧ size_classes !! i = Some n.
Proof.
  intros [Hinv _] Hlive. destruct Hlive as [a k i rs iss fr j Ha Hc HG Hj Hjf|a p n Hin].
  - right. destruct (locate_issued w S a k i rs iss fr j Hinv Ha Hc HG Hj) as (_ & ca & g & nd & Hloc & Hfr).
    exists ca, g, a, k, i. pose proof Hfr as [F1 F2 F3 F4 F5 [F6 F7]].
    destruct (cr_good _ _ _ (ai_chunks _ _ _ _ Hinv) ca g F3) as (c & _ & Hg).
    destruct (run_in_chunk g c nd rs Hg F4) as (E1 & E2 & E3 & E4).
    assert (range (cg_base g) CHUNK_SIZE_BYTES (k + j * rs)) as Hrange.
    { unfold node_range in F7. rewrite E1, E2 in F7. unfold range in *. change CHUNK_SIZE_BYTES with 33554432. lia. }
    by repeat (split; [done|]).
  - left. exists a. split; [done|]. by apply (locate_huge w S a p n).
Qed.

Lemma locate_live_witness :
  ∃ p w, @malloc assert_build tracker tracking_kernel 100 sample_world = Ok (p, w) ∧
    ∃ m, @locate_metadata_for_ptr assert_build tracker p w = Ok (m, w) ∧ m ≠ METADATA_INVALID.
Proof.
  destruct (sample_malloc 100) as (p & w & Hm & S & Hinv & Hh); [lia|vm_compute; reflexivity|].
  exists p, w. split; [exact Hm|].
  destruct (@locate_live assert_build tracker tracking_kernel tracking_laws w S p 112 Hinv) as
    [(a & _ & Hl)|(ca & g & a & k & i & Hl & _)]; [apply Hh, lookup_singleton_eq|eexists; split; [exact Hl|discriminate]..].
Defined.

(** ** Metadata memory *)

(** C22. arena_internal_alloc and arena_internal_free on the list of metadata mappings:
    the block returned is new, disjoint from all the others and large enough (a further
    mapping is made when the present ones are full), and giving it back at once restores
    the blocks. *)
Theorem internal_alloc_free_roundtrip `{Build} `{KernelLaws OS} (w : world OS) S size :
  sealloc_inv w S → 0 < size ≤ META_MAX → let M := g_meta S in
  arena_internal_alloc size w = Fail Diverged ∨
  ∃ p n w1 M1, arena_internal_alloc size w = Ok (p, w1) ∧ p ≠ 0 ∧ size ≤ n ∧
    meta_blocks M1 ≡ₚ (p, n) :: meta_blocks M ∧ Forall (apart (p, n)) (meta_blocks M) ∧
    ∃ w2 M2, arena_internal_free p w1 = Ok w2 ∧ meta_of w2 M2 ∧ meta_blocks M2 ≡ₚ meta_blocks M ∧
      w_mem w2 = w_mem w.
Proof.
  intros [Hinv _] Hs M. pose proof (ai_meta _ _ _ _ Hinv) as Hm. pose proof (ai_probes _ _ _ _ Hinv) as Hp.
  destruct (arena_internal_alloc_ok w M size Hm Hp Hs) as [Hd|(p & n & w1 & M1 & Hal & Hf & Hp1 & Hm1 & Hnb & Hn & _)];
    [by left|right].
  pose proof (new_block_fresh _ _ _ _ Hnb) as Hfr. destruct Hnb as [Hperm Hap Hpos].
  exists p, n, w1, M1. split; [done|]. split; [apply Hpos|]. split; [done|]. split; [done|]. split; [done|].
  assert (NoDup (meta_blocks M1).*1) as Hnd.
  { rewrite Hperm, fmap_cons. constructor; [done|]. apply (st_nodup _ _ _ _ _ (ai_structs _ _ _ _ Hinv)). }
  destruct (arena_internal_free_ok w1 M1 p Hm1) as (n' & ias' & M2 & Hfree & Hm2 & _ & Hperm2).
  { rewrite Hperm. by left. }
  eexists _, M2. split; [exact Hfree|]. split; [exact Hm2|]. split; [|apply Hf].
  assert (n' = n) as ->.
  { apply (fst_unique (meta_blocks M1) p); [done| |]; [rewrite Hperm2|rewrite Hperm]; by left. }
  rewrite Hperm in Hperm2. by apply Permutation_cons_inv in Hperm2.
Qed.

Lemma internal_alloc_free_roundtrip_witness :
  ∃ w p w1 w2, @arena_init assert_build tracker tracking_kernel sample_world = Ok w ∧
    @arena_internal_alloc assert_build tracker tracking_kernel 100 w = Ok (p, w1) ∧
    arena_internal_free p w1 = Ok w2.
Proof.
  destruct sample_arena_init as (w & Hw & Hinv).
  assert (is_ok (w ← @arena_init assert_build tracker tracking_kernel sample_world;
                 @arena_internal_alloc assert_build tracker tracking_kernel 100 w) = true) as Hok by (vm_compute; reflexivity).
  rewrite (bind_Ok_l _ _ _ Hw) in Hok. cbv beta in Hok.
  destruct (@internal_alloc_free_roundtrip assert_build tracker tracking_kernel tracking_laws w empty_g 100 Hinv)
    as [Hd|(p & n & w1 & M1 & Hal & _ & _ & _ & _ & w2 & M2 & Hf & _)];
    [rewrite (proj1 META_MAX_eq); lia|rewrite Hd in Hok; discriminate Hok|].
  exists w, p, w1, w2. exact (conj Hw (conj Hal Hf)).
Defined.

(** ** What the documentation does not say *)

(** C27. realloc to the size 0 of a live region up to LARGE_SIZE_MAX_REGION bytes: the
    size class of 0 is 0, and the assertion of arena_get_bin_by_reg_size fails. *)
Theorem realloc_zero_asserts `{Build} `{KernelLaws OS} (w : world OS) h p n :
  heap_of w h → h !! p = Some n → n ≤ LARGE_SIZE_MAX_REGION → asserts_on = true →
  realloc p 0 w = Fail AssertFailed.
Proof.
  intros (S & Hinv & Hh) Hp%Hh Hn Hon. unfold realloc, ensure_init.
  rewrite (ai_init _ _ _ _ (al_arena _ _ Hinv)). cbn [Z.eqb mbind outcome_bind].
  destruct Hp as [a k i rs iss fr j Ha Hc HG Hj Hjf|a p n Hin].
  - by eapply (sealloc_realloc_zero w S a).
  - exfalso. destruct (hr_good _ _ _ (ai_huges _ _ _ _ (al_arena _ _ Hinv)) a p n Hin) as (c & _ & [_ _ _ Hlg]). lia.
Qed.

Lemma realloc_zero_asserts_witness :
  ∃ p w, @malloc assert_build tracker tracking_kernel 100 sample_world = Ok (p, w) ∧
    @realloc assert_build tracker tracking_kernel p 0 w = Fail AssertFailed.
Proof.
  destruct (sample_malloc 100) as (p & w & Hm & Hh); [lia|vm_compute; reflexivity|].
  exists p, w. split; [exact Hm|].
  apply (@realloc_zero_asserts assert_build tracker tracking_kernel tracking_laws w _ p 112 Hh);
    [apply lookup_singleton_eq|vm_compute; discriminate|reflexivity].
Defined.

(** C28. calloc multiplies its arguments modulo 2^64: calloc(2^32, 2^32) returns a region
    of SMALL_SIZE_MIN_REGION (16) bytes instead of failing. *)
Theorem calloc_overflow `{Build} `{KernelLaws OS} (w : world OS) h :
  api_heap w h →
  gives_up (calloc (2 ^ 32) (2 ^ 32) w) ∨
  ∃ p w', calloc (2 ^ 32) (2 ^ 32) w = Ok (p, w') ∧ p ≠ 0 ∧ heap_of w' (<[p := 16]> h).
Proof.
  intros Hw. unfold calloc. destruct (ensure_init_ok w h Hw) as [->|(w1 & -> & (S & Hinv & Hh) & _)]; [left; by right|].
  cbn [mbind outcome_bind].
  destruct (sealloc_calloc_ok w1 S (2 ^ 32) (2 ^ 32) Hinv) as [->|(p & w' & S' & -> & Hinv' & Hal & _)]; [lia|lia|
    by vm_compute|left; by left|right].
  change (request_size (u64 (2 ^ 32 * 2 ^ 32))) with 16 in Hal.
  destruct (heap_insert w' S S' h p _ Hinv' Hh Hal) as [_ Hh']. exists p, w'. split; [done|]. split; [apply Hal|by exists S'].
Qed.

Lemma calloc_overflow_witness :
  ∃ p w, @calloc assert_build tracker tracking_kernel (2 ^ 32) (2 ^ 32) sample_world = Ok (p, w) ∧
    @heap_of tracker tracking_kernel tracking_laws w {[p := 16]}.
Proof.
  assert (is_ok (@calloc assert_build tracker tracking_kernel (2 ^ 32) (2 ^ 32) sample_world) = true) as Hok
    by (vm_compute; reflexivity).
  destruct (@calloc_overflow assert_build tracker tracking_kernel tracking_laws sample_world ∅ sample_start)
    as [Hg|(p & w & Hw & _ & Hh)]; [exfalso; exact (not_gives_up _ Hok Hg)|].
  exists p, w. exact (conj Hw Hh).
Defined.

(** C25. malloc never returns NULL: on a kernel that has no memory left (every mmap fails
    with ENOMEM) a huge request makes the allocator call mmap again and again, in every
    state between two calls. *)
Theorem malloc_spins_without_memory `{Build} `{KernelLaws OS} (w : world OS) h size :
  no_memory → heap_of w h → LARGE_SIZE_MAX_REGION < size < 2 ^ 63 → malloc size w = Fail Diverged.
Proof.
  intros Hno (S & [Hinv _] & _) Hs. unfold malloc, ensure_init. rewrite (ai_init _ _ _ _ Hinv).
  rewrite (bind_Ok_l _ w) by done. by apply (sealloc_malloc_refused w S).
Qed.

Lemma malloc_spins_without_memory_witness :
  let w0 := world_static tt (λ _, 0) in
  ∃ w, @arena_init assert_build unit empty_kernel w0 = Ok w ∧
    @malloc assert_build unit empty_kernel 2000000 w = Fail Diverged.
Proof.
  intros w0.
  assert (is_ok (@arena_init assert_build unit empty_kernel w0) = true) as Hok by (vm_compute; reflexivity).
  destruct (@arena_init_ok assert_build unit empty_kernel empty_laws w0 eq_refl) as [Hf|(w & Hw & Hinv & _)];
    [done|rewrite Hf in Hok; discriminate Hok|].
  exists w. split; [exact Hw|].
  apply (@malloc_spins_without_memory assert_build unit empty_kernel empty_laws w ∅ 2000000);
    [by intros os a n f; exists tt| |vm_compute; split; reflexivity].
  apply empty_heap_of. exact Hinv.
Defined.

(** A mapping of length 0 is refused by the assertion of platform_map_probe. *)
Lemma arena_morecore_empty `{Build} `{Kernel OS} pr (w : world OS) :
  asserts_on = true → arena_morecore pr 0 w = Fail AssertFailed.
Proof.
  intros Hon. unfold arena_morecore. apply (while_loop_fail _ 47 1); [|apply Nat.pow_lower_bound; lia].
  rewrite iterate_1. unfold morecore_step, platform_map_probe, c_assert. rewrite Hon. done.
Qed.

Lemma arena_allocate_huge_mapping_empty `{Build} `{KernelLaws OS} (w : world OS) S :
  arena_pend [] None w S → asserts_on = true →
  arena_allocate_huge_mapping 0 w = Fail AssertFailed ∨
  arena_allocate_huge_mapping 0 w = Fail Diverged ∧ arena_internal_alloc SIZEOF_HUGE_CHUNK w = Fail Diverged.
Proof.
  intros Hinv Hon. unfold arena_allocate_huge_mapping. ok_assert by done.
  ok_assert by by rewrite (ai_init _ _ _ _ Hinv).
  destruct (alloc_struct [] None w S SIZEOF_HUGE_CHUNK Hinv) as
    [Hd|(a & w1 & M' & Hal & _ & Ha & _)]; [done|right; by rewrite (bind_Fail_l _ _ _ Hd)|left].
  ok_rw Hal. set (h0 := Huge (LLEntry 0 0 0) 0).
  assert (new_at (w_huges w1) a h0 = Ok (<[a := h0]> (w_huges w1))) as Hnew.
  { unfold new_at. by rewrite (proj2 (Z.eqb_neq a 0)). }
  ok_rw Hnew. by rewrite (bind_Fail_l _ _ _ (arena_morecore_empty HugeProbe (set_huges w1 (<[a := h0]> (w_huges w1))) Hon)).
Qed.

(** Rounding up to pages wraps around to 0. *)
Lemma alignup_page_wraps size : 2 ^ 64 - 4096 < size < 2 ^ 64 → ALIGNUP_PAGE 64 size = 0.
Proof.
  intros Hs. unfold ALIGNUP_PAGE, alignup. change (PAGE_SIZE - 1) with (Z.ones 12).
  assert (wrap 64 (size + Z.ones 12) = Z.land (size + 4095 - 2 ^ 64) (Z.ones 12)) as ->.
  { unfold wrap. change (Z.ones 12) with 4095 at 1. rewrite <- (Z.mod_add _ (-1)) by lia.
    rewrite Z.land_ones by lia. rewrite !Z.mod_small; lia. }
  rewrite <- Z.land_assoc. change (Z.land (Z.ones 12) (wrap 64 (Z.lnot (Z.ones 12)))) with 0. apply Z.land_0_r.
Qed.

(** C29. A request of more than SIZE_MAX - PAGE_SIZE + 1 bytes does not fail with NULL:
    rounding it up to pages wraps around to 0, and once the structure of the mapping is
    allocated the assertion that a mapping is not empty stops the program.  The largest
    request that is rounded without a wrap asks for SIZE_MAX - PAGE_SIZE + 1 bytes. *)
Theorem malloc_size_wraps `{Build} `{KernelLaws OS} (w : world OS) h size :
  heap_of w h → asserts_on = true → 2 ^ 64 - PAGE_SIZE < size < 2 ^ 64 →
  ALIGNUP_PAGE 64 size = 0 ∧ ALIGNUP_PAGE 64 (2 ^ 64 - PAGE_SIZE) = 2 ^ 64 - PAGE_SIZE ∧
  (malloc size w = Fail AssertFailed ∨
   malloc size w = Fail Diverged ∧ arena_internal_alloc SIZEOF_HUGE_CHUNK w = Fail Diverged).
Proof.
  intros (S & [Hinv _] & _) Hon Hs. change PAGE_SIZE with 4096 in *.
  pose proof (alignup_page_wraps size Hs) as Hz.
  split; [done|]. split; [reflexivity|]. unfold malloc, ensure_init. rewrite (ai_init _ _ _ _ Hinv).
  rewrite (bind_Ok_l _ w) by done. unfold sealloc_malloc. rewrite (proj2 (Z.eqb_neq size 0)) by lia.
  assert (IS_SIZE_HUGE size = true) as -> by (unfold IS_SIZE_HUGE; change LARGE_SIZE_MAX_REGION with 1048576; lia).
  unfold allocate_huge. rewrite Hz.
  destruct (arena_allocate_huge_mapping_empty w S Hinv Hon) as [->|[-> Hd]]; [by left|by right].
Qed.

Lemma malloc_size_wraps_witness :
  ∃ w, @arena_init assert_build tracker tracking_kernel sample_world = Ok w ∧
    @malloc assert_build tracker tracking_kernel (2 ^ 64 - 1) w = Fail AssertFailed.
Proof.
  destruct sample_arena_init as (w & Hw & Hinv).
  assert (@heap_of tracker tracking_kernel tracking_laws w ∅) as Hheap.
  { apply empty_heap_of. exact Hinv. }
  assert (is_ok (w ← @arena_init assert_build tracker tracking_kernel sample_world;
                 @arena_internal_alloc assert_build tracker tracking_kernel SIZEOF_HUGE_CHUNK w) = true) as Hok
    by (vm_compute; reflexivity).
  rewrite (bind_Ok_l _ _ _ Hw) in Hok. cbv beta in Hok.
  destruct (@malloc_size_wraps assert_build tracker tracking_kernel tracking_laws w ∅ (2 ^ 64 - 1) Hheap eq_refl)
    as (_ & _ & [Hf|[_ Hd]]); [vm_compute; split; reflexivity|exists w; exact (conj Hw Hf)|].
  rewrite Hd in Hok. discriminate Hok.
Defined.
