(* ===== verification/OneTime.v ===== *)
(** * OneTime: one-time allocation

    The protection against uses after free: memory that has been handed out is not handed
    out again for as long as it stays mapped.  [history] adds to the invariant of the
    arena the set of bytes a client has been given and that have stayed mapped since;
    every one of them lies in a region that a run has issued, or in a huge mapping. *)
From Stdlib Require Import ZArith Lia.
From stdpp Require Import base option numbers functions sorting list gmap.
From S2P Require Import Prelude.
From S2P Require Import CArray.
From S2P Require Import Utils.
From S2P Require Import SizeClass.
From S2P Require Import Random.
From S2P Require Import ContainerLL.
From S2P Require Import Platform.
From S2P Require Import KernelSpec.
From S2P Require Import Run.
From S2P Require Import Bin.
From S2P Require Import InternalAllocator.
From S2P Require Import IntAllocTree.
From S2P Require Import IntAllocProps.
From S2P Require Import Chunk.
From S2P Require Import ChunkTree.
From S2P Require Import ChunkAlloc.
From S2P Require Import ChunkRun.
From S2P Require Import ChunkBuddy.
From S2P Require Import ChunkSpec.
From S2P Require Import World.
From S2P Require Import Arena.
From S2P Require Import ArenaMeta.
From S2P Require Import ArenaInv.
From S2P Require Import ArenaOps.
From S2P Require Import ArenaHuge.
From S2P Require Import ArenaFree.
From S2P Require Import Sealloc.
From S2P Require Import ArenaBins.
From S2P Require Import SeallocInv.
From S2P Require Import SeallocLookup.
From S2P Require Import SeallocFree.
From S2P Require Import SeallocRealloc.
From S2P Require Import MallocApi.
From S2P Require Import HeapSpec.
From S2P Require Import SeallocHeap.
From S2P Require Import SeallocProps.

Section one_time.
Context `{Build} `{KernelLaws OS}.
Implicit Types w : world OS.

(** ** What a client sees of its calls *)

(** The region a call hands out: the pointer and the size asked for. *)
Definition call_region (c : call_t) (ps ps' : list Z) : option (Z * Z) :=
  match c, ps' with
  | CMalloc size, p :: _ => Some (p, size)
  | CCalloc nmemb size, p :: _ => Some (p, nmemb * size)
  | CRealloc i size, p :: _ => if decide (i < length ps)%nat then Some (p, size) else None
  | _, _ => None
  end.

(** The region handed out by each call, and the world after it. *)
Fixpoint client_trace (cs : list call_t) (st : list Z * world OS) : outcome (list (option (Z * Z) * world OS)) :=
  match cs with
  | [] => Ok []
  | c :: cs =>
      st' ← client_step c st;
      t ← client_trace cs st';
      Ok ((call_region c st.1 st'.1, st'.2) :: t)
  end.

Lemma client_trace_run cs st :
  match client_run cs st with
  | Ok _ => ∃ t, client_trace cs st = Ok t ∧ length t = length cs
  | Fail e => client_trace cs st = Fail e
  end.
Proof.
  revert st. induction cs as [|c cs IH]; intros st; cbn [client_run client_trace]; [by exists []|].
  destruct (client_step c st) as [st'|e]; cbn [mbind outcome_bind]; [|done].
  specialize (IH st'). destruct (client_run cs st') as [r|e]; [|by rewrite IH].
  destruct IH as (t & -> & Hl). eexists. split; [done|]. cbn [length]. by rewrite Hl.
Qed.

(** ** The bytes handed out *)
Definition given (r : option (Z * Z)) (x : Z) : Prop := ∃ p n, r = Some (p, n) ∧ range p n x.

Definition covers (S : arena_g) (G : Z → Prop) : Prop := ∀ x, G x → ∃ q m, issued_region S q m ∧ range q m x.

(** [G] are bytes handed out that have stayed mapped. *)
Definition history w (h : gmap Z Z) (G : Z → Prop) : Prop :=
  (∃ S, sealloc_inv w S ∧ live_heap S h ∧ covers S G) ∨
  (w_arena w = arena_static ∧ seed_readable (w_os w) ∧ h = ∅ ∧ ∀ x, ¬ G x).

(** The bytes still to be protected after a call. *)
Definition after (G : Z → Prop) (r : option (Z * Z)) w : Z → Prop :=
  λ x, (G x ∨ given r x) ∧ k_mapped (w_os w) x.

Lemma history_init w h G :
  history w h G → ensure_init w = Fail ErrorExit ∨
  ∃ w' S, ensure_init w = Ok w' ∧ sealloc_inv w' S ∧ live_heap S h ∧ covers S G.
Proof.
  intros [(S & Hinv & Hh & HG)|(Hst & Hseed & -> & HG)]; unfold ensure_init.
  - right. exists w, S. by rewrite (ai_init _ _ _ _ (al_arena _ _ Hinv)).
  - rewrite Hst. cbn [arena_static is_initialized Z.eqb].
    destruct (arena_init_ok w Hst Hseed) as [->|(w' & -> & Hinv & Hm)]; [by left|right].
    exists w', empty_g. split; [done|]. split; [done|]. split; [apply live_heap_empty|]. by intros x ?%HG.
Qed.

Lemma covers_after S S' G w : covers S G → kept_or_gone S S' w → covers S' (after G None w).
Proof.
  intros HG Hk x [[Hx|(p & n & [=] & _)] Hm]. destruct (HG x Hx) as (q & m & Hq & Hr).
  destruct (Hk q m Hq) as [Hq'|Hgone]; [by exists q, m|]. by apply Hgone in Hr.
Qed.

(** A call that hands out a region no byte of which was issued before. *)
Lemma history_new S S' w' h' G p n m :
  sealloc_inv w' S' → live_heap S' h' → covers S G → kept_or_gone S S' w' →
  h' !! p = Some m → n ≤ m → (∀ a k x, issued_region S a k → range a k x → ¬ range p m x) →
  (∀ x, given (Some (p, n)) x → ¬ G x) ∧ history w' h' (after G (Some (p, n)) w').
Proof.
  intros Hinv Hh HG Hk Hp Hn Hfr. split.
  - intros x (p' & n' & [= <- <-] & Hx) (a & k & Ha & Hr)%HG. apply (Hfr a k x Ha Hr). unfold range in *. lia.
  - left. exists S'. split; [done|]. split; [done|]. intros x [[Hx|(p' & n' & [= <- <-] & Hx)] Hm].
    + apply (covers_after S S' G w' HG Hk). split; [by left|done].
    + exists p, m. split; [by apply live_issued, Hh|]. unfold range in *. lia.
Qed.

(** The client holds the entries of the heap, and what it was given is recorded. *)
Definition remembers (ps : list Z) w (G : Z → Prop) : Prop := ∃ h, history w h G ∧ holds ps h.

Lemma remembers_new S S' w' h G ps p n m :
  sealloc_inv w' S' → live_heap S h → covers S G → holds ps h → allocated S S' p m → n ≤ m →
  (∀ x, given (Some (p, n)) x → ¬ G x) ∧ remembers (p :: ps) w' (after G (Some (p, n)) w').
Proof.
  intros Hinv Hh HG Hps Hal Hn. destruct (heap_insert w' S S' h p m Hinv Hh Hal) as [Hp Hh'].
  destruct (history_new S S' w' (<[p := m]> h) G p n m) as [Hnew Hist]; try done.
  - intros q k Hq. left. eapply grown_issued; [apply Hal|done].
  - apply lookup_insert_eq.
  - intros a k x. by eapply issued_apart.
  - split; [done|]. exists (<[p := m]> h). split; [done|by apply holds_insert].
Qed.

Lemma remembers_same ps w G : remembers ps w G → remembers ps w (after G None w).
Proof.
  intros (h & [(S & Hinv & Hh & HG)|(Hst & Hseed & Hh & HG)] & Hps); exists h; (split; [|done]).
  - left. exists S. split; [done|]. split; [done|]. apply (covers_after S S); [done|]. intros q m Hq. by left.
  - right. split; [done|]. split; [done|]. split; [done|]. intros x [[Hx|(p & n & [=] & _)] _]. by eapply HG.
Qed.

Lemma held_live S ps h i p :
  live_heap S h → holds ps h → ps !! i = Some p → ∃ n, h !! p = Some n ∧ live_region S p n.
Proof.
  intros Hh [_ Hps] Hi. destruct (proj1 (Hps p)) as [n Hn]; [by eapply list_elem_of_lookup_2|].
  exists n. split; [done|by apply Hh].
Qed.

(** One call hands out nothing that is remembered. *)
Definition call_fresh c ps w (G : Z → Prop) : Prop :=
  ∀ ps' w', client_step c (ps, w) = Ok (ps', w') →
  let r := call_region c ps ps' in (∀ x, given r x → ¬ G x) ∧ remembers ps' w' (after G r w').

Lemma malloc_fresh_call ps w G size : remembers ps w G → 0 ≤ size < 2 ^ 62 → call_fresh (CMalloc size) ps w G.
Proof.
  intros (h & Hist & Hps) Hs ps' w'. cbn [client_step sealloc_allocator ha_malloc]. unfold malloc.
  destruct (history_init w h G Hist) as [->|(w1 & S & -> & Hinv & Hh & HG)]; [done|]. cbn [mbind outcome_bind].
  destruct (sealloc_malloc_ok w1 S size Hinv ltac:(lia)) as [->|(p & w2 & S' & -> & Hinv' & _ & Hal)]; [done|].
  intros [= <- <-]. eapply remembers_new; try done. apply request_size_ge. lia.
Qed.

Lemma calloc_fresh_call ps w G nmemb size :
  remembers ps w G → 0 < nmemb → 0 < size → nmemb * size < 2 ^ 62 → call_fresh (CCalloc nmemb size) ps w G.
Proof.
  intros (h & Hist & Hps) Hn Hs Ht ps' w'. cbn [client_step sealloc_allocator ha_calloc]. unfold calloc.
  destruct (history_init w h G Hist) as [->|(w1 & S & -> & Hinv & Hh & HG)]; [done|]. cbn [mbind outcome_bind].
  pose proof (sealloc_calloc_ok w1 S nmemb size Hinv Hn Hs) as Hc. cbv zeta in Hc.
  rewrite (wrap_small 64 (nmemb * size)) in Hc by nia.
  destruct (Hc ltac:(lia)) as [->|(p & w2 & S' & -> & Hinv' & Hal & _)]; [done|].
  intros [= <- <-]. eapply remembers_new; try done. apply request_size_ge. nia.
Qed.

Lemma realloc_fresh_call ps w G i size : remembers ps w G → 0 < size < 2 ^ 62 → call_fresh (CRealloc i size) ps w G.
Proof.
  intros Hrem Hs ps' w'. cbn [client_step]. destruct (ps !! i) as [p|] eqn:Hi.
  - destruct Hrem as (h & Hist & Hps). cbn [sealloc_allocator ha_realloc]. unfold realloc.
    destruct (history_init w h G Hist) as [->|(w1 & S & -> & Hinv & Hh & HG)]; [done|]. cbn [mbind outcome_bind].
    destruct (held_live S ps h i p Hh Hps Hi) as (n & Hp & Hlive).
    destruct (sealloc_realloc_live w1 S p n size Hinv Hlive Hs) as [->|[[-> _]|(q & w2 & S' & -> & Hinv' & Hre)]]; [done..|].
    intros [= <- <-]. cbn [call_region]. rewrite decide_True by (by eapply lookup_lt_Some).
    destruct (heap_move w1 w2 S S' h p n q _ _ Hh Hp Hre) as [Hq Hh'].
    edestruct (history_new S S' w2 _ G q size (realloc_size n size) Hinv' Hh' HG) as [Hnew Hist'];
      [apply Hre|apply lookup_insert_eq|apply realloc_size_ge; lia|apply Hre|].
    split; [done|]. eexists. split; [exact Hist'|]. apply holds_insert; [by apply holds_delete|].
    apply lookup_delete_None. by right.
  - intros [= <- <-]. assert (call_region (CRealloc i size) ps ps = None) as ->.
    { apply lookup_ge_None_1 in Hi. destruct ps; cbn [call_region]; [done|]. by rewrite decide_False by lia. }
    split; [by intros x (p & n & [=] & _)|by apply remembers_same].
Qed.

Lemma free_fresh_call ps w G i : remembers ps w G → call_fresh (CFree i) ps w G.
Proof.
  intros Hrem ps' w'. cbn [client_step]. destruct (ps !! i) as [p|] eqn:Hi.
  - destruct Hrem as (h & [(S & Hinv & Hh & HG)|(_ & _ & -> & _)] & Hps).
    2: { destruct (proj1 (proj2 Hps p)) as [n Hn]; [by eapply list_elem_of_lookup_2|by rewrite lookup_empty in Hn]. }
    destruct (held_live S ps h i p Hh Hps Hi) as (n & Hp & Hlive). cbn [sealloc_allocator ha_free]. unfold free.
    destruct (sealloc_free_live w S p n Hinv Hlive) as [[-> _]|(w2 & S' & -> & Hinv' & _ & Hre & Hkg)]; [done|].
    intros [= <- <-]. cbn [call_region]. split; [by intros x (q & m & [=] & _)|].
    exists (delete p h). split; [|by apply holds_delete]. left. exists S'. split; [done|].
    split; [by eapply heap_delete|by eapply covers_after].
  - intros [= <- <-]. split; [by intros x (q & m & [=] & _)|by apply remembers_same].
Qed.

Lemma client_step_fresh c ps w G : remembers ps w G → call_ok c → call_fresh c ps w G.
Proof.
  destruct c as [size|nmemb size|i size|i]; intros Hr Hc; cbn [call_ok] in Hc.
  - by apply malloc_fresh_call.
  - destruct Hc as (Hn & Hs & Ht). by apply calloc_fresh_call.
  - by apply realloc_fresh_call.
  - by apply free_fresh_call.
Qed.

(** ** Traces *)

(** The byte stays mapped over the states [i] to [j - 1] of the trace. *)
Definition stays_mapped (t : list (option (Z * Z) * world OS)) (i j : nat) (x : Z) : Prop :=
  ∀ k r w, (i ≤ k < j)%nat → t !! k = Some (r, w) → k_mapped (w_os w) x.

Lemma stays_mapped_cons e t i j x : stays_mapped (e :: t) (S i) (S j) x → stays_mapped t i j x.
Proof. intros Hm k r w Hk Ht. apply (Hm (S k) r w); [lia|done]. Qed.

(** Bytes that are remembered are not handed out while they stay mapped, and neither is
    anything handed out on the way. *)
Lemma client_trace_fresh cs : Forall call_ok cs → ∀ ps w G t,
  remembers ps w G → client_trace cs (ps, w) = Ok t →
  (∀ j r w' x, t !! j = Some (r, w') → G x → stays_mapped t 0 j x → ¬ given r x) ∧
  (∀ i j r w1 r' w2 x, (i < j)%nat → t !! i = Some (r, w1) → t !! j = Some (r', w2) → given r x →
     stays_mapped t i j x → ¬ given r' x).
Proof.
  induction 1 as [|c cs Hc _ IH]; intros ps w G t Hrem; cbn [client_trace]; [by intros [= <-]|].
  destruct (client_step c (ps, w)) as [[ps1 w1]|e] eqn:Hstep; [|done]. cbn [mbind outcome_bind fst snd].
  destruct (client_trace cs (ps1, w1)) as [t1|e] eqn:Ht; [|done]. intros [= <-].
  destruct (client_step_fresh c ps w G Hrem Hc ps1 w1 Hstep) as [Hfr Hrem1].
  destruct (IH ps1 w1 _ t1 Hrem1 Ht) as [IH1 IH2]. set (r0 := call_region c ps ps1) in *.
  assert (∀ j r w' x, G x ∨ given r0 x → t1 !! j = Some (r, w') → stays_mapped ((r0, w1) :: t1) 0 (S j) x →
    ¬ given r x) as Hlater.
  { intros j r w' x Hx Hj Hm. apply (IH1 j r w' x Hj).
    - split; [done|]. apply (Hm 0%nat r0 w1); [lia|done].
    - apply (stays_mapped_cons (r0, w1)). intros k r1 w2 Hk. apply Hm. lia. }
  split.
  - intros [|j] r w' x Hj HG Hm; cbn in Hj; [|by apply (Hlater j r w' x); [left|..]].
    injection Hj as <- <-. intros Hr. by apply (Hfr x).
  - intros [|i] [|j] r w2 r' w3 x Hij Hi Hj Hx Hm; [lia| |lia|]; cbn in Hi, Hj.
    + injection Hi as <- <-. by apply (Hlater j r' w3 x); [right|..].
    + apply (IH2 i j r w2 r' w3 x); [lia|done|done|done|]. by eapply stays_mapped_cons.
Qed.

(** C2. One-time allocation.  For any sequence of malloc, calloc, realloc and free calls
    that gives back only pointers it holds, a byte of a region that one call handed out is
    not in the region any later call hands out, for as long as the byte has stayed mapped:
    a pointer kept after its region was freed never reaches the data of a later
    allocation, unless the allocator has returned that memory to the kernel in between.
    The allocator gives up only by exiting or by asking the kernel for memory forever. *)
Theorem one_time_allocation (os : OS) mem cs :
  seed_readable os → Forall call_ok cs →
  gives_up (client_trace cs ([], world_static os mem)) ∨
  ∃ t, client_trace cs ([], world_static os mem) = Ok t ∧ length t = length cs ∧
    ∀ i j p n w1 q m w2 x, (i < j)%nat → t !! i = Some (Some (p, n), w1) → t !! j = Some (Some (q, m), w2) →
      range p n x → stays_mapped t i j x → ¬ range q m x.
Proof.
  intros Hseed Hcs. set (w0 := world_static os mem).
  assert (holds [] ∅) as Hps.
  { split; [constructor|]. intros p. rewrite lookup_empty, elem_of_nil. split; [done|by intros []]. }
  assert (ha_heap w0 ∅) as Hw0 by by right.
  pose proof (client_trace_run cs ([], w0)) as Hrun.
  destruct (client_run_ok cs Hcs [] w0 ∅ Hw0 Hps) as [Hg|(ps & w & h & Hok & _)].
  { left. by destruct Hg as [Hg|Hg]; rewrite Hg in Hrun; [left|right]. }
  right. rewrite Hok in Hrun. destruct Hrun as (t & Ht & Hl). exists t. split; [done|]. split; [done|].
  destruct (client_trace_fresh cs Hcs [] w0 (λ _, False) t) as [_ Hfr]; [|done|].
  { exists ∅. split; [|done]. right. split; [done|]. split; [done|]. split; [done|by intros x []]. }
  intros i j p n w1 q m w2 x Hij Hi Hj Hx Hm Hr.
  by apply (Hfr i j _ w1 _ w2 x Hij Hi Hj); [exists p, n| |exists q, m].
Qed.
End one_time.

Lemma one_time_allocation_witness :
  let cs := [CMalloc 100; CFree 0; CMalloc 100; CMalloc 2000000; CFree 0; CMalloc 2000000; CRealloc 1 50] in
  ∃ t, @client_trace assert_build tracker tracking_kernel tracking_laws cs ([], sample_world) = Ok t ∧
    t.*1 = [Some (2111762816, 100); None; Some (2121276176, 100); Some (33213340426240, 2000000); None;
            Some (33213342433280, 2000000); Some (2094543040, 50)] ∧
    ∀ i j p n w1 q m w2 x, (i < j)%nat → t !! i = Some (Some (p, n), w1) → t !! j = Some (Some (q, m), w2) →
      range p n x → @stays_mapped tracker tracking_kernel tracking_laws t i j x → ¬ range q m x.
Proof.
  intros cs. assert (Forall call_ok cs) as Hcs by (repeat constructor; vm_compute; intuition discriminate).
  pose (st := ([] : list Z, sample_world)).
  assert (match @client_trace assert_build tracker tracking_kernel tracking_laws cs st with
          | Ok t => t.*1 | Fail _ => [] end =
          [Some (2111762816, 100); None; Some (2121276176, 100); Some (33213340426240, 2000000); None;
            Some (33213342433280, 2000000); Some (2094543040, 50)]) as Hb by (vm_compute; reflexivity).
  destruct (@one_time_allocation assert_build tracker tracking_kernel tracking_laws (Tracker [] []) (λ _, 7) cs
              sample_seed Hcs) as [Hg|(t & Ht & _ & Hone)].
  - exfalso. fold sample_world in Hg. fold st in Hg. destruct Hg as [Hg|Hg]; rewrite Hg in Hb; discriminate Hb.
  - fold sample_world in Ht. fold st in Ht. rewrite Ht in Hb. exists t. split; [exact Ht|]. split; [exact Hb|exact Hone].
Defined.
