(* ===== verification/TaggedProps.v ===== *)
(** * TaggedProps: the build with memory tagging

    The property of the whole allocator of a build with memory tagging switched on: for
    any client it does what the build without tags does, no access of the allocator faults,
    and the memory of every region has the tag of the pointer to it. *)
From Stdlib Require Import ZArith Lia.
From stdpp Require Import base option numbers functions sorting list gmap.
From S2P Require Import Prelude.
From S2P Require Import CArray.
From S2P Require Import Utils.
From S2P Require Import SizeClass.
From S2P Require Import Random.
From S2P Require Import ContainerLL.
From S2P Require Import Platform.
From S2P Require Import KernelSpec.
From S2P Require Import Run.
From S2P Require Import Bin.
From S2P Require Import Tagging.
From S2P Require Import InternalAllocator.
From S2P Require Import IntAllocTree.
From S2P Require Import IntAllocProps.
From S2P Require Import Chunk.
From S2P Require Import ChunkTree.
From S2P Require Import ChunkAlloc.
From S2P Require Import ChunkRun.
From S2P Require Import ChunkBuddy.
From S2P Require Import ChunkSpec.
From S2P Require Import World.
From S2P Require Import Arena.
From S2P Require Import ArenaMeta.
From S2P Require Import ArenaInv.
From S2P Require Import ArenaOps.
From S2P Require Import ArenaHuge.
From S2P Require Import ArenaFree.
From S2P Require Import Sealloc.
From S2P Require Import ArenaBins.
From S2P Require Import SeallocInv.
From S2P Require Import SeallocLookup.
From S2P Require Import SeallocFree.
From S2P Require Import SeallocRealloc.
From S2P Require Import MallocApi.
From S2P Require Import HeapSpec.
From S2P Require Import SeallocHeap.
From S2P Require Import TaggedSealloc.
From S2P Require Import SeallocProps.

(** C6. A client that holds the tagged pointers a build with memory tagging gave it, and
    gives back only those, observes what it would observe in a build without tags: the
    two runs stop in the same way (only by exiting or by asking for memory forever), or
    end in the same world, memory included, with the same pointers once the tags are
    cleared.  The memset of calloc and the memcpys of realloc are checked against the
    tags of the memory and never fault.  When all calls return, the tag of every byte of
    every region is that of the pointer the client holds to it, so no access to a region
    in use faults: not 0 for a region of a run, 0 for a huge mapping.  (Requests are
    shorter than 2^62 bytes, those of calloc and realloc not empty; new pages are assumed
    to come with the tag 0, as the kernel documents.) *)
Theorem tagged_client_refines `{Build} `{KernelLaws OS} `{TagPagesLaws T} (os : OS) mem (t : T) cs :
  seed_readable os → Forall call_ok cs →
  let w0 := world_static os mem in
  (∃ e, client_run cs ([], w0) = Fail e ∧ client_run_tagged cs ([], w0, t) = Fail e ∧
        (e = Diverged ∨ e = ErrorExit)) ∨
  ∃ qs w t' h, client_run cs ([], w0) = Ok (PTR_CLEAR_TAG <$> qs, w) ∧
    client_run_tagged cs ([], w0, t) = Ok (qs, w, t') ∧ holds (PTR_CLEAR_TAG <$> qs) h ∧
    (∀ p n p' n', h !! p = Some n → h !! p' = Some n' → p ≠ p' → apart (p, n) (p', n')) ∧
    ∀ q n, q ∈ qs → h !! PTR_CLEAR_TAG q = Some n →
      (if LARGE_SIZE_MAX_REGION <? n then ptr_tag q = 0 else ptr_tag q ≠ 0) ∧
      ∀ x, range (PTR_CLEAR_TAG q) n x → accessible t' q x.
Proof.
  intros Hseed Hcs w0. pose proof (client_run_tagged_ok cs Hcs [] w0 ∅ t (tagged_held_nil os mem t Hseed)) as Hrun.
  unfold steps_alike in Hrun. change (PTR_CLEAR_TAG <$> []) with (@nil Z) in Hrun.
  destruct (client_run cs ([], w0)) as [[ps w]|e]; [right|left; by exists e].
  destruct Hrun as (qs & t' & Hok & <- & h & [Hheap Hhold Htags]). exists qs, w, t', h.
  split; [done|]. split; [done|]. split; [done|]. split.
  - intros p n p' n' Hp. by apply (heap_apart w h); [eapply api_heap_running|].
  - intros q n Hq Hn. by destruct (Htags q n Hq Hn).
Qed.

Lemma tagged_client_refines_witness :
  let cs := [CMalloc 100; CMalloc 2000000; CCalloc 3 7; CRealloc 1 50; CMalloc 112; CFree 1; CRealloc 0 20] in
  let run := @client_run _ (@sealloc_allocator assert_build tracker tracking_kernel tracking_laws) cs ([], sample_world) in
  let run' := @client_run_tagged assert_build tracker tracking_kernel (gmap Z Z) soft_tags soft_pages cs ([], sample_world, ∅) in
  ∃ qs w t' h, run = Ok (PTR_CLEAR_TAG <$> qs, w) ∧ run' = Ok (qs, w, t') ∧ holds (PTR_CLEAR_TAG <$> qs) h ∧
    (∀ p n p' n', h !! p = Some n → h !! p' = Some n' → p ≠ p' → apart (p, n) (p', n')) ∧
    ∀ q n, q ∈ qs → h !! PTR_CLEAR_TAG q = Some n →
      (if LARGE_SIZE_MAX_REGION <? n then ptr_tag q = 0 else ptr_tag q ≠ 0) ∧
      ∀ x, range (PTR_CLEAR_TAG q) n x → @accessible (gmap Z Z) soft_tags soft_laws t' q x.
Proof.
  intros cs run run'. assert (Forall call_ok cs) as Hcs by (repeat constructor; vm_compute; intuition discriminate).
  assert (is_ok run = true) as Hok by (vm_compute; reflexivity).
  destruct (@tagged_client_refines assert_build tracker tracking_kernel tracking_laws (gmap Z Z) soft_tags soft_laws
    soft_pages soft_pages_laws (Tracker [] []) (λ _, 7) ∅ cs sample_seed Hcs) as [(e & Hf & _)|Hr]; [exfalso|exact Hr].
  pose proof (eq_trans (eq_sym (f_equal is_ok Hf)) Hok) as Hx. discriminate Hx.
Defined.
